(** * Autofill extension: question scanning, answer resolution, pattern
      learning and fill execution

    A shallow embedding of the TypeScript sources

    - [extension/src/content/scanner/formScanner.ts]
      (classes [FormScanner] and [QuestionMapper]),
    - [extension/src/core/storage/patternStorage.ts] (class [PatternStorage]),
    - [extension/src/content/autofillRunner.ts] (function [runAutofill]),
    - the dropdown scanner ([extractDropdownOptions] and what it calls)
      and the profile storage ([loadProfile], [hasCompleteProfile]),

    followed by the properties of the design document that concern them.

    Conventions of the embedding.

    - JavaScript strings are [string]s of ASCII characters; [toLowerCase]
      folds [A-Z], white space is the ASCII white space of [\s].
    - [async] functions are run to completion in program order; the
      requests of [Promise.all] are indexed by their position in the batch.
    - [chrome.storage.local] can fail: each [get] and [set] is a call of
      the storage, and the environment says which calls are rejected.  A
      rejected [get] takes the [catch] branch of [getLocalPatterns], which
      returns the empty array; a rejected [set] takes the [catch] branch
      of [saveLocalPatterns], which stores nothing.  The stored array,
      the clock, the random generator and the number of storage calls
      made so far are the [World] threaded through the code.
    - A [throw] that escapes a function is the outcome [Throws]; a
      [try/catch] turns it back into a value.  Values have the types the
      TypeScript declarations give them, so a method call on a value of
      another type is not a source of errors; a lookup of a computed key
      in an object literal sees the members inherited from
      [Object.prototype].
    - The profile is the stored data.  Where [getValueFromProfile] walks
      out of it, into a member that the engine provides (the [constructor]
      of an object, the [length] of a string), the environment says what
      the rest of the walk yields, a value or an error.
    - Numbers that the code only compares or passes on (confidences) are
      rationals. *)

From Stdlib Require Import String Ascii List Bool Arith Lia QArith.
From stdpp Require Import gmap strings.
Import ListNotations.

Local Open Scope string_scope.
Local Open Scope list_scope.

(** ** JavaScript string primitives *)

Module Js.

(** The members of the white-space class [\s] among ASCII characters:
    TAB, LF, VT, FF, CR and SPACE. *)
Definition isSpace (c : ascii) : bool :=
  let n := nat_of_ascii c in
  (Nat.leb 9 n && Nat.leb n 13) || Nat.eqb n 32.

Definition lowerChar (c : ascii) : ascii :=
  let n := nat_of_ascii c in
  if Nat.leb 65 n && Nat.leb n 90 then ascii_of_nat (n + 32) else c.

(** [String.prototype.toLowerCase] *)
Fixpoint toLowerCase (s : string) : string :=
  match s with
  | EmptyString => EmptyString
  | String c r => String (lowerChar c) (toLowerCase r)
  end.

Fixpoint trimStart (s : string) : string :=
  match s with
  | EmptyString => EmptyString
  | String c r => if isSpace c then trimStart r else s
  end.

Fixpoint trimEnd (s : string) : string :=
  match s with
  | EmptyString => EmptyString
  | String c r =>
      match trimEnd r with
      | EmptyString => if isSpace c then EmptyString else String c EmptyString
      | r' => String c r'
      end
  end.

(** [String.prototype.trim] *)
Definition trim (s : string) : string := trimEnd (trimStart s).

(** [String.prototype.startsWith] *)
Definition startsWith (s p : string) : bool := String.prefix p s.

(** [String.prototype.includes] *)
Fixpoint includes (s sub : string) : bool :=
  String.prefix sub s ||
  match s with
  | EmptyString => false
  | String _ r => includes r sub
  end.

(** A string is truthy when it is not empty. *)
Definition truthy (s : string) : bool := negb (s =? "").

(** [a || b] on strings *)
Definition orElse (a b : string) : string := if truthy a then a else b.

(** [s.split(/\s+/)]: the pieces between maximal runs of white space; a
    run at either end leaves an empty piece there, and the empty string
    splits into one empty piece. *)
Fixpoint splitWsFrom (cur : string) (inRun : bool) (s : string) : list string :=
  match s with
  | EmptyString => [cur]
  | String c r =>
      if isSpace c then
        if inRun then splitWsFrom cur true r
        else cur :: splitWsFrom EmptyString true r
      else splitWsFrom (cur +:+ String c EmptyString) false r
  end.

Definition splitWs (s : string) : list string := splitWsFrom EmptyString false s.

(** [s.split(sep)] for a one-character separator *)
Fixpoint splitOnFrom (sep : ascii) (cur : string) (s : string) : list string :=
  match s with
  | EmptyString => [cur]
  | String c r =>
      if Ascii.eqb c sep then cur :: splitOnFrom sep EmptyString r
      else splitOnFrom sep (cur +:+ String c EmptyString) r
  end.

Definition splitOn (sep : ascii) (s : string) : list string :=
  splitOnFrom sep EmptyString s.

(** [s.replace(/[...]/g, '')]: drop every character of a class *)
Fixpoint removeChars (drop : ascii -> bool) (s : string) : string :=
  match s with
  | EmptyString => EmptyString
  | String c r =>
      if drop c then removeChars drop r else String c (removeChars drop r)
  end.

(** [Array.prototype.includes] on strings *)
Definition member (x : string) (l : list string) : bool :=
  existsb (String.eqb x) l.

(** [const m = l.find(p); if (m) ...] on an array of strings: the first
    element that satisfies [p], provided it is truthy.  When that
    element is the empty string the test fails although [p] held. *)
Definition findTruthy (p : string -> bool) (l : list string) : option string :=
  match find p l with
  | Some m => if truthy m then Some m else None
  | None => None
  end.

(** [const x = l.find(p); if (x) { mutate x }] on an array of objects:
    the first element satisfying [p] is updated in place. *)
Fixpoint updateFirst {A} (p : A -> bool) (f : A -> A) (l : list A) : list A :=
  match l with
  | [] => []
  | x :: r => if p x then f x :: r else x :: updateFirst p f r
  end.

(** Outcome of a call that may throw. *)
Inductive Outcome (A : Type) : Type :=
| Throws : string -> Outcome A
| Returns : A -> Outcome A.
Arguments Throws {A} _.
Arguments Returns {A} _.

Definition threw {A} (o : Outcome A) : bool :=
  match o with Throws _ => true | Returns _ => false end.

(** Property lookup [table[key]] on an object literal.  Besides the
    literal's own keys, the lookup finds what every object inherits from
    [Object.prototype]; those values are functions (or, for [__proto__],
    the prototype itself): truthy, and not iterable. *)
Inductive Lookup (A : Type) : Type :=
| Own : A -> Lookup A
| Inherited : Lookup A
| Missing : Lookup A.
Arguments Own {A} _.
Arguments Inherited {A}.
Arguments Missing {A}.

Definition objectPrototypeKeys : list string :=
  [ "constructor"; "__proto__"; "hasOwnProperty"; "isPrototypeOf";
    "propertyIsEnumerable"; "toLocaleString"; "toString"; "valueOf";
    "__defineGetter__"; "__defineSetter__";
    "__lookupGetter__"; "__lookupSetter__" ].

Fixpoint assoc {A} (k : string) (table : list (string * A)) : option A :=
  match table with
  | [] => None
  | (k', v) :: r => if String.eqb k k' then Some v else assoc k r
  end.

Definition lookup {A} (table : list (string * A)) (k : string) : Lookup A :=
  match assoc k table with
  | Some v => Own v
  | None => if member k objectPrototypeKeys then Inherited else Missing
  end.


(** *** More string primitives, and the vocabulary of their properties *)

(** [s.replace(/\s+/g, ' ')]: every maximal run of white space becomes
    one space. *)
Fixpoint collapseWsFrom (inRun : bool) (s : string) : string :=
  match s with
  | EmptyString => EmptyString
  | String c r =>
      if isSpace c then
        if inRun then collapseWsFrom true r
        else String " " (collapseWsFrom true r)
      else String c (collapseWsFrom false r)
  end.

Definition collapseWs (s : string) : string := collapseWsFrom false s.

(** The line feed of ['\n']. *)
Definition newline : ascii := "010"%char.

(** [s.split('\n')[0]] *)
Definition firstLine (s : string) : string := hd "" (splitOn newline s).

(** [s.replace(/x/g, 'y')] for two characters *)
Fixpoint replaceChar (x y : ascii) (s : string) : string :=
  match s with
  | EmptyString => EmptyString
  | String c r =>
      String (if Ascii.eqb c x then y else c) (replaceChar x y r)
  end.

Definition isUpper (c : ascii) : bool :=
  let n := nat_of_ascii c in Nat.leb 65 n && Nat.leb n 90.

(** [s.replace(/([A-Z])/g, ' $1')] *)
Fixpoint spaceBeforeUpper (s : string) : string :=
  match s with
  | EmptyString => EmptyString
  | String c r =>
      if isUpper c then String " " (String c (spaceBeforeUpper r))
      else String c (spaceBeforeUpper r)
  end.

(** Every character of the string passes the test. *)
Fixpoint everyChar (p : ascii -> bool) (s : string) : bool :=
  match s with
  | EmptyString => true
  | String c r => p c && everyChar p r
  end.

(** The string begins, or ends, with a white-space character. *)
Definition startsSpace (s : string) : bool :=
  match s with
  | EmptyString => false
  | String c _ => isSpace c
  end.

Fixpoint endsSpace (s : string) : bool :=
  match s with
  | EmptyString => false
  | String c EmptyString => isSpace c
  | String _ r => endsSpace r
  end.

(** White space occurs in the string only as single spaces: what
    [collapseWs] leaves unchanged. *)
Fixpoint singleSpacedFrom (inRun : bool) (s : string) : bool :=
  match s with
  | EmptyString => true
  | String c r =>
      if isSpace c then negb inRun && Ascii.eqb c " " && singleSpacedFrom true r
      else singleSpacedFrom false r
  end.

Definition singleSpaced (s : string) : bool := singleSpacedFrom false s.
End Js.

(** ** FormScanner *)

Module Scanner.
Import Js.

(** An element with its attributes and its subtree.  Tag and attribute
    names are the lower-case names of an HTML document. *)
#[warnings="-register-all"]
Inductive Node : Type :=
| Elem (tag : string) (attrs : list (string * string)) (children : list Node).

Definition tag (n : Node) : string := match n with Elem t _ _ => t end.
Definition attrs (n : Node) : list (string * string) :=
  match n with Elem _ a _ => a end.
Definition children (n : Node) : list Node :=
  match n with Elem _ _ c => c end.

(** An element of the page: the node and the chain of its ancestors,
    nearest first. *)
Record Element := mkElement {
  self : Node;
  ancestors : list Node
}.

(** [element.getAttribute(name)] *)
Definition getAttribute (n : Node) (name : string) : option string :=
  assoc name (attrs n).

Definition attrIs (n : Node) (name value : string) : bool :=
  match getAttribute n name with
  | Some v => String.eqb v value
  | None => false
  end.

(** The selectors of [detectFieldType]. *)
Definition selRoleCombobox (n : Node) : bool := attrIs n "role" "combobox".
Definition selInputRoleCombobox (n : Node) : bool :=
  String.eqb (tag n) "input" && attrIs n "role" "combobox".
Definition selSelect (n : Node) : bool := String.eqb (tag n) "select".

(** [element.closest(sel)]: the element itself or its nearest matching
    ancestor. *)
Definition closest (sel : Node -> bool) (e : Element) : option Node :=
  find sel (self e :: ancestors e).

(** [element.querySelector(sel)]: the first matching descendant in
    document order; the element itself is not a candidate. *)
Fixpoint querySelector (sel : Node -> bool) (n : Node) : option Node :=
  match n with
  | Elem _ _ cs =>
      (fix first (l : list Node) : option Node :=
         match l with
         | [] => None
         | c :: r =>
             if sel c then Some c
             else match querySelector sel c with
                  | Some d => Some d
                  | None => first r
                  end
         end) cs
  end.

Definition isSome {A} (o : option A) : bool :=
  match o with Some _ => true | None => false end.

(** The states of the [type] attribute that [HTMLInputElement.type]
    reflects; any other value, or none, reads as ["text"]. *)
Definition inputTypes : list string :=
  [ "hidden"; "text"; "search"; "tel"; "url"; "email"; "password"; "date";
    "month"; "week"; "time"; "datetime-local"; "number"; "range"; "color";
    "checkbox"; "radio"; "file"; "submit"; "image"; "reset"; "button" ].

Definition inputType (n : Node) : string :=
  match getAttribute n "type" with
  | Some t => let t' := toLowerCase t in
              if member t' inputTypes then t' else "text"
  | None => "text"
  end.

(** [FormScanner.detectFieldType] *)
Definition detectFieldType (element : Element) : string :=
  let el := self element in
  if attrIs el "role" "combobox"
     || attrIs el "aria-haspopup" "listbox"
     || isSome (closest selRoleCombobox element)
     || isSome (querySelector selRoleCombobox el)
     || isSome (querySelector selInputRoleCombobox el)
  then "dropdown_custom"
  else if String.eqb (tag el) "select" then "select"
  else if isSome (querySelector selSelect el) then "select"
  else if String.eqb (tag el) "textarea" then "textarea"
  else if String.eqb (tag el) "input" then
    let type := toLowerCase (inputType el) in
    if String.eqb type "email" then "email"
    else if String.eqb type "tel" then "tel"
    else if String.eqb type "number" then "number"
    else if String.eqb type "date" then "date"
    else if String.eqb type "file" then "file"
    else if String.eqb type "radio" then "radio"
    else if String.eqb type "checkbox" then "checkbox"
    else "text"
  else "text".

(** [d] lies strictly below [n] in the document tree. *)
Inductive Descendant : Node -> Node -> Prop :=
| Descendant_child d n : In d (children n) -> Descendant d n
| Descendant_deeper d c n :
    In c (children n) -> Descendant d c -> Descendant d n.

(** The custom-dropdown signals on a node. *)
Definition hasRoleCombobox (n : Node) : Prop :=
  getAttribute n "role" = Some "combobox".
Definition hasPopupListbox (n : Node) : Prop :=
  getAttribute n "aria-haspopup" = Some "listbox".
Definition hasDropdownSignal (n : Node) : Prop :=
  hasRoleCombobox n \/ hasPopupListbox n.

(** An element carries a signal directly, through an enclosing ancestor
    or through a descendant. *)
Definition carriesDropdownSignal (e : Element) : Prop :=
  hasDropdownSignal (self e)
  \/ (exists a, In a (ancestors e) /\ hasDropdownSignal a)
  \/ (exists d, Descendant d (self e) /\ hasDropdownSignal d).

Record ScannedQuestion := mkQuestion {
  questionText : string;
  fieldType : string;
  options : option (list string);
  required : bool;
  selector : string
}.

(** The key of the deduplication: [q.questionText.toLowerCase().trim()] *)
Definition dedupKey (q : ScannedQuestion) : string :=
  trim (toLowerCase (questionText q)).

(** The [filter] of [deduplicateQuestions], with the closure's [seen]
    set as an accumulator. *)
Fixpoint dedupFrom (seen : gset string) (questions : list ScannedQuestion)
  : list ScannedQuestion :=
  match questions with
  | [] => []
  | q :: rest =>
      let key := dedupKey q in
      if decide (key ∈ seen) then dedupFrom seen rest
      else q :: dedupFrom ({[ key ]} ∪ seen) rest
  end.

(** [FormScanner.deduplicateQuestions] *)
Definition deduplicateQuestions (questions : list ScannedQuestion)
  : list ScannedQuestion :=
  dedupFrom ∅ questions.

Section Scan.
(** The page as [scan] sees it.  [findAllFormFields] enumerates the
    visible controls, or throws.  For a control, [getQuestionText] runs
    the cascade of label look-ups through the document, [isRequired]
    reads the required marks, [generateSelector] builds the locator, and
    [extractDropdownOptions] opens the dropdown and reads its options, or
    throws. *)
Variable findAllFormFields : Outcome (list Element).
Variable getQuestionText : Element -> string.
Variable isRequired : Element -> bool.
Variable generateSelector : Element -> string.
Variable extractDropdownOptions : Element -> Outcome (list string).

(** [FormScanner.processField]: [null] for a field without question
    text, and when the [try] block catches an error. *)
Definition processField (field : Element) : option ScannedQuestion :=
  let fieldType := detectFieldType field in
  let questionText := getQuestionText field in
  let required := isRequired field in
  let selector := generateSelector field in
  if truthy questionText then
    if String.eqb fieldType "dropdown_custom" || String.eqb fieldType "select" then
      match extractDropdownOptions field with
      | Returns options =>
          Some (mkQuestion questionText fieldType (Some options) required selector)
      | Throws _ => None
      end
    else Some (mkQuestion questionText fieldType None required selector)
  else None.

(** The loop of [scan] that pushes the question of each field. *)
Fixpoint collect (fields : list Element) : list ScannedQuestion :=
  match fields with
  | [] => []
  | f :: rest =>
      match processField f with
      | Some q => q :: collect rest
      | None => collect rest
      end
  end.

(** [FormScanner.scan]: an error of the enumeration is caught, and the
    list is then still empty. *)
Definition scan : list ScannedQuestion :=
  match findAllFormFields with
  | Throws _ => []
  | Returns fields => deduplicateQuestions (collect fields)
  end.
End Scan.


(** *** Label texts *)

(** [FormScanner.cleanLabelText] *)
Definition cleanLabelText (text : string) : string :=
  collapseWs (trim (firstLine (trim text))).

(** The conversion of a [name] attribute at the end of
    [getQuestionText]:
    [name.replace(/_/g, ' ').replace(/([A-Z])/g, ' $1').trim()] *)
Definition nameAsText (name : string) : string :=
  trim (spaceBeforeUpper (replaceChar "_" " " name)).

(** [element.id]: the [id] attribute, or the empty string. *)
Definition elementId (n : Node) : string :=
  match getAttribute n "id" with
  | Some i => i
  | None => ""
  end.

(** The class names of an element: the pieces of its [class] attribute
    between white space. *)
Definition classList (n : Node) : list string :=
  match getAttribute n "class" with
  | Some c => List.filter truthy (splitWs c)
  | None => []
  end.

Definition hasClass (c : string) (n : Node) : bool := member c (classList n).

Definition selLabel (n : Node) : bool := String.eqb (tag n) "label".

(** ['[role="group"], .field, .form-field, .question, .form-group'] *)
Definition selFieldContainer (n : Node) : bool :=
  attrIs n "role" "group" || hasClass "field" n || hasClass "form-field" n
  || hasClass "question" n || hasClass "form-group" n.

(** The first of the alternatives that yields something. *)
Fixpoint firstDefined {A} (l : list (option A)) : option A :=
  match l with
  | [] => None
  | Some a :: _ => Some a
  | None :: r => firstDefined r
  end.

Section Labels.
(** The document around a field: the text of an element's subtree
    ([textContent]), the first [label] whose [for] attribute is a given
    id ([document.querySelector('label[for="..."]')]),
    [document.getElementById], and the element siblings that precede a
    field, nearest first (the chain of [previousElementSibling]). *)
Variable textContent : Node -> string.
Variable labelFor : string -> option Node.
Variable getElementById : string -> option Node.
Variable previousElementSiblings : Element -> list Node.

(** [label && label.textContent]: the text of the element, when there
    is an element and its text is not empty. *)
Definition textOf (found : option Node) : option string :=
  match found with
  | Some l => if truthy (textContent l) then Some (textContent l) else None
  | None => None
  end.

(** Method 5 of [getQuestionText]: the loop over the preceding
    siblings. *)
Fixpoint siblingText (siblings : list Node) : option string :=
  match siblings with
  | [] => None
  | prevSibling :: rest =>
      let text := textContent prevSibling in
      if String.eqb (tag prevSibling) "label" && truthy text
      then Some (cleanLabelText text)
      else if (String.eqb (tag prevSibling) "div" || String.eqb (tag prevSibling) "span")
              && truthy text
              && Nat.ltb 0 (String.length (trim text))
              && Nat.ltb (String.length (trim text)) 100
      then Some (cleanLabelText text)
      else siblingText rest
  end.

(** The seven methods of [getQuestionText], in the order of the
    source; each yields the text that the function returns there, or
    nothing when control passes on. *)
Definition questionTextMethods (element : Element) : list (option string) :=
  let el := self element in
  [ (* 1: aria-label *)
    match getAttribute el "aria-label" with
    | Some ariaLabel =>
        if truthy ariaLabel && truthy (trim ariaLabel)
        then Some (trim ariaLabel) else None
    | None => None
    end;
    (* 2: the label for the id *)
    if truthy (elementId el) then
      option_map cleanLabelText (textOf (labelFor (elementId el)))
    else None;
    (* 3: the label around the field *)
    option_map cleanLabelText (textOf (closest selLabel element));
    (* 4: aria-labelledby *)
    match getAttribute el "aria-labelledby" with
    | Some labelledBy =>
        if truthy labelledBy
        then option_map cleanLabelText (textOf (getElementById labelledBy))
        else None
    | None => None
    end;
    (* 5: a preceding sibling *)
    siblingText (previousElementSiblings element);
    (* 6: the first line of the enclosing container *)
    match textOf (closest selFieldContainer element) with
    | Some text =>
        let line := firstLine (trim text) in
        if truthy (trim line) then Some (cleanLabelText line) else None
    | None => None
    end;
    (* 7: the name *)
    match getAttribute el "name" with
    | Some name => if truthy name then Some (nameAsText name) else None
    | None => None
    end ].

(** [FormScanner.getQuestionText] *)
Definition getQuestionText (element : Element) : string :=
  match firstDefined (questionTextMethods element) with
  | Some text => text
  | None => ""
  end.

(** [FormScanner.isRequired] *)
Definition isRequired (element : Element) : bool :=
  isSome (getAttribute (self element) "required")
  || attrIs (self element) "aria-required" "true"
  || includes (getQuestionText element) "*".

End Labels.

(** *** The enumeration of the fields *)

(** An element of a document, named by its position: the indices of
    the children to follow from the root element.  Two elements are the
    same element when their positions are equal; this is the identity
    that [fields.includes] compares. *)
Definition Position : Type := list nat.

Fixpoint nodeAt (root : Node) (p : Position) : option Node :=
  match p with
  | [] => Some root
  | i :: rest =>
      match nth_error (children root) i with
      | Some c => nodeAt c rest
      | None => None
      end
  end.

(** The positions of the matching elements strictly below a node, and
    ([positions]) of the node and below it, in document order. *)
Fixpoint positionsBelow (sel : Node -> bool) (n : Node) : list Position :=
  match n with
  | Elem _ _ cs =>
      (fix from (i : nat) (l : list Node) : list Position :=
         match l with
         | [] => []
         | c :: r =>
             map (cons i)
                 ((if sel c then [[]] else []) ++ positionsBelow sel c)
             ++ from (S i) r
         end) 0 cs
  end.

Definition positions (sel : Node -> bool) (n : Node) : list Position :=
  (if sel n then [[]] else []) ++ positionsBelow sel n.

(** The value of a [type] attribute is compared without regard to
    case by an attribute selector of an HTML document. *)
Definition typeIs (n : Node) (value : string) : bool :=
  match getAttribute n "type" with
  | Some t => String.eqb (toLowerCase t) value
  | None => false
  end.

(** ['input:not([type="hidden"]):not([type="submit"]):not([type="button"])'] *)
Definition selFormInput (n : Node) : bool :=
  String.eqb (tag n) "input"
  && negb (typeIs n "hidden") && negb (typeIs n "submit") && negb (typeIs n "button").

Definition selTextarea (n : Node) : bool := String.eqb (tag n) "textarea".

(** ['[role="combobox"], [aria-haspopup="listbox"]'] *)
Definition selCustomDropdown (n : Node) : bool :=
  attrIs n "role" "combobox" || attrIs n "aria-haspopup" "listbox".

Definition selAnyInput (n : Node) : bool := String.eqb (tag n) "input".

(** [fields.includes(element)] *)
Definition includesPosition (fields : list Position) (p : Position) : bool :=
  existsb (fun f => bool_decide (f = p)) fields.

Section Fields.
(** [FormScanner.isVisible]: what the layout and the computed style say
    of the element at a position. *)
Variable isVisible : Position -> bool.
Variable document : Node.

(** One round of [customDropdowns.forEach] in [findAllFormFields]. *)
Definition addDropdown (fields : list Position) (dropdown : Position)
  : list Position :=
  if isVisible dropdown then
    match nodeAt document dropdown with
    | Some node =>
        match positionsBelow selAnyInput node with
        | input :: _ =>
            if includesPosition fields (dropdown ++ input) then fields
            else fields ++ [dropdown]
        | [] => fields ++ [dropdown]
        end
    | None => fields
    end
  else fields.

(** [FormScanner.findAllFormFields]: the fields as positions in the
    document, whose root is [document.documentElement]. *)
Definition findAllFormFields : list Position :=
  let visible sel := List.filter isVisible (positions sel document) in
  fold_left addDropdown (positions selCustomDropdown document)
    (visible selFormInput ++ visible selTextarea ++ visible selSelect).

End Fields.

(** *** Vocabulary of the properties of the enumeration *)

(** The positions that the children of a node contribute, the first of
    them being child number [i]. *)
Fixpoint positionsFrom (sel : Node -> bool) (i : nat) (l : list Node)
  : list Position :=
  match l with
  | [] => []
  | c :: r => map (cons i) (positions sel c) ++ positionsFrom sel (S i) r
  end.

(** How many times an element is listed. *)
Definition occurrences (p : Position) (fields : list Position) : nat :=
  length (List.filter (fun f => bool_decide (f = p)) fields).

(** The element is an input, a textarea or a select of the first
    three queries of [findAllFormFields]. *)
Definition isControl (n : Node) : bool :=
  selFormInput n || selTextarea n || selSelect n.

(** The element at a position is visible and matches a selector. *)
Definition visibleAs (isVisible : Position -> bool) (document : Node)
    (sel : Node -> bool) (p : Position) : bool :=
  isVisible p
  && match nodeAt document p with
     | Some n => sel n
     | None => false
     end.

(** Document order: an element comes before the elements below it, and
    before the later children of its ancestors with what is below
    them. *)
Fixpoint precedes (p q : Position) : Prop :=
  match p, q with
  | [], [] => False
  | [], _ :: _ => True
  | _ :: _, [] => False
  | i :: r, j :: r' => i < j \/ (i = j /\ precedes r r')
  end.

(** A list of positions is in document order. *)
Fixpoint inDocumentOrder (l : list Position) : Prop :=
  match l with
  | [] => True
  | p :: rest => List.Forall (precedes p) rest /\ inDocumentOrder rest
  end.
End Scanner.

(** ** DropdownScanner *)

Module DropdownScanner.
Import Js Scanner.

Definition selInput (n : Node) : bool := String.eqb (tag n) "input".
Definition selOption (n : Node) : bool := String.eqb (tag n) "option".

(** ['[role="option"], .select__option, .Select-option, [class*="option"]'] *)
Definition selOptionLike (n : Node) : bool :=
  attrIs n "role" "option" || hasClass "select__option" n
  || hasClass "Select-option" n
  || match getAttribute n "class" with
     | Some c => includes c "option"
     | None => false
     end.

(** [element.querySelectorAll(sel)]: the matching descendants in
    document order. *)
Fixpoint querySelectorAll (sel : Node -> bool) (n : Node) : list Node :=
  match n with
  | Elem _ _ cs =>
      (fix all (l : list Node) : list Node :=
         match l with
         | [] => []
         | c :: r =>
             (if sel c then [c] else []) ++ querySelectorAll sel c ++ all r
         end) cs
  end.

(** [select.options]: the [option] children of a [select] and of its
    [optgroup] children, in document order. *)
Definition selectOptions (select : Node) : list Node :=
  flat_map (fun c =>
              if String.eqb (tag c) "option" then [c]
              else if String.eqb (tag c) "optgroup"
                   then List.filter selOption (children c)
                   else [])
           (children select).

(** [findDropdownInput] *)
Definition findDropdownInput (element : Element) : option Node :=
  if String.eqb (tag (self element)) "input" then Some (self element)
  else
    match querySelector selInputRoleCombobox (self element) with
    | Some input => Some input
    | None =>
        match querySelector selInput (self element) with
        | Some input => Some input
        | None =>
            match closest selRoleCombobox element with
            | Some parent => querySelector selInput parent
            | None => None
            end
        end
    end.

(** The test of the loop of [extractNativeOptions]. *)
Definition keepNative (text : string) : bool :=
  truthy text && negb (String.eqb text "") && negb (String.eqb text "--")
  && negb (String.eqb (toLowerCase text) "select").

(** One round of the loop of [extractCustomOptions]: a text is pushed
    when it is not empty and not yet in the list. *)
Definition pushNew (options : list string) (text : string) : list string :=
  if truthy text && negb (String.eqb text "") && negb (member text options)
  then options ++ [text]
  else options.

Section WithPage.
(** The page: the text of an element's subtree, and how it reacts when
    the scanner works a custom dropdown: whether [input.focus()]
    followed by [openDropdownWithKeyboard(input)] reports the menu open,
    whether [waitForDropdownMenu] then sees it, and the menu element
    that [getDropdownMenu] then finds.  An error in any of them is
    caught by the [try] block of [extractCustomOptions]. *)
Variable textContent : Node -> string.
Variable openDropdownWithKeyboard : Node -> Outcome bool.
Variable waitForDropdownMenu : Outcome bool.
Variable getDropdownMenu : Outcome (option Node).

(** [extractNativeOptions] *)
Definition extractNativeOptions (select : Node) : list string :=
  List.filter keepNative
    (map (fun option => trim (textContent option)) (selectOptions select)).

(** [extractCustomOptions]: [options] is still empty at every early
    [return], and when the [catch] block is entered. *)
Definition extractCustomOptions (element : Element) : list string :=
  match findDropdownInput element with
  | None => []
  | Some input =>
      match openDropdownWithKeyboard input with
      | Returns true =>
          match waitForDropdownMenu with
          | Returns true =>
              match getDropdownMenu with
              | Returns (Some menu) =>
                  fold_left pushNew
                    (map (fun optionEl => trim (textContent optionEl))
                         (querySelectorAll selOptionLike menu))
                    []
              | _ => []
              end
          | _ => []
          end
      | _ => []
      end
  end.

(** [extractDropdownOptions] *)
Definition extractDropdownOptions (element : Element) : list string :=
  if String.eqb (tag (self element)) "select"
  then extractNativeOptions (self element)
  else
    match querySelector selSelect (self element) with
    | Some select => extractNativeOptions select
    | None => extractCustomOptions element
    end.

End WithPage.

End DropdownScanner.

(** ** The canonical profile *)

Module Profile.
Import Js.

Module Personal.
Record t := mk {
  firstName : option string;
  lastName : option string;
  email : option string;
  phone : option string;
  country : option string;
  city : option string;
  state : option string;
  gender : option string
}.
End Personal.

Module Eeo.
Record t := mk {
  gender : option string;
  hispanic : option string;
  veteran : option string;
  disability : option string;
  race : option string
}.
End Eeo.

Module WorkAuthorization.
Record t := mk {
  driverLicense : option bool;
  needsSponsorship : option bool;
  authorizedUS : option bool
}.
End WorkAuthorization.

Module Social.
Record t := mk {
  linkedin : option string;
  website : option string
}.
End Social.

Module Document.
Record t := mk {
  base64 : option string;
  fileName : option string
}.
End Document.

Module Documents.
Record t := mk {
  resume : option Document.t;
  coverLetter : option Document.t
}.
End Documents.

Module Application.
Record t := mk {
  hasRelatives : option bool;
  previouslyApplied : option bool
}.
End Application.

Module Consent.
Record t := mk {
  agreedToAutofill : option bool
}.
End Consent.

(** Modelled from the spec: the type declaration of the canonical profile
    is not among the sources (the mapper types it [any]).  The record has
    the sections the data model names ([personal], [eeo],
    [workAuthorization], [social], [documents], [consent]) and
    [application], with the members the mapper reads: strings, booleans
    for the yes/no answers, and base64 documents with a file name.  A
    member or a section that is [undefined] is [None]. *)
Record t := mk {
  personal : option Personal.t;
  eeo : option Eeo.t;
  workAuthorization : option WorkAuthorization.t;
  social : option Social.t;
  documents : option Documents.t;
  application : option Application.t;
  consent : option Consent.t
}.

(** [profile.section?.member] *)
Definition member {S A} (section : option S) (field : S -> option A) : option A :=
  match section with
  | Some s => field s
  | None => None
  end.

(** A string member used as a condition: [undefined] and [""] are falsy. *)
Definition truthyMember {S} (section : option S) (field : S -> option string)
  : option string :=
  match member section field with
  | Some v => if truthy v then Some v else None
  | None => None
  end.

(** The profile as the object that [getValueFromProfile] walks through
    by property names. *)
#[warnings="-register-all"]
Inductive JsVal : Type :=
| JUndefined
| JBool (b : bool)
| JStr (s : string)
| JObj (props : list (string * JsVal)).

Definition prop {A} (inj : A -> JsVal) (name : string) (o : option A)
  : list (string * JsVal) :=
  match o with
  | Some v => [(name, inj v)]
  | None => []
  end.

Definition personalObj (s : Personal.t) : JsVal :=
  JObj (prop JStr "firstName" (Personal.firstName s)
        ++ prop JStr "lastName" (Personal.lastName s)
        ++ prop JStr "email" (Personal.email s)
        ++ prop JStr "phone" (Personal.phone s)
        ++ prop JStr "country" (Personal.country s)
        ++ prop JStr "city" (Personal.city s)
        ++ prop JStr "state" (Personal.state s)
        ++ prop JStr "gender" (Personal.gender s)).

Definition eeoObj (s : Eeo.t) : JsVal :=
  JObj (prop JStr "gender" (Eeo.gender s)
        ++ prop JStr "hispanic" (Eeo.hispanic s)
        ++ prop JStr "veteran" (Eeo.veteran s)
        ++ prop JStr "disability" (Eeo.disability s)
        ++ prop JStr "race" (Eeo.race s)).

Definition workAuthorizationObj (s : WorkAuthorization.t) : JsVal :=
  JObj (prop JBool "driverLicense" (WorkAuthorization.driverLicense s)
        ++ prop JBool "needsSponsorship" (WorkAuthorization.needsSponsorship s)
        ++ prop JBool "authorizedUS" (WorkAuthorization.authorizedUS s)).

Definition socialObj (s : Social.t) : JsVal :=
  JObj (prop JStr "linkedin" (Social.linkedin s)
        ++ prop JStr "website" (Social.website s)).

Definition documentObj (d : Document.t) : JsVal :=
  JObj (prop JStr "base64" (Document.base64 d)
        ++ prop JStr "fileName" (Document.fileName d)).

Definition documentsObj (s : Documents.t) : JsVal :=
  JObj (prop documentObj "resume" (Documents.resume s)
        ++ prop documentObj "coverLetter" (Documents.coverLetter s)).

Definition applicationObj (s : Application.t) : JsVal :=
  JObj (prop JBool "hasRelatives" (Application.hasRelatives s)
        ++ prop JBool "previouslyApplied" (Application.previouslyApplied s)).

Definition consentObj (s : Consent.t) : JsVal :=
  JObj (prop JBool "agreedToAutofill" (Consent.agreedToAutofill s)).

Definition toObject (profile : t) : JsVal :=
  JObj (prop personalObj "personal" (personal profile)
        ++ prop eeoObj "eeo" (eeo profile)
        ++ prop workAuthorizationObj "workAuthorization" (workAuthorization profile)
        ++ prop socialObj "social" (social profile)
        ++ prop documentsObj "documents" (documents profile)
        ++ prop applicationObj "application" (application profile)
        ++ prop consentObj "consent" (consent profile)).

(** [value?.[part]].  A part that names a member of the stored data
    yields that member ([Own]).  Any other part is looked up by the
    engine: on an object among the members of [Object.prototype], which
    has one for the keys of [objectPrototypeKeys] ([Inherited]) and none
    for another key ([Missing], the value [undefined]); on a string or a
    boolean among the members that the engine gives such a value, as the
    length, the characters and the methods of a string ([Inherited]). *)
Definition get (value : JsVal) (part : string) : Lookup JsVal :=
  match value with
  | JObj props => lookup props part
  | JStr _ => Inherited
  | JBool _ => Inherited
  | JUndefined => Missing
  end.

(** [typeof value === 'boolean' ? (value ? 'Yes' : 'No')
     : (value ? String(value) : null)] on a value of the stored data *)
Definition asText (value : JsVal) : option string :=
  match value with
  | JBool b => Some (if b then "Yes" else "No")
  | JStr s => if truthy s then Some s else None
  | JObj _ => Some "[object Object]"
  | JUndefined => None
  end.

End Profile.

(** ** profileStorage *)

Module ProfileStorage.
Import Js.

(** [loadProfile], given what [chrome.storage.local.get] yields for the
    key of the profile: the stored profile, or [null] when there is
    none; an error of the storage is caught and gives [null] as well. *)
Definition loadProfile (stored : Outcome (option Profile.t)) : option Profile.t :=
  match stored with
  | Returns (Some profile) => Some profile
  | Returns None => None
  | Throws _ => None
  end.

(** [hasCompleteProfile], given what [loadProfile] returned.  The
    sections [personal] and [consent] are read without a guard: a
    profile that lacks one makes the read of its member throw. *)
Definition hasCompleteProfile (loaded : option Profile.t) : Outcome bool :=
  match loaded with
  | None => Returns false
  | Some profile =>
      match Profile.personal profile with
      | None =>
          Throws "TypeError: Cannot read properties of undefined (reading 'firstName')"
      | Some personal =>
          if Scanner.isSome (Profile.truthyMember (Some personal) Profile.Personal.firstName)
             && Scanner.isSome (Profile.truthyMember (Some personal) Profile.Personal.lastName)
             && Scanner.isSome (Profile.truthyMember (Some personal) Profile.Personal.email)
          then
            match Profile.consent profile with
            | None =>
                Throws "TypeError: Cannot read properties of undefined (reading 'agreedToAutofill')"
            | Some consent =>
                Returns (match Profile.Consent.agreedToAutofill consent with
                         | Some agreed => agreed
                         | None => false
                         end)
            end
          else Returns false
      end
  end.

End ProfileStorage.

(** ** Stateful code: a state monad over the world the code runs in *)

Module Effect.

Definition State (S A : Type) : Type := S -> A * S.

Definition ret {S A} (a : A) : State S A := fun s => (a, s).

Definition bind {S A B} (c : State S A) (k : A -> State S B) : State S B :=
  fun s => k (fst (c s)) (snd (c s)).

(** [for (const x of l) { await body(x) }]: an error of the body leaves
    the loop. *)
Fixpoint forEach {S A} (body : A -> State S (Js.Outcome unit)) (l : list A)
  : State S (Js.Outcome unit) :=
  match l with
  | [] => ret (Js.Returns tt)
  | x :: r =>
      bind (body x)
           (fun done_ =>
              match done_ with
              | Js.Throws e => ret (Js.Throws e)
              | Js.Returns _ => forEach body r
              end)
  end.

End Effect.

Declare Scope effect_scope.
Delimit Scope effect_scope with effect.
Notation "'let*' x ':=' c 'in' k" := (Effect.bind c (fun x => k))
  (at level 10, x name, c at level 100, k at level 200) : effect_scope.
Notation "'do' c 'then' k" := (Effect.bind c (fun _ => k))
  (at level 10, c at level 100, k at level 200) : effect_scope.

(** ** PatternStorage *)

Module PatternStorage.
Import Js Effect.
Local Open Scope effect_scope.

Record AnswerMapping := mkMapping {
  canonicalValue : string;
  variants : list string;
  contextOptions : option (list string)
}.

Record LearnedPattern := mkPattern {
  id : string;
  questionPattern : string;
  intent : string;
  canonicalKey : string;
  answerMappings : option (list AnswerMapping);
  fieldType : string;
  confidence : Q;
  usageCount : nat;
  lastUsed : string;
  createdAt : string;
  source : string;
  synced : option bool;
  isCustomIntent : bool
}.

(** The argument of [addPattern]: a pattern without [id], [createdAt],
    [usageCount] and [lastUsed].  The mapper builds it as an untyped
    object, with the source tags ['AI'] and ['AI-new'] and the extra
    flag [isCustomIntent]. *)
Module Draft.
Record t := mk {
  questionPattern : string;
  intent : string;
  canonicalKey : string;
  answerMappings : option (list AnswerMapping);
  fieldType : string;
  confidence : Q;
  source : string;
  isCustomIntent : bool
}.
End Draft.

(** What the code reads and writes outside its own variables: the array
    under the key [learnedPatterns] of [chrome.storage.local], and how
    many times the clock, the random generator and the storage have been
    called. *)
Record World := makeWorld {
  learnedPatterns : list LearnedPattern;
  ticks : nat;
  draws : nat;
  calls : nat
}.

(** A world in which the storage has not been called yet. *)
Definition mkWorld (patterns : list LearnedPattern) (ticks draws : nat) : World :=
  makeWorld patterns ticks draws 0.

(** What the code is given from outside: the [n]-th reading of the
    clock, as [toISOString()] and as the milliseconds of [Date.now()]; the
    [n]-th [Math.random().toString(36).substr(2, 9)]; whether the [n]-th
    call of [chrome.storage.local] rejects (the storage is unavailable,
    or the quota is exceeded); and what the built-in objects of the
    engine yield when [getValueFromProfile] walks from a value of the
    profile along parts that are not members of the stored data: a
    string, [null], or an error, as the accessors [caller] and
    [arguments] of a built-in function throw one. *)
Record Env := makeEnv {
  isoAt : nat -> string;
  msAt : nat -> string;
  randAt : nat -> string;
  rejects : nat -> bool;
  builtIn : Profile.JsVal -> list string -> Outcome (option string)
}.

(** An environment whose storage never rejects and whose built-in
    objects yield nothing. *)
Definition mkEnv (isoAt msAt randAt : nat -> string) : Env :=
  makeEnv isoAt msAt randAt (fun _ => false) (fun _ _ => Returns None).

Definition M (A : Type) : Type := State World A.

Section WithEnv.
Variable env : Env.

(** [PatternStorage.getLocalPatterns]: the stored array, or the empty
    array when [chrome.storage.local.get] rejects. *)
Definition getLocalPatterns : M (list LearnedPattern) :=
  fun w => (if rejects env (calls w) then [] else learnedPatterns w,
            makeWorld (learnedPatterns w) (ticks w) (draws w) (S (calls w))).

(** [PatternStorage.saveLocalPatterns]: the array is stored, unless
    [chrome.storage.local.set] rejects; the error is caught and logged. *)
Definition saveLocalPatterns (patterns : list LearnedPattern) : M unit :=
  fun w => (tt,
            makeWorld (if rejects env (calls w) then learnedPatterns w else patterns)
                      (ticks w) (draws w) (S (calls w))).

(** [new Date().toISOString()] *)
Definition isoNow : M string :=
  fun w => (isoAt env (ticks w),
            makeWorld (learnedPatterns w) (S (ticks w)) (draws w) (calls w)).

(** [Date.now()], as it prints in a template string *)
Definition msNow : M string :=
  fun w => (msAt env (ticks w),
            makeWorld (learnedPatterns w) (S (ticks w)) (draws w) (calls w)).

(** [Math.random().toString(36).substr(2, 9)] *)
Definition random : M string :=
  fun w => (randAt env (draws w),
            makeWorld (learnedPatterns w) (ticks w) (S (draws w)) (calls w)).

(** The test of [patterns.find] in [addPattern]: same intent, and the
    same question pattern up to case. *)
Definition sameKey (pattern : Draft.t) (p : LearnedPattern) : bool :=
  String.eqb (intent p) (Draft.intent pattern)
  && String.eqb (toLowerCase (questionPattern p))
                (toLowerCase (Draft.questionPattern pattern)).

(** [if (!existingMapping.variants.includes(v)) existingMapping.variants.push(v)] *)
Definition pushVariant (vs : list string) (v : string) : list string :=
  if member v vs then vs else vs ++ [v].

Definition withVariants (m : AnswerMapping) (vs : list string) : AnswerMapping :=
  mkMapping (canonicalValue m) vs (contextOptions m).

Definition sameCanonicalValue (newMapping m : AnswerMapping) : bool :=
  String.eqb (canonicalValue m) (canonicalValue newMapping).

(** One round of [pattern.answerMappings.forEach] in [addPattern]. *)
Definition mergeMapping (existing : list AnswerMapping) (newMapping : AnswerMapping)
  : list AnswerMapping :=
  match find (sameCanonicalValue newMapping) existing with
  | Some _ =>
      updateFirst (sameCanonicalValue newMapping)
        (fun existingMapping =>
           withVariants existingMapping
             (fold_left pushVariant (variants newMapping)
                        (variants existingMapping)))
        existing
  | None => existing ++ [newMapping]
  end.

Definition mergeMappings (news existing : list AnswerMapping) : list AnswerMapping :=
  fold_left mergeMapping news existing.

(** What [addPattern] does to the pattern it found. *)
Definition merged (pattern : Draft.t) (now : string) (existing : LearnedPattern)
  : LearnedPattern :=
  mkPattern (id existing) (questionPattern existing) (intent existing)
    (canonicalKey existing)
    (match Draft.answerMappings pattern, answerMappings existing with
     | Some news, Some olds => Some (mergeMappings news olds)
     | _, _ => answerMappings existing
     end)
    (fieldType existing) (confidence existing) (usageCount existing)
    now (createdAt existing) (source existing) (Some false)
    (isCustomIntent existing).

(** The object literal of the [else] branch of [addPattern]. *)
Definition newPattern (pattern : Draft.t) (ms rnd created used : string)
  : LearnedPattern :=
  mkPattern ("local_" +:+ ms +:+ "_" +:+ rnd)
    (Draft.questionPattern pattern) (Draft.intent pattern)
    (Draft.canonicalKey pattern) (Draft.answerMappings pattern)
    (Draft.fieldType pattern) (Draft.confidence pattern) 0
    used created (Draft.source pattern) (Some false)
    (Draft.isCustomIntent pattern).

(** [PatternStorage.addPattern] *)
Definition addPattern (pattern : Draft.t) : M unit :=
  let* patterns := getLocalPatterns in
  match find (sameKey pattern) patterns with
  | Some _ =>
      let* now := isoNow in
      saveLocalPatterns
        (updateFirst (sameKey pattern) (merged pattern now) patterns)
  | None =>
      let* ms := msNow in
      let* rnd := random in
      let* created := isoNow in
      let* used := isoNow in
      saveLocalPatterns (patterns ++ [newPattern pattern ms rnd created used])
  end.

(** [PatternStorage.calculateSimilarity]: the share of the words of
    [str1] that occur in [str2], over the longer word count. *)
Definition calculateSimilarity (str1 str2 : string) : Q :=
  let words1 := splitWs str1 in
  let words2 := splitWs str2 in
  let matchedWords := length (List.filter (fun w => member w words2) words1) in
  (inject_Z (Z.of_nat matchedWords)
   / inject_Z (Z.of_nat (Nat.max (length words1) (length words2))))%Q.

Definition patternMatches (qLower : string) (pattern : LearnedPattern) : bool :=
  String.eqb (toLowerCase (questionPattern pattern)) qLower
  || Qle_bool (7 # 10)
       (calculateSimilarity qLower (toLowerCase (questionPattern pattern))).

(** [PatternStorage.searchPatterns] *)
Definition searchPatterns (patterns : list LearnedPattern) (questionText : string)
  : option LearnedPattern :=
  find (patternMatches (toLowerCase questionText)) patterns.

Definition used (now : string) (pattern : LearnedPattern) : LearnedPattern :=
  mkPattern (id pattern) (questionPattern pattern) (intent pattern)
    (canonicalKey pattern) (answerMappings pattern) (fieldType pattern)
    (confidence pattern) (S (usageCount pattern)) now (createdAt pattern)
    (source pattern) (synced pattern) (isCustomIntent pattern).

Definition hasId (patternId : string) (p : LearnedPattern) : bool :=
  String.eqb (id p) patternId.

(** [PatternStorage.incrementUsage] *)
Definition incrementUsage (patternId : string) : M unit :=
  let* patterns := getLocalPatterns in
  match find (hasId patternId) patterns with
  | Some _ =>
      let* now := isoNow in
      saveLocalPatterns (updateFirst (hasId patternId) (used now) patterns)
  | None => ret tt
  end.

(** [PatternStorage.findPattern] *)
Definition findPattern (questionText : string) : M (option LearnedPattern) :=
  let* localPatterns := getLocalPatterns in
  match searchPatterns localPatterns questionText with
  | Some localMatch =>
      do incrementUsage (id localMatch) then
      ret (Some localMatch)
  | None => ret None
  end.

End WithEnv.

(** *** Vocabulary of the properties of the store *)

(** Every call of [chrome.storage.local] succeeds. *)
Definition reliable (env : Env) : Prop := forall n, rejects env n = false.

(** What [getLocalPatterns] returns in a world. *)
Definition readable (env : Env) (w : World) : list LearnedPattern :=
  if rejects env (calls w) then [] else learnedPatterns w.

(** The world after [n] more calls of the storage that changed
    nothing. *)
Definition called (n : nat) (w : World) : World :=
  makeWorld (learnedPatterns w) (ticks w) (draws w) (n + calls w).

(** Number of stored patterns for the pair [(intent, questionPattern)]
    of a draft. *)
Definition countKey (pattern : Draft.t) (patterns : list LearnedPattern) : nat :=
  length (List.filter (sameKey pattern) patterns).

(** Occurrences of a variant in the mappings of a pattern. *)
Definition occurrences (v : string) (m : AnswerMapping) : nat :=
  count_occ string_dec (variants m) v.

Definition mappingsOf (p : LearnedPattern) : list AnswerMapping :=
  match answerMappings p with Some ms => ms | None => [] end.

(** Occurrences of a variant under a canonical value in a pattern: in
    the mapping that [addPattern] finds for that canonical value. *)
Definition variantCount (cv v : string) (p : LearnedPattern) : nat :=
  match find (fun m => String.eqb (canonicalValue m) cv) (mappingsOf p) with
  | Some m => occurrences v m
  | None => 0
  end.

(** The draft that the learning step builds from one observation: one
    mapping with one variant. *)
Definition observation (questionPattern intent cv v : string)
    (contextOptions : option (list string)) (fieldType : string) (confidence : Q)
  : Draft.t :=
  Draft.mk questionPattern intent intent (Some [mkMapping cv [v] contextOptions])
    fieldType confidence "AI" false.

(** Two patterns that differ at most in [lastUsed] and [synced]. *)
Definition sameButTouch (p p' : LearnedPattern) : Prop :=
  id p' = id p /\ questionPattern p' = questionPattern p
  /\ intent p' = intent p /\ canonicalKey p' = canonicalKey p
  /\ answerMappings p' = answerMappings p /\ fieldType p' = fieldType p
  /\ confidence p' = confidence p /\ usageCount p' = usageCount p
  /\ createdAt p' = createdAt p /\ source p' = source p
  /\ isCustomIntent p' = isCustomIntent p.

(** A pattern [p'] keeps what [p] knows: it is the same entry (same id,
    intent and question pattern), each mapping of [p] is still there at
    its position with the same canonical value, and its variants are
    still there, in order, at the front of the mapping's variants. *)
Definition mappingGrows (m m' : AnswerMapping) : Prop :=
  canonicalValue m' = canonicalValue m
  /\ exists more, variants m' = variants m ++ more.

Definition patternGrows (p p' : LearnedPattern) : Prop :=
  id p' = id p /\ intent p' = intent p
  /\ questionPattern p' = questionPattern p
  /\ exists more prefix',
       mappingsOf p' = prefix' ++ more
       /\ Forall2 mappingGrows (mappingsOf p) prefix'.

(** The store [ps'] keeps what [ps] holds: every pattern of [ps] is
    still there at its position, grown, and patterns are only added at
    the end. *)
Definition storeGrows (ps ps' : list LearnedPattern) : Prop :=
  exists kept added, ps' = kept ++ added /\ Forall2 patternGrows ps kept.

(** Two patterns that differ at most in [usageCount] and [lastUsed]. *)
Definition sameButUsage (p p' : LearnedPattern) : Prop :=
  id p' = id p /\ questionPattern p' = questionPattern p
  /\ intent p' = intent p /\ canonicalKey p' = canonicalKey p
  /\ answerMappings p' = answerMappings p /\ fieldType p' = fieldType p
  /\ confidence p' = confidence p /\ createdAt p' = createdAt p
  /\ source p' = source p /\ synced p' = synced p
  /\ isCustomIntent p' = isCustomIntent p.

(** The mappings after a merge start with the mappings before it, each
    grown. *)
Definition mappingsGrow (olds news : list AnswerMapping) : Prop :=
  exists prefix' more,
    news = prefix' ++ more /\ Forall2 mappingGrows olds prefix'.

(** A mapping is settled in a list of mappings when the mapping found
    for its canonical value already has all its variants. *)
Definition settled (m : AnswerMapping) (current : list AnswerMapping) : Prop :=
  exists x, find (sameCanonicalValue m) current = Some x
            /\ forall v, In v (variants m) -> In v (variants x).


(** *** Caching and statistics *)

(** [{ ...pattern, synced: true }] *)
Definition cached (pattern : LearnedPattern) : LearnedPattern :=
  mkPattern (id pattern) (questionPattern pattern) (intent pattern)
    (canonicalKey pattern) (answerMappings pattern) (fieldType pattern)
    (confidence pattern) (usageCount pattern) (lastUsed pattern)
    (createdAt pattern) (source pattern) (Some true) (isCustomIntent pattern).

(** [PatternStorage.cachePattern] *)
Definition cachePattern (env : Env) (pattern : LearnedPattern) : M unit :=
  let* patterns := getLocalPatterns env in
  if existsb (hasId (id pattern)) patterns then ret tt
  else saveLocalPatterns env (patterns ++ [cached pattern]).

(** A value of the object [intentBreakdown]: a count or, for an intent
    that names a member of [Object.prototype], the text that [+ 1]
    makes of that member. *)
Inductive Tally : Type :=
| Count (n : nat)
| Text (s : string).

(** How a built-in function prints. *)
Definition nativeSource (key : string) : string :=
  "function " +:+ (if String.eqb key "constructor" then "Object" else key)
  +:+ "() { [native code] }".

(** [intentBreakdown[intent] = (intentBreakdown[intent] || 0) + 1] on
    the own properties of the object.  For a key that the object does
    not have, the read finds the member of [Object.prototype] of that
    name, if any; [__proto__] reads as the prototype, which prints as
    ["[object Object]"], and the assignment to it is ignored. *)
Definition tally (intentBreakdown : gmap string Tally) (intent : string)
  : gmap string Tally :=
  match intentBreakdown !! intent with
  | Some (Count n) => <[intent := Count (S n)]> intentBreakdown
  | Some (Text s) =>
      if truthy s then <[intent := Text (s +:+ "1")]> intentBreakdown
      else <[intent := Count 1]> intentBreakdown
  | None =>
      if String.eqb intent "__proto__" then intentBreakdown
      else if member intent objectPrototypeKeys
           then <[intent := Text (nativeSource intent +:+ "1")]> intentBreakdown
           else <[intent := Count 1]> intentBreakdown
  end.

Module Stats.
Record t := mk {
  totalPatterns : nat;
  syncedPatterns : nat;
  unsyncedPatterns : nat;
  totalUsage : nat;
  intentBreakdown : gmap string Tally
}.
End Stats.

(** [p.synced] as a condition *)
Definition isSynced (p : LearnedPattern) : bool :=
  match synced p with
  | Some b => b
  | None => false
  end.

(** [PatternStorage.getStats] *)
Definition getStats (env : Env) : M Stats.t :=
  let* patterns := getLocalPatterns env in
  ret (Stats.mk
         (length patterns)
         (length (List.filter isSynced patterns))
         (length (List.filter (fun p => negb (isSynced p)) patterns))
         (fold_left (fun sum p => sum + usageCount p) patterns 0)
         (fold_left (fun breakdown p => tally breakdown (intent p)) patterns ∅)).

(** *** Vocabulary of the properties of the identifiers *)

(** The identifier that [addPattern] gives a new pattern in a world. *)
Definition nextId (env : Env) (w : World) : string :=
  "local_" +:+ msAt env (ticks w) +:+ "_" +:+ randAt env (draws w).

(** The number of stored patterns with an intent. *)
Definition withIntent (i : string) (patterns : list LearnedPattern) : nat :=
  length (List.filter (fun p => String.eqb (intent p) i) patterns).

(** The entry of [intentBreakdown] for an intent that occurs [n]
    times: none, or the count. *)
Definition counted (n : nat) : option Tally :=
  match n with
  | 0 => None
  | S _ => Some (Count n)
  end.
End PatternStorage.

(** ** QuestionMapper *)

Module QuestionMapper.
Import Js Effect.
Import Scanner(ScannedQuestion).
Local Open Scope effect_scope.

Inductive Source : Type := canonical | learned | fuzzy | AI.

(** The result of one of the matching tiers. *)
Module Result.
Record t := mk {
  answer : string;
  source : Source;
  confidence : Q;
  fileName : option string
}.
End Result.

(** The request and the response of the AI oracle. *)
Module Request.
Record t := mk {
  question : string;
  fieldType : string;
  options : list string;
  userProfile : Profile.t
}.
End Request.

Module Response.
Record t := mk {
  answer : string;
  confidence : option Q;
  intent : option string;
  isNewIntent : bool;
  suggestedIntentName : option string
}.
End Response.

Record MappedAnswer := mkAnswer {
  selector : string;
  questionText : string;
  answer : string;
  source : Source;
  confidence : Q;
  required : bool;
  fieldType : string;
  canonicalKey : option string;
  options : option (list string);
  fileName : option string;
  isNewIntent : bool;
  suggestedIntentName : option string
}.

(** [options && options.length > 0] *)
Definition nonEmptyOptions (opts : option (list string)) : option (list string) :=
  match opts with
  | Some (o :: r) => Some (o :: r)
  | _ => None
  end.

Fixpoint firstSome {A B} (f : A -> option B) (l : list A) : option B :=
  match l with
  | [] => None
  | x :: r => match f x with Some y => Some y | None => firstSome f r end
  end.

Definition one : Q := 1.

(** *** Matching a value against the options *)

Definition synonyms : list (string * list string) :=
  [ ("male", ["man"]); ("female", ["woman"]);
    ("man", ["male"]); ("woman", ["female"]) ].

Definition countryMap : list (string * string) :=
  [ ("usa", "united states"); ("us", "united states");
    ("uk", "united kingdom"); ("uae", "united arab emirates") ].

Definition matched (m : string) (confidence : Q) : Outcome (option Result.t) :=
  Returns (Some (Result.mk m canonical confidence None)).

Definition wordMatches (valueLower : string) (valueWords : list string) (opt : string)
  : bool :=
  let optLower := toLowerCase opt in
  startsWith optLower valueLower
  || existsb (fun word => startsWith optLower word && Nat.leb 3 (String.length word))
             valueWords.

(** [QuestionMapper.matchInOptions].  The two tables are object
    literals: for a key that [Object.prototype] provides, the synonym
    table yields a value that is truthy and that [for ... of] cannot
    iterate, and the loop throws a [TypeError]. *)
Definition matchInOptions (value : string) (opts : option (list string)) (confidence : Q)
  : Outcome (option Result.t) :=
  match nonEmptyOptions opts with
  | None => matched value confidence
  | Some options =>
      let valueLower := trim (toLowerCase value) in
      match findTruthy (fun opt => String.eqb (trim (toLowerCase opt)) valueLower)
                       options with
      | Some exactMatch => matched exactMatch confidence
      | None =>
          let afterSynonyms :=
            match findTruthy
                    (fun opt => includes (toLowerCase opt) valueLower
                                || includes valueLower (toLowerCase opt))
                    options with
            | Some partialMatch => matched partialMatch confidence
            | None =>
                match findTruthy (wordMatches valueLower (splitWs valueLower))
                                 options with
                | Some wordMatch => matched wordMatch confidence
                | None =>
                    match lookup countryMap valueLower with
                    | Own mappedName =>
                        match findTruthy
                                (fun opt => includes (toLowerCase opt) mappedName)
                                options with
                        | Some countryMatch => matched countryMatch confidence
                        | None => Returns None
                        end
                    | _ => Returns None
                    end
                end
            end in
          match lookup synonyms valueLower with
          | Own syns =>
              match firstSome
                      (fun synonym =>
                         findTruthy
                           (fun opt => String.eqb (trim (toLowerCase opt)) synonym)
                           options)
                      syns with
              | Some synonymMatch => matched synonymMatch confidence
              | None => afterSynonyms
              end
          | Inherited => Throws "TypeError: synonyms[valueLower] is not iterable"
          | Missing => afterSynonyms
          end
      end
  end.

Definition isYesOption (opt : string) : bool :=
  let o := toLowerCase opt in
  includes o "yes" || String.eqb o "y" || includes o "true" || String.eqb o "i do".

Definition isNoOption (opt : string) : bool :=
  let o := toLowerCase opt in
  includes o "no" || String.eqb o "n" || includes o "false"
  || String.eqb o "i do not" || String.eqb o "i don't"
  || includes o "prefer not".

(** [QuestionMapper.booleanToYesNo] *)
Definition booleanToYesNo (value : bool) (opts : option (list string)) : string :=
  match nonEmptyOptions opts with
  | None => if value then "Yes" else "No"
  | Some options =>
      if value then
        match findTruthy isYesOption options with
        | Some yesOption => yesOption
        | None => "Yes"
        end
      else
        match findTruthy isNoOption options with
        | Some noOption => noOption
        | None => "No"
        end
  end.

(** *** Tier 1: the canonical rules *)

(** A rule of [tryCanonical]: [None] when the rule does not apply and
    control falls through to the next one, otherwise what the function
    returns. *)
Definition Rule : Type :=
  ScannedQuestion -> Profile.t -> option (Outcome (option Result.t)).

Definition direct (v : string) : Outcome (option Result.t) :=
  Returns (Some (Result.mk v canonical one None)).

(** [if (keyword && profile.section?.member) return { answer: member }] *)
Definition directRule {S} (keyword : string -> bool)
    (section : Profile.t -> option S) (field : S -> option string) : Rule :=
  fun question profile =>
    if keyword (toLowerCase (Scanner.questionText question)) then
      match Profile.truthyMember (section profile) field with
      | Some v => Some (direct v)
      | None => None
      end
    else None.

(** [if (keyword && profile.section?.member) return this.matchInOptions(member, options, 1.0)] *)
Definition optionRule {S} (keyword : string -> bool)
    (section : Profile.t -> option S) (field : S -> option string) : Rule :=
  fun question profile =>
    if keyword (toLowerCase (Scanner.questionText question)) then
      match Profile.truthyMember (section profile) field with
      | Some v => Some (matchInOptions v (Scanner.options question) one)
      | None => None
      end
    else None.

(** [if (keyword) { if (profile.section?.member !== undefined) return booleanToYesNo(member, options) }] *)
Definition booleanRule {S} (keyword : string -> bool)
    (section : Profile.t -> option S) (field : S -> option bool) : Rule :=
  fun question profile =>
    if keyword (toLowerCase (Scanner.questionText question)) then
      match Profile.member (section profile) field with
      | Some b => Some (direct (booleanToYesNo b (Scanner.options question)))
      | None => None
      end
    else None.

Definition dataUrl (base64Data : string) : string :=
  if startsWith base64Data "data:" then base64Data
  else "data:application/pdf;base64," +:+ base64Data.

Definition isUpload (what : string) (question : ScannedQuestion) : bool :=
  String.eqb (Scanner.fieldType question) "file"
  && includes (Scanner.selector question) what.

Definition resumeFileName (profile : Profile.t) (resume : Profile.Document.t) : string :=
  match Profile.truthyMember (Some resume) Profile.Document.fileName with
  | Some name => name
  | None =>
      match Profile.truthyMember (Profile.personal profile) Profile.Personal.firstName,
            Profile.truthyMember (Profile.personal profile) Profile.Personal.lastName with
      | Some first, Some last => first +:+ "_" +:+ last +:+ "_Resume.pdf"
      | _, _ => "resume.pdf"
      end
  end.

Definition resumeRule : Rule :=
  fun question profile =>
    let qLower := toLowerCase (Scanner.questionText question) in
    if isUpload "resume" question
       || includes qLower "resume"
       || includes qLower "cv"
       || (String.eqb (Scanner.fieldType question) "file" && String.eqb qLower "attach"
           && includes (Scanner.selector question) "resume")
    then
      match Profile.member (Profile.documents profile) Profile.Documents.resume with
      | Some resume =>
          match Profile.truthyMember (Some resume) Profile.Document.base64 with
          | Some base64Data =>
              Some (Returns (Some (Result.mk (dataUrl base64Data) canonical one
                                     (Some (resumeFileName profile resume)))))
          | None => None
          end
      | None => None
      end
    else None.

Definition coverLetterFileName (coverLetter : Profile.Document.t) : string :=
  match Profile.truthyMember (Some coverLetter) Profile.Document.fileName with
  | Some name => name
  | None => "cover_letter.pdf"
  end.

Definition coverLetterRule : Rule :=
  fun question profile =>
    let qLower := toLowerCase (Scanner.questionText question) in
    if isUpload "cover" question
       || includes qLower "cover letter"
       || includes qLower "cover_letter"
       || (String.eqb (Scanner.fieldType question) "file" && String.eqb qLower "attach"
           && includes (Scanner.selector question) "cover")
    then
      match Profile.member (Profile.documents profile) Profile.Documents.coverLetter with
      | Some coverLetter =>
          match Profile.truthyMember (Some coverLetter) Profile.Document.base64 with
          | Some base64Data =>
              Some (Returns (Some (Result.mk (dataUrl base64Data) canonical one
                                     (Some (coverLetterFileName coverLetter)))))
          | None => None
          end
      | None => None
      end
    else None.

(** The rules of [tryCanonical], in the order of the source. *)
Definition canonicalRules : list Rule :=
  [ (* personal info *)
    directRule (fun q => includes q "first name" || String.eqb q "first name")
      Profile.personal Profile.Personal.firstName;
    directRule (fun q => includes q "last name" || String.eqb q "last name")
      Profile.personal Profile.Personal.lastName;
    directRule (fun q => includes q "email" || String.eqb q "email")
      Profile.personal Profile.Personal.email;
    directRule (fun q => includes q "phone" || String.eqb q "phone")
      Profile.personal Profile.Personal.phone;
    optionRule (fun q => includes q "country")
      Profile.personal Profile.Personal.country;
    directRule (fun q => includes q "city")
      Profile.personal Profile.Personal.city;
    directRule (fun q => includes q "state" && negb (includes q "united"))
      Profile.personal Profile.Personal.state;
    directRule (fun q => includes q "linkedin" || includes q "linked in"
                         || includes q "linkedin profile" || includes q "linkedin url"
                         || includes q "professional profile" || String.eqb q "linkedin")
      Profile.social Profile.Social.linkedin;
    directRule (fun q => includes q "website" || includes q "portfolio"
                         || includes q "personal website"
                         || includes q "online portfolio" || String.eqb q "website")
      Profile.social Profile.Social.website;
    (* file uploads *)
    resumeRule;
    coverLetterRule;
    (* work authorization *)
    booleanRule (fun q => includes q "driver" && includes q "license")
      Profile.workAuthorization Profile.WorkAuthorization.driverLicense;
    booleanRule (fun q => includes q "sponsor"
                          && (includes q "visa" || includes q "work"
                              || includes q "government"))
      Profile.workAuthorization Profile.WorkAuthorization.needsSponsorship;
    booleanRule (fun q => (includes q "authorized" || includes q "legally")
                          && includes q "work"
                          && (includes q "united states" || includes q "u.s."
                              || includes q "us" || includes q "america"))
      Profile.workAuthorization Profile.WorkAuthorization.authorizedUS;
    (* application questions *)
    booleanRule (fun q => (includes q "relat" && includes q "employee")
                          || (includes q "friend" && includes q "work"))
      Profile.application Profile.Application.hasRelatives;
    booleanRule (fun q => includes q "previously" && includes q "appl")
      Profile.application Profile.Application.previouslyApplied;
    (* EEO questions *)
    optionRule (fun q => includes q "gender") Profile.eeo Profile.Eeo.gender;
    optionRule (fun q => includes q "hispanic" || includes q "latino")
      Profile.eeo Profile.Eeo.hispanic;
    optionRule (fun q => includes q "veteran") Profile.eeo Profile.Eeo.veteran;
    optionRule (fun q => includes q "disability") Profile.eeo Profile.Eeo.disability;
    optionRule (fun q => includes q "race") Profile.eeo Profile.Eeo.race ].

Fixpoint firstRule (rules : list Rule) (question : ScannedQuestion) (profile : Profile.t)
  : Outcome (option Result.t) :=
  match rules with
  | [] => Returns None
  | rule :: rest =>
      match rule question profile with
      | Some outcome => outcome
      | None => firstRule rest question profile
      end
  end.

(** [QuestionMapper.tryCanonical] *)
Definition tryCanonical (question : ScannedQuestion) (profile : Profile.t)
  : Outcome (option Result.t) :=
  firstRule canonicalRules question profile.

(** *** Tier 3: fuzzy matching *)

(** [QuestionMapper.tryFuzzy] *)
Definition tryFuzzy (question : ScannedQuestion) (profile : Profile.t)
  : Outcome (option Result.t) :=
  match Scanner.options question with
  | None => Returns None
  | Some _ =>
      if includes (toLowerCase (Scanner.questionText question)) "gender" then
        match Profile.truthyMember (Profile.personal profile) Profile.Personal.gender with
        | Some gender => matchInOptions gender (Scanner.options question) (9 # 10)
        | None => Returns None
        end
      else Returns None
  end.

(** [QuestionMapper.fuzzyMatchOption] *)
Definition fuzzyMatchOption (value : string) (options : list string)
  : Outcome (option string) :=
  match matchInOptions value (Some options) (9 # 10) with
  | Throws e => Throws e
  | Returns (Some result) => Returns (Some (Result.answer result))
  | Returns None => Returns None
  end.

(** *** Tier 2: learned patterns *)

(** [QuestionMapper.getValueFromProfile]: the walk along the parts of
    the intent, then the conversion of what it finds.  As long as the
    parts name members of the stored profile the walk stays in it; with
    the first part that does not, the engine looks the part up on its
    built-in objects and the rest of the walk is theirs ([builtIn]). *)
Fixpoint walk (env : PatternStorage.Env) (value : Profile.JsVal) (parts : list string)
  : Outcome (option string) :=
  match parts with
  | [] => Returns (Profile.asText value)
  | part :: rest =>
      match Profile.get value part with
      | Own member => walk env member rest
      | Inherited => PatternStorage.builtIn env value parts
      | Missing => Returns None
      end
  end.

Definition getValueFromProfile (env : PatternStorage.Env) (profile : Profile.t)
    (intent : string) : Outcome (option string) :=
  walk env (Profile.toObject profile) (splitOn "." intent).

(** The test of the three [options.find] calls of the learned tier: the
    option equals the text, contains it or is contained in it, up to
    case. *)
Definition looselyMatches (text opt : string) : bool :=
  String.eqb (toLowerCase opt) (toLowerCase text)
  || includes (toLowerCase opt) (toLowerCase text)
  || includes (toLowerCase text) (toLowerCase opt).

Definition optionFor (options : list string) (text : string) : option string :=
  findTruthy (looselyMatches text) options.

(** [QuestionMapper.findBestVariant] *)
Definition findBestVariant (canonicalValue : string)
    (answerMappings : list PatternStorage.AnswerMapping) (opts : option (list string))
  : option string :=
  match find (fun m => String.eqb (PatternStorage.canonicalValue m) canonicalValue)
             answerMappings with
  | None => None
  | Some mapping =>
      match nonEmptyOptions opts with
      | None =>
          Some (orElse (hd "" (PatternStorage.variants mapping)) canonicalValue)
      | Some options => firstSome (optionFor options) (PatternStorage.variants mapping)
      end
  end.

Definition learnedResult (pattern : PatternStorage.LearnedPattern) (answer : string)
  : option Result.t :=
  Some (Result.mk answer learned (PatternStorage.confidence pattern) None).

(** [canonicalValue] as a condition: [null] and [""] are falsy. *)
Definition ifTruthy (canonicalValue : option string) : option string :=
  match canonicalValue with
  | Some v => if truthy v then Some v else None
  | None => None
  end.

(** The fallback of [tryLearned]: the canonical value that the profile
    holds for the intent of the pattern, if any. *)
Definition answerFromProfile (question : ScannedQuestion)
    (pattern : PatternStorage.LearnedPattern) (canonicalValue : option string)
  : option Result.t :=
  match ifTruthy canonicalValue with
  | None => None
  | Some canonicalValue =>
      match PatternStorage.answerMappings pattern with
      | Some (m :: ms) =>
          match findBestVariant canonicalValue (m :: ms) (Scanner.options question) with
          | Some answer =>
              if truthy answer then learnedResult pattern answer else None
          | None => None
          end
      | _ =>
          match nonEmptyOptions (Scanner.options question) with
          | Some options =>
              match optionFor options canonicalValue with
              | Some m => learnedResult pattern m
              | None => None
              end
          | None => learnedResult pattern canonicalValue
          end
      end
  end.

(** The part of [tryLearned] that follows the reading of the canonical
    value: first the stored variants against the options, then the
    fallback. *)
Definition answerWith (question : ScannedQuestion)
    (pattern : PatternStorage.LearnedPattern) (canonicalValue : option string)
  : option Result.t :=
  match PatternStorage.answerMappings pattern, Scanner.options question with
  | Some (m :: ms), Some options =>
      match firstSome
              (fun mapping =>
                 firstSome (optionFor options) (PatternStorage.variants mapping))
              (m :: ms) with
      | Some match_ => learnedResult pattern match_
      | None => answerFromProfile question pattern canonicalValue
      end
  | _, _ => answerFromProfile question pattern canonicalValue
  end.

(** The part of [tryLearned] that follows the lookup of the pattern.
    The canonical value is read first; an error of that reading leaves
    the function. *)
Definition answerFromPattern (env : PatternStorage.Env) (question : ScannedQuestion)
    (profile : Profile.t) (pattern : PatternStorage.LearnedPattern)
  : Outcome (option Result.t) :=
  match getValueFromProfile env profile (PatternStorage.intent pattern) with
  | Throws e => Throws e
  | Returns canonicalValue => Returns (answerWith question pattern canonicalValue)
  end.

Section WithOracles.
Variable env : PatternStorage.Env.

(** The AI oracle [askAI]: the response to the request at a position
    of the batch, or [None] when the call throws. *)
Variable askAI : nat -> Request.t -> option Response.t.

Definition M (A : Type) : Type := PatternStorage.M A.

(** [QuestionMapper.tryLearned] *)
Definition tryLearned (question : ScannedQuestion) (profile : Profile.t)
  : M (Outcome (option Result.t)) :=
  let* pattern := PatternStorage.findPattern env (Scanner.questionText question) in
  match pattern with
  | None => ret (Returns None)
  | Some pattern => ret (answerFromPattern env question profile pattern)
  end.

(** [QuestionMapper.tryMapping] *)
Definition tryMapping (question : ScannedQuestion) (profile : Profile.t)
  : M (Outcome (option Result.t)) :=
  match tryCanonical question profile with
  | Throws e => ret (Throws e)
  | Returns (Some canonicalResult) => ret (Returns (Some canonicalResult))
  | Returns None =>
      let* learnedResult := tryLearned question profile in
      match learnedResult with
      | Throws e => ret (Throws e)
      | Returns (Some r) => ret (Returns (Some r))
      | Returns None =>
          match nonEmptyOptions (Scanner.options question) with
          | Some _ => ret (tryFuzzy question profile)
          | None => ret (Returns None)
          end
      end
  end.

(** *** Tier 4: the AI oracle *)

(** The argument of [askAI] in [requestAIAnswers] *)
Definition aiRequest (q : ScannedQuestion) (profile : Profile.t) : Request.t :=
  Request.mk (Scanner.questionText q) (Scanner.fieldType q)
    (match Scanner.options q with
     | Some options => if Nat.leb (length options) 20 then options else []
     | None => []
     end)
    profile.

(** [a || 0.8] on a number that may be missing *)
Definition orDefault (c : option Q) : Q :=
  match c with
  | Some c => if Qeq_bool c 0 then 8 # 10 else c
  | None => 8 # 10
  end.

Definition aiAnswer (q : ScannedQuestion) (aiResponse : Response.t) (finalAnswer : string)
  : MappedAnswer :=
  mkAnswer (Scanner.selector q) (Scanner.questionText q) finalAnswer AI
    (orDefault (Response.confidence aiResponse))
    (Scanner.required q) (Scanner.fieldType q)
    (Response.intent aiResponse) (Scanner.options q) None
    (Response.isNewIntent aiResponse)
    (if Response.isNewIntent aiResponse
     then Response.suggestedIntentName aiResponse else None).

(** The body of the [questions.map] of [requestAIAnswers], for the
    question at position [i]: everything happens inside one [try]
    block, whose [catch] returns [null]. *)
Definition answerOfAI (profile : Profile.t) (i : nat) (q : ScannedQuestion)
  : option MappedAnswer :=
  match askAI i (aiRequest q profile) with
  | None => None
  | Some aiResponse =>
      if truthy (Response.answer aiResponse) then
        match nonEmptyOptions (Scanner.options q) with
        | Some options =>
            match findTruthy
                    (fun opt =>
                       String.eqb (trim (toLowerCase opt))
                                  (trim (toLowerCase (Response.answer aiResponse))))
                    options with
            | Some exactMatch => Some (aiAnswer q aiResponse exactMatch)
            | None =>
                match fuzzyMatchOption (Response.answer aiResponse) options with
                | Returns (Some fuzzyMatch) =>
                    if truthy fuzzyMatch
                    then Some (aiAnswer q aiResponse fuzzyMatch)
                    else None
                | Returns None => None
                | Throws _ => None
                end
            end
        | None => Some (aiAnswer q aiResponse (Response.answer aiResponse))
        end
      else None
  end.

Fixpoint aiResults (profile : Profile.t) (i : nat) (questions : list ScannedQuestion)
  : list (option MappedAnswer) :=
  match questions with
  | [] => []
  | q :: rest => answerOfAI profile i q :: aiResults profile (S i) rest
  end.

Fixpoint notNull {A} (l : list (option A)) : list A :=
  match l with
  | [] => []
  | Some a :: r => a :: notNull r
  | None :: r => notNull r
  end.

(** The array [aiAnswers] of [requestAIAnswers]: the results of the
    requests that are not [null], in the order of the questions. *)
Definition aiAnswersOf (questions : list ScannedQuestion) (profile : Profile.t)
  : list MappedAnswer :=
  notNull (aiResults profile 0 questions).

(** [QuestionMapper.requestAIAnswers].  The clock is read before the
    requests and after them, for the log. *)
Definition requestAIAnswers (questions : list ScannedQuestion) (profile : Profile.t)
  : M (list MappedAnswer) :=
  let* startTime := PatternStorage.msNow env in
  let aiAnswers := aiAnswersOf questions profile in
  let* endTime := PatternStorage.msNow env in
  ret aiAnswers.

(** *** Learning from the answers of the oracle *)

(** [QuestionMapper.normalizeQuestion] *)
Definition normalizeQuestion (questionText : string) : string :=
  trim (removeChars
          (fun c => Ascii.eqb c "*" || Ascii.eqb c "?" || Ascii.eqb c "!")
          (toLowerCase questionText)).

(** [answer === profile.section?.member] *)
Definition isMember {S} (answer : string) (section : option S)
    (field : S -> option string) : bool :=
  match Profile.member section field with
  | Some v => String.eqb answer v
  | None => false
  end.

(** [QuestionMapper.detectIntent]: the tests of the function in
    order, each with the intent it returns. *)
Definition intentTests (qLower answer : string) (profile : Profile.t)
  : list (bool * string) :=
  [ (isMember answer (Profile.eeo profile) Profile.Eeo.gender, "eeo.gender");
    (isMember answer (Profile.eeo profile) Profile.Eeo.hispanic, "eeo.hispanic");
    (isMember answer (Profile.eeo profile) Profile.Eeo.veteran, "eeo.veteran");
    (isMember answer (Profile.eeo profile) Profile.Eeo.disability, "eeo.disability");
    (isMember answer (Profile.eeo profile) Profile.Eeo.race, "eeo.race");
    (isMember answer (Profile.personal profile) Profile.Personal.firstName,
     "personal.firstName");
    (isMember answer (Profile.personal profile) Profile.Personal.lastName,
     "personal.lastName");
    (isMember answer (Profile.personal profile) Profile.Personal.email,
     "personal.email");
    (isMember answer (Profile.personal profile) Profile.Personal.phone,
     "personal.phone");
    (isMember answer (Profile.personal profile) Profile.Personal.city,
     "personal.city");
    (isMember answer (Profile.personal profile) Profile.Personal.state,
     "personal.state");
    (isMember answer (Profile.personal profile) Profile.Personal.country,
     "personal.country");
    (isMember answer (Profile.social profile) Profile.Social.linkedin,
     "social.linkedin");
    (isMember answer (Profile.social profile) Profile.Social.website,
     "social.website");
    (includes qLower "gender" || includes qLower "sex", "eeo.gender");
    (includes qLower "hispanic" || includes qLower "latino", "eeo.hispanic");
    (includes qLower "veteran", "eeo.veteran");
    (includes qLower "disability", "eeo.disability");
    (includes qLower "race" || includes qLower "ethnicity", "eeo.race");
    (includes qLower "sponsor", "workAuth.needsSponsorship");
    (includes qLower "authorized" && includes qLower "work", "workAuth.authorizedUS");
    (includes qLower "driver" && includes qLower "license", "workAuth.driverLicense");
    (includes qLower "linkedin", "social.linkedin");
    (includes qLower "website" || includes qLower "portfolio", "social.website");
    (includes qLower "first name" || includes qLower "given name",
     "personal.firstName");
    (includes qLower "last name" || includes qLower "family name"
     || includes qLower "surname", "personal.lastName");
    (includes qLower "email", "personal.email");
    (includes qLower "phone" || includes qLower "mobile", "personal.phone") ].

Definition detectIntent (questionText answer : string) (profile : Profile.t)
  : option string :=
  firstSome (fun t : bool * string => if fst t then Some (snd t) else None)
            (intentTests (toLowerCase questionText) answer profile).

(** [answer.confidence || 0.8] *)
Definition confidenceOr (c : Q) : Q := if Qeq_bool c 0 then 8 # 10 else c.

(** [QuestionMapper.learnFromAIResponse].  A [MappedAnswer] has no
    member [intent], so [answer.canonicalKey || answer.intent] is the
    canonical key when it is a non-empty string.  An error of
    [getValueFromProfile] leaves the function before anything is
    stored. *)
Definition learnFromAIResponse (question : ScannedQuestion) (a : MappedAnswer)
    (profile : Profile.t) : M (Outcome unit) :=
  let provided :=
    match canonicalKey a with
    | Some k => if truthy k then Some k else None
    | None => None
    end in
  let learnVariant (intent : string) : M (Outcome unit) :=
    match getValueFromProfile env profile intent with
    | Throws e => ret (Throws e)
    | Returns canonicalValue =>
        let valueToStore :=
          match ifTruthy canonicalValue with
          | Some canonicalValue => canonicalValue
          | None => answer a
          end in
        do PatternStorage.addPattern env
             (PatternStorage.Draft.mk
                (normalizeQuestion (Scanner.questionText question))
                intent intent
                (Some [PatternStorage.mkMapping valueToStore [answer a]
                         (Some (match Scanner.options question with
                                | Some options => options
                                | None => []
                                end))])
                (Scanner.fieldType question) (confidenceOr (confidence a)) "AI" false)
        then ret (Returns tt)
    end in
  match provided with
  | Some intent =>
      if isNewIntent a then
        do PatternStorage.addPattern env
             (PatternStorage.Draft.mk
                (normalizeQuestion (Scanner.questionText question))
                intent intent
                (match Scanner.options question with
                 | Some options =>
                     Some [PatternStorage.mkMapping (answer a) [answer a] (Some options)]
                 | None => None
                 end)
                (Scanner.fieldType question) (confidenceOr (confidence a))
                "AI-new" true)
        then ret (Returns tt)
      else learnVariant intent
  | None =>
      match detectIntent (Scanner.questionText question) (answer a) profile with
      | Some intent => if truthy intent then learnVariant intent else ret (Returns tt)
      | None => ret (Returns tt)
      end
  end.

(** *** The resolution of a list of questions *)

Definition mapped (q : ScannedQuestion) (result : Result.t) : MappedAnswer :=
  mkAnswer (Scanner.selector q) (Scanner.questionText q) (Result.answer result)
    (Result.source result) (Result.confidence result)
    (Scanner.required q) (Scanner.fieldType q) None (Scanner.options q)
    (Result.fileName result) false None.

(** Phase 1 of [processQuestions]: the loop over the questions, which
    pushes to [mappedAnswers] or to [unmappedForAI]; a throw of
    [tryMapping] leaves the loop and the function. *)
Fixpoint phase1 (profile : Profile.t) (questions : list ScannedQuestion)
    (mappedAnswers : list MappedAnswer) (unmappedForAI : list ScannedQuestion)
  : M (Outcome (list MappedAnswer * list ScannedQuestion)) :=
  match questions with
  | [] => ret (Returns (mappedAnswers, unmappedForAI))
  | q :: rest =>
      let* result := tryMapping q profile in
      match result with
      | Throws e => ret (Throws e)
      | Returns (Some result) =>
          if Qle_bool (85 # 100) (Result.confidence result)
          then phase1 profile rest (mappedAnswers ++ [mapped q result]) unmappedForAI
          else phase1 profile rest mappedAnswers (unmappedForAI ++ [q])
      | Returns None => phase1 profile rest mappedAnswers (unmappedForAI ++ [q])
      end
  end.

(** The learning loop of phase 2: the question at position [i] of
    [unmappedForAI] is paired with the answer at position [i] of
    [aiAnswers], from which the [null] results have been removed; an
    error of [learnFromAIResponse] leaves the loop. *)
Definition learnAll (profile : Profile.t) (unmappedForAI : list ScannedQuestion)
    (aiAnswers : list MappedAnswer) : M (Outcome unit) :=
  forEach (fun qa : ScannedQuestion * MappedAnswer =>
             learnFromAIResponse (fst qa) (snd qa) profile)
          (combine unmappedForAI aiAnswers).

(** [QuestionMapper.processQuestions], given what [loadProfile]
    returned. *)
Definition processQuestions (loaded : option Profile.t)
    (questions : list ScannedQuestion) : M (Outcome (list MappedAnswer)) :=
  match loaded with
  | None => ret (Throws "No profile found. Please complete onboarding.")
  | Some profile =>
      let* sorted := phase1 profile questions [] [] in
      match sorted with
      | Throws e => ret (Throws e)
      | Returns (mappedAnswers, unmappedForAI) =>
          match unmappedForAI with
          | [] => ret (Returns mappedAnswers)
          | _ =>
              let* aiAnswers := requestAIAnswers unmappedForAI profile in
              let* learnt := learnAll profile unmappedForAI aiAnswers in
              match learnt with
              | Throws e => ret (Throws e)
              | Returns _ => ret (Returns (mappedAnswers ++ aiAnswers))
              end
          end
      end
  end.

End WithOracles.

(** *** Vocabulary of the properties of the mapper *)

(** The answer is, up to case, one of the options that came with it;
    nothing is asked of an answer without options. *)
Definition withinOptions (a : MappedAnswer) : Prop :=
  match nonEmptyOptions (options a) with
  | Some opts => exists opt, In opt opts /\ toLowerCase opt = toLowerCase (answer a)
  | None => True
  end.

(** The EEO and compliance intents of the design document (gender,
    ethnicity, veteran status, disability, work authorization, visa
    sponsorship), under the names that [detectIntent] and the profile
    give them. *)
Definition eeoComplianceIntents : list string :=
  [ "eeo.gender"; "eeo.hispanic"; "eeo.veteran"; "eeo.disability"; "eeo.race";
    "workAuth.needsSponsorship"; "workAuth.authorizedUS";
    "workAuthorization.needsSponsorship"; "workAuthorization.authorizedUS" ].

(** An answer for a protected intent: the oracle classified it so, or
    the keyword classification of [detectIntent] does. *)
Definition isProtected (profile : Profile.t) (a : MappedAnswer) : Prop :=
  (exists k, canonicalKey a = Some k /\ In k eeoComplianceIntents)
  \/ (exists k, detectIntent (questionText a) (answer a) profile = Some k
                /\ In k eeoComplianceIntents).

(** Tiers 1 to 3 left the question unresolved: no result, or a result
    whose confidence is below 0.85. *)
Definition unresolved (o : Outcome (option Result.t)) : Prop :=
  o = Returns None
  \/ exists r, o = Returns (Some r)
               /\ Qle_bool (85 # 100) (Result.confidence r) = false.

(** What a result of [matchInOptions] looks like: tagged ['canonical']
    with the given confidence; its answer is the value itself when
    there are no options, and otherwise a non-empty member of the
    options. *)
Definition fromOptions (value : string) (opts : option (list string)) (confidence : Q)
    (r : Result.t) : Prop :=
  Result.source r = canonical /\ Result.confidence r = confidence
  /\ Result.fileName r = None
  /\ match nonEmptyOptions opts with
     | Some options => In (Result.answer r) options /\ truthy (Result.answer r) = true
     | None => Result.answer r = value
     end.

(** Every rule of the canonical tier tags its result ['canonical'] with
    confidence 1. *)
Definition canonicalResult (r : Result.t) : Prop :=
  Result.source r = canonical /\ Result.confidence r = one.

Definition ruleReturns (P : Result.t -> Prop) (rule : Rule) : Prop :=
  forall question profile r,
    rule question profile = Some (Returns (Some r)) -> P r.

(** What a result of the learned tier looks like. *)
Definition learnedFromOptions (question : Scanner.ScannedQuestion)
    (pattern : PatternStorage.LearnedPattern) (r : Result.t) : Prop :=
  Result.source r = learned
  /\ Result.confidence r = PatternStorage.confidence pattern
  /\ forall options,
       nonEmptyOptions (Scanner.options question) = Some options ->
       In (Result.answer r) options.

(** The members of the profile that go through [matchInOptions] in the
    canonical and the fuzzy tier. *)
Definition optionMatched (profile : Profile.t) : list (option string) :=
  [ Profile.member (Profile.personal profile) Profile.Personal.country;
    Profile.member (Profile.eeo profile) Profile.Eeo.gender;
    Profile.member (Profile.eeo profile) Profile.Eeo.hispanic;
    Profile.member (Profile.eeo profile) Profile.Eeo.veteran;
    Profile.member (Profile.eeo profile) Profile.Eeo.disability;
    Profile.member (Profile.eeo profile) Profile.Eeo.race;
    Profile.member (Profile.personal profile) Profile.Personal.gender ].

(** None of them is, trimmed and in lower case, the name of a member of
    [Object.prototype]. *)
Definition plainProfile (profile : Profile.t) : Prop :=
  forall v, In (Some v) (optionMatched profile) ->
            member (trim (toLowerCase v)) objectPrototypeKeys = false.

Definition ruleNeverThrows (profile : Profile.t) (rule : Rule) : Prop :=
  forall question e, rule question profile <> Some (Throws e).

(** *** The fill plan *)

(** [QuestionMapper.isGenericIntent] *)
Definition genericIntents : list string :=
  [ "eeo.gender"; "eeo.hispanic"; "eeo.veteran"; "eeo.disability"; "eeo.race";
    "workAuth.sponsorship"; "workAuth.usAuthorized"; "workAuth.driverLicense";
    "location.country"; "location.state"; "application.hasRelatives" ].

Definition isGenericIntent (intent : string) : bool := member intent genericIntents.

Definition typeMap : list (string * string) :=
  [ ("text", "input_text"); ("email", "input_text"); ("tel", "input_text");
    ("number", "input_text"); ("textarea", "input_text");
    ("select", "dropdown_native"); ("dropdown_custom", "dropdown_custom");
    ("radio", "radio"); ("checkbox", "checkbox"); ("date", "input_text");
    ("file", "input_file") ].

(** [QuestionMapper.mapFieldTypeToAction]: [typeMap[fieldType] ||
    'input_text'].  The result is a string ([Own]), except for a field
    type that names a member of [Object.prototype]: the lookup finds that
    member, which is truthy, and the function returns it ([Inherited]). *)
Definition mapFieldTypeToAction (fieldType : string) : Lookup string :=
  match lookup typeMap fieldType with
  | Own action => if truthy action then Own action else Own "input_text"
  | Inherited => Inherited
  | Missing => Own "input_text"
  end.

(** An entry of the [actions] of a fill plan. *)
Module Action.
Record t := mk {
  id : string;
  type : Lookup string;
  selector : string;
  value : string;
  required : bool;
  fileName : option string
}.
End Action.

Module FillPlan.
Record t := mk {
  jobUrl : string;
  actions : list Action.t
}.
End FillPlan.

(** [profile.documents?.which?.fileName] as a condition *)
Definition documentName (profile : Profile.t)
    (which : Profile.Documents.t -> option Profile.Document.t) : option string :=
  match Profile.member (Profile.documents profile) which with
  | Some document => Profile.truthyMember (Some document) Profile.Document.fileName
  | None => None
  end.

(** The file name that [convertToFillPlan] adds to an action. *)
Definition planFileName (loaded : option Profile.t) (a : MappedAnswer) : option string :=
  match loaded with
  | Some profile =>
      if String.eqb (fieldType a) "file" then
        match (if includes (selector a) "resume"
               then documentName profile Profile.Documents.resume else None) with
        | Some name => Some name
        | None =>
            if includes (selector a) "cover"
            then documentName profile Profile.Documents.coverLetter
            else None
        end
      else None
  | None => None
  end.

(** [QuestionMapper.convertToFillPlan], given what [loadProfile]
    returned. *)
Definition convertToFillPlan (loaded : option Profile.t) (answers : list MappedAnswer)
    (jobUrl : string) : FillPlan.t :=
  FillPlan.mk jobUrl
    (map (fun a =>
            Action.mk (selector a) (mapFieldTypeToAction (fieldType a)) (selector a)
              (answer a) (required a) (planFileName loaded a))
         answers).

(** *** Vocabulary of the properties of the answers *)

(** The question that an answer is for, as the answer records it. *)
Definition questionOf (a : MappedAnswer) : ScannedQuestion :=
  Scanner.mkQuestion (questionText a) (fieldType a) (options a) (required a)
    (selector a).

(** The members of the profile that [detectIntent] compares an answer
    with, each with the intent it returns. *)
Definition profileIntents (profile : Profile.t) : list (option string * string) :=
  [ (Profile.member (Profile.eeo profile) Profile.Eeo.gender, "eeo.gender");
    (Profile.member (Profile.eeo profile) Profile.Eeo.hispanic, "eeo.hispanic");
    (Profile.member (Profile.eeo profile) Profile.Eeo.veteran, "eeo.veteran");
    (Profile.member (Profile.eeo profile) Profile.Eeo.disability, "eeo.disability");
    (Profile.member (Profile.eeo profile) Profile.Eeo.race, "eeo.race");
    (Profile.member (Profile.personal profile) Profile.Personal.firstName,
     "personal.firstName");
    (Profile.member (Profile.personal profile) Profile.Personal.lastName,
     "personal.lastName");
    (Profile.member (Profile.personal profile) Profile.Personal.email,
     "personal.email");
    (Profile.member (Profile.personal profile) Profile.Personal.phone,
     "personal.phone");
    (Profile.member (Profile.personal profile) Profile.Personal.city,
     "personal.city");
    (Profile.member (Profile.personal profile) Profile.Personal.state,
     "personal.state");
    (Profile.member (Profile.personal profile) Profile.Personal.country,
     "personal.country");
    (Profile.member (Profile.social profile) Profile.Social.linkedin,
     "social.linkedin");
    (Profile.member (Profile.social profile) Profile.Social.website,
     "social.website") ].

(** The intent under which [learnFromAIResponse] stores an answer: the
    canonical key of the answer when it is a non-empty string, and
    otherwise what [detectIntent] finds; nothing is stored without
    one. *)
Definition learnedIntent (question : ScannedQuestion) (a : MappedAnswer)
    (profile : Profile.t) : option string :=
  match (match canonicalKey a with
         | Some k => if truthy k then Some k else None
         | None => None
         end) with
  | Some k => Some k
  | None =>
      match detectIntent (Scanner.questionText question) (answer a) profile with
      | Some intent => if truthy intent then Some intent else None
      | None => None
      end
  end.

(** The test of [searchPatterns] for a question text against the
    pattern that the learning step stores for that text: equal to its
    normal form up to case, or similar to it by 70% of the words. *)
Definition matchesOwnPattern (questionText : string) : bool :=
  String.eqb (toLowerCase (normalizeQuestion questionText)) (toLowerCase questionText)
  || Qle_bool (7 # 10)
       (PatternStorage.calculateSimilarity (toLowerCase questionText)
          (toLowerCase (normalizeQuestion questionText))).

Definition fromAI (a : MappedAnswer) : bool :=
  match source a with
  | AI => true
  | _ => false
  end.

(** The characters that [normalizeQuestion] removes. *)
Definition isRemoved (c : ascii) : bool :=
  Ascii.eqb c "*" || Ascii.eqb c "?" || Ascii.eqb c "!".

(** *** Vocabulary of the phases of [processQuestions] *)

(** The world in which phase 1 takes up the question at position [k]
    of its list: the world that the questions before it have left. *)
Fixpoint worldAt (env : PatternStorage.Env) (profile : Profile.t)
    (questions : list ScannedQuestion) (k : nat) (w : PatternStorage.World)
  : PatternStorage.World :=
  match questions, k with
  | q :: rest, S k => worldAt env profile rest k (snd (tryMapping env q profile w))
  | _, _ => w
  end.

(** What tiers 1 to 3 return for the question [q] at position [k]. *)
Definition tiersAt (env : PatternStorage.Env) (profile : Profile.t)
    (questions : list ScannedQuestion) (k : nat) (q : ScannedQuestion)
    (w : PatternStorage.World) : Outcome (option Result.t) :=
  fst (tryMapping env q profile (worldAt env profile questions k w)).

(** The test of phase 1 on a result: [result.confidence >= 0.85]. *)
Definition confident (r : Result.t) : bool :=
  Qle_bool (85 # 100) (Result.confidence r).

(** The intents that [processQuestions] reads in the profile are read
    without throwing: the intents of the stored patterns, and the
    intents that the oracle gives.  (The reading of an intent throws
    only in a built-in member of the engine, as for the intent
    ["constructor.caller"].) *)
Definition intentsReadable (env : PatternStorage.Env)
    (askAI : nat -> Request.t -> option Response.t) (profile : Profile.t)
    (w : PatternStorage.World) : Prop :=
  (forall p, In p (PatternStorage.learnedPatterns w) ->
             threw (getValueFromProfile env profile (PatternStorage.intent p)) = false)
  /\ (forall i request response k,
        askAI i request = Some response -> Response.intent response = Some k ->
        threw (getValueFromProfile env profile k) = false).

(** *** Vocabulary of the canonical rules *)

(** The four forms of the rules of [tryCanonical]: the value of the
    profile as it is, the value matched against the options by
    [matchInOptions], a boolean turned into an option by
    [booleanToYesNo], and the two file uploads. *)
Inductive RuleKind : Type := Direct | OptionMatched | YesNo | File.

Definition hasKind (rule : Rule) (kind : RuleKind) : Prop :=
  match kind with
  | Direct =>
      exists (S : Type) keyword (section : Profile.t -> option S) field,
        rule = directRule keyword section field
  | OptionMatched =>
      exists (S : Type) keyword (section : Profile.t -> option S) field,
        rule = optionRule keyword section field
  | YesNo =>
      exists (S : Type) keyword (section : Profile.t -> option S) field,
        rule = booleanRule keyword section field
  | File => rule = resumeRule \/ rule = coverLetterRule
  end.

(** The forms of the rules of [canonicalRules], in their order. *)
Definition canonicalKinds : list RuleKind :=
  [ Direct; Direct; Direct; Direct; OptionMatched; Direct; Direct; Direct; Direct;
    File; File;
    YesNo; YesNo; YesNo; YesNo; YesNo;
    OptionMatched; OptionMatched; OptionMatched; OptionMatched; OptionMatched ].

(** The form of the first rule that applies to a question, that is,
    of the rule whose [return] ends [tryCanonical]. *)
Fixpoint firstKind (rules : list Rule) (kinds : list RuleKind)
    (question : ScannedQuestion) (profile : Profile.t) : option RuleKind :=
  match rules, kinds with
  | rule :: rules, kind :: kinds =>
      match rule question profile with
      | Some _ => Some kind
      | None => firstKind rules kinds question profile
      end
  | _, _ => None
  end.

Definition appliedKind (question : ScannedQuestion) (profile : Profile.t)
  : option RuleKind :=
  firstKind canonicalRules canonicalKinds question profile.

(** What [booleanToYesNo] makes of non-empty options: an option that
    reads as a yes or as a no, or the literal when no option does. *)
Definition yesOrNo (opts : list string) (answer : string) : Prop :=
  (In answer opts /\ (isYesOption answer = true \/ isNoOption answer = true))
  \/ (answer = "Yes" /\ findTruthy isYesOption opts = None)
  \/ (answer = "No" /\ findTruthy isNoOption opts = None).
End QuestionMapper.

(** ** The autofill runner *)

Module AutofillRunner.
Import Js Effect.
Local Open Scope effect_scope.

Record ResolvedField := mkField {
  questionId : option string;
  questionText : string;
  canonicalKey : option string;
  fieldType : string;
  value : string;
  confidence : option Q;
  selector : option string;
  options : option (list string);
  fileName : option string
}.

Record FillPayload := mkPayload {
  url : string;
  fields : list ResolvedField;
  jobId : option string;
  runId : string
}.

(** An entry of the [results] array of [runAutofill]. *)
Module Item.
Record t := mk {
  questionText : string;
  ok : bool;
  reason : option string
}.
End Item.

(** The payload of a [FIELD_FILL_FAILED] message. *)
Module Failure.
Record t := mk {
  runId : string;
  url : string;
  jobId : option string;
  code : string;
  field : ResolvedField
}.
End Failure.

(** The variables of [runAutofill], the detail of the
    [AUTOFILL_COMPLETE_EVENT] it dispatches at the end, and the messages
    handed to [chrome.runtime.sendMessage]. *)
Record Run := mkRun {
  results : list Item.t;
  successes : nat;
  failures : nat;
  sent : list Failure.t;
  completed : option (nat * nat)
}.

Definition start : Run := mkRun [] 0 0 [] None.

Section WithPage.
(** The page: the fields that [detectFieldsInCurrentDOM] returned, the
    matcher [bestMatchField] of [fieldMatching], which returns a detected
    field or [null], and [fillField], whose result for the field at a
    position of the payload is its [success] flag, unless it throws.
    These three are not among the sources. *)
Variable Detected : Type.
Variable detected : list Detected.
Variable bestMatchField : list Detected -> string -> option string -> option Detected.
Variable fillField : nat -> Detected -> ResolvedField -> Outcome bool.

Definition M (A : Type) : Type := State Run A.

Definition pushResult (item : Item.t) : M unit :=
  fun r => (tt, mkRun (results r ++ [item]) (successes r) (failures r)
                      (sent r) (completed r)).

Definition countSuccess : M unit :=
  fun r => (tt, mkRun (results r) (S (successes r)) (failures r)
                      (sent r) (completed r)).

Definition countFailure : M unit :=
  fun r => (tt, mkRun (results r) (successes r) (S (failures r))
                      (sent r) (completed r)).

(** [reportFieldFailed]: the message is handed over; an error of the
    channel is caught and logged. *)
Definition reportFieldFailed (payload : FillPayload) (rf : ResolvedField)
    (code : string) : M unit :=
  fun r => (tt, mkRun (results r) (successes r) (failures r)
                      (sent r ++ [Failure.mk (runId payload) (url payload)
                                    (jobId payload) code rf])
                      (completed r)).

Definition complete : M unit :=
  fun r => (tt, mkRun (results r) (successes r) (failures r) (sent r)
                      (Some (successes r, failures r))).

(** [fillMatchedField]: the [success] flag of [fillField], [false]
    when it throws. *)
Definition fillMatchedField (i : nat) (match_ : Detected) (rf : ResolvedField) : bool :=
  match fillField i match_ rf with
  | Returns success => success
  | Throws _ => false
  end.

(** One round of the loop of [runAutofill], for the field at position
    [i] of the payload. *)
Definition fillOne (payload : FillPayload) (i : nat) (rf : ResolvedField) : M unit :=
  match bestMatchField detected (questionText rf) (canonicalKey rf) with
  | None =>
      do pushResult (Item.mk (questionText rf) false (Some "No DOM match")) then
      do reportFieldFailed payload rf "NO_DOM_MATCH" then
      countFailure
  | Some match_ =>
      let ok := fillMatchedField i match_ rf in
      do pushResult (Item.mk (questionText rf) ok None) then
      if ok then countSuccess
      else
        do reportFieldFailed payload rf "FILL_VERIFY_FAILED" then
        countFailure
  end.

Fixpoint fillFrom (payload : FillPayload) (i : nat) (rest : list ResolvedField)
  : M unit :=
  match rest with
  | [] => ret tt
  | rf :: rest' =>
      do fillOne payload i rf then
      fillFrom payload (S i) rest'
  end.

(** [runAutofill] *)
Definition runAutofill (payload : FillPayload) : M unit :=
  do fillFrom payload 0 (fields payload) then
  complete.

(** *** Vocabulary of the properties of a run *)

(** The entry and the messages that one round contributes. *)
Definition itemFor (i : nat) (rf : ResolvedField) : Item.t :=
  match bestMatchField detected (questionText rf) (canonicalKey rf) with
  | None => Item.mk (questionText rf) false (Some "No DOM match")
  | Some match_ => Item.mk (questionText rf) (fillMatchedField i match_ rf) None
  end.

Definition failureFor (payload : FillPayload) (i : nat) (rf : ResolvedField)
  : list Failure.t :=
  match bestMatchField detected (questionText rf) (canonicalKey rf) with
  | None =>
      [Failure.mk (runId payload) (url payload) (jobId payload) "NO_DOM_MATCH" rf]
  | Some match_ =>
      if fillMatchedField i match_ rf then []
      else [Failure.mk (runId payload) (url payload) (jobId payload)
              "FILL_VERIFY_FAILED" rf]
  end.

Fixpoint itemsFrom (i : nat) (rest : list ResolvedField) : list Item.t :=
  match rest with
  | [] => []
  | rf :: rest' => itemFor i rf :: itemsFrom (S i) rest'
  end.

Fixpoint failuresFrom (payload : FillPayload) (i : nat) (rest : list ResolvedField)
  : list Failure.t :=
  match rest with
  | [] => []
  | rf :: rest' => failureFor payload i rf ++ failuresFrom payload (S i) rest'
  end.

Definition countOk (items : list Item.t) : nat :=
  length (List.filter Item.ok items).

Definition countNotOk (items : list Item.t) : nat :=
  length (List.filter (fun item => negb (Item.ok item)) items).

End WithPage.


(** *** Field types *)

(** The members of the enumeration [FieldType] that the runner names;
    its declaration ([types/fieldDetection]) is not among the
    sources. *)
Inductive FieldType : Type :=
| TEXT | TEXTAREA | EMAIL | PHONE | NUMBER | DATE | RADIO_GROUP | CHECKBOX
| SELECT_NATIVE | DROPDOWN_CUSTOM | FILE_UPLOAD | MULTISELECT.

(** [mapSeleniumTypeToFieldType] *)
Definition mapSeleniumTypeToFieldType (seleniumType : string) : FieldType :=
  let type := toLowerCase seleniumType in
  if includes type "dropdown" || includes type "select"
     || String.eqb type "dropdown_custom"
  then DROPDOWN_CUSTOM
  else if String.eqb type "select_native" then SELECT_NATIVE
  else if String.eqb type "textarea" then TEXTAREA
  else if String.eqb type "email" then EMAIL
  else if String.eqb type "phone" then PHONE
  else if String.eqb type "number" then NUMBER
  else if String.eqb type "radio" || String.eqb type "radio_group" then RADIO_GROUP
  else if String.eqb type "checkbox" then CHECKBOX
  else if String.eqb type "date" then DATE
  else if String.eqb type "file" || String.eqb type "file_upload" then FILE_UPLOAD
  else if String.eqb type "multiselect" then MULTISELECT
  else TEXT.

(** [mapFieldType] *)
Definition mapFieldType (kind : string) : FieldType :=
  if String.eqb kind "TEXT" then TEXT
  else if String.eqb kind "TEXTAREA" then TEXTAREA
  else if String.eqb kind "SELECT_NATIVE" then SELECT_NATIVE
  else if String.eqb kind "DROPDOWN_CUSTOM" then DROPDOWN_CUSTOM
  else if String.eqb kind "RADIO" then RADIO_GROUP
  else if String.eqb kind "CHECKBOX" then CHECKBOX
  else if String.eqb kind "DATE" then DATE
  else if String.eqb kind "FILE" then FILE_UPLOAD
  else TEXT.
End AutofillRunner.

(** * Properties *)

(** ** The embedding on the scenarios of the design document *)

Section Scenarios.
Import Js.

Let env : PatternStorage.Env :=
  PatternStorage.mkEnv (fun _ => "2026-01-01T00:00:00.000Z")
    (fun _ => "1767225600000") (fun _ => "k3j9x0a1b").

Let silent (_ : nat) (_ : QuestionMapper.Request.t) : option QuestionMapper.Response.t :=
  None.

Let asha : Profile.t :=
  Profile.mk
    (Some (Profile.Personal.mk (Some "Asha") (Some "Rao") (Some "asha@example.org")
             None (Some "USA") None None None))
    (Some (Profile.Eeo.mk (Some "Male") None None None None))
    (Some (Profile.WorkAuthorization.mk None (Some false) (Some true)))
    None None None None.

Let empty : PatternStorage.World := PatternStorage.mkWorld [] 0 0.

Example split_on_blanks :
  splitWs " are  you	authorized " = [""; "are"; "you"; "authorized"; ""].
Proof. reflexivity. Qed.

Example trim_lower : trim (toLowerCase "  First Name * ") = "first name *".
Proof. reflexivity. Qed.

Example similarity_of_four_in_five :
  PatternStorage.calculateSimilarity "what is your gender identity" "what is your gender"
  = (4 # 5)%Q.
Proof. reflexivity. Qed.

Example native_select_is_select :
  Scanner.detectFieldType
    (Scanner.mkElement (Scanner.Elem "select" [("id", "country")] []) [])
  = "select".
Proof. reflexivity. Qed.

Example unknown_input_type_is_text :
  Scanner.detectFieldType
    (Scanner.mkElement (Scanner.Elem "input" [("type", "Sparkle")] []) [])
  = "text".
Proof. reflexivity. Qed.

(** Scenario A: a first-name text field. *)
Example scenario_first_name :
  fst (QuestionMapper.processQuestions env silent (Some asha)
         [Scanner.mkQuestion "First Name" "text" None true "#first_name"] empty)
  = Returns [QuestionMapper.mkAnswer "#first_name" "First Name" "Asha"
               QuestionMapper.canonical 1 true "text" None None None false None].
Proof. reflexivity. Qed.

(** Scenario B: the synonym table maps "male" to the option "Man". *)
Example scenario_gender_synonym :
  QuestionMapper.tryCanonical
    (Scanner.mkQuestion "Gender" "dropdown_custom"
       (Some ["Man"; "Woman"; "Non-binary"; "Decline to self-identify"]) false "#gender")
    asha
  = Returns (Some (QuestionMapper.Result.mk "Man" QuestionMapper.canonical 1 None)).
Proof. reflexivity. Qed.

(** Scenario C: a yes/no radio group answered from a boolean. *)
Example scenario_work_authorization :
  QuestionMapper.tryCanonical
    (Scanner.mkQuestion "Are you authorized to work in the United States?" "radio"
       (Some ["Yes"; "No"]) true "#auth")
    asha
  = Returns (Some (QuestionMapper.Result.mk "Yes" QuestionMapper.canonical 1 None)).
Proof. reflexivity. Qed.

(** The country "USA" against a list of dialling prefixes: the
    abbreviation table finds "United States +1". *)
Example country_abbreviation :
  QuestionMapper.matchInOptions "USA" (Some ["India +91"; "United States +1"]) 1
  = Returns (Some (QuestionMapper.Result.mk "United States +1"
                     QuestionMapper.canonical 1 None)).
Proof. reflexivity. Qed.

(** An empty option satisfies the containment test of the partial match
    and, being falsy, ends it without a match. *)
Example empty_option_hides_later_ones :
  QuestionMapper.matchInOptions "Other" (Some [""; "Another one"]) 1 = Returns None.
Proof. reflexivity. Qed.

End Scenarios.

(** ** The scanner: deduplication *)

Section Deduplication.
Import Js Scanner.

Implicit Types (seen : gset string) (q : ScannedQuestion)
  (questions built : list ScannedQuestion).

Lemma dedupFrom_elem seen questions q :
  q ∈ dedupFrom seen questions -> q ∈ questions /\ dedupKey q ∉ seen.
Proof.
  revert seen. induction questions as [|q0 rest IH]; intros seen; simpl.
  - intros H. inversion H.
  - destruct (decide (dedupKey q0 ∈ seen)) as [Hin|Hout].
    + intros H. pose proof (IH _ H) as [? ?]. split; [by right | done].
    + intros H. apply elem_of_cons in H as [->|H].
      * split; [by left | done].
      * pose proof (IH _ H) as [? Hk]. split; [by right |].
        intros ?. apply Hk, elem_of_union. by right.
Qed.

Lemma dedupFrom_NoDup seen questions :
  NoDup (map dedupKey (dedupFrom seen questions)).
Proof.
  revert seen. induction questions as [|q0 rest IH]; intros seen; simpl.
  - constructor.
  - destruct (decide (dedupKey q0 ∈ seen)); [apply IH |].
    simpl. constructor; [| apply IH].
    intros Hin. apply list_elem_of_fmap in Hin as (q' & Hk & Hq').
    apply dedupFrom_elem in Hq' as [_ Hout]. rewrite <- Hk in Hout.
    set_solver.
Qed.

Lemma dedupFrom_sublist seen questions :
  sublist (dedupFrom seen questions) questions.
Proof.
  revert seen. induction questions as [|q0 rest IH]; intros seen; simpl.
  - constructor.
  - destruct (decide (dedupKey q0 ∈ seen)).
    + by apply sublist_cons.
    + by apply sublist_skip.
Qed.

(** What the filter decides for the question it reaches last. *)
Lemma dedupFrom_snoc seen questions q :
  dedupFrom seen (questions ++ [q]) =
  if decide (dedupKey q ∈ seen \/ dedupKey q ∈ map dedupKey questions)
  then dedupFrom seen questions
  else dedupFrom seen questions ++ [q].
Proof.
  revert seen. induction questions as [|q0 rest IH]; intros seen; simpl.
  - destruct (decide (dedupKey q ∈ seen)) as [Hin|Hout].
    + rewrite decide_True; [done | by left].
    + rewrite decide_False; [done |]. intros [?|H]; [done | inversion H].
  - destruct (decide (dedupKey q0 ∈ seen)) as [Hin|Hout]; rewrite IH.
    + apply decide_ext. rewrite elem_of_cons. split.
      * intros [?|?]; [by left | right; by right].
      * intros [?|[E|?]]; [by left | left; by rewrite E | by right].
    + destruct (decide (dedupKey q ∈ {[dedupKey q0]} ∪ seen
                        \/ dedupKey q ∈ map dedupKey rest)) as [Hyes|Hno].
      * rewrite decide_True; [done |]. rewrite elem_of_cons.
        destruct Hyes as [Hyes|?]; [| right; by right].
        apply elem_of_union in Hyes as [Hyes|?]; [| by left].
        apply elem_of_singleton in Hyes. right; by left.
      * rewrite decide_False; [done |]. rewrite elem_of_cons.
        intros [?|[E|?]]; apply Hno.
        -- left. set_solver.
        -- left. set_solver.
        -- by right.
Qed.

Lemma deduplicateQuestions_snoc built q :
  deduplicateQuestions (built ++ [q]) =
  if decide (dedupKey q ∈ map dedupKey built)
  then deduplicateQuestions built
  else deduplicateQuestions built ++ [q].
Proof.
  unfold deduplicateQuestions. rewrite dedupFrom_snoc.
  apply decide_ext. split; [| by right].
  intros [H|H]; [| done]. by apply not_elem_of_empty in H.
Qed.

(** The first question with a given key survives. *)
Lemma dedupFrom_first seen before q after :
  dedupKey q ∉ seen -> dedupKey q ∉ map dedupKey before ->
  q ∈ dedupFrom seen (before ++ q :: after).
Proof.
  revert seen. induction before as [|q0 rest IH]; intros seen Hseen Hbefore; simpl.
  - rewrite decide_False by done. by left.
  - simpl in Hbefore. apply not_elem_of_cons in Hbefore as [Hne Hrest].
    destruct (decide (dedupKey q0 ∈ seen)).
    + by apply IH.
    + right. apply IH; [| done].
      intros [E%elem_of_singleton|?]%elem_of_union; done.
Qed.

End Deduplication.

(** C7.  The list that [FormScanner.scan] returns holds no two questions
    whose texts are equal after lower-casing and trimming.  It is the
    deduplication of the list built from the fields, which keeps the order
    of the enumeration and decides for each question when it reaches it:
    the question is kept exactly when no earlier question has the same
    key.  So the first question with a key is in the result, and every
    later one with that key is removed. *)
Theorem scan_deduplicates
    (findAllFormFields : Js.Outcome (list Scanner.Element))
    (getQuestionText : Scanner.Element -> string)
    (isRequired : Scanner.Element -> bool)
    (generateSelector : Scanner.Element -> string)
    (extractDropdownOptions : Scanner.Element -> Js.Outcome (list string))
    (fields : list Scanner.Element)
    (built : list Scanner.ScannedQuestion) :
  let scan found :=
    Scanner.scan found getQuestionText isRequired generateSelector
      extractDropdownOptions in
  NoDup (map Scanner.dedupKey (scan findAllFormFields))
  /\ scan (Js.Returns fields)
     = Scanner.deduplicateQuestions
         (Scanner.collect getQuestionText isRequired generateSelector
            extractDropdownOptions fields)
  /\ NoDup (map Scanner.dedupKey (Scanner.deduplicateQuestions built))
  /\ sublist (Scanner.deduplicateQuestions built) built
  /\ (forall q,
        Scanner.deduplicateQuestions (built ++ [q]) =
        if decide (Scanner.dedupKey q ∈ map Scanner.dedupKey built)
        then Scanner.deduplicateQuestions built
        else Scanner.deduplicateQuestions built ++ [q])
  /\ (forall before q after,
        built = before ++ q :: after ->
        Scanner.dedupKey q ∉ map Scanner.dedupKey before ->
        q ∈ Scanner.deduplicateQuestions built).
Proof.
  intros scan. repeat split.
  - unfold scan, Scanner.scan. destruct findAllFormFields; [constructor |].
    apply dedupFrom_NoDup.
  - apply dedupFrom_NoDup.
  - apply dedupFrom_sublist.
  - intros q. apply deduplicateQuestions_snoc.
  - intros before q after -> Hfirst.
    apply dedupFrom_first; [set_solver | done].
Qed.

(** A page with three labelled inputs, two of them with the same label up
    to case and surrounding blanks. *)
Lemma scan_deduplicates_witness :
  let input id label :=
    Scanner.mkElement
      (Scanner.Elem "input" [("type", "text"); ("id", id); ("aria-label", label)] [])
      [] in
  let label e :=
    match Scanner.getAttribute (Scanner.self e) "aria-label" with
    | Some l => Js.trim l
    | None => ""
    end in
  let selector e :=
    match Scanner.getAttribute (Scanner.self e) "id" with
    | Some i => "#" +:+ i
    | None => ""
    end in
  let page := [input "a" "Email "; input "b" "Phone"; input "c" " EMAIL"] in
  let q1 := Scanner.mkQuestion "Email" "text" None false "#a" in
  let q2 := Scanner.mkQuestion "Phone" "text" None false "#b" in
  let q3 := Scanner.mkQuestion "EMAIL" "text" None false "#c" in
  Scanner.scan (Js.Returns page) label (fun _ => false) selector
    (fun _ => Js.Returns []) = [q1; q2]
  /\ q1 ∈ Scanner.deduplicateQuestions [q1; q2; q3].
Proof.
  intros input label selector page q1 q2 q3. split; [reflexivity |].
  refine (proj2 (proj2 (proj2 (proj2 (proj2
            (scan_deduplicates (Js.Returns page) label (fun _ => false) selector
               (fun _ => Js.Returns []) page [q1; q2; q3])))))
          [] q1 [q2; q3] _ _).
  - reflexivity.
  - simpl. apply not_elem_of_nil.
Defined.

(** ** The scanner: classification of a field *)

Section Classification.
Import Js Scanner.

(** Induction on the document tree. *)
Lemma Node_tree_ind (P : Node -> Prop) :
  (forall t a cs, Forall P cs -> P (Elem t a cs)) -> forall n, P n.
Proof.
  intros step.
  refine (fix self (n : Node) : P n :=
            match n with
            | Elem t a cs =>
                step t a cs
                  ((fix all (l : list Node) : Forall P l :=
                      match l with
                      | [] => @List.Forall_nil _ P
                      | c :: r => @List.Forall_cons _ P c r (self c) (all r)
                      end) cs)
            end).
Qed.

Lemma attrIs_spec n name value :
  attrIs n name value = true <-> getAttribute n name = Some value.
Proof.
  unfold attrIs. destruct (getAttribute n name) as [v|]; [| by split].
  rewrite String.eqb_eq. split; [by intros -> | by intros [= ->]].
Qed.

Lemma querySelector_sound sel n d :
  querySelector sel n = Some d -> Descendant d n /\ sel d = true.
Proof.
  revert d. induction n as [t a cs IH] using Node_tree_ind. intros d. simpl.
  induction IH as [|c r Hc _ IHr]; [done |].
  destruct (sel c) eqn:Hsel.
  - intros [= <-]. split; [| done]. apply Descendant_child. by left.
  - destruct (querySelector sel c) as [d'|] eqn:Hq.
    + intros [= <-]. destruct (Hc _ eq_refl) as [Hd Hs]. split; [| done].
      apply Descendant_deeper with c; [by left | done].
    + intros H. destruct (IHr H) as [Hd Hs]. split; [| done].
      inversion Hd; subst.
      * apply Descendant_child. by right.
      * apply Descendant_deeper with c0; [by right | done].
Qed.

Lemma querySelector_complete sel n d :
  Descendant d n -> sel d = true -> isSome (querySelector sel n) = true.
Proof.
  intros Hd Hs. induction Hd as [d n Hin | d c n Hin Hd IH].
  - destruct n as [t a cs]. simpl in *.
    induction cs as [|c r IHr]; [done |].
    destruct (sel c) eqn:Hc; [done |].
    destruct (querySelector sel c); [done |].
    destruct Hin as [->|Hin]; [congruence |]. by apply IHr.
  - destruct n as [t a cs]. simpl in *.
    induction cs as [|c' r IHr]; [done |].
    destruct (sel c') eqn:Hc; [done |].
    destruct Hin as [->|Hin].
    + destruct (querySelector sel c); [done |]. by specialize (IH Hs).
    + destruct (querySelector sel c'); [done | by apply IHr].
Qed.

Lemma querySelector_spec sel n :
  isSome (querySelector sel n) = true <-> exists d, Descendant d n /\ sel d = true.
Proof.
  split.
  - destruct (querySelector sel n) as [d|] eqn:Hq; [| done].
    intros _. exists d. by apply querySelector_sound.
  - intros (d & Hd & Hs). by apply querySelector_complete with d.
Qed.

Lemma closest_spec sel e :
  isSome (closest sel e) = true <->
  sel (self e) = true \/ exists a, In a (ancestors e) /\ sel a = true.
Proof.
  unfold closest. split.
  - destruct (find sel (self e :: ancestors e)) as [a|] eqn:Hf; [| done].
    intros _. apply find_some in Hf as [[<-|Hin] Hs]; [by left |].
    right. by exists a.
  - intros H.
    destruct (find sel (self e :: ancestors e)) as [a|] eqn:Hf; [done |].
    exfalso. destruct H as [Hs|(a & Hin & Hs)].
    + pose proof (find_none _ _ Hf (self e) (or_introl eq_refl)). congruence.
    + pose proof (find_none _ _ Hf a (or_intror Hin)). congruence.
Qed.

Lemma selInputRoleCombobox_role n :
  selInputRoleCombobox n = true -> selRoleCombobox n = true.
Proof. unfold selInputRoleCombobox. by intros [_ ?]%andb_true_iff. Qed.

(** When the first test of [detectFieldType] holds. *)
Lemma dropdown_test_spec e :
  attrIs (self e) "role" "combobox"
  || attrIs (self e) "aria-haspopup" "listbox"
  || isSome (closest selRoleCombobox e)
  || isSome (querySelector selRoleCombobox (self e))
  || isSome (querySelector selInputRoleCombobox (self e)) = true
  <->
  hasRoleCombobox (self e) \/ hasPopupListbox (self e)
  \/ (exists a, In a (ancestors e) /\ hasRoleCombobox a)
  \/ (exists d, Descendant d (self e) /\ hasRoleCombobox d).
Proof.
  unfold hasRoleCombobox, hasPopupListbox.
  rewrite !orb_true_iff, closest_spec, !querySelector_spec, !attrIs_spec.
  unfold selRoleCombobox at 1. rewrite attrIs_spec.
  split.
  - intros [[[[H|H]|[H|(a & Hin & H)]]|(d & Hd & H)]|(d & Hd & H)].
    + by left.
    + right; by left.
    + by left.
    + right; right; left. exists a. split; [done |]. by apply attrIs_spec.
    + right; right; right. exists d. split; [done |]. by apply attrIs_spec.
    + right; right; right. exists d. split; [done |].
      by apply attrIs_spec, selInputRoleCombobox_role.
  - intros [H|[H|[(a & Hin & H)|(d & Hd & H)]]].
    + left; left; left; by left.
    + left; left; left; by right.
    + left; left; right; right. exists a. split; [done |]. by apply attrIs_spec.
    + left; right. exists d. split; [done |]. by apply attrIs_spec.
Qed.

End Classification.

(** C8, as the claim states it, fails: [aria-haspopup="listbox"] on an
    enclosing ancestor is not a signal that [detectFieldType] looks at.  A
    text input inside such an element is classified ['text']. *)
Lemma detectFieldType_popup_ancestor_not_dropdown :
  let input := Scanner.Elem "input" [("type", "text")] [] in
  let wrapper := Scanner.Elem "div" [("aria-haspopup", "listbox")] [input] in
  let element := Scanner.mkElement input [wrapper] in
  Scanner.carriesDropdownSignal element
  /\ Scanner.detectFieldType element = "text"
  /\ ~ (forall e, Scanner.carriesDropdownSignal e ->
                  Scanner.detectFieldType e = "dropdown_custom").
Proof.
  intros input wrapper element.
  assert (Hc : Scanner.carriesDropdownSignal element).
  { right; left. exists wrapper. split; [by left |]. by right. }
  split; [exact Hc |]. split; [reflexivity |].
  intros H. specialize (H element Hc). discriminate H.
Qed.

(** C8, amended.  [detectFieldType] tests the custom-dropdown signals
    before the element's own tag and input type: an element is classified
    ['dropdown_custom'] exactly when it has [role="combobox"] itself, on an
    enclosing ancestor or on a descendant, or has
    [aria-haspopup="listbox"] itself - whatever its tag and its [type]
    attribute are.  In particular [<input type="text" role="combobox">] is
    ['dropdown_custom'], not ['text']. *)
Theorem detectFieldType_dropdown_first (e : Scanner.Element) :
  (Scanner.detectFieldType e = "dropdown_custom"
   <->
   Scanner.hasRoleCombobox (Scanner.self e)
   \/ Scanner.hasPopupListbox (Scanner.self e)
   \/ (exists a, In a (Scanner.ancestors e) /\ Scanner.hasRoleCombobox a)
   \/ (exists d, Scanner.Descendant d (Scanner.self e) /\ Scanner.hasRoleCombobox d))
  /\ (forall others ancestors,
        Scanner.detectFieldType
          (Scanner.mkElement
             (Scanner.Elem "input" (("type", "text") :: ("role", "combobox") :: others) [])
             ancestors)
        = "dropdown_custom").
Proof.
  split.
  - rewrite <- dropdown_test_spec. unfold Scanner.detectFieldType.
    destruct (_ || _ || _ || _ || _); [by split |].
    split; [| done].
    repeat match goal with
           | |- context [if ?b then _ else _] => destruct b
           end; discriminate.
  - intros others ancestors. reflexivity.
Qed.

(** A combobox input nested in a labelled wrapper. *)
Lemma detectFieldType_dropdown_first_witness :
  let input := Scanner.Elem "input" [("type", "email")] [] in
  let wrapper := Scanner.Elem "div" [("role", "combobox")] [input] in
  Scanner.detectFieldType (Scanner.mkElement input [wrapper]) = "dropdown_custom".
Proof.
  intros input wrapper.
  apply (proj1 (detectFieldType_dropdown_first (Scanner.mkElement input [wrapper]))).
  right; right; left. exists wrapper. split; [by left | reflexivity].
Defined.

(** ** The mapper: the request to the AI oracle *)

Section AIRequests.
Import Js QuestionMapper.

(** The oracle is consulted only at the request built by [aiRequest]
    for each question of the batch. *)
Lemma aiResults_requests askAI1 askAI2 profile questions i :
  (forall k q, nth_error questions k = Some q ->
               askAI1 (i + k)%nat (aiRequest q profile)
               = askAI2 (i + k)%nat (aiRequest q profile)) ->
  aiResults askAI1 profile i questions = aiResults askAI2 profile i questions.
Proof.
  revert i. induction questions as [|q rest IH]; intros i Hagree; [done |].
  simpl. f_equal.
  - unfold answerOfAI. specialize (Hagree 0%nat q eq_refl).
    rewrite Nat.add_0_r in Hagree. by rewrite Hagree.
  - apply IH. intros k q' Hk. specialize (Hagree (S k) q' Hk).
    by rewrite Nat.add_succ_r in Hagree.
Qed.

End AIRequests.

(** C9.  The [options] of the request that [requestAIAnswers] sends for a
    question are the question's option list if and only if that list
    exists and has at most 20 entries; when the list has more than 20
    entries or is absent, the request carries the empty list.  These are
    the requests of [requestAIAnswers]: its result depends on the oracle
    only through the answers to them. *)
Theorem aiRequest_options_bounded
    (q : Scanner.ScannedQuestion) (profile : Profile.t)
    (askAI1 askAI2 : nat -> QuestionMapper.Request.t -> option QuestionMapper.Response.t)
    (questions : list Scanner.ScannedQuestion)
    (env : PatternStorage.Env) (w : PatternStorage.World) :
  let sent := QuestionMapper.Request.options (QuestionMapper.aiRequest q profile) in
  (Some sent = Scanner.options q
   <-> exists l, Scanner.options q = Some l /\ (length l <= 20)%nat)
  /\ ((Scanner.options q = None
       \/ exists l, Scanner.options q = Some l /\ (20 < length l)%nat) ->
      sent = [])
  /\ ((forall k q', nth_error questions k = Some q' ->
         askAI1 k (QuestionMapper.aiRequest q' profile)
         = askAI2 k (QuestionMapper.aiRequest q' profile)) ->
      QuestionMapper.requestAIAnswers env askAI1 questions profile w
      = QuestionMapper.requestAIAnswers env askAI2 questions profile w).
Proof.
  simpl. split; [| split].
  - destruct (Scanner.options q) as [l|] eqn:Hopt; simpl.
    + destruct (Nat.leb_spec (length l) 20) as [Hle|Hgt].
      * split; [| done]. intros _. by exists l.
      * split.
        -- intros [= <-]. simpl in Hgt. lia.
        -- intros (l' & [= <-] & Hle). lia.
    + split; [done |]. by intros (l & ? & _).
  - intros [Hnone|(l & Hsome & Hgt)].
    + by rewrite Hnone.
    + rewrite Hsome. destruct (Nat.leb_spec (length l) 20); [lia | done].
  - intros Hagree.
    assert (Hsame : QuestionMapper.aiAnswersOf askAI1 questions profile
                    = QuestionMapper.aiAnswersOf askAI2 questions profile).
    { unfold QuestionMapper.aiAnswersOf. f_equal.
      apply aiResults_requests. intros k q' Hk. simpl. by apply Hagree. }
    unfold QuestionMapper.requestAIAnswers. by rewrite Hsame.
Qed.

(** A country picker with twenty-one entries is withheld from the
    prompt. *)
Lemma aiRequest_options_bounded_witness :
  let countries := repeat "Country" 21 in
  let q := Scanner.mkQuestion "Country of residence" "select" (Some countries)
             false "#country" in
  let profile := Profile.mk None None None None None None None in
  QuestionMapper.Request.options (QuestionMapper.aiRequest q profile) = [].
Proof.
  intros countries q profile.
  apply (proj1 (proj2 (aiRequest_options_bounded q profile
                         (fun _ _ => None) (fun _ _ => None) []
                         (PatternStorage.mkEnv (fun _ => "t") (fun _ => "0")
                            (fun _ => "r"))
                         (PatternStorage.mkWorld [] 0 0)))).
  right. exists countries. split; [reflexivity | simpl; lia].
Defined.

(** ** The fill executor *)

Section Runner.
Import Js Effect AutofillRunner.

Context {Detected : Type} (detected : list Detected)
  (bestMatchField : list Detected -> string -> option string -> option Detected)
  (fillField : nat -> Detected -> ResolvedField -> Outcome bool).

Local Abbreviation itemFor := (itemFor Detected detected bestMatchField fillField).
Local Abbreviation itemsFrom := (itemsFrom Detected detected bestMatchField fillField).
Local Abbreviation failureFor := (failureFor Detected detected bestMatchField fillField).
Local Abbreviation failuresFrom := (failuresFrom Detected detected bestMatchField fillField).
Local Abbreviation fillOne := (fillOne Detected detected bestMatchField fillField).
Local Abbreviation fillFrom := (fillFrom Detected detected bestMatchField fillField).

Lemma fillOne_run payload i rf r :
  snd (fillOne payload i rf r) =
  mkRun (results r ++ [itemFor i rf])
        (successes r + countOk [itemFor i rf])
        (failures r + countNotOk [itemFor i rf])
        (sent r ++ failureFor payload i rf)
        (completed r).
Proof.
  unfold AutofillRunner.fillOne, AutofillRunner.itemFor, AutofillRunner.failureFor,
    countOk, countNotOk.
  destruct (bestMatchField detected (questionText rf) (canonicalKey rf)) as [m|];
    simpl.
  - destruct (fillMatchedField Detected fillField i m rf); simpl;
      rewrite ?app_nil_r, ?Nat.add_0_r, ?Nat.add_1_r; reflexivity.
  - rewrite ?Nat.add_0_r, ?Nat.add_1_r. reflexivity.
Qed.

Lemma fillFrom_run payload rest : forall i r,
  snd (fillFrom payload i rest r) =
  mkRun (results r ++ itemsFrom i rest)
        (successes r + countOk (itemsFrom i rest))
        (failures r + countNotOk (itemsFrom i rest))
        (sent r ++ failuresFrom payload i rest)
        (completed r).
Proof.
  induction rest as [|rf rest IH]; intros i r.
  - simpl. rewrite !app_nil_r. unfold countOk, countNotOk. simpl.
    rewrite !Nat.add_0_r. by destruct r.
  - change (fillFrom payload i (rf :: rest) r)
      with (fillFrom payload (S i) rest (snd (fillOne payload i rf r))).
    rewrite IH, fillOne_run. simpl. unfold countOk, countNotOk. simpl.
    rewrite <- !app_assoc. simpl.
    destruct (Item.ok (itemFor i rf)); simpl; f_equal; lia.
Qed.

Lemma itemsFrom_length i rest : length (itemsFrom i rest) = length rest.
Proof. revert i. induction rest; intros i; simpl; [done | by rewrite IHrest]. Qed.

Lemma itemsFrom_nth rest : forall i k rf,
  nth_error rest k = Some rf ->
  nth_error (itemsFrom i rest) k = Some (itemFor (i + k) rf).
Proof.
  induction rest as [|rf0 rest IH]; intros i k rf; [by destruct k |].
  destruct k as [|k]; simpl.
  - intros [= ->]. by rewrite Nat.add_0_r.
  - intros H. rewrite (IH (S i) k rf H). f_equal. f_equal. lia.
Qed.

Lemma failuresFrom_In payload rest : forall i k rf m,
  nth_error rest k = Some rf ->
  In m (failureFor payload (i + k) rf) ->
  In m (failuresFrom payload i rest).
Proof.
  induction rest as [|rf0 rest IH]; intros i k rf m; [by destruct k |].
  destruct k as [|k]; simpl.
  - intros [= ->]. rewrite Nat.add_0_r. intros H. apply in_or_app. by left.
  - intros Hk Hm. apply in_or_app. right. apply (IH (S i) k rf m Hk).
    by replace (S i + k)%nat with (i + S k)%nat by lia.
Qed.

Lemma count_split items : (countOk items + countNotOk items = length items)%nat.
Proof.
  unfold countOk, countNotOk. induction items as [|item items IH]; [done |].
  simpl. destruct (Item.ok item); simpl; lia.
Qed.

Lemma failuresFrom_length payload rest : forall i,
  length (failuresFrom payload i rest) = countNotOk (itemsFrom i rest).
Proof.
  unfold countNotOk.
  induction rest as [|rf rest IH]; intros i; [done |].
  simpl. rewrite length_app, IH.
  unfold AutofillRunner.failureFor, AutofillRunner.itemFor.
  destruct (bestMatchField detected (questionText rf) (canonicalKey rf)) as [m|];
    simpl; [| done].
  by destruct (fillMatchedField Detected fillField i m rf).
Qed.

End Runner.

(** C6.  [runAutofill] goes through every field of the payload, whatever
    happened to the fields before it.  The field at position [i] yields
    the entry at position [i] of the itemized results, and no other.  A
    field without a DOM match is entered as failed and reported with the
    code [NO_DOM_MATCH]; a matched field whose fill does not succeed is
    entered as failed and reported with the code [FILL_VERIFY_FAILED]; a
    field that is filled is entered as a success.  The tally dispatched at
    the end counts the entries: [successes + failures] is the number of
    fields, and one failure message is sent per failure. *)
Theorem runAutofill_batch_tolerant
    (Detected : Type) (detected : list Detected)
    (bestMatchField : list Detected -> string -> option string -> option Detected)
    (fillField : nat -> Detected -> AutofillRunner.ResolvedField -> Js.Outcome bool)
    (payload : AutofillRunner.FillPayload) :
  let final := snd (AutofillRunner.runAutofill Detected detected bestMatchField
                      fillField payload AutofillRunner.start) in
  let report code rf :=
    AutofillRunner.Failure.mk (AutofillRunner.runId payload) (AutofillRunner.url payload)
      (AutofillRunner.jobId payload) code rf in
  length (AutofillRunner.results final) = length (AutofillRunner.fields payload)
  /\ (AutofillRunner.successes final + AutofillRunner.failures final
      = length (AutofillRunner.fields payload))%nat
  /\ AutofillRunner.successes final = AutofillRunner.countOk (AutofillRunner.results final)
  /\ AutofillRunner.failures final = AutofillRunner.countNotOk (AutofillRunner.results final)
  /\ length (AutofillRunner.sent final) = AutofillRunner.failures final
  /\ AutofillRunner.completed final
     = Some (AutofillRunner.successes final, AutofillRunner.failures final)
  /\ (forall i rf,
        nth_error (AutofillRunner.fields payload) i = Some rf ->
        exists item,
          nth_error (AutofillRunner.results final) i = Some item
          /\ AutofillRunner.Item.questionText item = AutofillRunner.questionText rf
          /\ match bestMatchField detected (AutofillRunner.questionText rf)
                     (AutofillRunner.canonicalKey rf) with
             | None =>
                 AutofillRunner.Item.ok item = false
                 /\ In (report "NO_DOM_MATCH" rf) (AutofillRunner.sent final)
             | Some match_ =>
                 match fillField i match_ rf with
                 | Js.Returns true => AutofillRunner.Item.ok item = true
                 | _ =>
                     AutofillRunner.Item.ok item = false
                     /\ In (report "FILL_VERIFY_FAILED" rf) (AutofillRunner.sent final)
                 end
             end).
Proof.
  intros final report.
  assert (Hfinal : final =
    AutofillRunner.mkRun
      (AutofillRunner.itemsFrom Detected detected bestMatchField fillField 0
         (AutofillRunner.fields payload))
      (AutofillRunner.countOk (AutofillRunner.itemsFrom Detected detected
         bestMatchField fillField 0 (AutofillRunner.fields payload)))
      (AutofillRunner.countNotOk (AutofillRunner.itemsFrom Detected detected
         bestMatchField fillField 0 (AutofillRunner.fields payload)))
      (AutofillRunner.failuresFrom Detected detected bestMatchField fillField payload 0
         (AutofillRunner.fields payload))
      (Some (AutofillRunner.countOk (AutofillRunner.itemsFrom Detected detected
               bestMatchField fillField 0 (AutofillRunner.fields payload)),
             AutofillRunner.countNotOk (AutofillRunner.itemsFrom Detected detected
               bestMatchField fillField 0 (AutofillRunner.fields payload))))).
  { subst final. unfold AutofillRunner.runAutofill, Effect.bind.
    simpl. unfold AutofillRunner.complete. simpl.
    rewrite (fillFrom_run detected bestMatchField fillField payload
               (AutofillRunner.fields payload) 0 AutofillRunner.start).
    reflexivity. }
  rewrite Hfinal. simpl.
  split; [apply itemsFrom_length |].
  split; [rewrite count_split; apply itemsFrom_length |].
  split; [done |]. split; [done |].
  split; [apply failuresFrom_length |]. split; [done |].
  intros i rf Hi.
  exists (AutofillRunner.itemFor Detected detected bestMatchField fillField i rf).
  split; [apply (itemsFrom_nth detected bestMatchField fillField
                  (AutofillRunner.fields payload) 0 i rf Hi) |].
  pose proof (failuresFrom_In detected bestMatchField fillField payload
                (AutofillRunner.fields payload) 0 i rf) as Hsent.
  specialize (fun m => Hsent m Hi). simpl in Hsent.
  unfold AutofillRunner.itemFor, AutofillRunner.failureFor in *.
  destruct (bestMatchField detected (AutofillRunner.questionText rf)
              (AutofillRunner.canonicalKey rf)) as [m|]; simpl.
  - split; [done |]. unfold AutofillRunner.fillMatchedField in *.
    destruct (fillField i m rf) as [e|[|]]; simpl in *; [| done |].
    + split; [done |]. apply Hsent. by left.
    + split; [done |]. apply Hsent. by left.
  - split; [done |]. split; [done |]. apply Hsent. by left.
Qed.

(** A payload of three fields: the first has no match in the page, the
    fill of the second fails, the third is filled. *)
Lemma runAutofill_batch_tolerant_witness :
  let field text := AutofillRunner.mkField None text None "TEXT" "v" None None None None in
  let payload := AutofillRunner.mkPayload "https://jobs.example/apply"
                   [field "Missing"; field "Stubborn"; field "Email"] None "run-1" in
  let bestMatch (_ : list nat) (text : string) (_ : option string) :=
    if String.eqb text "Missing" then None else Some 0%nat in
  let fill (i : nat) (_ : nat) (_ : AutofillRunner.ResolvedField) :=
    if Nat.eqb i 1 then Js.Throws "detached" else Js.Returns true in
  let final := snd (AutofillRunner.runAutofill nat [0%nat] bestMatch fill payload
                      AutofillRunner.start) in
  exists item,
    nth_error (AutofillRunner.results final) 1 = Some item
    /\ AutofillRunner.Item.ok item = false
    /\ AutofillRunner.completed final = Some (1%nat, 2%nat).
Proof.
  intros field payload bestMatch fill final.
  destruct (proj2 (proj2 (proj2 (proj2 (proj2 (proj2
              (runAutofill_batch_tolerant nat [0%nat] bestMatch fill payload))))))
              1%nat (field "Stubborn") eq_refl) as (item & Hitem & _ & Hok).
  exists item. split; [exact Hitem |]. split; [exact (proj1 Hok) | reflexivity].
Defined.

(** ** The pattern store: lookups *)

Section FirstMatch.
Import Js.
Context {A : Type}.
Implicit Types (p : A -> bool) (f : A -> A) (l : list A).

(** [find] splits the array at the first element that satisfies the
    test. *)
Lemma find_first p l m :
  find p l = Some m ->
  exists before after,
    l = before ++ m :: after /\ p m = true
    /\ Forall (fun x => p x = false) before.
Proof.
  induction l as [|x l IH]; [done |]. simpl.
  destruct (p x) eqn:Hx.
  - intros [= <-]. exists [], l. by repeat split.
  - intros H. destruct (IH H) as (before & after & -> & Hm & Hb).
    exists (x :: before), after. by repeat split; [| constructor].
Qed.

Lemma find_skip p before m after :
  Forall (fun x => p x = false) before -> p m = true ->
  find p (before ++ m :: after) = Some m.
Proof.
  induction 1 as [|x before Hx _ IH]; intros Hm; simpl.
  - by rewrite Hm.
  - rewrite Hx. by apply IH.
Qed.

Lemma updateFirst_at p f before m after :
  Forall (fun x => p x = false) before -> p m = true ->
  updateFirst p f (before ++ m :: after) = before ++ f m :: after.
Proof.
  induction 1 as [|x before Hx _ IH]; intros Hm; simpl.
  - by rewrite Hm.
  - rewrite Hx. f_equal. by apply IH.
Qed.

End FirstMatch.

Section Lookup.
Import Js Effect PatternStorage.
Variable env : Env.

Lemma used_sameButUsage now p : sameButUsage p (used now p).
Proof. by repeat split. Qed.

(** With unique identifiers, the first pattern that carries the
    identifier of a stored pattern is that pattern. *)
Lemma hasId_first before m after :
  NoDup (map id (before ++ m :: after)) ->
  Forall (fun x => hasId (id m) x = false) before.
Proof.
  rewrite map_app. simpl. intros Hnodup.
  apply Forall_forall. intros x Hx. unfold hasId.
  destruct (String.eqb_spec (id x) (id m)) as [E|]; [| done].
  exfalso. apply NoDup_app in Hnodup as (_ & Hdisj & _).
  apply (Hdisj (id x)).
  - apply list_elem_of_fmap. by exists x.
  - rewrite E. by left.
Qed.

Lemma readable_reliable w : reliable env -> readable env w = learnedPatterns w.
Proof. intros Hrel. unfold readable. by rewrite Hrel. Qed.

(** What [incrementUsage] does, whether the storage answers or not. *)
Lemma incrementUsage_run patternId w :
  incrementUsage env patternId w =
  (tt,
   match find (hasId patternId) (readable env w) with
   | Some _ =>
       makeWorld
         (if rejects env (S (calls w)) then learnedPatterns w
          else updateFirst (hasId patternId) (used (isoAt env (ticks w)))
                 (readable env w))
         (S (ticks w)) (draws w) (S (S (calls w)))
   | None => called 1 w
   end).
Proof.
  unfold incrementUsage, bind, getLocalPatterns, readable. simpl.
  by destruct (find (hasId patternId) _).
Qed.

(** What [findPattern] does, whether the storage answers or not. *)
Lemma findPattern_run questionText w :
  findPattern env questionText w =
  match searchPatterns (readable env w) questionText with
  | Some found => (Some found, snd (incrementUsage env (id found) (called 1 w)))
  | None => (None, called 1 w)
  end.
Proof.
  unfold findPattern, bind, getLocalPatterns, readable. simpl.
  by destruct (searchPatterns _ questionText).
Qed.

Lemma searchPatterns_nil questionText : searchPatterns [] questionText = None.
Proof. done. Qed.

(** A lookup finds only what the store holds. *)
Lemma findPattern_stored questionText w found :
  fst (findPattern env questionText w) = Some found ->
  searchPatterns (learnedPatterns w) questionText = Some found.
Proof.
  rewrite findPattern_run. unfold readable.
  destruct (rejects env (calls w)); [done |].
  by destruct (searchPatterns (learnedPatterns w) questionText) as [m|]; intros [= <-].
Qed.

(** The stored patterns after a lookup: as they were, or with the
    first pattern of the identifier of the match used once more. *)
Lemma findPattern_patterns questionText w :
  learnedPatterns (snd (findPattern env questionText w)) = learnedPatterns w
  \/ exists found,
       fst (findPattern env questionText w) = Some found
       /\ rejects env (calls w) = false
       /\ rejects env (S (calls w)) = false
       /\ rejects env (S (S (calls w))) = false
       /\ learnedPatterns (snd (findPattern env questionText w))
          = updateFirst (hasId (id found)) (used (isoAt env (ticks w)))
              (learnedPatterns w).
Proof.
  rewrite findPattern_run. unfold readable.
  destruct (rejects env (calls w)) eqn:Hread; [by left |].
  destruct (searchPatterns (learnedPatterns w) questionText) as [found|]; [| by left].
  rewrite incrementUsage_run. unfold readable. simpl.
  destruct (rejects env (S (calls w))) eqn:Hreread; [by left |].
  destruct (find (hasId (id found)) (learnedPatterns w)); [| by left].
  simpl. destruct (rejects env (S (S (calls w)))) eqn:Hwrite; [by left |].
  right. by exists found.
Qed.

Lemma findPattern_clock questionText w :
  fst (findPattern env questionText w) = None ->
  snd (findPattern env questionText w) = called 1 w.
Proof.
  rewrite findPattern_run.
  by destruct (searchPatterns (readable env w) questionText).
Qed.

Lemma incrementUsage_at before m after w :
  reliable env ->
  learnedPatterns w = before ++ m :: after ->
  NoDup (map id (learnedPatterns w)) ->
  incrementUsage env (id m) w =
  (tt, makeWorld (before ++ used (isoAt env (ticks w)) m :: after)
                 (S (ticks w)) (draws w) (S (S (calls w)))).
Proof.
  intros Hrel Hw Hnodup. rewrite Hw in Hnodup.
  pose proof (hasId_first _ _ _ Hnodup) as Hbefore.
  assert (Hm : hasId (id m) m = true) by apply String.eqb_refl.
  rewrite incrementUsage_run, (readable_reliable _ Hrel), Hrel, Hw.
  rewrite (find_skip _ _ _ after Hbefore Hm).
  by rewrite (updateFirst_at _ _ _ _ after Hbefore Hm).
Qed.

Lemma findPattern_fst questionText w :
  reliable env ->
  fst (findPattern env questionText w) = searchPatterns (learnedPatterns w) questionText.
Proof.
  intros Hrel. rewrite findPattern_run, (readable_reliable _ Hrel).
  by destruct (searchPatterns (learnedPatterns w) questionText).
Qed.

End Lookup.

(** C10, as the claim states it, fails in two ways.  When the write of
    [incrementUsage] is rejected (the third call of the storage, after
    the two reads), the lookup still returns the match, and no use is
    counted.  And nothing keeps the identifiers apart: [addPattern]
    builds them from the clock and the random generator, and when both
    repeat, two patterns are stored under one identifier;
    [incrementUsage] then finds the first of them, and the use of the
    second pattern is counted for the first. *)
Lemma findPattern_use_miscounted :
  let p1 := PatternStorage.mkPattern "local_1_a" "years of experience"
              "experience.years" "experience.years" None "text" (8 # 10) 0 "t0" "t0"
              "AI" (Some false) false in
  let p2 := PatternStorage.mkPattern "local_2_b" "what is your gender" "eeo.gender"
              "eeo.gender" None "select" (8 # 10) 3 "t1" "t1" "AI" (Some false)
              false in
  let full := PatternStorage.makeEnv (fun _ => "2026-01-01T00:00:00.000Z")
                (fun _ => "1767225600000") (fun _ => "k3j9x0a1b")
                (fun n => Nat.eqb n 2) (fun _ _ => Js.Returns None) in
  let env := PatternStorage.mkEnv (fun _ => "2026-01-01T00:00:00.000Z")
               (fun _ => "1767225600000") (fun _ => "k3j9x0a1b") in
  let w := PatternStorage.mkWorld [p1; p2] 7 0 in
  let d1 := PatternStorage.Draft.mk "years of experience" "experience.years"
              "experience.years" None "text" (8 # 10) "AI" false in
  let d2 := PatternStorage.Draft.mk "what is your gender" "eeo.gender" "eeo.gender"
              None "select" (8 # 10) "AI" false in
  let twins := snd (PatternStorage.addPattern env d2
                      (snd (PatternStorage.addPattern env d1
                              (PatternStorage.mkWorld [] 0 0)))) in
  (fst (PatternStorage.findPattern full "What is your gender identity" w) = Some p2
   /\ PatternStorage.learnedPatterns
        (snd (PatternStorage.findPattern full "What is your gender identity" w))
      = [p1; p2])
  /\ (map PatternStorage.id (PatternStorage.learnedPatterns twins)
      = ["local_1767225600000_k3j9x0a1b"; "local_1767225600000_k3j9x0a1b"]
      /\ map PatternStorage.questionPattern (PatternStorage.learnedPatterns twins)
         = ["years of experience"; "what is your gender"]
      /\ option_map PatternStorage.questionPattern
           (fst (PatternStorage.findPattern env "What is your gender identity" twins))
         = Some "what is your gender"
      /\ map PatternStorage.usageCount
           (PatternStorage.learnedPatterns
              (snd (PatternStorage.findPattern env "What is your gender identity"
                      twins)))
         = [1%nat; 0%nat]).
Proof. repeat split. Qed.

(** C10, amended.  When every call of the storage succeeds and the
    identifiers of the stored patterns are pairwise distinct, a lookup
    that finds a pattern returns it, and in the store replaces it, at its
    position, by a pattern whose [usageCount] is one more and whose
    [lastUsed] is the current time, with [id], [questionPattern],
    [intent], [canonicalKey], [answerMappings], [fieldType], [confidence],
    [createdAt], [source] and [synced] as they were; the patterns before
    and after it are untouched.  In every case a lookup that finds
    nothing leaves the stored patterns as they are, and a lookup that
    finds a pattern returns the first stored pattern that matches and
    either leaves the stored patterns as they are or counts one use for
    the first pattern that has the identifier of the match. *)
Theorem findPattern_frame
    (env : PatternStorage.Env) (questionText : string) (w : PatternStorage.World) :
  let result := fst (PatternStorage.findPattern env questionText w) in
  let w' := snd (PatternStorage.findPattern env questionText w) in
  (result = None ->
   PatternStorage.learnedPatterns w' = PatternStorage.learnedPatterns w
   /\ PatternStorage.ticks w' = PatternStorage.ticks w
   /\ PatternStorage.draws w' = PatternStorage.draws w)
  /\ (forall found,
        result = Some found ->
        PatternStorage.searchPatterns (PatternStorage.learnedPatterns w) questionText
        = Some found
        /\ (PatternStorage.learnedPatterns w' = PatternStorage.learnedPatterns w
            \/ PatternStorage.learnedPatterns w'
               = Js.updateFirst (PatternStorage.hasId (PatternStorage.id found))
                   (PatternStorage.used
                      (PatternStorage.isoAt env (PatternStorage.ticks w)))
                   (PatternStorage.learnedPatterns w)))
  /\ (PatternStorage.reliable env ->
      NoDup (map PatternStorage.id (PatternStorage.learnedPatterns w)) ->
      result = PatternStorage.searchPatterns (PatternStorage.learnedPatterns w)
                 questionText
      /\ forall found,
           result = Some found ->
           exists before after touched,
             PatternStorage.learnedPatterns w = before ++ found :: after
             /\ PatternStorage.learnedPatterns w' = before ++ touched :: after
             /\ PatternStorage.usageCount touched
                = S (PatternStorage.usageCount found)
             /\ PatternStorage.lastUsed touched
                = PatternStorage.isoAt env (PatternStorage.ticks w)
             /\ PatternStorage.sameButUsage found touched).
Proof.
  intros result w'. subst result w'. split; [| split].
  - intros Hnone. by rewrite (findPattern_clock env _ _ Hnone).
  - intros found Hfound. split; [by apply (findPattern_stored env) |].
    destruct (findPattern_patterns env questionText w)
      as [Hsame | (found' & Hfound' & _ & _ & _ & Hbumped)]; [by left | right].
    rewrite Hfound in Hfound'. by injection Hfound' as <-.
  - intros Hrel Hnodup. split; [by apply findPattern_fst |].
    intros found Hfound.
    rewrite (findPattern_fst env _ _ Hrel) in Hfound.
    rewrite findPattern_run, (readable_reliable env _ Hrel), Hfound.
    apply find_first in Hfound as (before & after & Hw & _ & _).
    rewrite (incrementUsage_at env before found after (PatternStorage.called 1 w) Hrel Hw
               Hnodup).
    simpl.
    exists before, after,
      (PatternStorage.used (PatternStorage.isoAt env (PatternStorage.ticks w)) found).
    repeat split; done.
Qed.

(** A store of two patterns; the question matches the second one by word
    overlap (4 of its 5 words). *)
Lemma findPattern_frame_witness :
  let env := PatternStorage.mkEnv (fun _ => "2026-01-01T00:00:00.000Z")
               (fun _ => "1767225600000") (fun _ => "k3j9x0a1b") in
  let p1 := PatternStorage.mkPattern "local_1_a" "years of experience" "experience.years"
              "experience.years" None "text" (8 # 10) 0 "t0" "t0" "AI" (Some false) false in
  let p2 := PatternStorage.mkPattern "local_2_b" "what is your gender" "eeo.gender"
              "eeo.gender" None "select" (8 # 10) 3 "t1" "t1" "AI" (Some false) false in
  let w := PatternStorage.mkWorld [p1; p2] 7 0 in
  let w' := snd (PatternStorage.findPattern env "What is your gender identity" w) in
  fst (PatternStorage.findPattern env "What is your gender identity" w) = Some p2
  /\ map PatternStorage.usageCount (PatternStorage.learnedPatterns w') = [0%nat; 4%nat]
  /\ exists before after touched,
       PatternStorage.learnedPatterns w' = before ++ touched :: after
       /\ PatternStorage.usageCount touched = 4%nat.
Proof.
  intros env p1 p2 w w'.
  assert (Hrel : PatternStorage.reliable env) by (intros n; reflexivity).
  assert (Hnodup : NoDup (map PatternStorage.id (PatternStorage.learnedPatterns w))).
  { apply (bool_decide_unpack _). vm_compute. exact I. }
  destruct (findPattern_frame env "What is your gender identity" w)
    as (_ & _ & Hframe).
  destruct (Hframe Hrel Hnodup) as [Hres Hfound].
  split; [exact Hres |]. split; [reflexivity |].
  destruct (Hfound p2 Hres) as (before & after & touched & _ & Hw' & Hcount & _).
  by exists before, after, touched.
Defined.

(** ** The pattern store: learning *)

Section Merging.
Import Js Effect PatternStorage.

Lemma pushVariants_grow vs : forall vs0,
  exists more, fold_left pushVariant vs vs0 = vs0 ++ more.
Proof.
  induction vs as [|v vs IH]; intros vs0; simpl.
  - exists []. by rewrite app_nil_r.
  - unfold pushVariant at 2. destruct (member v vs0).
    + apply IH.
    + destruct (IH (vs0 ++ [v])) as [more ->]. exists (v :: more).
      by rewrite <- app_assoc.
Qed.

Lemma mappingGrows_refl m : mappingGrows m m.
Proof. split; [done |]. exists []. by rewrite app_nil_r. Qed.

Lemma mappingGrows_trans m1 m2 m3 :
  mappingGrows m1 m2 -> mappingGrows m2 m3 -> mappingGrows m1 m3.
Proof.
  intros [E1 [more1 V1]] [E2 [more2 V2]]. split; [congruence |].
  exists (more1 ++ more2). by rewrite V2, V1, app_assoc.
Qed.

Lemma Forall2_refl_on {A} (R : A -> A -> Prop) l :
  (forall x, R x x) -> Forall2 R l l.
Proof. intros H. induction l; by constructor. Qed.

Lemma updateFirst_Forall2 {A} (R : A -> A -> Prop) p f (l : list A) :
  (forall x, R x x) -> (forall x, R x (f x)) ->
  Forall2 R l (updateFirst p f l).
Proof.
  intros Hrefl Hf. induction l as [|x l IH]; simpl; [constructor |].
  destruct (p x); constructor; try done. by apply Forall2_refl_on.
Qed.

Lemma Forall2_mappingGrows_trans l1 l2 l3 :
  Forall2 mappingGrows l1 l2 -> Forall2 mappingGrows l2 l3 ->
  Forall2 mappingGrows l1 l3.
Proof.
  intros H12. revert l3. induction H12 as [|x y l1 l2 Hxy _ IH]; intros l3 H23.
  - inversion H23. constructor.
  - inversion H23 as [|? z ? l3' Hyz H' ]; subst. constructor.
    + by apply mappingGrows_trans with y.
    + by apply IH.
Qed.

Lemma mappingsGrow_refl olds : mappingsGrow olds olds.
Proof.
  exists olds, []. split; [by rewrite app_nil_r |].
  apply Forall2_refl_on, mappingGrows_refl.
Qed.

Lemma mergeMapping_grows olds current newMapping :
  mappingsGrow olds current -> mappingsGrow olds (mergeMapping current newMapping).
Proof.
  intros (prefix' & more & -> & Hgrow). unfold mergeMapping.
  destruct (find _ (prefix' ++ more)) as [x|].
  - set (same := sameCanonicalValue newMapping).
    set (f := fun existingMapping : AnswerMapping => _).
    assert (Hall : Forall2 mappingGrows (prefix' ++ more)
                     (updateFirst same f (prefix' ++ more))).
    { apply updateFirst_Forall2; [apply mappingGrows_refl |].
      intros m. split; [done |]. apply pushVariants_grow. }
    apply Forall2_app_inv_l in Hall as (p2 & m2 & Hp & _ & ->).
    exists p2, m2. split; [done |].
    by apply Forall2_mappingGrows_trans with prefix'.
  - exists prefix', (more ++ [newMapping]). split; [by rewrite app_assoc | done].
Qed.

Lemma mergeMappings_grow news : forall olds current,
  mappingsGrow olds current -> mappingsGrow olds (mergeMappings news current).
Proof.
  induction news as [|n news IH]; intros olds current H; [done |].
  simpl. apply IH. by apply mergeMapping_grows.
Qed.

Lemma patternGrows_refl p : patternGrows p p.
Proof.
  repeat split. exists [], (mappingsOf p). split; [by rewrite app_nil_r |].
  apply Forall2_refl_on, mappingGrows_refl.
Qed.

Lemma merged_grows pattern now existing :
  patternGrows existing (merged pattern now existing).
Proof.
  repeat split. unfold mappingsOf. simpl.
  destruct (Draft.answerMappings pattern) as [news|],
           (answerMappings existing) as [olds|]; simpl.
  - destruct (mergeMappings_grow news olds olds (mappingsGrow_refl olds))
      as (prefix' & more & -> & H).
    by exists more, prefix'.
  - exists [], []. split; [done | constructor].
  - exists [], olds. split; [by rewrite app_nil_r |].
    apply Forall2_refl_on, mappingGrows_refl.
  - exists [], []. split; [done | constructor].
Qed.

Lemma sameKey_merged pattern pattern' now existing :
  sameKey pattern' (merged pattern now existing) = sameKey pattern' existing.
Proof. reflexivity. Qed.

Lemma sameKey_newPattern pattern ms rnd created used :
  sameKey pattern (newPattern pattern ms rnd created used) = true.
Proof. unfold sameKey. simpl. by rewrite !String.eqb_refl. Qed.

Lemma countKey_updateFirst pattern pattern' now ps :
  countKey pattern' (updateFirst (sameKey pattern) (merged pattern now) ps)
  = countKey pattern' ps.
Proof.
  unfold countKey. induction ps as [|x ps IH]; [done |]. cbn [updateFirst].
  destruct (sameKey pattern x); cbn [List.filter].
  - rewrite sameKey_merged. by destruct (sameKey pattern' x).
  - destruct (sameKey pattern' x); cbn [length]; by rewrite IH.
Qed.

Lemma countKey_none pattern ps :
  find (sameKey pattern) ps = None -> countKey pattern ps = 0%nat.
Proof.
  unfold countKey. induction ps as [|x ps IH]; [done |]. simpl.
  destruct (sameKey pattern x); [done | apply IH].
Qed.

Lemma countKey_some pattern ps x :
  find (sameKey pattern) ps = Some x -> (1 <= countKey pattern ps)%nat.
Proof.
  unfold countKey. induction ps as [|y ps IH]; [done |]. simpl.
  destruct (sameKey pattern y); simpl; [lia | apply IH].
Qed.

Lemma countKey_app pattern ps qs :
  countKey pattern (ps ++ qs) = (countKey pattern ps + countKey pattern qs)%nat.
Proof. unfold countKey. by rewrite List.filter_app, length_app. Qed.

End Merging.

Section AddPattern.
Import Js Effect PatternStorage.
Variable env : Env.

(** What [addPattern] does, whether the storage answers or not. *)
Lemma addPattern_run pattern w :
  addPattern env pattern w =
  (tt,
   match find (sameKey pattern) (readable env w) with
   | Some _ =>
       makeWorld
         (if rejects env (S (calls w)) then learnedPatterns w
          else updateFirst (sameKey pattern) (merged pattern (isoAt env (ticks w)))
                 (readable env w))
         (S (ticks w)) (draws w) (S (S (calls w)))
   | None =>
       makeWorld
         (if rejects env (S (calls w)) then learnedPatterns w
          else readable env w
               ++ [newPattern pattern (msAt env (ticks w)) (randAt env (draws w))
                     (isoAt env (S (ticks w))) (isoAt env (S (S (ticks w))))])
         (S (S (S (ticks w)))) (S (draws w)) (S (S (calls w)))
   end).
Proof.
  unfold addPattern, bind, getLocalPatterns, readable. simpl.
  by destruct (find (sameKey pattern) _).
Qed.

Lemma addPattern_existing pattern w existing :
  reliable env ->
  find (sameKey pattern) (learnedPatterns w) = Some existing ->
  addPattern env pattern w =
  (tt, makeWorld (updateFirst (sameKey pattern)
                    (merged pattern (isoAt env (ticks w))) (learnedPatterns w))
                 (S (ticks w)) (draws w) (S (S (calls w)))).
Proof.
  intros Hrel H. by rewrite addPattern_run, (readable_reliable env _ Hrel), H, Hrel.
Qed.

Lemma addPattern_new pattern w :
  reliable env ->
  find (sameKey pattern) (learnedPatterns w) = None ->
  addPattern env pattern w =
  (tt, makeWorld (learnedPatterns w
                  ++ [newPattern pattern (msAt env (ticks w)) (randAt env (draws w))
                        (isoAt env (S (ticks w))) (isoAt env (S (S (ticks w))))])
                 (S (S (S (ticks w)))) (S (draws w)) (S (S (calls w)))).
Proof.
  intros Hrel H. by rewrite addPattern_run, (readable_reliable env _ Hrel), H, Hrel.
Qed.

(** When the write is rejected nothing is stored. *)
Lemma addPattern_rejected pattern w :
  rejects env (S (calls w)) = true ->
  learnedPatterns (snd (addPattern env pattern w)) = learnedPatterns w.
Proof.
  intros Hwrite. rewrite addPattern_run.
  destruct (find (sameKey pattern) (readable env w)); simpl; by rewrite Hwrite.
Qed.

(** When the read is rejected and the write is not, the store is
    replaced by the new pattern. *)
Lemma addPattern_unread pattern w :
  rejects env (calls w) = true -> rejects env (S (calls w)) = false ->
  learnedPatterns (snd (addPattern env pattern w))
  = [newPattern pattern (msAt env (ticks w)) (randAt env (draws w))
       (isoAt env (S (ticks w))) (isoAt env (S (S (ticks w))))].
Proof.
  intros Hread Hwrite. rewrite addPattern_run. unfold readable.
  rewrite Hread. simpl. by rewrite Hwrite.
Qed.

(** With a storage that answers, [addPattern] never deletes a pattern
    and never removes a variant. *)
Lemma addPattern_grows pattern w :
  reliable env ->
  storeGrows (learnedPatterns w) (learnedPatterns (snd (addPattern env pattern w))).
Proof.
  intros Hrel.
  destruct (find (sameKey pattern) (learnedPatterns w)) as [e|] eqn:Hfind.
  - rewrite (addPattern_existing _ _ _ Hrel Hfind). simpl.
    exists (updateFirst (sameKey pattern) (merged pattern (isoAt env (ticks w)))
              (learnedPatterns w)), [].
    split; [by rewrite app_nil_r |].
    apply updateFirst_Forall2; [apply patternGrows_refl | apply merged_grows].
  - rewrite (addPattern_new _ _ Hrel Hfind). simpl.
    eexists (learnedPatterns w), _. split; [done |].
    apply Forall2_refl_on, patternGrows_refl.
Qed.

Lemma addPattern_count pattern w :
  reliable env ->
  countKey pattern (learnedPatterns (snd (addPattern env pattern w)))
  = Nat.max 1 (countKey pattern (learnedPatterns w)).
Proof.
  intros Hrel.
  destruct (find (sameKey pattern) (learnedPatterns w)) as [e|] eqn:Hfind.
  - rewrite (addPattern_existing _ _ _ Hrel Hfind). simpl.
    rewrite countKey_updateFirst. pose proof (countKey_some _ _ _ Hfind). lia.
  - rewrite (addPattern_new _ _ Hrel Hfind). simpl.
    rewrite countKey_app, (countKey_none _ _ Hfind). unfold countKey. simpl.
    by rewrite sameKey_newPattern.
Qed.

End AddPattern.

Section Settled.
Import Js Effect PatternStorage.

Lemma member_spec v vs : member v vs = true <-> In v vs.
Proof.
  unfold member. rewrite existsb_exists. split.
  - intros (x & Hin & E). apply String.eqb_eq in E. by subst.
  - intros Hin. exists v. split; [done | apply String.eqb_refl].
Qed.

Lemma pushVariants_keep vs : forall vs0 v,
  In v vs0 -> In v (fold_left pushVariant vs vs0).
Proof.
  intros vs0 v Hin. destruct (pushVariants_grow vs vs0) as [more ->].
  apply in_or_app. by left.
Qed.

Lemma pushVariants_members vs : forall vs0 v,
  In v vs -> In v (fold_left pushVariant vs vs0).
Proof.
  induction vs as [|v0 vs IH]; intros vs0 v; [done |]. simpl.
  intros [->|Hin]; [| by apply IH].
  apply pushVariants_keep. unfold pushVariant.
  destruct (member v vs0) eqn:Hm; [by apply member_spec |].
  apply in_or_app. right. by left.
Qed.

Lemma pushVariants_settled vs : forall vs0,
  (forall v, In v vs -> In v vs0) -> fold_left pushVariant vs vs0 = vs0.
Proof.
  induction vs as [|v0 vs IH]; intros vs0 Hall; [done |]. simpl.
  unfold pushVariant at 2.
  rewrite (proj2 (member_spec v0 vs0)) by (apply Hall; by left).
  apply IH. intros v Hv. apply Hall. by right.
Qed.

Lemma find_updateFirst {A} (p : A -> bool) f l x :
  find p l = Some x -> p (f x) = true -> find p (updateFirst p f l) = Some (f x).
Proof.
  induction l as [|y l IH]; [done |]. simpl.
  destruct (p y) eqn:Hy.
  - intros [= ->] Hfx. simpl. by rewrite Hfx.
  - intros H Hfx. simpl. rewrite Hy. by apply IH.
Qed.

Lemma updateFirst_fixed {A} (p : A -> bool) f l x :
  find p l = Some x -> f x = x -> updateFirst p f l = l.
Proof.
  induction l as [|y l IH]; [done |]. simpl.
  destruct (p y) eqn:Hy.
  - intros [= ->] Hfx. by rewrite Hfx.
  - intros H Hfx. f_equal. by apply IH.
Qed.

Lemma find_app_none {A} (p : A -> bool) l x :
  find p l = None -> p x = true -> find p (l ++ [x]) = Some x.
Proof.
  induction l as [|y l IH]; simpl.
  - intros _ Hx. by rewrite Hx.
  - destruct (p y); [done | apply IH].
Qed.

Lemma mergeMapping_settles olds m : settled m (mergeMapping olds m).
Proof.
  unfold mergeMapping.
  destruct (find (sameCanonicalValue m) olds) as [x|] eqn:Hfind.
  - eexists. split.
    + apply find_updateFirst; [done |].
      apply find_some in Hfind as [_ Hx]. exact Hx.
    + intros v Hv. simpl. by apply pushVariants_members.
  - exists m. split; [| done].
    apply find_app_none; [done |]. apply String.eqb_refl.
Qed.

Lemma mergeMapping_settled current m :
  settled m current -> mergeMapping current m = current.
Proof.
  intros (x & Hfind & Hall). unfold mergeMapping. rewrite Hfind.
  apply updateFirst_fixed with x; [done |].
  rewrite (pushVariants_settled _ _ Hall). by destruct x.
Qed.

(** Merging the same mapping a second time changes nothing. *)
Lemma mergeMapping_idempotent olds m :
  mergeMapping (mergeMapping olds m) m = mergeMapping olds m.
Proof. apply mergeMapping_settled, mergeMapping_settles. Qed.

Lemma merged_twice pattern m now1 now2 existing :
  Draft.answerMappings pattern = Some [m] ->
  sameButTouch (merged pattern now1 existing)
               (merged pattern now2 (merged pattern now1 existing)).
Proof.
  intros Hm. repeat split. simpl. rewrite Hm.
  destruct (answerMappings existing) as [olds|]; [| done].
  simpl. by rewrite mergeMapping_idempotent.
Qed.

Lemma merged_new pattern m now ms rnd created used :
  Draft.answerMappings pattern = Some [m] ->
  sameButTouch (newPattern pattern ms rnd created used)
               (merged pattern now (newPattern pattern ms rnd created used)).
Proof.
  intros Hm. repeat split. simpl. rewrite Hm. simpl. f_equal.
  apply mergeMapping_settled. exists m. split; [| done].
  simpl. unfold sameCanonicalValue. by rewrite String.eqb_refl.
Qed.

Lemma sameButTouch_refl p : sameButTouch p p.
Proof. by repeat split. Qed.

(** The count of the variant after the merge of an observation. *)
Lemma variantCount_merged qp it cv v ctx ft conf now existing :
  variantCount cv v (merged (observation qp it cv v ctx ft conf) now existing)
  = match answerMappings existing with
    | None => 0%nat
    | Some _ => Nat.max 1 (variantCount cv v existing)
    end.
Proof.
  unfold variantCount, mappingsOf. simpl.
  destruct (answerMappings existing) as [olds|]; [| done].
  unfold mergeMapping, sameCanonicalValue. simpl.
  set (same := fun m : AnswerMapping => String.eqb (canonicalValue m) cv).
  destruct (find same olds) as [x|] eqn:Hfind.
  - erewrite find_updateFirst; [| done |].
    + unfold occurrences, pushVariant. simpl.
      destruct (member v (variants x)) eqn:Hm.
      * apply member_spec in Hm.
        apply (count_occ_In string_dec) in Hm. lia.
      * assert (Hnot : ~ In v (variants x)).
        { intros Hin. apply member_spec in Hin. congruence. }
        apply (count_occ_not_In string_dec) in Hnot.
        rewrite count_occ_app, Hnot. simpl.
        destruct (string_dec v v); [done | congruence].
    + apply find_some in Hfind as [_ Hx]. exact Hx.
  - rewrite (find_app_none same olds); [| done |].
    + unfold occurrences. simpl. destruct (string_dec v v); [done | congruence].
    + subst same. simpl. apply String.eqb_refl.
Qed.

End Settled.

Section TwoCalls.
Import Js Effect PatternStorage.
Variable env : Env.
Hypothesis Hrel : reliable env.

Lemma find_none_all {A} (p : A -> bool) l :
  find p l = None -> Forall (fun x => p x = false) l.
Proof.
  induction l as [|x l IH]; [constructor |]. simpl.
  destruct (p x) eqn:Hx; [done |]. constructor; [done | by apply IH].
Qed.

(** The two stores after a first and a second [addPattern] of the same
    draft with one mapping: the pattern [e1] for the pair after the
    first call, and its touched copy after the second. *)
Lemma addPattern_twice pattern m w :
  Draft.answerMappings pattern = Some [m] ->
  let w1 := snd (addPattern env pattern w) in
  let w2 := snd (addPattern env pattern w1) in
  exists before e1 e2 after,
    learnedPatterns w1 = before ++ e1 :: after
    /\ learnedPatterns w2 = before ++ e2 :: after
    /\ Forall (fun x => sameKey pattern x = false) before
    /\ sameKey pattern e1 = true
    /\ sameButTouch e1 e2
    /\ match find (sameKey pattern) (learnedPatterns w) with
       | Some e => e1 = merged pattern (isoAt env (ticks w)) e
       | None => after = [] /\ before = learnedPatterns w
                 /\ answerMappings e1 = Some [m]
       end.
Proof.
  intros Hm w1 w2. subst w1 w2.
  destruct (find (sameKey pattern) (learnedPatterns w)) as [e|] eqn:Hfind.
  - rewrite (addPattern_existing env _ _ _ Hrel Hfind).
    apply find_first in Hfind as (before & after & Hw & He & Hbefore).
    set (e1 := merged pattern (isoAt env (ticks w)) e).
    assert (H1 : updateFirst (sameKey pattern) (merged pattern (isoAt env (ticks w)))
                   (learnedPatterns w) = before ++ e1 :: after).
    { rewrite Hw. by apply updateFirst_at. }
    simpl. rewrite H1.
    assert (He1 : sameKey pattern e1 = true) by exact He.
    erewrite addPattern_existing; [| done | simpl; by apply find_skip]. simpl.
    rewrite (updateFirst_at _ _ _ _ after Hbefore He1).
    exists before, e1, (merged pattern (isoAt env (S (ticks w))) e1), after.
    repeat split; try done. by apply merged_twice with m.
  - rewrite (addPattern_new env _ _ Hrel Hfind). simpl.
    set (e1 := newPattern pattern _ _ _ _).
    pose proof (find_none_all _ _ Hfind) as Hbefore.
    assert (He1 : sameKey pattern e1 = true) by apply sameKey_newPattern.
    erewrite addPattern_existing; [| done | simpl; by apply find_skip]. simpl.
    rewrite (updateFirst_at _ _ _ _ [] Hbefore He1).
    eexists (learnedPatterns w), e1, _, [].
    repeat split; try done. by apply merged_new with m.
Qed.

End TwoCalls.

(** How the learner comes to a stored pattern without [answerMappings]:
    the oracle coins a new intent for a question without options, and a
    later answer of the oracle for the same question names that intent
    again.  The second observation is not recorded. *)
Example learner_stores_pattern_without_mappings :
  let env := PatternStorage.mkEnv (fun _ => "2026-01-01T00:00:00.000Z")
               (fun _ => "1767225600000") (fun _ => "k3j9x0a1b") in
  let profile := Profile.mk None None None None None None None in
  let q := Scanner.mkQuestion "Expected salary?" "text" None false "#salary" in
  let coined := QuestionMapper.mkAnswer "#salary" "Expected salary?" "90000"
                  QuestionMapper.AI (8 # 10) false "text" (Some "custom.salary")
                  None None true (Some "Salary expectation") in
  let again := QuestionMapper.mkAnswer "#salary" "Expected salary?" "90000"
                 QuestionMapper.AI (8 # 10) false "text" (Some "custom.salary")
                 None None false None in
  let w1 := snd (QuestionMapper.learnFromAIResponse env q coined profile
                   (PatternStorage.mkWorld [] 0 0)) in
  let w2 := snd (QuestionMapper.learnFromAIResponse env q again profile w1) in
  map PatternStorage.answerMappings (PatternStorage.learnedPatterns w1) = [None]
  /\ map PatternStorage.answerMappings (PatternStorage.learnedPatterns w2) = [None]
  /\ map PatternStorage.questionPattern (PatternStorage.learnedPatterns w2)
     = ["expected salary"].
Proof. repeat split. Qed.

(** C4, as the claim states it, fails on two stores.  When the stored
    pattern for the pair has no [answerMappings] array (the learner stores
    such a pattern for a new intent on a question without options), the
    merge is skipped and the variant of the observation is not recorded:
    after two calls it appears zero times.  And a store that holds two
    patterns for the pair still holds two. *)
Lemma addPattern_variant_not_recorded :
  let env := PatternStorage.mkEnv (fun _ => "2026-01-01T00:00:00.000Z")
               (fun _ => "1767225600000") (fun _ => "k3j9x0a1b") in
  let bare id := PatternStorage.mkPattern id "expected salary" "custom.salary"
                   "custom.salary" None "text" (8 # 10) 0 "t0" "t0" "AI-new"
                   (Some false) true in
  let seen := PatternStorage.observation "expected salary" "custom.salary"
                "90000" "90000" (Some []) "text" (8 # 10) in
  let twice w := snd (PatternStorage.addPattern env seen
                        (snd (PatternStorage.addPattern env seen w))) in
  (map (PatternStorage.variantCount "90000" "90000")
       (PatternStorage.learnedPatterns
          (twice (PatternStorage.mkWorld [bare "local_1_a"] 0 0)))
   = [0%nat])
  /\ PatternStorage.countKey seen
       (PatternStorage.learnedPatterns
          (twice (PatternStorage.mkWorld [bare "local_1_a"; bare "local_2_b"] 0 0)))
     = 2%nat.
Proof. split; reflexivity. Qed.

(** When the storage does not answer the read, [addPattern] takes the
    store for empty and writes the new pattern alone: the patterns
    stored before are lost. *)
Example addPattern_rejected_read_drops_store :
  let env := PatternStorage.makeEnv (fun _ => "2026-01-01T00:00:00.000Z")
               (fun _ => "1767225600000") (fun _ => "k3j9x0a1b")
               (fun n => Nat.eqb n 0) (fun _ _ => Js.Returns None) in
  let known := PatternStorage.mkPattern "local_1_a" "years of experience"
                 "experience.years" "experience.years" None "text" (8 # 10) 0 "t0" "t0"
                 "AI" (Some false) false in
  let seen := PatternStorage.observation "gender" "eeo.gender" "Male" "Man"
                (Some ["Man"; "Woman"]) "select" (8 # 10) in
  map PatternStorage.questionPattern
      (PatternStorage.learnedPatterns
         (snd (PatternStorage.addPattern env seen (PatternStorage.mkWorld [known] 0 0))))
  = ["gender"].
Proof. reflexivity. Qed.

(** C4, amended.  When every call of the storage succeeds, calling
    [addPattern] twice with the same observation (same intent, same
    question pattern up to case, one mapping with one variant) adds no
    duplicate: after the first call the store holds as many patterns for
    the pair as before, and one if it held none; the second call adds
    none (so exactly one remains whenever the store held at most one) and
    changes nothing but [lastUsed] and [synced] of the first pattern for
    the pair, every other pattern staying as it is, hence duplicates no
    variant.  In that pattern the variant appears exactly once when the
    pattern was created by the first call, and when the pattern existed
    with an [answerMappings] array in which the variant did not appear
    twice already; it is not recorded when the existing pattern has no
    [answerMappings] array.  [addPattern], for any draft, then deletes no
    pattern and removes no variant.  When the write is rejected the
    stored patterns stay as they are; when the read is rejected and the
    write is not, the store is replaced by the one new pattern. *)
Theorem addPattern_idempotent_merge
    (env : PatternStorage.Env) (w : PatternStorage.World)
    (questionPattern intent cv v : string) (contextOptions : option (list string))
    (fieldType : string) (confidence : Q) (draft : PatternStorage.Draft.t) :
  let seen := PatternStorage.observation questionPattern intent cv v contextOptions
                fieldType confidence in
  let ps := PatternStorage.learnedPatterns w in
  let w1 := snd (PatternStorage.addPattern env seen w) in
  let w2 := snd (PatternStorage.addPattern env seen w1) in
  let ps1 := PatternStorage.learnedPatterns w1 in
  let ps2 := PatternStorage.learnedPatterns w2 in
  let after := PatternStorage.learnedPatterns
                 (snd (PatternStorage.addPattern env draft w)) in
  (PatternStorage.reliable env ->
   PatternStorage.countKey seen ps1 = Nat.max 1 (PatternStorage.countKey seen ps)
   /\ PatternStorage.countKey seen ps2 = PatternStorage.countKey seen ps1
   /\ (exists before e1 e2 behind,
         ps1 = before ++ e1 :: behind
         /\ ps2 = before ++ e2 :: behind
         /\ find (PatternStorage.sameKey seen) ps1 = Some e1
         /\ find (PatternStorage.sameKey seen) ps2 = Some e2
         /\ PatternStorage.sameButTouch e1 e2
         /\ PatternStorage.variantCount cv v e2
            = match find (PatternStorage.sameKey seen) ps with
              | None => 1%nat
              | Some e =>
                  match PatternStorage.answerMappings e with
                  | None => 0%nat
                  | Some _ => Nat.max 1 (PatternStorage.variantCount cv v e)
                  end
              end)
   /\ PatternStorage.storeGrows ps ps1
   /\ PatternStorage.storeGrows ps1 ps2
   /\ PatternStorage.storeGrows ps after)
  /\ (PatternStorage.rejects env (S (PatternStorage.calls w)) = true -> after = ps)
  /\ (PatternStorage.rejects env (PatternStorage.calls w) = true ->
      PatternStorage.rejects env (S (PatternStorage.calls w)) = false ->
      exists p,
        after = [p]
        /\ PatternStorage.id p = PatternStorage.nextId env w
        /\ PatternStorage.sameKey draft p = true).
Proof.
  intros seen ps w1 w2 ps1 ps2 after. split; [| split].
  - intros Hrel.
    destruct (addPattern_twice env Hrel seen
                (PatternStorage.mkMapping cv [v] contextOptions) w eq_refl)
      as (before & e1 & e2 & behind & H1 & H2 & Hbefore & He1 & Htouch & Hcase).
    fold w1 in H1, H2. fold w2 in H2. fold ps1 in H1. fold ps2 in H2.
    assert (Hf1 : find (PatternStorage.sameKey seen) ps1 = Some e1)
      by (rewrite H1; by apply find_skip).
    assert (Hf2 : find (PatternStorage.sameKey seen) ps2 = Some e2).
    { rewrite H2. apply find_skip; [done |].
      destruct Htouch as (_ & Hq & Hi & _). unfold PatternStorage.sameKey in *.
      by rewrite Hq, Hi. }
    split; [by apply addPattern_count |].
    split.
    { pose proof (countKey_some _ _ _ Hf1) as Hge.
      unfold ps2, w2. rewrite addPattern_count by done. fold w1. fold ps1. lia. }
    split.
    { exists before, e1, e2, behind.
      do 5 (split; [done |]).
      assert (Hsame : PatternStorage.variantCount cv v e2
                      = PatternStorage.variantCount cv v e1).
      { unfold PatternStorage.variantCount, PatternStorage.mappingsOf.
        destruct Htouch as (_ & _ & _ & _ & -> & _). done. }
      rewrite Hsame. fold ps in Hcase.
      destruct (find (PatternStorage.sameKey seen) ps) as [e|].
      + rewrite Hcase. apply variantCount_merged.
      + destruct Hcase as (_ & _ & Hmap).
        unfold PatternStorage.variantCount, PatternStorage.mappingsOf.
        rewrite Hmap. simpl. rewrite String.eqb_refl.
        unfold PatternStorage.occurrences. simpl.
        destruct (string_dec v v); [done | congruence]. }
    split; [by apply addPattern_grows |].
    split; [by apply addPattern_grows |].
    by apply addPattern_grows.
  - apply addPattern_rejected.
  - intros Hread Hwrite. subst after.
    rewrite (addPattern_unread env draft w Hread Hwrite).
    eexists. split; [done |]. split; [done | apply sameKey_newPattern].
Qed.

(** The same observation made twice on an empty store. *)
Lemma addPattern_idempotent_merge_witness :
  let env := PatternStorage.mkEnv (fun _ => "2026-01-01T00:00:00.000Z")
               (fun _ => "1767225600000") (fun _ => "k3j9x0a1b") in
  let seen := PatternStorage.observation "gender" "eeo.gender" "Male" "Man"
                (Some ["Man"; "Woman"]) "select" (8 # 10) in
  let w := PatternStorage.mkWorld [] 0 0 in
  let w2 := snd (PatternStorage.addPattern env seen
                   (snd (PatternStorage.addPattern env seen w))) in
  PatternStorage.countKey seen (PatternStorage.learnedPatterns w2) = 1%nat
  /\ map PatternStorage.mappingsOf (PatternStorage.learnedPatterns w2)
     = [[PatternStorage.mkMapping "Male" ["Man"] (Some ["Man"; "Woman"])]].
Proof.
  intros env seen w w2.
  assert (Hrel : PatternStorage.reliable env) by (intros n; reflexivity).
  pose proof (proj1 (addPattern_idempotent_merge env w "gender" "eeo.gender" "Male"
                       "Man" (Some ["Man"; "Woman"]) "select" (8 # 10) seen) Hrel)
    as (H1 & H2 & _).
  split; [| reflexivity].
  fold seen in H1, H2. fold w2 in H2. rewrite H2, H1. reflexivity.
Defined.

(** ** The mapper: what each tier returns *)

Section Tiers.
Import Js QuestionMapper.

Lemma findTruthy_some p l m :
  findTruthy p l = Some m -> In m l /\ p m = true /\ truthy m = true.
Proof.
  unfold findTruthy. destruct (find p l) as [x|] eqn:Hfind; [| done].
  destruct (truthy x) eqn:Hx; [| done]. intros [= <-].
  apply find_some in Hfind as [? ?]. by repeat split.
Qed.

Lemma firstSome_some {A B} (f : A -> option B) l y :
  firstSome f l = Some y -> exists x, In x l /\ f x = Some y.
Proof.
  induction l as [|x l IH]; [done |]. simpl.
  destruct (f x) as [y'|] eqn:Hx.
  - intros [= <-]. exists x. split; [by left | done].
  - intros H. destruct (IH H) as (x' & Hin & Hx'). exists x'. split; [by right | done].
Qed.

Lemma matchInOptions_result value opts confidence r :
  matchInOptions value opts confidence = Returns (Some r) ->
  fromOptions value opts confidence r.
Proof.
  unfold matchInOptions, fromOptions, matched.
  destruct (nonEmptyOptions opts) as [options|]; [| by intros [= <-]].
  repeat match goal with
         | |- context [match findTruthy ?p ?l with _ => _ end] =>
             let H := fresh "Hfind" in
             destruct (findTruthy p l) eqn:H;
             [apply findTruthy_some in H as (? & _ & ?) |]
         | |- context [match lookup ?t ?k with _ => _ end] =>
             destruct (lookup t k)
         | |- context [match firstSome ?f ?l with _ => _ end] =>
             let H := fresh "Hfirst" in
             destruct (firstSome f l) eqn:H;
             [apply firstSome_some in H as (? & _ & (? & _ & ?)%findTruthy_some) |]
         end;
    try discriminate; intros [= <-]; by repeat split.
Qed.

(** [booleanToYesNo] returns the first yes-like (or no-like) option if
    there is one that is not empty, and the literal otherwise. *)
Lemma booleanToYesNo_result value opts :
  match nonEmptyOptions opts with
  | Some options =>
      (In (booleanToYesNo value opts) options
       /\ (if value then isYesOption else isNoOption) (booleanToYesNo value opts) = true)
      \/ (booleanToYesNo value opts = (if value then "Yes" else "No")
          /\ findTruthy (if value then isYesOption else isNoOption) options = None)
  | None => booleanToYesNo value opts = if value then "Yes" else "No"
  end.
Proof.
  unfold booleanToYesNo. destruct (nonEmptyOptions opts) as [options|]; [| done].
  destruct value.
  - destruct (findTruthy isYesOption options) as [m|] eqn:Hfind; [| by right].
    apply findTruthy_some in Hfind as (? & ? & _). by left.
  - destruct (findTruthy isNoOption options) as [m|] eqn:Hfind; [| by right].
    apply findTruthy_some in Hfind as (? & ? & _). by left.
Qed.

Lemma directRule_canonical {S} keyword (section : Profile.t -> option S) field :
  ruleReturns canonicalResult (directRule keyword section field).
Proof.
  intros question profile r. unfold directRule, direct.
  destruct (keyword _); [| done].
  destruct (Profile.truthyMember _ _); [| done]. by intros [= <-].
Qed.

Lemma optionRule_canonical {S} keyword (section : Profile.t -> option S) field :
  ruleReturns canonicalResult (optionRule keyword section field).
Proof.
  intros question profile r. unfold optionRule.
  destruct (keyword _); [| done].
  destruct (Profile.truthyMember _ _); [| done]. intros [= H].
  apply matchInOptions_result in H as (? & ? & _). by split.
Qed.

Lemma booleanRule_canonical {S} keyword (section : Profile.t -> option S) field :
  ruleReturns canonicalResult (booleanRule keyword section field).
Proof.
  intros question profile r. unfold booleanRule, direct.
  destruct (keyword _); [| done].
  destruct (Profile.member _ _); [| done]. by intros [= <-].
Qed.

Lemma resumeRule_canonical : ruleReturns canonicalResult resumeRule.
Proof.
  intros question profile r. unfold resumeRule.
  destruct (_ || _ || _ || _); [| done].
  destruct (Profile.member _ _); [| done].
  destruct (Profile.truthyMember _ _); [| done]. by intros [= <-].
Qed.

Lemma coverLetterRule_canonical : ruleReturns canonicalResult coverLetterRule.
Proof.
  intros question profile r. unfold coverLetterRule.
  destruct (_ || _ || _ || _); [| done].
  destruct (Profile.member _ _); [| done].
  destruct (Profile.truthyMember _ _); [| done]. by intros [= <-].
Qed.

Lemma firstRule_returns P rules question profile r :
  Forall (ruleReturns P) rules ->
  firstRule rules question profile = Returns (Some r) -> P r.
Proof.
  induction 1 as [|rule rules Hrule _ IH]; simpl; [done |].
  destruct (rule question profile) as [outcome|] eqn:Happlies; [| exact IH].
  intros ->. by apply (Hrule question profile).
Qed.

Lemma canonicalRules_canonical : Forall (ruleReturns canonicalResult) canonicalRules.
Proof.
  unfold canonicalRules.
  repeat (apply List.Forall_cons;
          [first [ apply directRule_canonical | apply optionRule_canonical
                 | apply booleanRule_canonical | apply resumeRule_canonical
                 | apply coverLetterRule_canonical ] |]).
  apply List.Forall_nil.
Qed.

Lemma tryCanonical_result question profile r :
  tryCanonical question profile = Returns (Some r) -> canonicalResult r.
Proof. apply firstRule_returns, canonicalRules_canonical. Qed.

Lemma tryFuzzy_result question profile r :
  tryFuzzy question profile = Returns (Some r) ->
  exists value, fromOptions value (Scanner.options question) (9 # 10) r.
Proof.
  unfold tryFuzzy. destruct (Scanner.options question); [| done].
  destruct (includes _ _); [| done].
  destruct (Profile.truthyMember _ _) as [g|]; [| done].
  intros H. exists g. by apply matchInOptions_result.
Qed.

End Tiers.

Section LearnedTier.
Import Js Effect QuestionMapper.

Lemma nonEmptyOptions_some opts options :
  nonEmptyOptions opts = Some options -> opts = Some options /\ options <> [].
Proof. destruct opts as [[|o os]|]; try done. by intros [= <-]. Qed.

Lemma optionFor_In options text m : optionFor options text = Some m -> In m options.
Proof. intros H. by apply findTruthy_some in H as (? & _). Qed.

Lemma variants_option_In options (vs : list string) m :
  firstSome (optionFor options) vs = Some m -> In m options.
Proof.
  intros H. apply firstSome_some in H as (v & _ & H). by apply optionFor_In in H.
Qed.

Lemma findBestVariant_In cv mappings opts options answer :
  nonEmptyOptions opts = Some options ->
  findBestVariant cv mappings opts = Some answer -> In answer options.
Proof.
  intros Hopts. unfold findBestVariant. rewrite Hopts.
  destruct (find _ mappings); [| done]. apply variants_option_In.
Qed.

Lemma answerFromProfile_result question pattern canonicalValue r :
  answerFromProfile question pattern canonicalValue = Some r ->
  learnedFromOptions question pattern r.
Proof.
  unfold answerFromProfile, learnedResult, learnedFromOptions.
  destruct (ifTruthy canonicalValue) as [cv|]; [| done].
  destruct (PatternStorage.answerMappings pattern) as [[|m ms]|].
  - destruct (nonEmptyOptions (Scanner.options question)) as [options|] eqn:Hopts.
    + destruct (optionFor options cv) as [x|] eqn:Hx; [| done].
      intros [= <-]. repeat split. intros ? [= <-]. by apply optionFor_In in Hx.
    + intros [= <-]. by repeat split.
  - destruct (findBestVariant cv (m :: ms) (Scanner.options question))
      as [a|] eqn:Hbest; [| done].
    destruct (truthy a); [| done]. intros [= <-]. repeat split.
    intros options Hopts. by apply (findBestVariant_In _ _ _ _ _ Hopts Hbest).
  - destruct (nonEmptyOptions (Scanner.options question)) as [options|] eqn:Hopts.
    + destruct (optionFor options cv) as [x|] eqn:Hx; [| done].
      intros [= <-]. repeat split. intros ? [= <-]. by apply optionFor_In in Hx.
    + intros [= <-]. by repeat split.
Qed.

Lemma answerWith_result question pattern canonicalValue r :
  answerWith question pattern canonicalValue = Some r ->
  learnedFromOptions question pattern r.
Proof.
  unfold answerWith.
  destruct (PatternStorage.answerMappings pattern) as [[|m ms]|] eqn:Hmaps;
    try apply answerFromProfile_result.
  destruct (Scanner.options question) as [options|] eqn:Hq;
    [| apply answerFromProfile_result].
  destruct (firstSome _ (m :: ms)) as [x|] eqn:Hfirst;
    [| apply answerFromProfile_result].
  unfold learnedResult, learnedFromOptions. intros [= <-]. repeat split. simpl.
  apply firstSome_some in Hfirst as (mapping & _ & Hv).
  apply variants_option_In in Hv.
  intros options' Hopts. rewrite Hq in Hopts.
  apply nonEmptyOptions_some in Hopts as [[= <-] _]. done.
Qed.

Variable env : PatternStorage.Env.

(** A result of the learned tier is tagged ['learned'], carries the
    confidence of the pattern, and, when the question has options, is
    one of them. *)
Lemma answerFromPattern_result question profile pattern r :
  answerFromPattern env question profile pattern = Returns (Some r) ->
  learnedFromOptions question pattern r.
Proof.
  unfold answerFromPattern.
  destruct (getValueFromProfile env profile _) as [e|cv]; [done |].
  intros [= H]. by apply answerWith_result in H.
Qed.

(** The learned tier throws only when the reading of the canonical
    value does. *)
Lemma answerFromPattern_threw question profile pattern :
  threw (answerFromPattern env question profile pattern)
  = threw (getValueFromProfile env profile (PatternStorage.intent pattern)).
Proof.
  unfold answerFromPattern. by destruct (getValueFromProfile env profile _).
Qed.

(** [tryLearned] is the lookup followed by the use of the pattern. *)
Lemma tryLearned_run question profile w :
  tryLearned env question profile w =
  (match fst (PatternStorage.findPattern env (Scanner.questionText question) w) with
   | Some pattern => answerFromPattern env question profile pattern
   | None => Returns None
   end,
   snd (PatternStorage.findPattern env (Scanner.questionText question) w)).
Proof.
  unfold tryLearned, bind.
  by destruct (fst (PatternStorage.findPattern env _ w)).
Qed.

Lemma tryLearned_result question profile w r :
  fst (tryLearned env question profile w) = Returns (Some r) ->
  exists pattern,
    fst (PatternStorage.findPattern env (Scanner.questionText question) w)
    = Some pattern
    /\ answerFromPattern env question profile pattern = Returns (Some r).
Proof.
  rewrite tryLearned_run. simpl.
  destruct (fst (PatternStorage.findPattern env _ w)) as [pattern|]; [| done].
  intros H. by exists pattern.
Qed.

(** The short cut of [tryMapping]: a canonical result is returned at
    once, before the store is read. *)
Lemma tryMapping_canonical question profile w r :
  tryCanonical question profile = Returns (Some r) ->
  tryMapping env question profile w = (Returns (Some r), w).
Proof. intros H. unfold tryMapping. by rewrite H. Qed.

(** [tryMapping] tier by tier. *)
Lemma tryMapping_run question profile w :
  tryMapping env question profile w =
  match tryCanonical question profile with
  | Throws e => (Throws e, w)
  | Returns (Some r) => (Returns (Some r), w)
  | Returns None =>
      (match fst (tryLearned env question profile w) with
       | Throws e => Throws e
       | Returns (Some r) => Returns (Some r)
       | Returns None =>
           match nonEmptyOptions (Scanner.options question) with
           | Some _ => tryFuzzy question profile
           | None => Returns None
           end
       end,
       snd (tryLearned env question profile w))
  end.
Proof.
  unfold tryMapping.
  destruct (tryCanonical question profile) as [e|[r|]]; try done.
  unfold bind.
  destruct (fst (tryLearned env question profile w)) as [e|[r|]]; try done.
  by destruct (nonEmptyOptions _).
Qed.

(** A result of tiers 1 to 3 comes from the canonical tier, or from a
    stored pattern that the lookup returned (then it carries the tag
    ['learned']), or, for a question with options that the first two
    tiers left open, from the fuzzy tier. *)
Lemma tryMapping_result question profile w r :
  fst (tryMapping env question profile w) = Returns (Some r) ->
  tryCanonical question profile = Returns (Some r)
  \/ (tryCanonical question profile = Returns None
      /\ exists pattern,
           fst (PatternStorage.findPattern env (Scanner.questionText question) w)
           = Some pattern
           /\ answerFromPattern env question profile pattern = Returns (Some r))
  \/ (tryCanonical question profile = Returns None
      /\ (exists options, nonEmptyOptions (Scanner.options question) = Some options)
      /\ tryFuzzy question profile = Returns (Some r)).
Proof.
  rewrite tryMapping_run.
  destruct (tryCanonical question profile) as [e|[c|]] eqn:Hcanonical; simpl.
  - done.
  - intros [= <-]. by left.
  - destruct (fst (tryLearned env question profile w)) as [e|[l|]] eqn:Hlearned.
    + done.
    + intros [= <-]. right. left. split; [done |].
      by apply tryLearned_result.
    + destruct (nonEmptyOptions _) as [options|] eqn:Hopts; [| done].
      intros H. right. right. split; [done |]. split; [by exists options | done].
Qed.

Lemma tryMapping_source question profile w r :
  fst (tryMapping env question profile w) = Returns (Some r) ->
  Result.source r = canonical
  \/ exists pattern,
       fst (PatternStorage.findPattern env (Scanner.questionText question) w)
       = Some pattern
       /\ answerFromPattern env question profile pattern = Returns (Some r).
Proof.
  intros H. apply tryMapping_result in H as [H|[(_ & H)|(_ & _ & H)]].
  - left. by apply tryCanonical_result in H as [? _].
  - by right.
  - left. by apply tryFuzzy_result in H as (v & ? & _).
Qed.

Lemma tryMapping_not_AI question profile w r :
  fst (tryMapping env question profile w) = Returns (Some r) ->
  Result.source r <> AI.
Proof.
  intros H. apply tryMapping_source in H as [H|(pattern & _ & H)].
  - by rewrite H.
  - apply answerFromPattern_result in H as (H & _). by rewrite H.
Qed.

End LearnedTier.

Section Process.
Import Js Effect QuestionMapper.
Variable env : PatternStorage.Env.
Variable askAI : nat -> Request.t -> option Response.t.

(** One round of the loop of phase 1. *)
Lemma phase1_step profile q rest acc un w :
  phase1 env profile (q :: rest) acc un w =
  match fst (tryMapping env q profile w) with
  | Throws e => (Throws e, snd (tryMapping env q profile w))
  | Returns (Some result) =>
      if Qle_bool (85 # 100) (Result.confidence result)
      then phase1 env profile rest (acc ++ [mapped q result]) un
             (snd (tryMapping env q profile w))
      else phase1 env profile rest acc (un ++ [q]) (snd (tryMapping env q profile w))
  | Returns None =>
      phase1 env profile rest acc (un ++ [q]) (snd (tryMapping env q profile w))
  end.
Proof.
  simpl. unfold bind.
  destruct (fst (tryMapping env q profile w)) as [e|[result|]]; try done.
  by destruct (Qle_bool _ _).
Qed.

Lemma worldAt_0 profile questions w : worldAt env profile questions 0 w = w.
Proof. by destruct questions. Qed.

Lemma worldAt_S profile q rest k w :
  worldAt env profile (q :: rest) (S k) w
  = worldAt env profile rest k (snd (tryMapping env q profile w)).
Proof. done. Qed.

Lemma tiersAt_0 profile questions q w :
  tiersAt env profile questions 0 q w = fst (tryMapping env q profile w).
Proof. unfold tiersAt. by rewrite worldAt_0. Qed.

Lemma tiersAt_S profile q rest k q' w :
  tiersAt env profile (q :: rest) (S k) q' w
  = tiersAt env profile rest k q' (snd (tryMapping env q profile w)).
Proof. done. Qed.

(** What phase 1 leaves in its two lists and in the world: each
    question goes, by the result of tiers 1 to 3 in the world that the
    questions before it have left, to the mapped answers or to the
    questions for the oracle. *)
Lemma phase1_trace profile questions : forall acc un w m u w',
  phase1 env profile questions acc un w = (Returns (m, u), w') ->
  exists ms us,
    m = acc ++ ms /\ u = un ++ us
    /\ w' = worldAt env profile questions (length questions) w
    /\ (forall a, In a ms ->
          exists k q r,
            nth_error questions k = Some q
            /\ tiersAt env profile questions k q w = Returns (Some r)
            /\ confident r = true
            /\ a = mapped q r)
    /\ (forall q, In q us ->
          exists k, nth_error questions k = Some q
                    /\ unresolved (tiersAt env profile questions k q w))
    /\ (forall k q, nth_error questions k = Some q ->
          match tiersAt env profile questions k q w with
          | Throws _ => False
          | Returns (Some r) => if confident r then In (mapped q r) ms else In q us
          | Returns None => In q us
          end).
Proof.
  induction questions as [|q rest IH]; intros acc un w m u w'.
  - simpl. unfold ret. intros [= <- <- <-]. exists [], [].
    rewrite !app_nil_r. repeat split; try done. by intros [|k] q.
  - rewrite phase1_step.
    destruct (fst (tryMapping env q profile w)) as [e|[result|]] eqn:Hq; [done | |].
    + destruct (Qle_bool (85 # 100) (Result.confidence result)) eqn:Hconf.
      * intros H. destruct (IH _ _ _ _ _ _ H) as (ms & us & -> & -> & -> & Hm & Hu & Hall).
        exists (mapped q result :: ms), us. rewrite <- app_assoc.
        repeat split; try done.
        -- intros a [<-|Ha].
           ++ exists 0%nat, q, result. by rewrite tiersAt_0.
           ++ destruct (Hm a Ha) as (k & q' & r & ? & ? & ? & ?).
              exists (S k), q', r. by rewrite tiersAt_S.
        -- intros q' Hq'. destruct (Hu q' Hq') as (k & ? & ?). exists (S k). by rewrite tiersAt_S.
        -- intros [|k] q' Hk; simpl in Hk.
           ++ injection Hk as <-. rewrite tiersAt_0, Hq. unfold confident.
              rewrite Hconf. by left.
           ++ rewrite tiersAt_S. specialize (Hall k q' Hk).
              destruct (tiersAt env profile rest k q' _) as [|[r|]]; try done.
              destruct (confident r); [by right | done].
      * intros H. destruct (IH _ _ _ _ _ _ H) as (ms & us & -> & -> & -> & Hm & Hu & Hall).
        exists ms, (q :: us). rewrite <- app_assoc.
        repeat split; try done.
        -- intros a Ha. destruct (Hm a Ha) as (k & q' & r & ? & ? & ? & ?).
           exists (S k), q', r. by rewrite tiersAt_S.
        -- intros q' [<-|Hq'].
           ++ exists 0%nat. split; [done |]. rewrite tiersAt_0, Hq.
              right. by exists result.
           ++ destruct (Hu q' Hq') as (k & ? & ?). exists (S k). by rewrite tiersAt_S.
        -- intros [|k] q' Hk; simpl in Hk.
           ++ injection Hk as <-. rewrite tiersAt_0, Hq. unfold confident.
              rewrite Hconf. by left.
           ++ rewrite tiersAt_S. specialize (Hall k q' Hk).
              destruct (tiersAt env profile rest k q' _) as [|[r|]];
                [done | | by right].
              destruct (confident r); [done | by right].
    + intros H. destruct (IH _ _ _ _ _ _ H) as (ms & us & -> & -> & -> & Hm & Hu & Hall).
      exists ms, (q :: us). rewrite <- app_assoc.
      repeat split; try done.
      * intros a Ha. destruct (Hm a Ha) as (k & q' & r & ? & ? & ? & ?).
        exists (S k), q', r. by rewrite tiersAt_S.
      * intros q' [<-|Hq'].
        -- exists 0%nat. split; [done |]. rewrite tiersAt_0, Hq. by left.
        -- destruct (Hu q' Hq') as (k & ? & ?). exists (S k). by rewrite tiersAt_S.
      * intros [|k] q' Hk; simpl in Hk.
        -- injection Hk as <-. rewrite tiersAt_0, Hq. by left.
        -- rewrite tiersAt_S. specialize (Hall k q' Hk).
           destruct (tiersAt env profile rest k q' _) as [|[r|]];
             [done | | by right].
           destruct (confident r); [done | by right].
Qed.

(** What phase 1 leaves in its two lists. *)
Lemma phase1_lists profile questions w m u :
  fst (phase1 env profile questions [] [] w) = Returns (m, u) ->
  (forall a, In a m ->
     exists q r w0,
       In q questions
       /\ fst (tryMapping env q profile w0) = Returns (Some r)
       /\ Qle_bool (85 # 100) (Result.confidence r) = true
       /\ a = mapped q r)
  /\ (forall q, In q u -> In q questions).
Proof.
  intros H.
  destruct (phase1 env profile questions [] [] w) as [o w'] eqn:Hrun.
  simpl in H. subst o.
  apply phase1_trace in Hrun as (ms & us & -> & -> & _ & Hm & Hu & _).
  split.
  - intros a Ha. destruct (Hm a Ha) as (k & q & r & Hk & Hr & Hc & ->).
    exists q, r, (worldAt env profile questions k w).
    repeat split; try done. by apply nth_error_In in Hk.
  - intros q Hq. destruct (Hu q Hq) as (k & Hk & _). by apply nth_error_In in Hk.
Qed.

(** A question that the canonical tier resolves is in the mapped list
    with that result, whatever the store holds. *)
Lemma phase1_canonical profile questions w m u q r :
  fst (phase1 env profile questions [] [] w) = Returns (m, u) ->
  In q questions -> tryCanonical q profile = Returns (Some r) ->
  In (mapped q r) m.
Proof.
  intros H Hin Hcanonical.
  destruct (phase1 env profile questions [] [] w) as [o w'] eqn:Hrun.
  simpl in H. subst o.
  apply phase1_trace in Hrun as (ms & us & -> & -> & _ & _ & _ & Hall).
  apply In_nth_error in Hin as (k & Hk). specialize (Hall k q Hk).
  unfold tiersAt in Hall.
  rewrite (tryMapping_canonical env q profile _ r Hcanonical) in Hall. simpl in Hall.
  apply tryCanonical_result in Hcanonical as [_ Hone].
  unfold confident in Hall. rewrite Hone in Hall.
  by change (Qle_bool (85 # 100) one) with true in Hall.
Qed.

(** Phase 1 ends normally unless a tier throws. *)
Lemma phase1_returns profile questions : forall acc un w,
  (forall q w0, In q questions -> threw (fst (tryMapping env q profile w0)) = false) ->
  exists m u w', phase1 env profile questions acc un w = (Returns (m, u), w').
Proof.
  induction questions as [|q rest IH]; intros acc un w Hok.
  - by exists acc, un, w.
  - rewrite phase1_step. pose proof (Hok q w (or_introl eq_refl)) as Hq.
    destruct (fst (tryMapping env q profile w)) as [e|[result|]]; [done | |].
    + destruct (Qle_bool _ _); apply IH; intros q' w0 Hin; apply Hok; by right.
    + apply IH; intros q' w0 Hin; apply Hok; by right.
Qed.

(** [tryMapping] throws only when a tier does; the learned tier throws
    only when the canonical value of the pattern it found cannot be
    read. *)
Lemma tryMapping_threw profile q w :
  threw (tryCanonical q profile) = false -> threw (tryFuzzy q profile) = false ->
  (forall pattern,
     fst (PatternStorage.findPattern env (Scanner.questionText q) w) = Some pattern ->
     threw (getValueFromProfile env profile (PatternStorage.intent pattern)) = false) ->
  threw (fst (tryMapping env q profile w)) = false.
Proof.
  intros Hc Hf Hl. rewrite tryMapping_run.
  destruct (tryCanonical q profile) as [e|[r|]]; [done | done |]. simpl.
  rewrite tryLearned_run. simpl.
  destruct (fst (PatternStorage.findPattern env _ w)) as [pattern|].
  - specialize (Hl pattern eq_refl).
    rewrite <- (answerFromPattern_threw env q profile pattern) in Hl.
    destruct (answerFromPattern env q profile pattern) as [e|[r|]]; try done.
    destruct (nonEmptyOptions _); [| done]. by destruct (tryFuzzy q profile).
  - destruct (nonEmptyOptions _); [| done]. by destruct (tryFuzzy q profile).
Qed.

(** The answers of the oracle that reach the result. *)
Lemma answerOfAI_result profile i q a :
  answerOfAI askAI profile i q = Some a ->
  source a = AI
  /\ selector a = Scanner.selector q
  /\ questionText a = Scanner.questionText q
  /\ options a = Scanner.options q
  /\ (exists aiResponse,
        askAI i (aiRequest q profile) = Some aiResponse
        /\ truthy (Response.answer aiResponse) = true
        /\ canonicalKey a = Response.intent aiResponse)
  /\ (forall opts, nonEmptyOptions (Scanner.options q) = Some opts ->
                   In (answer a) opts).
Proof.
  unfold answerOfAI.
  destruct (askAI i (aiRequest q profile)) as [aiResponse|]; [| done].
  destruct (truthy (Response.answer aiResponse)) eqn:Hanswer; [| done].
  destruct (nonEmptyOptions (Scanner.options q)) as [opts|] eqn:Hopts.
  - destruct (findTruthy _ opts) as [exactMatch|] eqn:Hexact.
    + intros [= <-]. apply findTruthy_some in Hexact as (? & _).
      repeat split; try done; [by exists aiResponse | by intros ? [= <-]].
    + destruct (fuzzyMatchOption _ opts) as [e|[fuzzyMatch|]] eqn:Hfuzzy; try done.
      destruct (truthy fuzzyMatch); [| done]. intros [= <-].
      repeat split; try done; [by exists aiResponse |]. intros ? [= <-]. simpl.
      unfold fuzzyMatchOption in Hfuzzy.
      destruct (matchInOptions _ (Some opts) _) as [|[result|]] eqn:Hmatch; try done.
      injection Hfuzzy as <-.
      apply matchInOptions_result in Hmatch as (_ & _ & _ & Hin).
      apply nonEmptyOptions_some in Hopts as [_ Hne].
      destruct opts; [done |]. simpl in Hin. by destruct Hin.
  - intros [= <-]. repeat split; try done. by exists aiResponse.
Qed.

Lemma notNull_In {A} (l : list (option A)) a : In a (notNull l) <-> In (Some a) l.
Proof.
  induction l as [|[x|] l IH]; simpl; [done | |].
  - rewrite IH. split; intros [H|H]; auto; left; congruence.
  - rewrite IH. split; [by right | by intros [?|?]].
Qed.

Lemma aiResults_In profile questions : forall i o,
  In o (aiResults askAI profile i questions) <->
  exists k q, nth_error questions k = Some q
              /\ o = answerOfAI askAI profile (i + k) q.
Proof.
  induction questions as [|q rest IH]; intros i o; simpl.
  - split; [done | by intros ([|?] & ? & ? & _)].
  - rewrite IH. split.
    + intros [<-|(k & q' & Hk & ->)].
      * exists 0%nat, q. by rewrite Nat.add_0_r.
      * exists (S k), q'. split; [done |]. f_equal. lia.
    + intros ([|k] & q' & Hk & ->); simpl in Hk.
      * injection Hk as <-. left. by rewrite Nat.add_0_r.
      * right. exists k, q'. split; [done |]. f_equal. lia.
Qed.

Lemma aiAnswersOf_In profile questions a :
  In a (aiAnswersOf askAI questions profile) <->
  exists k q, nth_error questions k = Some q
              /\ answerOfAI askAI profile k q = Some a.
Proof.
  unfold aiAnswersOf. rewrite notNull_In, aiResults_In.
  split; intros (k & q & Hk & H); exists k, q; (split; [done |]); simpl in *; congruence.
Qed.

(** [requestAIAnswers] resolves to the answers of the oracle; the world
    is two readings of the clock later. *)
Lemma requestAIAnswers_run profile questions w :
  requestAIAnswers env askAI questions profile w =
  (aiAnswersOf askAI questions profile,
   PatternStorage.makeWorld (PatternStorage.learnedPatterns w)
     (S (S (PatternStorage.ticks w))) (PatternStorage.draws w)
     (PatternStorage.calls w)).
Proof. done. Qed.

(** The two phases of [processQuestions]: the answers of phase 1, then
    those of the oracle, unless the learning loop throws. *)
Lemma processQuestions_phases profile questions w :
  processQuestions env askAI (Some profile) questions w =
  match fst (phase1 env profile questions [] [] w) with
  | Throws e => (Throws e, snd (phase1 env profile questions [] [] w))
  | Returns (m, []) => (Returns m, snd (phase1 env profile questions [] [] w))
  | Returns (m, u) =>
      let aiAnswers := aiAnswersOf askAI u profile in
      let w2 := snd (requestAIAnswers env askAI u profile
                       (snd (phase1 env profile questions [] [] w))) in
      (match fst (learnAll env profile u aiAnswers w2) with
       | Throws e => Throws e
       | Returns _ => Returns (m ++ aiAnswers)
       end,
       snd (learnAll env profile u aiAnswers w2))
  end.
Proof.
  unfold processQuestions, bind.
  destruct (fst (phase1 env profile questions [] [] w)) as [e|[m [|q u]]]; try done.
  rewrite requestAIAnswers_run. simpl.
  by destruct (fst (learnAll env profile _ _ _)).
Qed.

(** When [processQuestions] returns, it returns the answers of phase 1
    followed by those of the oracle for the questions that phase 1 left
    open. *)
Lemma processQuestions_returned profile questions w out :
  fst (processQuestions env askAI (Some profile) questions w) = Returns out ->
  exists m u,
    fst (phase1 env profile questions [] [] w) = Returns (m, u)
    /\ out = m ++ aiAnswersOf askAI u profile.
Proof.
  rewrite processQuestions_phases.
  destruct (fst (phase1 env profile questions [] [] w)) as [e|[m [|q u]]]; simpl.
  - done.
  - intros [= <-]. exists m, []. by rewrite app_nil_r.
  - destruct (fst (learnAll env profile _ _ _)); [done |].
    intros [= <-]. by exists m, (q :: u).
Qed.

End Process.

Section PhaseStore.
Import Js Effect QuestionMapper.
Variable env : PatternStorage.Env.

Lemma sameButUsage_refl p : PatternStorage.sameButUsage p p.
Proof. by repeat split. Qed.

Lemma sameButUsage_trans p q r :
  PatternStorage.sameButUsage p q -> PatternStorage.sameButUsage q r ->
  PatternStorage.sameButUsage p r.
Proof.
  unfold PatternStorage.sameButUsage.
  intros (? & ? & ? & ? & ? & ? & ? & ? & ? & ? & ?)
         (? & ? & ? & ? & ? & ? & ? & ? & ? & ? & ?).
  repeat split; congruence.
Qed.

Lemma Forall2_same {A} (R : A -> A -> Prop) (l : list A) :
  (forall x, R x x) -> Forall2 R l l.
Proof. intros Hrefl. induction l; by constructor. Qed.

Lemma Forall2_updateFirst {A} (R : A -> A -> Prop) p f (l : list A) :
  (forall x, R x x) -> (forall x, R x (f x)) -> Forall2 R l (updateFirst p f l).
Proof.
  intros Hrefl Hf. induction l as [|x l IH]; simpl; [constructor |].
  destruct (p x); constructor; auto. by apply Forall2_same.
Qed.

Lemma Forall2_chain {A} (R : A -> A -> Prop) (l1 l2 l3 : list A) :
  (forall x y z, R x y -> R y z -> R x z) ->
  Forall2 R l1 l2 -> Forall2 R l2 l3 -> Forall2 R l1 l3.
Proof.
  intros Htrans H12. revert l3.
  induction H12 as [|x y l1 l2 Hxy _ IH]; intros l3 H23; inversion H23; subst;
    constructor; eauto.
Qed.

Lemma Forall2_In_r {A} (R : A -> A -> Prop) (l1 l2 : list A) y :
  Forall2 R l1 l2 -> In y l2 -> exists x, In x l1 /\ R x y.
Proof.
  induction 1 as [|x y' l1 l2 Hxy _ IH]; [done |].
  intros [<-|Hin].
  - exists x. split; [by left | done].
  - destruct (IH Hin) as (x0 & ? & ?). exists x0. split; [by right | done].
Qed.

(** A lookup changes nothing in the store but usage counts and times of
    last use. *)
Lemma findPattern_usage questionText w :
  Forall2 PatternStorage.sameButUsage (PatternStorage.learnedPatterns w)
    (PatternStorage.learnedPatterns
       (snd (PatternStorage.findPattern env questionText w))).
Proof.
  destruct (findPattern_patterns env questionText w)
    as [->|(found & _ & _ & _ & _ & ->)].
  - apply Forall2_same, sameButUsage_refl.
  - apply Forall2_updateFirst; [apply sameButUsage_refl |].
    intros x. apply used_sameButUsage.
Qed.

Lemma tryMapping_usage question profile w :
  Forall2 PatternStorage.sameButUsage (PatternStorage.learnedPatterns w)
    (PatternStorage.learnedPatterns (snd (tryMapping env question profile w))).
Proof.
  rewrite tryMapping_run.
  destruct (tryCanonical question profile) as [e|[r|]]; simpl;
    try apply Forall2_same, sameButUsage_refl.
  rewrite tryLearned_run. simpl. apply findPattern_usage.
Qed.

(** So does phase 1, up to any of its questions. *)
Lemma worldAt_usage profile questions : forall k w,
  Forall2 PatternStorage.sameButUsage (PatternStorage.learnedPatterns w)
    (PatternStorage.learnedPatterns (worldAt env profile questions k w)).
Proof.
  induction questions as [|q rest IH]; intros k w.
  - destruct k; apply Forall2_same, sameButUsage_refl.
  - destruct k as [|k]; [apply Forall2_same, sameButUsage_refl |].
    rewrite worldAt_S.
    eapply Forall2_chain; [apply sameButUsage_trans | apply tryMapping_usage | apply IH].
Qed.

(** The pattern that a lookup of phase 1 returns is a pattern of the
    store in which [processQuestions] started, up to its usage count and
    time of last use. *)
Lemma worldAt_found profile questions k w questionText pattern :
  fst (PatternStorage.findPattern env questionText
         (worldAt env profile questions k w)) = Some pattern ->
  exists stored,
    In stored (PatternStorage.learnedPatterns w)
    /\ PatternStorage.sameButUsage stored pattern.
Proof.
  intros Hfound. apply findPattern_stored in Hfound.
  apply find_some in Hfound as [Hin _].
  by apply (Forall2_In_r _ _ _ _ (worldAt_usage profile questions k w)).
Qed.

(** The world that phase 1 leaves. *)
Lemma phase1_world profile questions w m u :
  fst (phase1 env profile questions [] [] w) = Returns (m, u) ->
  snd (phase1 env profile questions [] [] w)
  = worldAt env profile questions (length questions) w.
Proof.
  destruct (phase1 env profile questions [] [] w) as [o w'] eqn:Hrun.
  simpl. intros ->. by apply phase1_trace in Hrun as (_ & _ & _ & _ & -> & _).
Qed.

End PhaseStore.

Section Learning.
Import Js Effect QuestionMapper.
Variable env : PatternStorage.Env.

(** What [learnFromAIResponse] does: nothing without an intent;
    otherwise one [addPattern] of a pattern for the normal form of the
    question and the intent, unless the reading of the canonical value
    throws, which leaves the world as it was. *)
Lemma learnFromAIResponse_cases q a profile w :
  match learnedIntent q a profile with
  | Some intent =>
      (exists e,
         getValueFromProfile env profile intent = Throws e
         /\ learnFromAIResponse env q a profile w = (Throws e, w))
      \/ exists pattern,
           learnFromAIResponse env q a profile w
           = (Returns tt, snd (PatternStorage.addPattern env pattern w))
           /\ PatternStorage.Draft.questionPattern pattern
              = normalizeQuestion (Scanner.questionText q)
           /\ PatternStorage.Draft.intent pattern = intent
  | None => learnFromAIResponse env q a profile w = (Returns tt, w)
  end.
Proof.
  unfold learnedIntent, learnFromAIResponse, ifTruthy.
  destruct (canonicalKey a) as [k|]; [destruct (truthy k) |].
  - destruct (isNewIntent a); [right; eexists; by repeat split |].
    destruct (getValueFromProfile env profile k) as [e|cv] eqn:Hread.
    + left. by exists e.
    + right. eexists. by repeat split.
  - destruct (detectIntent _ _ _) as [i|]; [| done].
    destruct (truthy i); [| done].
    destruct (getValueFromProfile env profile i) as [e|cv] eqn:Hread.
    + left. by exists e.
    + right. eexists. by repeat split.
  - destruct (detectIntent _ _ _) as [i|]; [| done].
    destruct (truthy i); [| done].
    destruct (getValueFromProfile env profile i) as [e|cv] eqn:Hread.
    + left. by exists e.
    + right. eexists. by repeat split.
Qed.

Lemma assoc_In {A} k (table : list (string * A)) v :
  assoc k table = Some v -> In (k, v) table.
Proof.
  induction table as [|[k' v'] table IH]; [done |]. simpl.
  destruct (String.eqb_spec k k') as [->|]; [intros [= ->]; by left |].
  intros H. right. by apply IH.
Qed.

(** The members of the profile object are objects. *)
Lemma toObject_members profile part member :
  Profile.get (Profile.toObject profile) part = Own member ->
  exists props, member = Profile.JObj props.
Proof.
  unfold Profile.toObject, Profile.get, lookup.
  destruct (assoc part _) as [v|] eqn:Hassoc;
    [| by destruct (Js.member part objectPrototypeKeys)].
  intros [= <-]. apply assoc_In in Hassoc.
  destruct profile as [personal eeo workAuthorization social documents application
                         consent]. simpl in Hassoc.
  repeat (apply in_app_or in Hassoc as [Hassoc|Hassoc];
          [match type of Hassoc with
           | In _ (Profile.prop _ _ ?o) =>
               destruct o; [destruct Hassoc as [[= _ <-]|[]]; by eexists | done]
           end |]).
  destruct consent; [destruct Hassoc as [[= _ <-]|[]]; by eexists | done].
Qed.

(** An intent of two parts, neither of which names a member of
    [Object.prototype], is read without the built-in members of the
    engine: the reading does not throw. *)
Lemma walk_two profile a b :
  member a objectPrototypeKeys = false -> member b objectPrototypeKeys = false ->
  threw (walk env (Profile.toObject profile) [a; b]) = false.
Proof.
  intros Ha Hb.
  change (walk env (Profile.toObject profile) [a; b])
    with (match Profile.get (Profile.toObject profile) a with
          | Own section => walk env section [b]
          | Inherited => PatternStorage.builtIn env (Profile.toObject profile) [a; b]
          | Missing => Returns None
          end).
  destruct (Profile.get (Profile.toObject profile) a) as [section| |] eqn:Hsection.
  - apply toObject_members in Hsection as (props & ->).
    simpl. unfold lookup. destruct (assoc b props); [done |]. by rewrite Hb.
  - unfold Profile.toObject, Profile.get, lookup in Hsection. rewrite Ha in Hsection.
    by destruct (assoc a _).
  - done.
Qed.

(** The intents of [detectIntent] are read without throwing. *)
Lemma detectIntent_readable questionText answer profile intent :
  detectIntent questionText answer profile = Some intent ->
  threw (getValueFromProfile env profile intent) = false.
Proof.
  unfold detectIntent. intros H.
  apply firstSome_some in H as ([test i] & Hin & Htest). simpl in Htest.
  destruct test; [| done]. injection Htest as ->.
  unfold intentTests in Hin. simpl in Hin.
  unfold getValueFromProfile.
  repeat (destruct Hin as [Hin|Hin];
          [injection Hin as _ <-;
           match goal with
           | |- context [splitOn ?sep ?i] =>
               let parts := eval vm_compute in (splitOn sep i) in
               change (splitOn sep i) with parts
           end;
           by apply walk_two |]).
  done.
Qed.

(** [learnFromAIResponse] throws only on the reading of an intent that
    the answer carries. *)
Lemma learnFromAIResponse_threw q a profile w e :
  fst (learnFromAIResponse env q a profile w) = Throws e ->
  exists k, canonicalKey a = Some k
            /\ getValueFromProfile env profile k = Throws e.
Proof.
  unfold learnFromAIResponse.
  destruct (canonicalKey a) as [k|]; [destruct (truthy k) |].
  - destruct (isNewIntent a); [done |].
    destruct (getValueFromProfile env profile k) as [e'|cv] eqn:Hread; [| done].
    intros [= <-]. by exists k.
  - destruct (detectIntent _ _ _) as [i|] eqn:Hi; [| done].
    destruct (truthy i); [| done]. apply detectIntent_readable in Hi.
    by destruct (getValueFromProfile env profile i).
  - destruct (detectIntent _ _ _) as [i|] eqn:Hi; [| done].
    destruct (truthy i); [| done]. apply detectIntent_readable in Hi.
    by destruct (getValueFromProfile env profile i).
Qed.

(** One round of the learning loop. *)
Lemma forEach_step {S A} (body : A -> State S (Outcome unit)) x l s :
  forEach body (x :: l) s =
  match fst (body x s) with
  | Throws e => (Throws e, snd (body x s))
  | Returns _ => forEach body l (snd (body x s))
  end.
Proof. simpl. unfold bind. by destruct (fst (body x s)). Qed.

(** The learning loop ends normally when the intents of the answers
    are read without throwing. *)
Lemma learnAll_returns profile questions answers : forall w,
  (forall a k, In a answers -> canonicalKey a = Some k ->
               threw (getValueFromProfile env profile k) = false) ->
  fst (learnAll env profile questions answers w) = Returns tt.
Proof.
  unfold learnAll. revert answers.
  induction questions as [|q questions IH]; intros [|a answers] w Hok; try done.
  simpl combine. rewrite forEach_step. simpl.
  destruct (fst (learnFromAIResponse env q a profile w)) as [e|[]] eqn:Hlearn.
  - apply learnFromAIResponse_threw in Hlearn as (k & Hk & Hthrow).
    specialize (Hok a k (or_introl eq_refl) Hk). by rewrite Hthrow in Hok.
  - apply IH. intros a' k Hin. apply Hok. by right.
Qed.

End Learning.

(** ** The mapper: the order of the tiers *)

(** C3.  When a canonical rule resolves a question against the profile,
    [tryMapping] returns that result at once: it carries the tag
    ['canonical'] and the confidence 1, which passes the threshold 0.85,
    and the world is left as it was - the pattern store is not read and no
    usage is counted, whatever patterns it holds.  [processQuestions]
    returns the canonical answer for that question whenever it returns,
    and for the question alone it returns exactly that answer. *)
Theorem canonical_wins
    (env : PatternStorage.Env)
    (askAI : nat -> QuestionMapper.Request.t -> option QuestionMapper.Response.t)
    (profile : Profile.t) (q : Scanner.ScannedQuestion) (r : QuestionMapper.Result.t) :
  QuestionMapper.tryCanonical q profile = Js.Returns (Some r) ->
  (forall w, QuestionMapper.tryMapping env q profile w = (Js.Returns (Some r), w))
  /\ QuestionMapper.Result.source r = QuestionMapper.canonical
  /\ QuestionMapper.Result.confidence r = 1%Q
  /\ Qle_bool (85 # 100) (QuestionMapper.Result.confidence r) = true
  /\ (forall questions w out w',
        In q questions ->
        QuestionMapper.processQuestions env askAI (Some profile) questions w
        = (Js.Returns out, w') ->
        exists a, In a out
                  /\ QuestionMapper.selector a = Scanner.selector q
                  /\ QuestionMapper.questionText a = Scanner.questionText q
                  /\ QuestionMapper.answer a = QuestionMapper.Result.answer r
                  /\ QuestionMapper.source a = QuestionMapper.canonical)
  /\ (forall w,
        QuestionMapper.processQuestions env askAI (Some profile) [q] w
        = (Js.Returns [QuestionMapper.mapped q r], w)).
Proof.
  intros Hcanonical.
  pose proof (tryCanonical_result q profile r Hcanonical) as [Hsource Hone].
  split; [intros w; by apply tryMapping_canonical |].
  split; [done |]. split; [done |]. split; [by rewrite Hone |].
  split.
  - intros questions w out w' Hin Hrun.
    assert (Hout : fst (QuestionMapper.processQuestions env askAI (Some profile)
                          questions w) = Js.Returns out) by (by rewrite Hrun).
    apply processQuestions_returned in Hout as (m & u & Hphase1 & ->).
    exists (QuestionMapper.mapped q r). split.
    + apply in_or_app. left.
      by apply (phase1_canonical env profile questions w m u q r).
    + by repeat split.
  - intros w. unfold QuestionMapper.processQuestions, Effect.bind.
    rewrite phase1_step, (tryMapping_canonical env q profile w r Hcanonical).
    simpl. rewrite Hone. reflexivity.
Qed.

(** The profile says "Male"; the store holds a pattern for the same
    question that says "Woman".  The canonical rule answers "Man", and the
    usage count of the pattern stays 0. *)
Lemma canonical_wins_witness :
  let env := PatternStorage.mkEnv (fun _ => "2026-01-01T00:00:00.000Z")
               (fun _ => "1767225600000") (fun _ => "k3j9x0a1b") in
  let askAI (_ : nat) (_ : QuestionMapper.Request.t) :=
    @None QuestionMapper.Response.t in
  let profile := Profile.mk None
                   (Some (Profile.Eeo.mk (Some "Male") None None None None))
                   None None None None None in
  let q := Scanner.mkQuestion "Gender" "dropdown_custom"
             (Some ["Man"; "Woman"; "Non-binary"]) false "#gender" in
  let contrary := PatternStorage.mkPattern "local_1_a" "gender" "eeo.gender" "eeo.gender"
                    (Some [PatternStorage.mkMapping "Female" ["Woman"] None])
                    "dropdown_custom" 1 0 "t0" "t0" "AI" (Some false) false in
  let w := PatternStorage.mkWorld [contrary] 0 0 in
  QuestionMapper.processQuestions env askAI (Some profile) [q] w
  = (Js.Returns
       [QuestionMapper.mkAnswer "#gender" "Gender" "Man" QuestionMapper.canonical 1
          false "dropdown_custom" None (Some ["Man"; "Woman"; "Non-binary"]) None
          false None],
     w).
Proof.
  intros env askAI profile q contrary w.
  exact (proj2 (proj2 (proj2 (proj2 (proj2
           (canonical_wins env askAI profile q
              (QuestionMapper.Result.mk "Man" QuestionMapper.canonical 1 None)
              eq_refl))))) w).
Defined.

(** ** The mapper: errors *)

Section Throwing.
Import Js QuestionMapper.

(** [matchInOptions] throws only on a value that, trimmed and in lower
    case, names a property inherited from [Object.prototype]. *)
Lemma matchInOptions_threw value opts confidence :
  threw (matchInOptions value opts confidence) = true ->
  opts <> None
  /\ member (trim (toLowerCase value)) objectPrototypeKeys = true.
Proof.
  unfold matchInOptions, matched, lookup.
  destruct (nonEmptyOptions opts) as [options|] eqn:Hopts; [| done].
  apply nonEmptyOptions_some in Hopts as [-> _].
  destruct (findTruthy _ options); [done |].
  destruct (assoc (trim (toLowerCase value)) synonyms) as [syns|];
    [| destruct (member _ objectPrototypeKeys) eqn:Hkey; [done |]];
    repeat match goal with
           | |- context [match firstSome ?f ?l with _ => _ end] =>
               destruct (firstSome f l)
           | |- context [match findTruthy ?p ?l with _ => _ end] =>
               destruct (findTruthy p l)
           | |- context [match assoc ?k ?t with _ => _ end] =>
               destruct (assoc k t)
           | |- context [if member ?k ?t then _ else _] =>
               destruct (member k t)
           end; done.
Qed.

Lemma matchInOptions_plain value opts confidence :
  member (trim (toLowerCase value)) objectPrototypeKeys = false ->
  threw (matchInOptions value opts confidence) = false.
Proof.
  intros Hplain. destruct (threw _) eqn:Hthrew; [| done].
  apply matchInOptions_threw in Hthrew as [_ Hkey]. congruence.
Qed.

Lemma truthyMember_member {S} (section : option S) field v :
  Profile.truthyMember section field = Some v -> Profile.member section field = Some v.
Proof.
  unfold Profile.truthyMember. destruct (Profile.member section field) as [x|]; [| done].
  destruct (truthy x); [| done]. by intros [= ->].
Qed.

Lemma directRule_never_throws {S} profile keyword (section : Profile.t -> option S) field :
  ruleNeverThrows profile (directRule keyword section field).
Proof.
  intros question e. unfold directRule, direct.
  destruct (keyword _); [| done]. by destruct (Profile.truthyMember _ _).
Qed.

Lemma booleanRule_never_throws {S} profile keyword (section : Profile.t -> option S) field :
  ruleNeverThrows profile (booleanRule keyword section field).
Proof.
  intros question e. unfold booleanRule, direct.
  destruct (keyword _); [| done]. by destruct (Profile.member _ _).
Qed.

Lemma resumeRule_never_throws profile : ruleNeverThrows profile resumeRule.
Proof.
  intros question e. unfold resumeRule.
  destruct (_ || _ || _ || _); [| done].
  destruct (Profile.member _ _); [| done]. by destruct (Profile.truthyMember _ _).
Qed.

Lemma coverLetterRule_never_throws profile : ruleNeverThrows profile coverLetterRule.
Proof.
  intros question e. unfold coverLetterRule.
  destruct (_ || _ || _ || _); [| done].
  destruct (Profile.member _ _); [| done]. by destruct (Profile.truthyMember _ _).
Qed.

Lemma optionRule_never_throws {S} profile keyword (section : Profile.t -> option S) field :
  plainProfile profile ->
  In (Profile.member (section profile) field) (optionMatched profile) ->
  ruleNeverThrows profile (optionRule keyword section field).
Proof.
  intros Hplain Hin question e. unfold optionRule.
  destruct (keyword _); [| done].
  destruct (Profile.truthyMember _ _) as [v|] eqn:Hv; [| done].
  apply truthyMember_member in Hv. rewrite Hv in Hin.
  pose proof (matchInOptions_plain v (Scanner.options question) one (Hplain v Hin)) as H.
  intros [= Hthrows]. by rewrite Hthrows in H.
Qed.

Lemma firstRule_never_throws profile rules question :
  Forall (ruleNeverThrows profile) rules ->
  threw (firstRule rules question profile) = false.
Proof.
  induction 1 as [|rule rules Hrule _ IH]; simpl; [done |].
  destruct (rule question profile) as [[e|r]|] eqn:Happlies; [| done | exact IH].
  by destruct (Hrule question e).
Qed.

(** With a plain profile neither the canonical nor the fuzzy tier
    throws. *)
Lemma tryCanonical_plain profile question :
  plainProfile profile -> threw (tryCanonical question profile) = false.
Proof.
  intros Hplain. apply firstRule_never_throws. unfold canonicalRules.
  repeat (apply List.Forall_cons;
          [first [ apply directRule_never_throws | apply booleanRule_never_throws
                 | apply resumeRule_never_throws | apply coverLetterRule_never_throws
                 | apply optionRule_never_throws;
                   [exact Hplain | unfold optionMatched; simpl; tauto] ] |]).
  apply List.Forall_nil.
Qed.

Lemma tryFuzzy_plain profile question :
  plainProfile profile -> threw (tryFuzzy question profile) = false.
Proof.
  intros Hplain. unfold tryFuzzy.
  destruct (Scanner.options question); [| done].
  destruct (includes _ _); [| done].
  destruct (Profile.truthyMember _ _) as [v|] eqn:Hv; [| done].
  apply truthyMember_member in Hv. apply matchInOptions_plain, Hplain.
  rewrite <- Hv. unfold optionMatched. simpl. tauto.
Qed.

Variable env : PatternStorage.Env.
Variable askAI : nat -> Request.t -> option Response.t.

(** Phase 1 keeps the intents of the stored patterns readable. *)
Lemma tryMapping_readable profile q w :
  (forall p, In p (PatternStorage.learnedPatterns w) ->
             threw (getValueFromProfile env profile (PatternStorage.intent p)) = false) ->
  forall p, In p (PatternStorage.learnedPatterns (snd (tryMapping env q profile w))) ->
            threw (getValueFromProfile env profile (PatternStorage.intent p)) = false.
Proof.
  intros Hok p Hin.
  destruct (Forall2_In_r _ _ _ _ (tryMapping_usage env q profile w) Hin)
    as (stored & Hstored & Hsame).
  destruct Hsame as (_ & _ & -> & _). by apply Hok.
Qed.

Lemma phase1_readable profile questions : forall acc un w,
  (forall q, In q questions ->
             threw (tryCanonical q profile) = false
             /\ threw (tryFuzzy q profile) = false) ->
  (forall p, In p (PatternStorage.learnedPatterns w) ->
             threw (getValueFromProfile env profile (PatternStorage.intent p)) = false) ->
  exists m u w', phase1 env profile questions acc un w = (Returns (m, u), w').
Proof.
  induction questions as [|q rest IH]; intros acc un w Hok Hstore.
  - by exists acc, un, w.
  - rewrite phase1_step.
    assert (Hq : threw (fst (tryMapping env q profile w)) = false).
    { destruct (Hok q (or_introl eq_refl)). apply tryMapping_threw; try done.
      intros pattern Hfound. apply Hstore.
      apply findPattern_stored in Hfound. by apply find_some in Hfound as [? _]. }
    pose proof (tryMapping_readable profile q w Hstore) as Hnext.
    assert (Hrest : forall q', In q' rest ->
                      threw (tryCanonical q' profile) = false
                      /\ threw (tryFuzzy q' profile) = false)
      by (intros q' Hin; apply Hok; by right).
    destruct (fst (tryMapping env q profile w)) as [e|[result|]]; [done | |].
    + destruct (Qle_bool _ _); by apply IH.
    + by apply IH.
Qed.

(** With a profile, [processQuestions] returns unless the canonical or
    the fuzzy tier throws for one of the questions, or the reading of an
    intent does. *)
Lemma processQuestions_returns profile questions w :
  (forall q, In q questions ->
             threw (tryCanonical q profile) = false
             /\ threw (tryFuzzy q profile) = false) ->
  intentsReadable env askAI profile w ->
  exists out, fst (processQuestions env askAI (Some profile) questions w) = Returns out.
Proof.
  intros Hok [Hstore Horacle]. rewrite processQuestions_phases.
  destruct (phase1_readable profile questions [] [] w Hok Hstore)
    as (m & u & w' & ->).
  simpl. destruct u as [|q u]; [by eexists |]. simpl.
  rewrite learnAll_returns; [by eexists |].
  intros a k Hin Hk.
  apply aiAnswersOf_In in Hin as (i & q' & _ & Hanswer).
  apply answerOfAI_result in Hanswer as (_ & _ & _ & _ & (r & Hr & _ & Hkey) & _).
  apply (Horacle i _ r k Hr). by rewrite <- Hkey.
Qed.

(** With a plain profile and readable intents [processQuestions]
    returns. *)
Lemma processQuestions_plain profile questions w :
  plainProfile profile -> intentsReadable env askAI profile w ->
  exists out, fst (processQuestions env askAI (Some profile) questions w) = Returns out.
Proof.
  intros Hplain Hread. apply processQuestions_returns; [| done]. intros q _.
  split; [by apply tryCanonical_plain | by apply tryFuzzy_plain].
Qed.

End Throwing.

(** C5 holds in one direction only.  Without a profile
    [processQuestions] throws.  With a profile it throws as well when a
    value that goes through [matchInOptions] is, in lower case, the name
    of a property that the synonym table inherits from [Object.prototype]:
    for the gender "constructor" and a question with options, the lookup
    [synonyms[valueLower]] yields a function, and [for ... of] over it
    throws a [TypeError] that nothing between [matchInOptions] and the
    caller of [processQuestions] catches. *)
Theorem processQuestions_throws_with_profile
    (env : PatternStorage.Env)
    (askAI : nat -> QuestionMapper.Request.t -> option QuestionMapper.Response.t)
    (questions : list Scanner.ScannedQuestion) (w : PatternStorage.World) :
  let profile := Profile.mk None
                   (Some (Profile.Eeo.mk (Some "constructor") None None None None))
                   None None None None None in
  let q := Scanner.mkQuestion "Gender" "select" (Some ["Man"; "Woman"]) false
             "#gender" in
  QuestionMapper.processQuestions env askAI None questions w
  = (Js.Throws "No profile found. Please complete onboarding.", w)
  /\ QuestionMapper.processQuestions env askAI (Some profile) (q :: questions) w
     = (Js.Throws "TypeError: synonyms[valueLower] is not iterable", w).
Proof. split; reflexivity. Qed.

(** ** The mapper: answers and options *)

(** C1, as the claim states it, fails.  The direct canonical rules return
    the profile value without looking at the options: the first name
    "Asha" is emitted for a question whose options are "A" and "B".  And
    the yes/no mapper falls back to the literal "Yes" when no option looks
    like a yes. *)
Lemma canonical_answer_escapes_options :
  let env := PatternStorage.mkEnv (fun _ => "2026-01-01T00:00:00.000Z")
               (fun _ => "1767225600000") (fun _ => "k3j9x0a1b") in
  let askAI (_ : nat) (_ : QuestionMapper.Request.t) :=
    @None QuestionMapper.Response.t in
  let profile :=
    Profile.mk
      (Some (Profile.Personal.mk (Some "Asha") None None None None None None None))
      None
      (Some (Profile.WorkAuthorization.mk None (Some true) None))
      None None None None in
  let q1 := Scanner.mkQuestion "First Name" "select" (Some ["A"; "B"]) true "#first" in
  let q2 := Scanner.mkQuestion "Will you require visa sponsorship?" "select"
              (Some ["Maybe"; "Never"]) true "#visa" in
  let w := PatternStorage.mkWorld [] 0 0 in
  exists a1 a2,
    fst (QuestionMapper.processQuestions env askAI (Some profile) [q1; q2] w)
    = Js.Returns [a1; a2]
    /\ QuestionMapper.answer a1 = "Asha"
    /\ QuestionMapper.options a1 = Some ["A"; "B"]
    /\ ~ QuestionMapper.withinOptions a1
    /\ QuestionMapper.answer a2 = "Yes"
    /\ QuestionMapper.options a2 = Some ["Maybe"; "Never"]
    /\ ~ QuestionMapper.withinOptions a2.
Proof.
  intros env askAI profile q1 q2 w.
  eexists _, _. split; [reflexivity |].
  repeat split.
  - intros (opt & [<-|[<-|[]]] & H); discriminate H.
  - intros (opt & [<-|[<-|[]]] & H); discriminate H.
Qed.

Section Kinds.
Import Js QuestionMapper.

(** Each rule of [canonicalRules] has the form that [canonicalKinds]
    gives it. *)
Lemma canonicalRules_kinds : Forall2 hasKind canonicalRules canonicalKinds.
Proof.
  unfold canonicalRules, canonicalKinds.
  repeat (apply List.Forall2_cons;
          [first [ by left | by right | simpl; by eexists _, _, _, _ ] |]).
  apply List.Forall2_nil.
Qed.

(** What the rule that ends [tryCanonical] returns for a question with
    options, by its form. *)
Lemma firstRule_kind rules kinds question profile r opts :
  Forall2 hasKind rules kinds ->
  nonEmptyOptions (Scanner.options question) = Some opts ->
  firstRule rules question profile = Returns (Some r) ->
  match firstKind rules kinds question profile with
  | Some OptionMatched => In (Result.answer r) opts
  | Some YesNo => yesOrNo opts (Result.answer r)
  | Some Direct => True
  | Some File => True
  | None => False
  end.
Proof.
  intros Hkinds Hopts.
  induction Hkinds as [|rule kind rules kinds Hkind _ IH]; simpl; [done |].
  destruct (rule question profile) as [o|] eqn:Hrule; [| exact IH].
  intros ->. destruct kind; try done.
  - destruct Hkind as (S & keyword & section & field & ->).
    unfold optionRule in Hrule. destruct (keyword _); [| done].
    destruct (Profile.truthyMember _ _); [| done]. injection Hrule as Hmatch.
    apply matchInOptions_result in Hmatch as (_ & _ & _ & Hin).
    rewrite Hopts in Hin. by destruct Hin.
  - destruct Hkind as (S & keyword & section & field & ->).
    unfold booleanRule, direct in Hrule. destruct (keyword _); [| done].
    destruct (Profile.member _ _) as [b|]; [| done]. injection Hrule as <-. simpl.
    pose proof (booleanToYesNo_result b (Scanner.options question)) as H.
    rewrite Hopts in H. unfold yesOrNo.
    destruct H as [[Hin Hlike]|[Hliteral Hnone]].
    + left. split; [done |]. destruct b; [by left | by right].
    + right. destruct b; [left | right]; by split.
Qed.

End Kinds.

(** C1, amended.  For a question with a non-empty option list, an
    answer that [processQuestions] emits is one of the question's
    options when it carries the tag ['learned'] or ['AI'], when it comes
    from the fuzzy tier, and when the canonical rule that answered is one
    of the rules that go through [matchInOptions] (country, gender,
    Hispanic/Latino, veteran, disability, race); when no option matches,
    these tiers return no result for the question.  When the canonical
    rule that answered is a yes/no rule, the answer is an option that
    reads as a yes or a no, or the literal "Yes" ("No") when no option
    reads as a yes (no).  The other canonical rules (first and last name,
    email, phone, city, state, LinkedIn, website, the two uploads) emit
    the value of the profile without looking at the options.  The forms
    of the rules are those of [canonicalKinds]. *)
Theorem checked_answers_within_options
    (env : PatternStorage.Env)
    (askAI : nat -> QuestionMapper.Request.t -> option QuestionMapper.Response.t)
    (profile : Profile.t) (questions : list Scanner.ScannedQuestion)
    (w : PatternStorage.World) (out : list QuestionMapper.MappedAnswer) :
  fst (QuestionMapper.processQuestions env askAI (Some profile) questions w)
  = Js.Returns out ->
  Forall2 QuestionMapper.hasKind QuestionMapper.canonicalRules
    QuestionMapper.canonicalKinds
  /\ (forall a opts,
        In a out ->
        QuestionMapper.nonEmptyOptions (QuestionMapper.options a) = Some opts ->
        (In (QuestionMapper.answer a) opts -> QuestionMapper.withinOptions a)
        /\ ((QuestionMapper.source a = QuestionMapper.learned
             /\ In (QuestionMapper.answer a) opts)
            \/ (QuestionMapper.source a = QuestionMapper.AI
                /\ In (QuestionMapper.answer a) opts)
            \/ (QuestionMapper.source a = QuestionMapper.canonical
                /\ exists q r,
                     In q questions
                     /\ a = QuestionMapper.mapped q r
                     /\ ((QuestionMapper.tryCanonical q profile = Js.Returns None
                          /\ QuestionMapper.tryFuzzy q profile = Js.Returns (Some r)
                          /\ In (QuestionMapper.answer a) opts)
                         \/ (QuestionMapper.tryCanonical q profile = Js.Returns (Some r)
                             /\ match QuestionMapper.appliedKind q profile with
                                | Some QuestionMapper.OptionMatched =>
                                    In (QuestionMapper.answer a) opts
                                | Some QuestionMapper.YesNo =>
                                    QuestionMapper.yesOrNo opts (QuestionMapper.answer a)
                                | Some QuestionMapper.Direct => True
                                | Some QuestionMapper.File => True
                                | None => False
                                end))))).
Proof.
  intros Hrun. split; [apply canonicalRules_kinds |].
  apply processQuestions_returned in Hrun as (m & u & Hphase1 & ->).
  apply phase1_lists in Hphase1 as (Hm & _).
  intros a opts Hin Hopts. split.
  { intros Hopt. unfold QuestionMapper.withinOptions. rewrite Hopts.
    by exists (QuestionMapper.answer a). }
  apply in_app_or in Hin as [Hin|Hin].
  - destruct (Hm a Hin) as (q & r & w0 & Hq & Hr & _ & ->). simpl in Hopts.
    apply tryMapping_result in Hr as [Hc|[(_ & pattern & _ & Hp)|(Hc & _ & Hf)]].
    + right. right. simpl.
      split; [by apply tryCanonical_result in Hc as [? _] |].
      exists q, r. split; [done |]. split; [done |]. right. split; [done |].
      by apply (firstRule_kind _ _ _ _ _ _ canonicalRules_kinds Hopts Hc).
    + left. apply answerFromPattern_result in Hp as (Hs & _ & Hp).
      split; [done |]. by apply Hp.
    + right. right. simpl.
      pose proof (tryFuzzy_result _ _ _ Hf) as (v & Hs & _ & _ & Hv).
      rewrite Hopts in Hv. destruct Hv as [Hv _].
      split; [done |]. exists q, r. split; [done |]. split; [done |]. by left.
  - right. left.
    apply aiAnswersOf_In in Hin as (k & q & _ & Hq).
    apply answerOfAI_result in Hq as (Hs & _ & _ & Ho & _ & Hq).
    split; [done |]. apply Hq. by rewrite <- Ho.
Qed.

(** A learned pattern whose variant "Woman" is matched against the
    options "MAN" and "WOMAN": the question is answered from the store,
    with one of the options (the first that the variant contains). *)
Lemma checked_answers_within_options_witness :
  let env := PatternStorage.mkEnv (fun _ => "2026-01-01T00:00:00.000Z")
               (fun _ => "1767225600000") (fun _ => "k3j9x0a1b") in
  let askAI (_ : nat) (_ : QuestionMapper.Request.t) :=
    @None QuestionMapper.Response.t in
  let profile := Profile.mk None None None None None None None in
  let q := Scanner.mkQuestion "Pronoun group" "select" (Some ["MAN"; "WOMAN"]) false
             "#group" in
  let known := PatternStorage.mkPattern "local_1_a" "pronoun group" "custom.group"
                 "custom.group"
                 (Some [PatternStorage.mkMapping "Woman" ["Woman"] None])
                 "select" (9 # 10) 0 "t0" "t0" "AI" (Some false) false in
  let w := PatternStorage.mkWorld [known] 0 0 in
  exists a,
    fst (QuestionMapper.processQuestions env askAI (Some profile) [q] w)
    = Js.Returns [a]
    /\ QuestionMapper.source a = QuestionMapper.learned
    /\ QuestionMapper.withinOptions a.
Proof.
  intros env askAI profile q known w.
  eexists. split; [reflexivity |]. split; [reflexivity |].
  match goal with
  | |- QuestionMapper.withinOptions ?a =>
      destruct (proj2 (checked_answers_within_options env askAI profile [q] w _ eq_refl)
                  a ["MAN"; "WOMAN"] (or_introl eq_refl) eq_refl) as [Hwithin _]
  end.
  apply Hwithin. left. reflexivity.
Defined.

(** ** The mapper: which questions reach the oracle *)

(** C2, as the claim states it, fails.  The profile has no EEO section and
    the store is empty, so no tier resolves the gender question; it is
    sent to the oracle like any other, and the oracle's answer "Man" is
    emitted with the source ['AI'] and the intent [eeo.gender]. *)
Lemma protected_question_answered_by_AI :
  let env := PatternStorage.mkEnv (fun _ => "2026-01-01T00:00:00.000Z")
               (fun _ => "1767225600000") (fun _ => "k3j9x0a1b") in
  let askAI (_ : nat) (_ : QuestionMapper.Request.t) :=
    Some (QuestionMapper.Response.mk "Man" (Some (9 # 10)) (Some "eeo.gender")
            false None) in
  let profile :=
    Profile.mk
      (Some (Profile.Personal.mk (Some "Asha") None None None None None None None))
      None None None None None None in
  let q := Scanner.mkQuestion "What is your gender?" "select"
             (Some ["Man"; "Woman"; "Decline to self-identify"]) false "#gender" in
  let w := PatternStorage.mkWorld [] 0 0 in
  exists a,
    fst (QuestionMapper.processQuestions env askAI (Some profile) [q] w)
    = Js.Returns [a]
    /\ QuestionMapper.answer a = "Man"
    /\ QuestionMapper.source a = QuestionMapper.AI
    /\ QuestionMapper.canonicalKey a = Some "eeo.gender"
    /\ QuestionMapper.detectIntent (QuestionMapper.questionText a)
         (QuestionMapper.answer a) profile = Some "eeo.gender"
    /\ QuestionMapper.isProtected profile a.
Proof.
  intros env askAI profile q w.
  eexists. split; [reflexivity |]. repeat split.
  left. exists "eeo.gender". split; [reflexivity | by left].
Qed.

(** C2, amended.  [processQuestions] has no gate on the intent of a
    question.  In any batch, the questions that tiers 1 to 3 leave
    unresolved - no result, or a confidence below 0.85, in the world that
    the questions before have left - are exactly the questions sent to
    the AI oracle, whatever they ask, EEO and compliance questions
    included; when [processQuestions] returns, the oracle's answer to
    such a question, once it is non-empty and (for a question with
    options) matched to an option, is emitted with the source ['AI'] and
    the oracle's intent.  The answers of tiers 1 to 3 never carry the
    source ['AI']: an emitted answer with that source is the oracle's
    answer to a question of the batch that tiers 1 to 3 left
    unresolved. *)
Theorem unresolved_questions_go_to_AI
    (env : PatternStorage.Env)
    (askAI : nat -> QuestionMapper.Request.t -> option QuestionMapper.Response.t)
    (profile : Profile.t) (questions : list Scanner.ScannedQuestion)
    (w : PatternStorage.World) (out : list QuestionMapper.MappedAnswer) :
  fst (QuestionMapper.processQuestions env askAI (Some profile) questions w)
  = Js.Returns out ->
  exists mappedAnswers unmappedForAI,
    fst (QuestionMapper.phase1 env profile questions [] [] w)
    = Js.Returns (mappedAnswers, unmappedForAI)
    /\ out = mappedAnswers ++ QuestionMapper.aiAnswersOf askAI unmappedForAI profile
    /\ (forall a, In a mappedAnswers -> QuestionMapper.source a <> QuestionMapper.AI)
    /\ (forall q,
          In q unmappedForAI <->
          exists k, nth_error questions k = Some q
                    /\ QuestionMapper.unresolved
                         (QuestionMapper.tiersAt env profile questions k q w))
    /\ (forall j q a,
          nth_error unmappedForAI j = Some q ->
          QuestionMapper.answerOfAI askAI profile j q = Some a ->
          In a out
          /\ QuestionMapper.source a = QuestionMapper.AI
          /\ QuestionMapper.questionText a = Scanner.questionText q
          /\ exists aiResponse,
               askAI j (QuestionMapper.aiRequest q profile) = Some aiResponse
               /\ QuestionMapper.canonicalKey a
                  = QuestionMapper.Response.intent aiResponse)
    /\ (forall a,
          In a out -> QuestionMapper.source a = QuestionMapper.AI ->
          exists k j q,
            nth_error questions k = Some q
            /\ QuestionMapper.unresolved
                 (QuestionMapper.tiersAt env profile questions k q w)
            /\ nth_error unmappedForAI j = Some q
            /\ QuestionMapper.answerOfAI askAI profile j q = Some a).
Proof.
  intros Hrun.
  apply processQuestions_returned in Hrun as (m & u & Hphase1 & ->).
  exists m, u. split; [done |]. split; [done |].
  pose proof (phase1_lists env profile questions w m u Hphase1) as (Hm & _).
  destruct (QuestionMapper.phase1 env profile questions [] [] w) as [o w'] eqn:Hrun.
  simpl in Hphase1. subst o.
  apply phase1_trace in Hrun as (ms & us & Hms & Hus & _ & _ & Hu & Hall).
  simpl in Hms, Hus. subst ms us.
  assert (Hsent : forall q,
            In q u <->
            exists k, nth_error questions k = Some q
                      /\ QuestionMapper.unresolved
                           (QuestionMapper.tiersAt env profile questions k q w)).
  { intros q. split; [apply Hu |]. intros (k & Hk & Hunresolved).
    specialize (Hall k q Hk).
    destruct Hunresolved as [Hnone|(r & Hr & Hlow)].
    - by rewrite Hnone in Hall.
    - rewrite Hr in Hall. unfold QuestionMapper.confident in Hall.
      by rewrite Hlow in Hall. }
  assert (Hnot : forall a, In a m -> QuestionMapper.source a <> QuestionMapper.AI).
  { intros a Hin. destruct (Hm a Hin) as (q & r & w0 & _ & Hq & _ & ->).
    by apply tryMapping_not_AI in Hq. }
  split; [done |]. split; [done |]. split.
  - intros j q a Hj Hanswer.
    pose proof (answerOfAI_result askAI profile j q a Hanswer)
      as (Hsource & _ & Htext & _ & (aiResponse & Hask & _ & Hkey) & _).
    split; [| split; [done | split; [done | by exists aiResponse]]].
    apply in_or_app. right. apply aiAnswersOf_In. by exists j, q.
  - intros a Hin Hsource.
    apply in_app_or in Hin as [Hin|Hin]; [by destruct (Hnot a Hin) |].
    apply aiAnswersOf_In in Hin as (j & q & Hj & Hq).
    destruct (proj1 (Hsent q) (nth_error_In _ _ Hj)) as (k & Hk & Hunresolved).
    by exists k, j, q.
Qed.

(** A batch of two questions on an empty store, with a profile that
    gives the first name only: the first question is answered by the
    canonical tier, the veteran-status question goes to the oracle, and
    the oracle's answer is emitted. *)
Lemma unresolved_questions_go_to_AI_witness :
  let env := PatternStorage.mkEnv (fun _ => "2026-01-01T00:00:00.000Z")
               (fun _ => "1767225600000") (fun _ => "k3j9x0a1b") in
  let askAI (_ : nat) (_ : QuestionMapper.Request.t) :=
    Some (QuestionMapper.Response.mk "I am not a protected veteran" None
            (Some "eeo.veteran") false None) in
  let profile :=
    Profile.mk
      (Some (Profile.Personal.mk (Some "Asha") None None None None None None None))
      None None None None None None in
  let q1 := Scanner.mkQuestion "First Name" "text" None true "#first" in
  let q2 := Scanner.mkQuestion "Veteran status" "select"
              (Some ["I am a veteran"; "I am not a protected veteran"]) true "#vet" in
  let w := PatternStorage.mkWorld [] 0 0 in
  exists a1 a2,
    fst (QuestionMapper.processQuestions env askAI (Some profile) [q1; q2] w)
    = Js.Returns [a1; a2]
    /\ QuestionMapper.source a1 <> QuestionMapper.AI
    /\ QuestionMapper.source a2 = QuestionMapper.AI
    /\ QuestionMapper.canonicalKey a2 = Some "eeo.veteran".
Proof.
  intros env askAI profile q1 q2 w.
  eexists _, _. split; [reflexivity |].
  destruct (unresolved_questions_go_to_AI env askAI profile [q1; q2] w _ eq_refl)
    as (m & u & Hphase1 & _ & Hnot & _ & _ & _).
  injection Hphase1 as <- <-.
  split; [apply Hnot; by left |]. split; reflexivity.
Defined.

(** ** Strings: trimming, collapsing white space, lower case *)

Section Text.
Import Js.
Implicit Types (s : string) (c : ascii) (p : ascii -> bool).

Lemma isSpace_lowerChar c : isSpace (lowerChar c) = isSpace c.
Proof. by destruct c as [[] [] [] [] [] [] [] []]. Qed.

Lemma lowerChar_idem c : lowerChar (lowerChar c) = lowerChar c.
Proof. by destruct c as [[] [] [] [] [] [] [] []]. Qed.

Lemma toLowerCase_idem s : toLowerCase (toLowerCase s) = toLowerCase s.
Proof. induction s as [|c s IH]; [done |]. simpl. by rewrite lowerChar_idem, IH. Qed.

Lemma toLowerCase_startsSpace s : startsSpace (toLowerCase s) = startsSpace s.
Proof. destruct s as [|c s]; [done |]. simpl. apply isSpace_lowerChar. Qed.

Lemma toLowerCase_endsSpace s : endsSpace (toLowerCase s) = endsSpace s.
Proof.
  induction s as [|c s IH]; [done |]. destruct s as [|a r].
  - simpl. apply isSpace_lowerChar.
  - exact IH.
Qed.

Lemma trimStart_startsSpace s : startsSpace (trimStart s) = false.
Proof.
  induction s as [|c s IH]; [done |]. simpl.
  by destruct (isSpace c) eqn:Hc; [| simpl].
Qed.

Lemma trimStart_fix s : startsSpace s = false -> trimStart s = s.
Proof. destruct s as [|c s]; [done |]. simpl. by intros ->. Qed.

Lemma trimEnd_endsSpace s : endsSpace (trimEnd s) = false.
Proof.
  induction s as [|c s IH]; [done |]. simpl.
  destruct (trimEnd s) as [|a r]; [| done].
  by destruct (isSpace c) eqn:Hc; [| simpl].
Qed.

Lemma trimEnd_fix s : endsSpace s = false -> trimEnd s = s.
Proof.
  induction s as [|c s IH]; [done |].
  destruct s as [|a r].
  - simpl. by intros ->.
  - intros H. change (endsSpace (String a r) = false) in H.
    change (match trimEnd (String a r) with
            | EmptyString => if isSpace c then EmptyString else String c EmptyString
            | String x y => String c (String x y)
            end = String c (String a r)).
    by rewrite (IH H).
Qed.

Lemma trimEnd_startsSpace s : startsSpace s = false -> startsSpace (trimEnd s) = false.
Proof.
  destruct s as [|c s]; [done |]. simpl. intros Hc.
  destruct (trimEnd s); [by rewrite Hc | done].
Qed.

Lemma trim_startsSpace s : startsSpace (trim s) = false.
Proof. apply trimEnd_startsSpace, trimStart_startsSpace. Qed.

Lemma trim_endsSpace s : endsSpace (trim s) = false.
Proof. apply trimEnd_endsSpace. Qed.

Lemma trim_fix s : startsSpace s = false -> endsSpace s = false -> trim s = s.
Proof. intros H1 H2. unfold trim. by rewrite (trimStart_fix _ H1), (trimEnd_fix _ H2). Qed.

Lemma trim_idem s : trim (trim s) = trim s.
Proof. apply trim_fix; [apply trim_startsSpace | apply trim_endsSpace]. Qed.

Lemma trim_blank s : everyChar isSpace s = true -> trim s = EmptyString.
Proof.
  unfold trim. induction s as [|c s IH]; [done |]. simpl.
  intros [Hc Hs]%andb_prop. rewrite Hc. by apply IH.
Qed.

(** What the functions keep of a property of the characters. *)
Lemma everyChar_trimStart p s : everyChar p s = true -> everyChar p (trimStart s) = true.
Proof.
  induction s as [|c s IH]; [done |]. simpl. intros [Hc Hs]%andb_prop.
  destruct (isSpace c); [by apply IH |]. simpl. by rewrite Hc, Hs.
Qed.

Lemma everyChar_trimEnd p s : everyChar p s = true -> everyChar p (trimEnd s) = true.
Proof.
  induction s as [|c s IH]; [done |]. simpl. intros [Hc Hs]%andb_prop.
  specialize (IH Hs). destruct (trimEnd s) as [|a r].
  - destruct (isSpace c); [done |]. simpl. by rewrite Hc.
  - change (p c && everyChar p (String a r) = true). by rewrite Hc, IH.
Qed.

Lemma everyChar_trim p s : everyChar p s = true -> everyChar p (trim s) = true.
Proof. intros H. by apply everyChar_trimEnd, everyChar_trimStart. Qed.

Lemma everyChar_removeChars p drop s :
  everyChar p s = true -> everyChar p (removeChars drop s) = true.
Proof.
  induction s as [|c s IH]; [done |]. simpl. intros [Hc Hs]%andb_prop.
  destruct (drop c); [by apply IH |]. simpl. by rewrite Hc, IH.
Qed.

Lemma everyChar_collapseWsFrom p b s :
  p " "%char = true -> everyChar p s = true ->
  everyChar p (collapseWsFrom b s) = true.
Proof.
  intros Hsp. revert b. induction s as [|c s IH]; [done |]. simpl.
  intros b [Hc Hs]%andb_prop.
  destruct (isSpace c); [destruct b |]; simpl; rewrite ?Hsp, ?Hc; by apply IH.
Qed.

Lemma everyChar_impl p q s :
  (forall c, p c = true -> q c = true) -> everyChar p s = true -> everyChar q s = true.
Proof.
  intros Hpq. induction s as [|c s IH]; [done |]. simpl.
  intros [Hc Hs]%andb_prop. by rewrite (Hpq _ Hc), IH.
Qed.

Lemma everyChar_removed drop s :
  everyChar (fun c => negb (drop c)) (removeChars drop s) = true.
Proof.
  induction s as [|c s IH]; [done |]. simpl.
  destruct (drop c) eqn:Hc; [done |]. simpl. by rewrite Hc.
Qed.

Lemma removeChars_fix drop s :
  everyChar (fun c => negb (drop c)) s = true -> removeChars drop s = s.
Proof.
  induction s as [|c s IH]; [done |]. simpl. intros [Hc Hs]%andb_prop.
  apply negb_true_iff in Hc. by rewrite Hc, IH.
Qed.

Lemma everyChar_lowered s :
  everyChar (fun c => Ascii.eqb (lowerChar c) c) (toLowerCase s) = true.
Proof.
  induction s as [|c s IH]; [done |]. simpl.
  by rewrite lowerChar_idem, Ascii.eqb_refl.
Qed.

Lemma toLowerCase_fix s :
  everyChar (fun c => Ascii.eqb (lowerChar c) c) s = true -> toLowerCase s = s.
Proof.
  induction s as [|c s IH]; [done |]. simpl. intros [Hc Hs]%andb_prop.
  apply Ascii.eqb_eq in Hc. by rewrite Hc, IH.
Qed.

(** Collapsing white space. *)
Lemma collapseWsFrom_singleSpaced b s :
  singleSpacedFrom b (collapseWsFrom b s) = true.
Proof.
  revert b. induction s as [|c s IH]; [done |]. intros b. simpl.
  destruct (isSpace c) eqn:Hc.
  - destruct b; [apply IH |]. simpl. apply IH.
  - simpl. rewrite Hc. apply IH.
Qed.

Lemma collapseWsFrom_fix b s :
  singleSpacedFrom b s = true -> collapseWsFrom b s = s.
Proof.
  revert b. induction s as [|c s IH]; [done |]. intros b. simpl.
  destruct (isSpace c) eqn:Hc.
  - intros [[Hb Heq]%andb_prop Hs]%andb_prop.
    apply negb_true_iff in Hb. apply Ascii.eqb_eq in Heq. subst.
    by rewrite (IH _ Hs).
  - intros Hs. by rewrite (IH _ Hs).
Qed.

Lemma collapseWs_startsSpace s : startsSpace (collapseWs s) = startsSpace s.
Proof.
  destruct s as [|c s]; [done |]. unfold collapseWs. simpl.
  by destruct (isSpace c) eqn:Hc.
Qed.

Lemma collapseWsFrom_nonempty b s :
  endsSpace s = false -> s <> EmptyString -> collapseWsFrom b s <> EmptyString.
Proof.
  revert b. induction s as [|c s IH]; [done |]. intros b Hend _.
  destruct s as [|a r].
  - simpl in *. by rewrite Hend.
  - change (endsSpace (String a r) = false) in Hend.
    change (collapseWsFrom b (String c (String a r)))
      with (if isSpace c then
              if b then collapseWsFrom true (String a r)
              else String " " (collapseWsFrom true (String a r))
            else String c (collapseWsFrom false (String a r))).
    destruct (isSpace c); [destruct b |]; try done.
    by apply IH.
Qed.

Lemma collapseWsFrom_endsSpace b s :
  endsSpace s = false -> endsSpace (collapseWsFrom b s) = false.
Proof.
  revert b. induction s as [|c s IH]; [done |]. intros b Hend.
  destruct s as [|a r].
  - simpl in *. by rewrite Hend.
  - change (endsSpace (String a r) = false) in Hend.
    assert (Hne : forall b', collapseWsFrom b' (String a r) <> EmptyString)
      by (intros b'; by apply collapseWsFrom_nonempty).
    change (collapseWsFrom b (String c (String a r)))
      with (if isSpace c then
              if b then collapseWsFrom true (String a r)
              else String " " (collapseWsFrom true (String a r))
            else String c (collapseWsFrom false (String a r))).
    destruct (isSpace c); [destruct b |].
    + by apply IH.
    + specialize (IH true Hend). specialize (Hne true).
      destruct (collapseWsFrom true (String a r)); done.
    + specialize (IH false Hend). specialize (Hne false).
      destruct (collapseWsFrom false (String a r)); done.
Qed.

Lemma singleSpaced_no_newline b s :
  singleSpacedFrom b s = true ->
  everyChar (fun c => negb (Ascii.eqb c newline)) s = true.
Proof.
  revert b. induction s as [|c s IH]; [done |]. intros b. simpl.
  destruct (isSpace c) eqn:Hc.
  - intros [[_ Heq]%andb_prop Hs]%andb_prop. apply Ascii.eqb_eq in Heq. subst.
    simpl. by apply (IH true).
  - intros Hs. rewrite (IH _ Hs), andb_true_r.
    apply negb_true_iff, Ascii.eqb_neq. by intros ->.
Qed.

(** The first line. *)
Lemma append_empty s : s +:+ EmptyString = s.
Proof.
  induction s as [|a s IH]; [done |].
  change (String a (s +:+ EmptyString) = String a s). by rewrite IH.
Qed.

Lemma append_char s c r : (s +:+ String c EmptyString) +:+ r = s +:+ String c r.
Proof.
  induction s as [|a s IH]; [done |].
  change (String a ((s +:+ String c EmptyString) +:+ r) = String a (s +:+ String c r)).
  by rewrite IH.
Qed.

Lemma splitOnFrom_hd sep cur s :
  everyChar (fun c => negb (Ascii.eqb c sep)) s = true ->
  splitOnFrom sep cur s = [cur +:+ s].
Proof.
  revert cur. induction s as [|c s IH]; intros cur; simpl.
  - intros _. by rewrite append_empty.
  - intros [Hc Hs]%andb_prop. apply negb_true_iff in Hc.
    by rewrite Hc, (IH _ Hs), append_char.
Qed.

Lemma firstLine_fix s :
  everyChar (fun c => negb (Ascii.eqb c newline)) s = true -> firstLine s = s.
Proof. intros H. unfold firstLine, splitOn. by rewrite (splitOnFrom_hd _ _ _ H). Qed.

End Text.

(** ** The scanner: label texts *)

Section LabelTexts.
Import Js Scanner.

Lemma collapseWs_clean s :
  startsSpace s = false -> endsSpace s = false ->
  startsSpace (collapseWs s) = false /\ endsSpace (collapseWs s) = false
  /\ singleSpaced (collapseWs s) = true.
Proof.
  intros H1 H2. repeat split.
  - by rewrite collapseWs_startsSpace.
  - by apply collapseWsFrom_endsSpace.
  - apply collapseWsFrom_singleSpaced.
Qed.

Lemma clean_fixed s :
  startsSpace s = false -> endsSpace s = false -> singleSpaced s = true ->
  trim s = s /\ firstLine s = s /\ collapseWs s = s /\ cleanLabelText s = s.
Proof.
  intros H1 H2 H3.
  assert (Ht : trim s = s) by by apply trim_fix.
  assert (Hl : firstLine s = s) by (eapply firstLine_fix, singleSpaced_no_newline, H3).
  assert (Hc : collapseWs s = s) by by apply collapseWsFrom_fix.
  repeat split; try done. unfold cleanLabelText. by rewrite Ht, Hl, Ht.
Qed.

Lemma cleanLabelText_clean text :
  startsSpace (cleanLabelText text) = false
  /\ endsSpace (cleanLabelText text) = false
  /\ singleSpaced (cleanLabelText text) = true.
Proof. apply collapseWs_clean; [apply trim_startsSpace | apply trim_endsSpace]. Qed.

Lemma cleanLabelText_trimmed text : trim (cleanLabelText text) = cleanLabelText text.
Proof.
  destruct (cleanLabelText_clean text) as (H1 & H2 & H3).
  by destruct (clean_fixed _ H1 H2 H3).
Qed.

Lemma cleanLabelText_blank text : trim text = "" -> cleanLabelText text = "".
Proof. intros H. unfold cleanLabelText. by rewrite H. Qed.

End LabelTexts.

(** X1. [FormScanner.cleanLabelText] is idempotent, and what it returns
    is a single line without white space at either end, in which white
    space occurs only as single spaces: [trim], [split('\n')[0]] and
    [replace(/\s+/g, ' ')] all leave it unchanged. *)
Theorem cleanLabelText_idempotent (text : string) :
  let label := Scanner.cleanLabelText text in
  Scanner.cleanLabelText label = label
  /\ Js.trim label = label
  /\ Js.firstLine label = label
  /\ Js.collapseWs label = label.
Proof.
  intros label.
  destruct (cleanLabelText_clean text) as (H1 & H2 & H3).
  by destruct (clean_fixed _ H1 H2 H3) as (? & ? & ? & ?).
Qed.

Section QuestionTexts.
Import Js Scanner.
Variable textContent : Node -> string.
Variable labelFor : string -> option Node.
Variable getElementById : string -> option Node.
Variable previousElementSiblings : Element -> list Node.

Local Abbreviation methods :=
  (questionTextMethods textContent labelFor getElementById previousElementSiblings).
Local Abbreviation questionText :=
  (getQuestionText textContent labelFor getElementById previousElementSiblings).

Lemma firstDefined_Forall {A} (P : A -> Prop) (l : list (option A)) a :
  Forall (fun o => forall x, o = Some x -> P x) l ->
  firstDefined l = Some a -> P a.
Proof.
  induction 1 as [|o l Ho _ IH]; [done |]. simpl.
  destruct o as [x|]; [| done]. intros [= <-]. by apply Ho.
Qed.

Lemma option_map_cleanLabelText (o : option string) x :
  option_map cleanLabelText o = Some x -> trim x = x.
Proof. destruct o; [| done]. intros [= <-]. apply cleanLabelText_trimmed. Qed.

Lemma siblingText_trimmed siblings x :
  siblingText textContent siblings = Some x -> trim x = x.
Proof.
  induction siblings as [|n siblings IH]; [done |]. simpl.
  repeat match goal with
         | |- context [if ?b then _ else _] => destruct b
         end;
    try (intros [= <-]; apply cleanLabelText_trimmed); done.
Qed.

Lemma methods_trimmed element :
  Forall (fun o => forall x, o = Some x -> trim x = x) (methods element).
Proof.
  unfold questionTextMethods. repeat constructor; intros x.
  - destruct (getAttribute _ "aria-label") as [a|]; [| done].
    destruct (truthy a && truthy (trim a)); [| done].
    intros [= <-]. apply trim_idem.
  - destruct (truthy _); [| done]. apply option_map_cleanLabelText.
  - apply option_map_cleanLabelText.
  - destruct (getAttribute _ "aria-labelledby") as [a|]; [| done].
    destruct (truthy a); [| done]. apply option_map_cleanLabelText.
  - apply siblingText_trimmed.
  - destruct (textOf _ _) as [t|]; [| done].
    destruct (truthy _); [| done]. intros [= <-]. apply cleanLabelText_trimmed.
  - destruct (getAttribute _ "name") as [a|]; [| done].
    destruct (truthy a); [| done]. intros [= <-]. apply trim_idem.
Qed.

Lemma getQuestionText_trim element : trim (questionText element) = questionText element.
Proof.
  unfold getQuestionText.
  destruct (firstDefined (methods element)) as [x|] eqn:Hx; [| done].
  exact (firstDefined_Forall _ _ _ (methods_trimmed element) Hx).
Qed.

End QuestionTexts.

(** X2. Whatever the document around a field, the text that
    [FormScanner.getQuestionText] returns has no white space at either
    end; a question text made of white space only is therefore the
    empty string, for which [processField] skips the field, and the
    deduplication key of a scanned question is its text in lower case. *)
Theorem getQuestionText_trimmed
    (textContent : Scanner.Node -> string)
    (labelFor getElementById : string -> option Scanner.Node)
    (previousElementSiblings : Scanner.Element -> list Scanner.Node)
    (element : Scanner.Element) :
  let text :=
    Scanner.getQuestionText textContent labelFor getElementById
      previousElementSiblings element in
  Js.trim text = text
  /\ (Js.everyChar Js.isSpace text = true -> text = "")
  /\ forall fieldType options required selector,
       Scanner.dedupKey (Scanner.mkQuestion text fieldType options required selector)
       = Js.toLowerCase text.
Proof.
  intros text.
  assert (Ht : Js.trim text = text) by apply getQuestionText_trim.
  assert (Hs : Js.startsSpace text = false)
    by (rewrite <- Ht; apply trim_startsSpace).
  assert (He : Js.endsSpace text = false)
    by (rewrite <- Ht; apply trim_endsSpace).
  split; [done |]. split.
  - intros Hblank. destruct text as [|c r]; [done |].
    simpl in Hblank, Hs. by rewrite Hs in Hblank.
  - intros. unfold Scanner.dedupKey. simpl.
    apply trim_fix; by rewrite ?toLowerCase_startsSpace, ?toLowerCase_endsSpace.
Qed.

(** X3. A label that is found for the id of a field and whose text is
    not empty but blank ends the search of [getQuestionText]: the
    function returns the empty string without trying the later sources
    (the enclosing label, [aria-labelledby], siblings, the container,
    the [name] attribute), and [processField] skips the field. *)
Theorem blank_label_skips_field
    (textContent : Scanner.Node -> string)
    (labelFor getElementById : string -> option Scanner.Node)
    (previousElementSiblings : Scanner.Element -> list Scanner.Node)
    (generateSelector : Scanner.Element -> string)
    (extractDropdownOptions : Scanner.Element -> Js.Outcome (list string))
    (element : Scanner.Element) (label : Scanner.Node) :
  let getQuestionText :=
    Scanner.getQuestionText textContent labelFor getElementById
      previousElementSiblings in
  let isRequired :=
    Scanner.isRequired textContent labelFor getElementById
      previousElementSiblings in
  match Scanner.getAttribute (Scanner.self element) "aria-label" with
  | Some ariaLabel => Js.trim ariaLabel = ""
  | None => True
  end ->
  Js.truthy (Scanner.elementId (Scanner.self element)) = true ->
  labelFor (Scanner.elementId (Scanner.self element)) = Some label ->
  Js.truthy (textContent label) = true ->
  Js.everyChar Js.isSpace (textContent label) = true ->
  getQuestionText element = ""
  /\ Scanner.processField getQuestionText isRequired generateSelector
       extractDropdownOptions element = None.
Proof.
  intros getQuestionText isRequired Haria Hid Hfor Htext Hblank.
  assert (Hq : getQuestionText element = "").
  { unfold getQuestionText, Scanner.getQuestionText, Scanner.questionTextMethods.
    destruct (Scanner.getAttribute (Scanner.self element) "aria-label") as [a|].
    - rewrite Haria, andb_false_r. simpl.
      rewrite Hid, Hfor. simpl. rewrite Htext. simpl.
      by rewrite cleanLabelText_blank by by apply trim_blank.
    - simpl. rewrite Hid, Hfor. simpl. rewrite Htext. simpl.
      by rewrite cleanLabelText_blank by by apply trim_blank. }
  split; [done |]. unfold Scanner.processField. by rewrite Hq.
Qed.

(** A text input with an id and a name, and a label for the id that
    holds a line break and spaces only. *)
Lemma blank_label_skips_field_witness :
  let input := Scanner.Elem "input" [("id", "fname"); ("name", "first_name")] [] in
  let label := Scanner.Elem "label" [("for", "fname")] [] in
  let element := Scanner.mkElement input [Scanner.Elem "form" [] [label; input]] in
  let textContent (n : Scanner.Node) :=
    if String.eqb (Scanner.tag n) "label" then String Js.newline "   " else "" in
  let labelFor (i : string) := if String.eqb i "fname" then Some label else None in
  Scanner.getQuestionText textContent labelFor (fun _ => None) (fun _ => [label])
    element = ""
  /\ Scanner.processField
       (Scanner.getQuestionText textContent labelFor (fun _ => None) (fun _ => [label]))
       (Scanner.isRequired textContent labelFor (fun _ => None) (fun _ => [label]))
       (fun _ => "#fname") (fun _ => Js.Returns []) element = None.
Proof.
  intros input label element textContent labelFor.
  apply (blank_label_skips_field textContent labelFor (fun _ => None)
           (fun _ => [label]) (fun _ => "#fname") (fun _ => Js.Returns [])
           element label); reflexivity || exact I.
Defined.

(** ** The dropdown scanner *)

Section DropdownOptions.
Import Js Scanner DropdownScanner.

Lemma filter_sublist {A} (p : A -> bool) (l : list A) : sublist (List.filter p l) l.
Proof.
  induction l as [|x l IH]; simpl; [constructor |].
  destruct (p x); by constructor.
Qed.

Lemma filter_count_occ (p : string -> bool) (l : list string) x :
  p x = true ->
  count_occ string_dec (List.filter p l) x = count_occ string_dec l x.
Proof.
  intros Hx. induction l as [|y l IH]; [done |]. simpl.
  destruct (p y) eqn:Hy; simpl; destruct (string_dec y x) as [->|]; try done.
  - by rewrite IH.
  - congruence.
Qed.

Lemma truthy_nonempty s : truthy s = true <-> s <> "".
Proof.
  unfold truthy. rewrite negb_true_iff. split.
  - intros H ->. done.
  - intros H. by apply String.eqb_neq.
Qed.

Lemma keepNative_spec text :
  keepNative text = true <->
  text <> "" /\ text <> "--" /\ toLowerCase text <> "select".
Proof.
  unfold keepNative. rewrite !andb_true_iff, !negb_true_iff, !String.eqb_neq.
  rewrite truthy_nonempty. tauto.
Qed.

(** The loop of [extractCustomOptions]. *)
Lemma pushNew_NoDup (texts : list string) : forall options,
  NoDup options -> NoDup (fold_left pushNew texts options).
Proof.
  induction texts as [|t texts IH]; intros options Hnd; [done |]. simpl.
  apply IH. unfold pushNew.
  destruct (truthy t && negb (t =? "")%string && negb (member t options)) eqn:Hc;
    [| done].
  apply andb_prop in Hc as [_ Hm]. apply negb_true_iff in Hm.
  apply NoDup_app. repeat split; [done | | apply NoDup_singleton].
  intros x Hx ->%list_elem_of_singleton.
  assert (member t options = true); [| congruence].
  apply existsb_exists. exists t. split; [by apply list_elem_of_In | apply String.eqb_refl].
Qed.

Lemma pushNew_In (texts : list string) : forall options x,
  In x (fold_left pushNew texts options) <->
  In x options \/ (In x texts /\ x <> "").
Proof.
  induction texts as [|t texts IH]; intros options x; simpl; [tauto |].
  rewrite IH. unfold pushNew.
  destruct (truthy t && negb (t =? "")%string && negb (member t options)) eqn:Hc.
  - apply andb_prop in Hc as [[Ht _]%andb_prop _]. apply truthy_nonempty in Ht.
    rewrite in_app_iff. simpl. split.
    + intros [[H | [<- | []]] | [H1 H2]]; tauto.
    + intros [H | [[<- | H1] H2]]; tauto.
  - split; [tauto |]. intros [H | [[<- | H1] H2]]; [tauto | | tauto].
    left. apply andb_false_iff in Hc as [Hc | Hc].
    + apply truthy_nonempty in H2. apply andb_false_iff in Hc as [Hc | Hc].
      * congruence.
      * apply negb_false_iff, String.eqb_eq in Hc. by apply truthy_nonempty in H2.
    + apply negb_false_iff, existsb_exists in Hc as (y & Hy & ->%String.eqb_eq). done.
Qed.

End DropdownOptions.

(** X4. [extractNativeOptions] returns, in document order, the trimmed
    texts of the options of the [select] that are not empty, not ["--"]
    and not, up to case, ["select"]: every returned text passes the three
    tests and has no white space at either end, and a text that passes
    them is returned as often as it occurs (the native options are not
    deduplicated; ["Select..."] or ["Please select"] are kept). *)
Theorem extractNativeOptions_filtered
    (textContent : Scanner.Node -> string) (select : Scanner.Node) :
  let texts :=
    map (fun option => Js.trim (textContent option))
        (DropdownScanner.selectOptions select) in
  let options := DropdownScanner.extractNativeOptions textContent select in
  sublist options texts
  /\ Forall (fun text => text <> "" /\ text <> "--"
                         /\ Js.toLowerCase text <> "select"
                         /\ Js.trim text = text) options
  /\ (forall text,
        text <> "" -> text <> "--" -> Js.toLowerCase text <> "select" ->
        count_occ string_dec options text = count_occ string_dec texts text).
Proof.
  intros texts options. repeat split.
  - apply filter_sublist.
  - apply List.Forall_forall. intros text [Hin Hkeep]%filter_In.
    apply keepNative_spec in Hkeep as (H1 & H2 & H3). repeat split; try done.
    apply in_map_iff in Hin as (o & <- & _). apply trim_idem.
  - intros text H1 H2 H3. apply filter_count_occ. by apply keepNative_spec.
Qed.

(** A select with a placeholder, a separator, and the same country in
    two groups. *)
Lemma extractNativeOptions_filtered_witness :
  let text (n : Scanner.Node) :=
    match Scanner.getAttribute n "label" with Some t => t | None => "" end in
  let option (t : string) := Scanner.Elem "option" [("label", t)] [] in
  let select :=
    Scanner.Elem "select" []
      [ option "Select"; option " India "; option "--";
        Scanner.Elem "optgroup" [] [option "India"; option "Please select"] ] in
  DropdownScanner.extractNativeOptions text select = ["India"; "India"; "Please select"]
  /\ count_occ string_dec (DropdownScanner.extractNativeOptions text select) "India" = 2.
Proof.
  intros text option select. split; [reflexivity |].
  destruct (extractNativeOptions_filtered text select) as (_ & _ & Hcount).
  rewrite (Hcount "India"); [reflexivity | done | done | done].
Defined.

(** X5. The options that [extractCustomOptions] returns are pairwise
    distinct, not empty and without white space at either end; they are
    exactly the non-empty trimmed texts of the option-like elements of the
    menu, and there are none when no input is found for the element, when
    the dropdown does not open, when no menu appears, or when one of these
    steps throws. *)
Theorem extractCustomOptions_distinct
    (textContent : Scanner.Node -> string)
    (openDropdownWithKeyboard : Scanner.Node -> Js.Outcome bool)
    (waitForDropdownMenu : Js.Outcome bool)
    (getDropdownMenu : Js.Outcome (option Scanner.Node))
    (element : Scanner.Element) :
  let options :=
    DropdownScanner.extractCustomOptions textContent openDropdownWithKeyboard
      waitForDropdownMenu getDropdownMenu element in
  let opened :=
    exists input menu,
      DropdownScanner.findDropdownInput element = Some input
      /\ openDropdownWithKeyboard input = Js.Returns true
      /\ waitForDropdownMenu = Js.Returns true
      /\ getDropdownMenu = Js.Returns (Some menu)
      /\ forall text,
           In text options <->
           text <> ""
           /\ exists optionEl,
                In optionEl
                   (DropdownScanner.querySelectorAll DropdownScanner.selOptionLike menu)
                /\ text = Js.trim (textContent optionEl) in
  NoDup options
  /\ Forall (fun text => text <> "" /\ Js.trim text = text) options
  /\ (opened \/ options = []).
Proof.
  intros options opened. subst options opened.
  unfold DropdownScanner.extractCustomOptions.
  destruct (DropdownScanner.findDropdownInput element) as [input|];
    [| by repeat split; [constructor | constructor | right]].
  destruct (openDropdownWithKeyboard input) as [e|[]] eqn:Hopen;
    try by repeat split; [constructor | constructor | right].
  destruct waitForDropdownMenu as [e|[]] eqn:Hwait;
    try by repeat split; [constructor | constructor | right].
  destruct getDropdownMenu as [e|[menu|]] eqn:Hmenu;
    try by repeat split; [constructor | constructor | right].
  repeat split.
  - apply pushNew_NoDup. constructor.
  - apply List.Forall_forall. intros text Hin.
    apply pushNew_In in Hin as [[] | [Hin Hne]]. split; [done |].
    apply in_map_iff in Hin as (o & <- & _). apply trim_idem.
  - left. exists input, menu. repeat split; try done.
    + by apply pushNew_In in H as [[] | [_ Hne]].
    + apply pushNew_In in H as [[] | [Hin _]].
      apply in_map_iff in Hin as (o & <- & Ho). by exists o.
    + intros (Hne & o & Ho & ->). apply pushNew_In. right. split; [| done].
      apply in_map_iff. by exists o.
Qed.

Section DropdownInput.
Import Js Scanner DropdownScanner.

Lemma closest_sound sel e p :
  closest sel e = Some p -> sel p = true /\ In p (self e :: ancestors e).
Proof. intros H. apply find_some in H as [? ?]. by split. Qed.

Lemma querySelector_none sel n d :
  querySelector sel n = None -> Descendant d n -> sel d = false.
Proof.
  intros Hq Hd. destruct (sel d) eqn:Hs; [| done].
  pose proof (querySelector_complete sel n d Hd Hs) as H. by rewrite Hq in H.
Qed.

Lemma selInput_tag n : selInput n = true <-> tag n = "input".
Proof. apply String.eqb_eq. Qed.

Lemma selInputRoleCombobox_input n :
  selInputRoleCombobox n = true -> selInput n = true /\ attrIs n "role" "combobox" = true.
Proof. unfold selInputRoleCombobox, selInput. by intros [? ?]%andb_prop. Qed.

End DropdownInput.

(** X6. What [findDropdownInput] returns is an [input] element: the
    element itself, one of its descendants, or a descendant of the
    nearest enclosing element with [role="combobox"].  It returns [null]
    only when the element is not an input and has no input below it.
    Below an element that is not an input, an input with
    [role="combobox"] is preferred to one that comes earlier in the
    document without the role. *)
Theorem findDropdownInput_input (element : Scanner.Element) :
  (forall input,
     DropdownScanner.findDropdownInput element = Some input ->
     Scanner.tag input = "input"
     /\ (input = Scanner.self element
         \/ Scanner.Descendant input (Scanner.self element)
         \/ exists parent,
              Scanner.closest Scanner.selRoleCombobox element = Some parent
              /\ Scanner.Descendant input parent))
  /\ (DropdownScanner.findDropdownInput element = None ->
      Scanner.tag (Scanner.self element) <> "input"
      /\ forall d, Scanner.Descendant d (Scanner.self element) ->
                   Scanner.tag d <> "input")
  /\ (Scanner.tag (Scanner.self element) <> "input" ->
      (exists d, Scanner.Descendant d (Scanner.self element)
                 /\ Scanner.selInputRoleCombobox d = true) ->
      exists input,
        DropdownScanner.findDropdownInput element = Some input
        /\ Scanner.getAttribute input "role" = Some "combobox").
Proof.
  unfold DropdownScanner.findDropdownInput.
  destruct (String.eqb (Scanner.tag (Scanner.self element)) "input") eqn:Htag.
  { apply String.eqb_eq in Htag. split; [| split]; [| done | done].
    intros input [= <-]. split; [done | by left]. }
  apply String.eqb_neq in Htag.
  destruct (Scanner.querySelector Scanner.selInputRoleCombobox (Scanner.self element))
    as [i1|] eqn:H1.
  { apply querySelector_sound in H1 as [Hd Hs].
    apply selInputRoleCombobox_input in Hs as [Hi Hr]. split; [| split]; [| done |].
    - intros input [= <-]. split; [by apply selInput_tag | right; by left].
    - intros _ _. exists i1. split; [done |]. by apply attrIs_spec. }
  assert (Hnorole : (exists d, Scanner.Descendant d (Scanner.self element)
                               /\ Scanner.selInputRoleCombobox d = true) -> False).
  { intros (d & Hdd & Hsd). by rewrite (querySelector_none _ _ _ H1 Hdd) in Hsd. }
  destruct (Scanner.querySelector DropdownScanner.selInput (Scanner.self element))
    as [i2|] eqn:H2.
  { apply querySelector_sound in H2 as [Hd Hs]. split; [| split]; [| done |].
    - intros input [= <-]. split; [by apply selInput_tag | right; by left].
    - intros _ Hex. by destruct (Hnorole Hex). }
  assert (Hnone : forall d, Scanner.Descendant d (Scanner.self element) ->
                            Scanner.tag d <> "input").
  { intros d Hd Hi. apply selInput_tag in Hi.
    by rewrite (querySelector_none _ _ _ H2 Hd) in Hi. }
  split; [| split].
  - destruct (Scanner.closest Scanner.selRoleCombobox element) as [parent|] eqn:Hc;
      [| done].
    intros input Hq. apply querySelector_sound in Hq as [Hd Hs].
    split; [by apply selInput_tag |]. right. right. by exists parent.
  - done.
  - intros _ Hex. by destruct (Hnorole Hex).
Qed.

(** A wrapper that holds a hidden input and then the combobox input:
    the second one is found. *)
Lemma findDropdownInput_input_witness :
  let hidden := Scanner.Elem "input" [("type", "hidden")] [] in
  let combo := Scanner.Elem "input" [("role", "combobox")] [] in
  let element := Scanner.mkElement (Scanner.Elem "div" [] [hidden; combo]) [] in
  DropdownScanner.findDropdownInput element = Some combo
  /\ exists input,
       DropdownScanner.findDropdownInput element = Some input
       /\ Scanner.getAttribute input "role" = Some "combobox".
Proof.
  intros hidden combo element. split; [reflexivity |].
  destruct (findDropdownInput_input element) as (_ & _ & Hprefer).
  apply Hprefer; [done |].
  exists combo. split; [| reflexivity].
  apply Scanner.Descendant_child. right. by left.
Defined.

Section FieldTypes.
Import Js Scanner.

(** The field types that [detectFieldType] returns. *)
Lemma detectFieldType_range e :
  In (detectFieldType e)
     [ "dropdown_custom"; "select"; "textarea"; "email"; "tel"; "number";
       "date"; "file"; "radio"; "checkbox"; "text" ].
Proof.
  unfold detectFieldType.
  repeat match goal with
         | |- context [if ?b then _ else _] => destruct b
         end; simpl; tauto.
Qed.

Lemma detectFieldType_select e :
  detectFieldType e = "select" ->
  String.eqb (tag (self e)) "select" = true
  \/ (String.eqb (tag (self e)) "select" = false
      /\ isSome (querySelector selSelect (self e)) = true).
Proof.
  unfold detectFieldType.
  destruct (_ || _ || _ || _ || _); [done |].
  destruct (String.eqb (tag (self e)) "select"); [by left |].
  destruct (isSome (querySelector selSelect (self e))); [by right |].
  repeat match goal with
         | |- context [if ?b then _ else _] => destruct b
         end; done.
Qed.

End FieldTypes.

(** X7. For an element that [detectFieldType] classifies as ['select'],
    [extractDropdownOptions] reads the options of a native [select] (the
    element itself, or the first one below it) and does not work the
    page: its result is that of [extractNativeOptions], whatever
    the reaction of the page to keys would be. *)
Theorem select_options_are_native
    (textContent : Scanner.Node -> string)
    (openDropdownWithKeyboard : Scanner.Node -> Js.Outcome bool)
    (waitForDropdownMenu : Js.Outcome bool)
    (getDropdownMenu : Js.Outcome (option Scanner.Node))
    (element : Scanner.Element) :
  Scanner.detectFieldType element = "select" ->
  exists select,
    Scanner.tag select = "select"
    /\ (select = Scanner.self element
        \/ Scanner.Descendant select (Scanner.self element))
    /\ DropdownScanner.extractDropdownOptions textContent openDropdownWithKeyboard
         waitForDropdownMenu getDropdownMenu element
       = DropdownScanner.extractNativeOptions textContent select.
Proof.
  intros Hselect. unfold DropdownScanner.extractDropdownOptions.
  apply detectFieldType_select in Hselect as [Htag | [Htag Hq]]; rewrite Htag.
  - exists (Scanner.self element). apply String.eqb_eq in Htag.
    split; [done |]. split; [by left | done].
  - destruct (Scanner.querySelector Scanner.selSelect (Scanner.self element))
      as [select|] eqn:Hs; [| done].
    apply querySelector_sound in Hs as [Hd Hsel].
    exists select. apply String.eqb_eq in Hsel.
    split; [done |]. split; [by right | done].
Qed.

(** A wrapper around a native select. *)
Lemma select_options_are_native_witness :
  let option (t : string) := Scanner.Elem "option" [("label", t)] [] in
  let select := Scanner.Elem "select" [] [option "Select"; option "Yes"; option "No"] in
  let element := Scanner.mkElement (Scanner.Elem "div" [] [select]) [] in
  let text (n : Scanner.Node) :=
    match Scanner.getAttribute n "label" with Some t => t | None => "" end in
  exists found,
    Scanner.tag found = "select"
    /\ (found = Scanner.self element
        \/ Scanner.Descendant found (Scanner.self element))
    /\ DropdownScanner.extractDropdownOptions text (fun _ => Js.Throws "not reached")
         (Js.Throws "not reached") (Js.Throws "not reached") element
       = DropdownScanner.extractNativeOptions text found.
Proof.
  intros option select element text.
  apply (select_options_are_native text (fun _ => Js.Throws "not reached")
           (Js.Throws "not reached") (Js.Throws "not reached") element).
  reflexivity.
Defined.

(** ** The scanner: what a scanned question looks like *)

Section ScannedQuestions.
Import Js Scanner.

Lemma extractNativeOptions_shape textContent select :
  Forall (fun o => o <> "" /\ trim o = o)
         (DropdownScanner.extractNativeOptions textContent select).
Proof.
  apply List.Forall_forall. intros text [Hin Hkeep]%filter_In.
  apply keepNative_spec in Hkeep as (H1 & _). split; [done |].
  apply in_map_iff in Hin as (o & <- & _). apply trim_idem.
Qed.

Lemma extractCustomOptions_shape textContent open wait menu element :
  Forall (fun o => o <> "" /\ trim o = o)
         (DropdownScanner.extractCustomOptions textContent open wait menu element).
Proof.
  unfold DropdownScanner.extractCustomOptions.
  repeat match goal with
         | |- context [match ?x with _ => _ end] => destruct x
         end; try by constructor.
  apply List.Forall_forall. intros text Hin.
  apply pushNew_In in Hin as [[] | [Hin Hne]]. split; [done |].
  apply in_map_iff in Hin as (o & <- & _). apply trim_idem.
Qed.

Lemma extractDropdownOptions_shape textContent open wait menu element :
  Forall (fun o => o <> "" /\ trim o = o)
         (DropdownScanner.extractDropdownOptions textContent open wait menu element).
Proof.
  unfold DropdownScanner.extractDropdownOptions.
  destruct (String.eqb _ _); [apply extractNativeOptions_shape |].
  destruct (querySelector _ _);
    [apply extractNativeOptions_shape | apply extractCustomOptions_shape].
Qed.

Variable getQuestionText : Element -> string.
Variable isRequired : Element -> bool.
Variable generateSelector : Element -> string.
Variable extractDropdownOptions : Element -> Outcome (list string).

Lemma collect_In fields q :
  In q (collect getQuestionText isRequired generateSelector extractDropdownOptions
          fields) ->
  exists field,
    In field fields
    /\ processField getQuestionText isRequired generateSelector
         extractDropdownOptions field = Some q.
Proof.
  induction fields as [|f fields IH]; [done |]. simpl.
  destruct (processField _ _ _ _ f) as [q'|] eqn:Hf.
  - intros [<- | Hin].
    + exists f. by split; [left |].
    + destruct (IH Hin) as (field & ? & ?). exists field. by split; [right |].
  - intros Hin. destruct (IH Hin) as (field & ? & ?). exists field. by split; [right |].
Qed.

Lemma scan_In found q :
  In q (scan found getQuestionText isRequired generateSelector
          extractDropdownOptions) ->
  exists fields field,
    found = Returns fields /\ In field fields
    /\ processField getQuestionText isRequired generateSelector
         extractDropdownOptions field = Some q.
Proof.
  unfold scan. destruct found as [e|fields]; [done |].
  intros Hin. apply list_elem_of_In, dedupFrom_elem in Hin as [Hin _].
  apply list_elem_of_In, collect_In in Hin as (field & ? & ?).
  by exists fields, field.
Qed.

End ScannedQuestions.

(** X8. Every question that [FormScanner.scan] returns comes from one
    of the enumerated fields, with the text of [getQuestionText], which
    is not empty and has no white space at either end, the type of
    [detectFieldType], and the selector and the required mark of the
    field; a text with an asterisk makes the question required.  The
    question has options exactly when its type is ['dropdown_custom'] or
    ['select'], and the options that [extractDropdownOptions] supplies
    are non-empty strings without white space at either end. *)
Theorem scanned_questions_wellformed
    (textContent : Scanner.Node -> string)
    (labelFor getElementById : string -> option Scanner.Node)
    (previousElementSiblings : Scanner.Element -> list Scanner.Node)
    (findAllFormFields : Js.Outcome (list Scanner.Element))
    (generateSelector : Scanner.Element -> string)
    (openDropdownWithKeyboard : Scanner.Element -> Scanner.Node -> Js.Outcome bool)
    (waitForDropdownMenu : Scanner.Element -> Js.Outcome bool)
    (getDropdownMenu : Scanner.Element -> Js.Outcome (option Scanner.Node))
    (q : Scanner.ScannedQuestion) :
  let getQuestionText :=
    Scanner.getQuestionText textContent labelFor getElementById
      previousElementSiblings in
  let isRequired :=
    Scanner.isRequired textContent labelFor getElementById
      previousElementSiblings in
  let extractDropdownOptions element :=
    Js.Returns
      (DropdownScanner.extractDropdownOptions textContent
         (openDropdownWithKeyboard element) (waitForDropdownMenu element)
         (getDropdownMenu element) element) in
  In q (Scanner.scan findAllFormFields getQuestionText isRequired generateSelector
          extractDropdownOptions) ->
  exists fields field,
    findAllFormFields = Js.Returns fields /\ In field fields
    /\ Scanner.questionText q = getQuestionText field
    /\ Scanner.questionText q <> ""
    /\ Js.trim (Scanner.questionText q) = Scanner.questionText q
    /\ Scanner.fieldType q = Scanner.detectFieldType field
    /\ Scanner.selector q = generateSelector field
    /\ Scanner.required q = isRequired field
    /\ (Js.includes (Scanner.questionText q) "*" = true -> Scanner.required q = true)
    /\ match Scanner.options q with
       | Some options =>
           (Scanner.fieldType q = "dropdown_custom" \/ Scanner.fieldType q = "select")
           /\ Forall (fun o => o <> "" /\ Js.trim o = o) options
       | None =>
           Scanner.fieldType q <> "dropdown_custom" /\ Scanner.fieldType q <> "select"
       end.
Proof.
  intros getQuestionText isRequired extractDropdownOptions Hin.
  apply scan_In in Hin as (fields & field & Hfound & Hfield & Hq).
  exists fields, field. split; [done |]. split; [done |].
  unfold Scanner.processField in Hq.
  destruct (Js.truthy (getQuestionText field)) eqn:Htext; [| done].
  apply truthy_nonempty in Htext.
  assert (Hshape : Scanner.questionText q = getQuestionText field
                   /\ Scanner.fieldType q = Scanner.detectFieldType field
                   /\ Scanner.selector q = generateSelector field
                   /\ Scanner.required q = isRequired field
                   /\ match Scanner.options q with
                      | Some options =>
                          (Scanner.fieldType q = "dropdown_custom"
                           \/ Scanner.fieldType q = "select")
                          /\ Forall (fun o => o <> "" /\ Js.trim o = o) options
                      | None =>
                          Scanner.fieldType q <> "dropdown_custom"
                          /\ Scanner.fieldType q <> "select"
                      end).
  { destruct (String.eqb (Scanner.detectFieldType field) "dropdown_custom"
              || String.eqb (Scanner.detectFieldType field) "select") eqn:Htype.
    - simpl in Hq. injection Hq as <-. simpl. repeat split; try done.
      + apply orb_prop in Htype as [H | H]; apply String.eqb_eq in H; tauto.
      + apply extractDropdownOptions_shape.
    - injection Hq as <-. simpl.
      apply orb_false_elim in Htype as [H1 H2].
      apply String.eqb_neq in H1, H2. by repeat split. }
  destruct Hshape as (Ht & Hf & Hs & Hr & Ho).
  repeat split; try done.
  - by rewrite Ht.
  - rewrite Ht. apply getQuestionText_trim.
  - intros Hstar. rewrite Hr. unfold isRequired, Scanner.isRequired.
    fold getQuestionText. rewrite <- Ht, Hstar. apply orb_true_r.
Qed.

(** A page with one visible field: a native select below a label. *)
Lemma scanned_questions_wellformed_witness :
  let option (t : string) := Scanner.Elem "option" [("label", t)] [] in
  let select :=
    Scanner.Elem "select" [("aria-label", " Country * ")]
      [option "Select"; option "India"; option " Norway "] in
  let field := Scanner.mkElement select [] in
  let text (n : Scanner.Node) :=
    match Scanner.getAttribute n "label" with Some t => t | None => "" end in
  let questions :=
    Scanner.scan (Js.Returns [field])
      (Scanner.getQuestionText text (fun _ => None) (fun _ => None) (fun _ => []))
      (Scanner.isRequired text (fun _ => None) (fun _ => None) (fun _ => []))
      (fun _ => "select[name=country]")
      (fun element =>
         Js.Returns
           (DropdownScanner.extractDropdownOptions text (fun _ => Js.Returns false)
              (Js.Returns false) (Js.Returns None) element)) in
  questions
  = [Scanner.mkQuestion "Country *" "select" (Some ["India"; "Norway"]) true
       "select[name=country]"]
  /\ exists fields found,
       Js.Returns [field] = Js.Returns fields /\ In found fields
       /\ Scanner.questionText
            (Scanner.mkQuestion "Country *" "select" (Some ["India"; "Norway"]) true
               "select[name=country]")
          <> "".
Proof.
  intros option select field text questions. split; [reflexivity |].
  destruct (scanned_questions_wellformed text (fun _ => None) (fun _ => None)
              (fun _ => []) (Js.Returns [field]) (fun _ => "select[name=country]")
              (fun _ _ => Js.Returns false) (fun _ => Js.Returns false)
              (fun _ => Js.Returns None)
              (Scanner.mkQuestion "Country *" "select" (Some ["India"; "Norway"]) true
                 "select[name=country]"))
    as (fields & found & Hf & Hin & _ & Hne & _).
  { left. reflexivity. }
  by exists fields, found.
Defined.

(** ** The runner: fill strategies *)

(** X9. [mapSeleniumTypeToFieldType] never returns [SELECT_NATIVE] or
    [MULTISELECT]: the first test sends every type whose lower-case form
    contains ["select"] or ["dropdown"] to [DROPDOWN_CUSTOM], which
    includes ["select_native"] and ["multiselect"], so the two later
    tests cannot succeed.  On the kinds that [mapFieldType] tells apart,
    the two functions agree except on ["SELECT_NATIVE"], which
    [mapSeleniumTypeToFieldType] fills as a custom dropdown. *)
Theorem mapSeleniumTypeToFieldType_never_native (seleniumType : string) :
  let result := AutofillRunner.mapSeleniumTypeToFieldType seleniumType in
  result <> AutofillRunner.SELECT_NATIVE
  /\ result <> AutofillRunner.MULTISELECT
  /\ (Js.includes (Js.toLowerCase seleniumType) "select" = true ->
      result = AutofillRunner.DROPDOWN_CUSTOM)
  /\ (Js.includes (Js.toLowerCase seleniumType) "dropdown" = true ->
      result = AutofillRunner.DROPDOWN_CUSTOM)
  /\ (AutofillRunner.mapFieldType seleniumType = AutofillRunner.SELECT_NATIVE ->
      result = AutofillRunner.DROPDOWN_CUSTOM)
  /\ (AutofillRunner.mapFieldType seleniumType <> AutofillRunner.SELECT_NATIVE ->
      AutofillRunner.mapFieldType seleniumType <> AutofillRunner.TEXT ->
      result = AutofillRunner.mapFieldType seleniumType).
Proof.
  intros result. subst result.
  split; [| split; [| split; [| split; [| split]]]].
  - unfold AutofillRunner.mapSeleniumTypeToFieldType.
    destruct (_ || _ || _) eqn:Hfirst; [done |].
    destruct (String.eqb (Js.toLowerCase seleniumType) "select_native") eqn:Hn.
    { apply String.eqb_eq in Hn. by rewrite Hn in Hfirst. }
    repeat match goal with
           | |- context [if ?b then _ else _] => destruct b
           end; done.
  - unfold AutofillRunner.mapSeleniumTypeToFieldType.
    destruct (_ || _ || _) eqn:Hfirst; [done |].
    destruct (String.eqb (Js.toLowerCase seleniumType) "multiselect") eqn:Hn.
    { apply String.eqb_eq in Hn. by rewrite Hn in Hfirst. }
    repeat match goal with
           | |- context [if ?b then _ else _] => destruct b
           end; done.
  - intros H. unfold AutofillRunner.mapSeleniumTypeToFieldType.
    by rewrite H, orb_true_r.
  - intros H. unfold AutofillRunner.mapSeleniumTypeToFieldType. by rewrite H.
  - unfold AutofillRunner.mapFieldType.
    repeat match goal with
           | |- context [if String.eqb ?a ?b then _ else _] =>
               destruct (String.eqb_spec a b) as [->|]
           end; done.
  - unfold AutofillRunner.mapFieldType.
    repeat match goal with
           | |- context [if String.eqb ?a ?b then _ else _] =>
               destruct (String.eqb_spec a b) as [->|]
           end; done.
Qed.

(** The payload type ["SELECT_NATIVE"] of a resolved field. *)
Lemma mapSeleniumTypeToFieldType_never_native_witness :
  AutofillRunner.mapSeleniumTypeToFieldType "SELECT_NATIVE"
  = AutofillRunner.DROPDOWN_CUSTOM.
Proof.
  destruct (mapSeleniumTypeToFieldType_never_native "SELECT_NATIVE")
    as (_ & _ & _ & _ & H & _).
  by apply H.
Defined.

(** ** The pattern store: similarity, identifiers, cache and statistics *)

Section Similarity.
Import Js PatternStorage.

Lemma splitWsFrom_length cur inRun s : (1 <= length (splitWsFrom cur inRun s))%nat.
Proof.
  revert cur inRun. induction s as [|c s IH]; intros cur inRun; simpl; [lia |].
  destruct (isSpace c); [destruct inRun |]; simpl; try apply IH.
  specialize (IH EmptyString true). lia.
Qed.

Lemma filter_length_le {A} (p : A -> bool) (l : list A) :
  (length (List.filter p l) <= length l)%nat.
Proof. induction l as [|x l IH]; simpl; [lia |]. destruct (p x); simpl; lia. Qed.

Lemma filter_all {A} (p : A -> bool) (l : list A) :
  (forall x, In x l -> p x = true) -> List.filter p l = l.
Proof.
  induction l as [|x l IH]; [done |]. intros H. simpl.
  rewrite (H x) by by left. f_equal. apply IH. intros y Hy. apply H. by right.
Qed.

Lemma member_In v (vs : list string) : member v vs = true <-> In v vs.
Proof.
  unfold member. rewrite existsb_exists. split.
  - by intros (x & Hx & ->%String.eqb_eq).
  - intros H. exists v. split; [done | apply String.eqb_refl].
Qed.

Lemma ratio_bounds (m n : nat) :
  (m <= n)%nat -> (1 <= n)%nat ->
  (0 <= inject_Z (Z.of_nat m) / inject_Z (Z.of_nat n))%Q
  /\ (inject_Z (Z.of_nat m) / inject_Z (Z.of_nat n) <= 1)%Q.
Proof.
  intros Hmn Hn.
  assert (Hpos : (0 < inject_Z (Z.of_nat n))%Q).
  { change 0%Q with (inject_Z 0). rewrite <- Zlt_Qlt. lia. }
  split.
  - apply Qle_shift_div_l; [done |]. rewrite Qmult_0_l.
    change 0%Q with (inject_Z 0). rewrite <- Zle_Qle. lia.
  - apply Qle_shift_div_r; [done |]. rewrite Qmult_1_l. rewrite <- Zle_Qle. lia.
Qed.

Lemma ratio_one (n : nat) :
  (1 <= n)%nat -> (inject_Z (Z.of_nat n) / inject_Z (Z.of_nat n) == 1)%Q.
Proof.
  intros Hn. apply Qmult_inv_r. intros H.
  assert (Hz : inject_Z (Z.of_nat n) == inject_Z 0) by exact H.
  apply (proj1 (inject_Z_injective _ _)) in Hz. lia.
Qed.

End Similarity.

(** X10. [PatternStorage.calculateSimilarity] never divides by zero
    (a split always yields a piece) and its value lies between 0 and 1;
    a string is similar to itself with value 1, so a question that
    differs from a pattern in nothing is matched by the 70% test as
    well. *)
Theorem calculateSimilarity_bounds (str1 str2 : string) :
  (0 <= PatternStorage.calculateSimilarity str1 str2)%Q
  /\ (PatternStorage.calculateSimilarity str1 str2 <= 1)%Q
  /\ (PatternStorage.calculateSimilarity str1 str1 == 1)%Q
  /\ Qle_bool (7 # 10) (PatternStorage.calculateSimilarity str1 str1) = true.
Proof.
  unfold PatternStorage.calculateSimilarity. cbv zeta.
  pose proof (splitWsFrom_length EmptyString false str1) as H1.
  pose proof (splitWsFrom_length EmptyString false str2) as H2.
  fold (Js.splitWs str1) in H1. fold (Js.splitWs str2) in H2.
  pose proof (filter_length_le (fun w => Js.member w (Js.splitWs str2))
                (Js.splitWs str1)) as Hle.
  assert (Hself : (inject_Z
                     (Z.of_nat
                        (length (List.filter (fun w => Js.member w (Js.splitWs str1))
                                   (Js.splitWs str1))))
                   / inject_Z
                       (Z.of_nat (Nat.max (length (Js.splitWs str1))
                                    (length (Js.splitWs str1)))) == 1)%Q).
  { rewrite filter_all by (intros x Hx; by apply member_In).
    rewrite Nat.max_id. by apply ratio_one. }
  split; [| split; [| split]].
  - apply ratio_bounds; lia.
  - apply ratio_bounds; lia.
  - exact Hself.
  - apply Qle_bool_iff. rewrite Hself. done.
Qed.

Section Identifiers.
Import Js Effect PatternStorage.
Variable env : Env.

Lemma map_id_updateFirst p f (l : list LearnedPattern) :
  (forall x, id (f x) = id x) -> map id (updateFirst p f l) = map id l.
Proof.
  intros Hf. induction l as [|x l IH]; [done |]. simpl.
  destruct (p x); simpl; [by rewrite Hf | by rewrite IH].
Qed.

Lemma incrementUsage_ids patternId w :
  map id (learnedPatterns (snd (incrementUsage env patternId w)))
  = map id (learnedPatterns w).
Proof.
  rewrite incrementUsage_run. unfold readable. simpl.
  destruct (rejects env (calls w)); [done |].
  destruct (find (hasId patternId) (learnedPatterns w)); [| done]. simpl.
  destruct (rejects env (S (calls w))); [done |]. by apply map_id_updateFirst.
Qed.

Lemma findPattern_ids questionText w :
  map id (learnedPatterns (snd (findPattern env questionText w)))
  = map id (learnedPatterns w).
Proof.
  rewrite findPattern_run.
  destruct (searchPatterns (readable env w) questionText) as [m|]; [| done].
  simpl. by rewrite incrementUsage_ids.
Qed.

Lemma hasId_In patternId (ps : list LearnedPattern) :
  existsb (hasId patternId) ps = true <-> In patternId (map id ps).
Proof.
  rewrite existsb_exists, in_map_iff. unfold hasId. split.
  - intros (x & Hx & Heq%String.eqb_eq). by exists x.
  - intros (x & Heq & Hx). exists x. split; [done |]. by apply String.eqb_eq.
Qed.

(** What [cachePattern] does, whether the storage answers or not. *)
Lemma cachePattern_run pattern w :
  cachePattern env pattern w =
  (tt,
   if existsb (hasId (id pattern)) (readable env w) then called 1 w
   else makeWorld
          (if rejects env (S (calls w)) then learnedPatterns w
           else readable env w ++ [cached pattern])
          (ticks w) (draws w) (S (S (calls w)))).
Proof.
  unfold cachePattern, bind, getLocalPatterns, readable. simpl.
  by destruct (existsb _ _).
Qed.

Lemma cachePattern_ids pattern w :
  map id (learnedPatterns (snd (cachePattern env pattern w)))
  = if existsb (hasId (id pattern)) (readable env w) || rejects env (S (calls w))
    then map id (learnedPatterns w)
    else map id (readable env w) ++ [id pattern].
Proof.
  rewrite cachePattern_run. simpl.
  destruct (existsb _ _); [done |]. simpl.
  destruct (rejects env (S (calls w))); [done |]. by rewrite map_app.
Qed.

Lemma addPattern_ids pattern w :
  map id (learnedPatterns (snd (addPattern env pattern w)))
  = match find (sameKey pattern) (readable env w) with
    | Some _ => map id (learnedPatterns w)
    | None =>
        if rejects env (S (calls w)) then map id (learnedPatterns w)
        else map id (readable env w) ++ [nextId env w]
    end.
Proof.
  rewrite addPattern_run. unfold readable.
  destruct (rejects env (calls w)) eqn:Hread; simpl.
  - destruct (rejects env (S (calls w))); done.
  - destruct (find (sameKey pattern) (learnedPatterns w)); simpl;
      destruct (rejects env (S (calls w))); try done.
    + by apply map_id_updateFirst.
    + by rewrite map_app.
Qed.

Lemma NoDup_snoc (ids : list string) x : NoDup ids -> ~ In x ids -> NoDup (ids ++ [x]).
Proof.
  intros Hnd Hx. apply NoDup_app. repeat split; [done | | apply NoDup_singleton].
  intros y Hy ->%list_elem_of_singleton. by apply Hx, list_elem_of_In.
Qed.

End Identifiers.

(** X11. The operations of the store keep the identifiers of the
    patterns in place: [incrementUsage] and [findPattern] leave the list
    of identifiers as it is, whether the storage answers or not;
    [cachePattern] and [addPattern] leave it as it is or add one at the
    end ([addPattern] the freshly generated one), except when the
    storage rejects the read and accepts the write: then the one
    identifier replaces the list.  Pairwise distinct identifiers
    therefore stay pairwise distinct, for [addPattern] provided the
    generated identifier is not in use. *)
Theorem store_ids_stable
    (env : PatternStorage.Env) (w : PatternStorage.World)
    (patternId questionText : string) (pattern : PatternStorage.LearnedPattern)
    (draft : PatternStorage.Draft.t) :
  let ids w := map PatternStorage.id (PatternStorage.learnedPatterns w) in
  let w1 := snd (PatternStorage.incrementUsage env patternId w) in
  let w2 := snd (PatternStorage.findPattern env questionText w) in
  let w3 := snd (PatternStorage.cachePattern env pattern w) in
  let w4 := snd (PatternStorage.addPattern env draft w) in
  ids w1 = ids w
  /\ ids w2 = ids w
  /\ (ids w3 = ids w
      \/ (ids w3 = ids w ++ [PatternStorage.id pattern]
          /\ ~ In (PatternStorage.id pattern) (ids w))
      \/ (ids w3 = [PatternStorage.id pattern]
          /\ PatternStorage.rejects env (PatternStorage.calls w) = true
          /\ PatternStorage.rejects env (S (PatternStorage.calls w)) = false))
  /\ (ids w4 = ids w
      \/ ids w4 = ids w ++ [PatternStorage.nextId env w]
      \/ (ids w4 = [PatternStorage.nextId env w]
          /\ PatternStorage.rejects env (PatternStorage.calls w) = true
          /\ PatternStorage.rejects env (S (PatternStorage.calls w)) = false))
  /\ (NoDup (ids w) ->
      NoDup (ids w1) /\ NoDup (ids w2) /\ NoDup (ids w3)
      /\ (~ In (PatternStorage.nextId env w) (ids w) -> NoDup (ids w4))).
Proof.
  intros ids w1 w2 w3 w4. subst ids w1 w2 w3 w4. cbv beta.
  rewrite incrementUsage_ids, findPattern_ids, cachePattern_ids, addPattern_ids.
  unfold PatternStorage.readable.
  split; [done |]. split; [done |].
  destruct (PatternStorage.rejects env (PatternStorage.calls w)) eqn:Hread;
    destruct (PatternStorage.rejects env (S (PatternStorage.calls w))) eqn:Hwrite;
    simpl.
  - split; [by left |]. split; [by left |]. intros Hnd. by repeat split.
  - split; [right; right; by repeat split |].
    split; [right; right; by repeat split |].
    intros Hnd. split; [done |]. split; [done |].
    split; [apply NoDup_singleton | intros _; apply NoDup_singleton].
  - rewrite orb_true_r.
    split; [by left |]. split; [by destruct (find _ _); left |].
    intros Hnd. repeat split; try done. by destruct (find _ _).
  - rewrite orb_false_r.
    assert (Hcache : forall b : bool,
              b = existsb (PatternStorage.hasId (PatternStorage.id pattern))
                    (PatternStorage.learnedPatterns w) ->
              b = true
              \/ ~ In (PatternStorage.id pattern)
                     (map PatternStorage.id (PatternStorage.learnedPatterns w))).
    { intros [|] Hb; [by left | right]. intros Hin%hasId_In. congruence. }
    destruct (Hcache _ eq_refl) as [Hcached|Hnew].
    + rewrite Hcached. split; [by left |].
      split; [destruct (find _ _); [by left | right; by left] |].
      intros Hnd. repeat split; try done.
      intros Hfresh. destruct (find _ _); [done | by apply NoDup_snoc].
    + split.
      { destruct (existsb _ _); [by left | right; left; by split]. }
      split; [destruct (find _ _); [by left | right; by left] |].
      intros Hnd. repeat split; try done.
      * destruct (existsb _ _); [done | by apply NoDup_snoc].
      * intros Hfresh. destruct (find _ _); [done | by apply NoDup_snoc].
Qed.

(** A store of two patterns, a draft for a new question and a clock
    and a generator that produce an unused identifier. *)
Lemma store_ids_stable_witness :
  let env := PatternStorage.mkEnv (fun _ => "2026-01-01T00:00:00.000Z")
               (fun _ => "1767225600000") (fun _ => "k3j9x0a1b") in
  let p1 := PatternStorage.mkPattern "local_1_a" "years of experience" "experience.years"
              "experience.years" None "text" (8 # 10) 0 "t0" "t0" "AI" (Some false) false in
  let p2 := PatternStorage.mkPattern "local_2_b" "what is your gender" "eeo.gender"
              "eeo.gender" None "select" (8 # 10) 3 "t1" "t1" "AI" (Some false) false in
  let w := PatternStorage.mkWorld [p1; p2] 7 0 in
  let draft := PatternStorage.Draft.mk "veteran status" "eeo.veteran" "eeo.veteran"
                 None "select" (8 # 10) "AI" false in
  NoDup (map PatternStorage.id
           (PatternStorage.learnedPatterns
              (snd (PatternStorage.addPattern env draft w)))).
Proof.
  intros env p1 p2 w draft.
  destruct (store_ids_stable env w "local_2_b" "gender" p1 draft)
    as (_ & _ & _ & _ & Hnd).
  apply Hnd.
  - apply (bool_decide_unpack _). vm_compute. exact I.
  - vm_compute. intros [H | [H | []]]; discriminate H.
Defined.

(** X12. [PatternStorage.cachePattern] leaves the clock and the
    generator untouched, and the stored patterns as they are unless no
    pattern that it read has the identifier and the write is accepted:
    then the store is what it read followed by a copy of the pattern
    marked as synced.  With a storage that answers, it stores a pattern
    at most once per identifier: afterwards the identifier is in the
    store, the copy was added at the end exactly when no stored pattern
    had the identifier, and a second call with the same pattern changes
    nothing in the store. *)
Theorem cachePattern_once
    (env : PatternStorage.Env) (pattern : PatternStorage.LearnedPattern)
    (w : PatternStorage.World) :
  let w1 := snd (PatternStorage.cachePattern env pattern w) in
  let ids ps := map PatternStorage.id ps in
  PatternStorage.ticks w1 = PatternStorage.ticks w
  /\ PatternStorage.draws w1 = PatternStorage.draws w
  /\ (PatternStorage.learnedPatterns w1 = PatternStorage.learnedPatterns w
      \/ (PatternStorage.learnedPatterns w1
          = PatternStorage.readable env w ++ [PatternStorage.cached pattern]
          /\ ~ In (PatternStorage.id pattern) (ids (PatternStorage.readable env w))
          /\ PatternStorage.rejects env (S (PatternStorage.calls w)) = false
          /\ PatternStorage.synced (PatternStorage.cached pattern) = Some true
          /\ PatternStorage.lastUsed (PatternStorage.cached pattern)
             = PatternStorage.lastUsed pattern
          /\ PatternStorage.sameButTouch pattern (PatternStorage.cached pattern)))
  /\ (PatternStorage.reliable env ->
      PatternStorage.learnedPatterns (snd (PatternStorage.cachePattern env pattern w1))
      = PatternStorage.learnedPatterns w1
      /\ In (PatternStorage.id pattern) (ids (PatternStorage.learnedPatterns w1))
      /\ PatternStorage.learnedPatterns w1
         = if existsb (PatternStorage.hasId (PatternStorage.id pattern))
                (PatternStorage.learnedPatterns w)
           then PatternStorage.learnedPatterns w
           else PatternStorage.learnedPatterns w ++ [PatternStorage.cached pattern]).
Proof.
  intros w1 ids. subst w1 ids. cbv beta.
  split; [| split; [| split]].
  - rewrite cachePattern_run. by destruct (existsb _ _).
  - rewrite cachePattern_run. by destruct (existsb _ _).
  - rewrite cachePattern_run.
    destruct (existsb _ (PatternStorage.readable env w)) eqn:Hcached; [by left |].
    simpl. destruct (PatternStorage.rejects env (S (PatternStorage.calls w))) eqn:Hwrite;
      [by left | right].
    split; [done |]. split; [| by repeat split].
    intros Hin%hasId_In. congruence.
  - intros Hrel.
    assert (Hfirst : PatternStorage.learnedPatterns
                       (snd (PatternStorage.cachePattern env pattern w))
                     = if existsb (PatternStorage.hasId (PatternStorage.id pattern))
                            (PatternStorage.learnedPatterns w)
                       then PatternStorage.learnedPatterns w
                       else PatternStorage.learnedPatterns w
                            ++ [PatternStorage.cached pattern]).
    { rewrite cachePattern_run, (readable_reliable env _ Hrel), Hrel.
      by destruct (existsb _ _). }
    assert (Hnow : existsb (PatternStorage.hasId (PatternStorage.id pattern))
                     (PatternStorage.learnedPatterns
                        (snd (PatternStorage.cachePattern env pattern w))) = true).
    { rewrite Hfirst. destruct (existsb _ _) eqn:Hcached; [done |].
      rewrite existsb_app. simpl. unfold PatternStorage.hasId at 2. simpl.
      by rewrite String.eqb_refl, orb_true_r. }
    split; [| split; [by apply hasId_In | done]].
    rewrite (cachePattern_run env pattern (snd _)), (readable_reliable env _ Hrel).
    by rewrite Hnow.
Qed.

(** A pattern cached twice in an empty store. *)
Lemma cachePattern_once_witness :
  let env := PatternStorage.mkEnv (fun _ => "2026-01-01T00:00:00.000Z")
               (fun _ => "1767225600000") (fun _ => "k3j9x0a1b") in
  let p := PatternStorage.mkPattern "global_7" "what is your gender" "eeo.gender"
             "eeo.gender" None "select" (8 # 10) 3 "t1" "t1" "AI" None false in
  let w := PatternStorage.mkWorld [] 0 0 in
  map PatternStorage.id
    (PatternStorage.learnedPatterns
       (snd (PatternStorage.cachePattern env p
               (snd (PatternStorage.cachePattern env p w)))))
  = ["global_7"].
Proof.
  intros env p w.
  assert (Hrel : PatternStorage.reliable env) by (intros n; reflexivity).
  destruct (cachePattern_once env p w) as (_ & _ & _ & Honce).
  destruct (Honce Hrel) as (-> & _ & ->). reflexivity.
Defined.

Section Statistics.
Import Js Effect PatternStorage.

Lemma filter_partition_length {A} (p : A -> bool) (l : list A) :
  (length (List.filter p l) + length (List.filter (fun x => negb (p x)) l)
   = length l)%nat.
Proof. induction l as [|x l IH]; [done |]. simpl. destruct (p x); simpl; lia. Qed.

Lemma fold_sum (ps : list LearnedPattern) : forall n,
  fold_left (fun sum p => sum + usageCount p)%nat ps n
  = (n + list_sum (map usageCount ps))%nat.
Proof.
  induction ps as [|p ps IH]; intros n; simpl; [lia |]. rewrite IH. lia.
Qed.

Lemma tally_other (breakdown : gmap string Tally) i j :
  i <> j -> tally breakdown j !! i = breakdown !! i.
Proof.
  intros Hij. unfold tally.
  destruct (breakdown !! j) as [[n|s]|].
  - by rewrite lookup_insert_ne.
  - destruct (truthy s); by rewrite lookup_insert_ne.
  - destruct (String.eqb j "__proto__"); [done |].
    destruct (member j objectPrototypeKeys); by rewrite lookup_insert_ne.
Qed.

Lemma tally_same (breakdown : gmap string Tally) i n :
  member i objectPrototypeKeys = false ->
  breakdown !! i = counted n -> tally breakdown i !! i = counted (S n).
Proof.
  intros Hplain Hi. unfold tally. rewrite Hi.
  destruct n as [|n]; cbn [counted].
  - destruct (String.eqb_spec i "__proto__") as [-> |]; [done |].
    rewrite Hplain. by rewrite lookup_insert_eq.
  - by rewrite lookup_insert_eq.
Qed.

Lemma tally_fold (ps : list LearnedPattern) : forall (breakdown : gmap string Tally) i n,
  member i objectPrototypeKeys = false ->
  breakdown !! i = counted n ->
  fold_left (fun b p => tally b (intent p)) ps breakdown !! i
  = counted (n + withIntent i ps).
Proof.
  induction ps as [|p ps IH]; intros breakdown i n Hplain Hi; simpl.
  - by rewrite Nat.add_0_r.
  - unfold withIntent. simpl. destruct (String.eqb_spec (intent p) i) as [Heq | Hne].
    + simpl. rewrite Nat.add_succ_r, <- Nat.add_succ_l.
      apply IH; [done |]. rewrite Heq. by apply tally_same.
    + apply IH; [done |]. rewrite tally_other; [done | congruence].
Qed.

End Statistics.

(** X13. [PatternStorage.getStats] reads the store without changing
    it, and counts the patterns that it read: the stored patterns, or
    none when the storage rejects the read.  The total is their number
    and splits into the synced and the unsynced ones (a pattern without
    the mark counts as unsynced); the usage is the sum of the usage
    counts; and for every intent that is not the name of a member of
    [Object.prototype], the breakdown has no entry when no pattern has
    the intent, and otherwise the number of patterns that have it. *)
Theorem getStats_consistent (env : PatternStorage.Env) (w : PatternStorage.World) :
  let stats := fst (PatternStorage.getStats env w) in
  let patterns := PatternStorage.readable env w in
  snd (PatternStorage.getStats env w) = PatternStorage.called 1 w
  /\ PatternStorage.learnedPatterns (snd (PatternStorage.getStats env w))
     = PatternStorage.learnedPatterns w
  /\ patterns = (if PatternStorage.rejects env (PatternStorage.calls w) then []
                 else PatternStorage.learnedPatterns w)
  /\ PatternStorage.Stats.totalPatterns stats = length patterns
  /\ (PatternStorage.Stats.syncedPatterns stats
      + PatternStorage.Stats.unsyncedPatterns stats
      = PatternStorage.Stats.totalPatterns stats)%nat
  /\ PatternStorage.Stats.totalUsage stats
     = list_sum (map PatternStorage.usageCount patterns)
  /\ forall intent,
       Js.member intent Js.objectPrototypeKeys = false ->
       PatternStorage.Stats.intentBreakdown stats !! intent
       = PatternStorage.counted (PatternStorage.withIntent intent patterns).
Proof.
  intros stats patterns. subst stats patterns.
  unfold PatternStorage.getStats, Effect.bind, Effect.ret,
    PatternStorage.getLocalPatterns, PatternStorage.readable. simpl.
  split; [done |]. split; [done |]. split; [done |]. split; [done |].
  split; [apply filter_partition_length |].
  split; [apply (fold_sum _ 0) |].
  intros intent Hplain.
  apply (tally_fold _ ∅ intent 0 Hplain). apply lookup_empty.
Qed.

(** Three patterns, two of them for the gender question. *)
Lemma getStats_consistent_witness :
  let env := PatternStorage.mkEnv (fun _ => "2026-01-01T00:00:00.000Z")
               (fun _ => "1767225600000") (fun _ => "k3j9x0a1b") in
  let p i intent synced :=
    PatternStorage.mkPattern i "q" intent intent None "select" (8 # 10) 2 "t" "t" "AI"
      synced false in
  let w := PatternStorage.mkWorld
             [p "a" "eeo.gender" (Some true); p "b" "eeo.race" None;
              p "c" "eeo.gender" (Some false)] 0 0 in
  PatternStorage.Stats.intentBreakdown (fst (PatternStorage.getStats env w))
    !! "eeo.gender"
  = Some (PatternStorage.Count 2)
  /\ PatternStorage.Stats.syncedPatterns (fst (PatternStorage.getStats env w)) = 1%nat
  /\ PatternStorage.Stats.unsyncedPatterns (fst (PatternStorage.getStats env w)) = 2%nat.
Proof.
  intros env p w.
  destruct (getStats_consistent env w) as (_ & _ & _ & _ & _ & _ & Hbreakdown).
  split; [| by split].
  rewrite (Hbreakdown "eeo.gender"); reflexivity.
Defined.

Section RoundTrip.
Import Js Effect PatternStorage.
Variable env : Env.
Hypothesis Hrel : reliable env.

Lemma find_exists {A} (p : A -> bool) (l : list A) x :
  In x l -> p x = true -> exists y, find p l = Some y /\ In y l /\ p y = true.
Proof.
  intros Hin Hp. destruct (find p l) as [y|] eqn:Hfind.
  - exists y. apply find_some in Hfind as [? ?]. by repeat split.
  - by rewrite (find_none _ _ Hfind x Hin) in Hp.
Qed.

Lemma sameKey_patternMatches pattern p :
  sameKey pattern p = true ->
  patternMatches (toLowerCase (Draft.questionPattern pattern)) p = true.
Proof.
  unfold sameKey, patternMatches. intros [_ Hq]%andb_prop. by rewrite Hq.
Qed.

Lemma patternMatches_merged qLower pattern now existing :
  patternMatches qLower (merged pattern now existing) = patternMatches qLower existing.
Proof. done. Qed.

Lemma In_updateFirst {A} (p : A -> bool) f (l : list A) x :
  find p l = Some x -> In (f x) (updateFirst p f l).
Proof.
  induction l as [|y l IH]; [done |]. simpl. destruct (p y) eqn:Hy.
  - intros [= <-]. by left.
  - intros H. right. by apply IH.
Qed.

Lemma addPattern_findable pattern w :
  exists p,
    In p (learnedPatterns (snd (addPattern env pattern w)))
    /\ patternMatches (toLowerCase (Draft.questionPattern pattern)) p = true.
Proof.
  destruct (find (sameKey pattern) (learnedPatterns w)) as [e|] eqn:Hfind.
  - rewrite (addPattern_existing env _ _ _ Hrel Hfind). simpl.
    exists (merged pattern (isoAt env (ticks w)) e). split.
    + by apply In_updateFirst.
    + rewrite patternMatches_merged. apply sameKey_patternMatches.
      by apply find_some in Hfind as [_ ?].
  - rewrite (addPattern_new env _ _ Hrel Hfind). simpl.
    eexists. split; [apply in_or_app; right; by left |].
    apply sameKey_patternMatches, sameKey_newPattern.
Qed.

End RoundTrip.

(** X14. With a storage that answers, a pattern that [addPattern] has
    stored is found again: after [addPattern(draft)], [findPattern] with
    the question pattern of the draft returns a stored pattern that
    matches it, never [null].  When no pattern of the store matched that
    text before, the pattern returned is the new one, with the intent,
    the question pattern, the mappings and the confidence of the draft,
    the generated identifier and a usage count of 0 (the returned object
    is the one read before the increment). *)
Theorem addPattern_then_findPattern
    (env : PatternStorage.Env) (draft : PatternStorage.Draft.t)
    (w : PatternStorage.World) :
  PatternStorage.reliable env ->
  let question := PatternStorage.Draft.questionPattern draft in
  let w1 := snd (PatternStorage.addPattern env draft w) in
  let found := fst (PatternStorage.findPattern env question w1) in
  (exists p,
     found = Some p
     /\ In p (PatternStorage.learnedPatterns w1)
     /\ PatternStorage.patternMatches (Js.toLowerCase question) p = true)
  /\ (PatternStorage.searchPatterns (PatternStorage.learnedPatterns w) question = None ->
      exists p,
        found = Some p
        /\ PatternStorage.id p = PatternStorage.nextId env w
        /\ PatternStorage.intent p = PatternStorage.Draft.intent draft
        /\ PatternStorage.questionPattern p = question
        /\ PatternStorage.answerMappings p = PatternStorage.Draft.answerMappings draft
        /\ PatternStorage.confidence p = PatternStorage.Draft.confidence draft
        /\ PatternStorage.usageCount p = 0%nat
        /\ PatternStorage.learnedPatterns w1 = PatternStorage.learnedPatterns w ++ [p]).
Proof.
  intros Hrel question w1 found. subst found question.
  rewrite (findPattern_fst env _ _ Hrel).
  unfold PatternStorage.searchPatterns. split.
  - destruct (addPattern_findable env Hrel draft w) as (p & Hin & Hp).
    destruct (find_exists _ _ _ Hin Hp) as (y & Hy & Hiny & Hpy). by exists y.
  - intros Hnone. unfold PatternStorage.searchPatterns in Hnone.
    assert (Hkey : find (PatternStorage.sameKey draft) (PatternStorage.learnedPatterns w)
                   = None).
    { destruct (find (PatternStorage.sameKey draft) _) as [e|] eqn:Hfind; [| done].
      apply find_some in Hfind as [Hin Hkey].
      apply sameKey_patternMatches in Hkey.
      by rewrite (find_none _ _ Hnone e Hin) in Hkey. }
    subst w1. rewrite (addPattern_new env _ _ Hrel Hkey). simpl.
    eexists. split.
    + apply find_app_none; [exact Hnone |].
      apply sameKey_patternMatches, sameKey_newPattern.
    + by repeat split.
Qed.

(** An empty store and the draft of a gender pattern. *)
Lemma addPattern_then_findPattern_witness :
  let env := PatternStorage.mkEnv (fun _ => "2026-01-01T00:00:00.000Z")
               (fun _ => "1767225600000") (fun _ => "k3j9x0a1b") in
  let draft := PatternStorage.observation "what is your gender" "eeo.gender" "Male"
                 "Man" (Some ["Man"; "Woman"]) "select" (9 # 10) in
  let w := PatternStorage.mkWorld [] 0 0 in
  exists p,
    fst (PatternStorage.findPattern env "what is your gender"
           (snd (PatternStorage.addPattern env draft w))) = Some p
    /\ PatternStorage.id p = "local_1767225600000_k3j9x0a1b"
    /\ PatternStorage.intent p = "eeo.gender".
Proof.
  intros env draft w.
  assert (Hrel : PatternStorage.reliable env) by (intros n; reflexivity).
  destruct (addPattern_then_findPattern env draft w Hrel) as [_ Hnew].
  destruct (Hnew eq_refl) as (p & Hfound & Hid & Hintent & _).
  exists p. by repeat split.
Defined.

(** ** The mapper: normal forms and learned questions *)

Section NormalForms.
Import Js QuestionMapper.

Lemma normalizeQuestion_lowered text :
  everyChar (fun c => Ascii.eqb (lowerChar c) c) (normalizeQuestion text) = true.
Proof. apply everyChar_trim, everyChar_removeChars, everyChar_lowered. Qed.

Lemma normalizeQuestion_removed text :
  everyChar (fun c => negb (isRemoved c)) (normalizeQuestion text) = true.
Proof. apply everyChar_trim. apply (everyChar_removed isRemoved). Qed.

Lemma normalizeQuestion_toLowerCase text :
  toLowerCase (normalizeQuestion text) = normalizeQuestion text.
Proof. apply toLowerCase_fix, normalizeQuestion_lowered. Qed.

End NormalForms.

(** X15. [QuestionMapper.normalizeQuestion] is idempotent, and what it
    returns is in lower case, has no white space at either end and
    contains none of the characters [*], [?] and [!]. *)
Theorem normalizeQuestion_idempotent (questionText : string) :
  let normal := QuestionMapper.normalizeQuestion questionText in
  QuestionMapper.normalizeQuestion normal = normal
  /\ Js.toLowerCase normal = normal
  /\ Js.trim normal = normal
  /\ Js.everyChar (fun c => negb (QuestionMapper.isRemoved c)) normal = true.
Proof.
  intros normal.
  assert (Hl : Js.toLowerCase normal = normal) by apply normalizeQuestion_toLowerCase.
  assert (Hr : Js.everyChar (fun c => negb (QuestionMapper.isRemoved c)) normal = true)
    by apply normalizeQuestion_removed.
  assert (Ht : Js.trim normal = normal) by apply trim_idem.
  repeat split; try done.
  unfold QuestionMapper.normalizeQuestion at 1. rewrite Hl.
  fold QuestionMapper.isRemoved.
  by rewrite (removeChars_fix _ _ Hr).
Qed.

Section LearnedQuestions.
Import Js Effect PatternStorage QuestionMapper.
Variable env : Env.

Lemma addPattern_stored pattern w :
  reliable env ->
  exists p,
    In p (learnedPatterns (snd (addPattern env pattern w)))
    /\ sameKey pattern p = true.
Proof.
  intros Hrel.
  destruct (find (sameKey pattern) (learnedPatterns w)) as [e|] eqn:Hfind.
  - rewrite (addPattern_existing env _ _ _ Hrel Hfind). simpl.
    exists (merged pattern (isoAt env (ticks w)) e). split.
    + by apply In_updateFirst.
    + rewrite sameKey_merged. by apply find_some in Hfind as [_ ?].
  - rewrite (addPattern_new env _ _ Hrel Hfind). simpl.
    eexists. split; [apply in_or_app; right; by left | apply sameKey_newPattern].
Qed.

Lemma find_updateFirst_none {A} (p q : A -> bool) f (l : list A) :
  (forall x, p (f x) = p x) -> find p l = None -> find p (updateFirst q f l) = None.
Proof.
  intros Hf. induction l as [|x l IH]; [done |]. simpl.
  destruct (p x) eqn:Hx; [done |]. intros Hnone.
  destruct (q x); simpl; [by rewrite Hf, Hx | by rewrite Hx, IH].
Qed.

Lemma find_app_last {A} (p : A -> bool) (l : list A) x :
  find p l = None -> p x = false -> find p (l ++ [x]) = None.
Proof.
  induction l as [|y l IH]; simpl; [by intros _ -> |].
  destruct (p y); [done |]. apply IH.
Qed.

(** A pattern stored under the normal form of a text matches the text
    exactly when the text matches its own pattern. *)
Lemma patternMatches_own text p :
  toLowerCase (questionPattern p) = toLowerCase (normalizeQuestion text) ->
  patternMatches (toLowerCase text) p = matchesOwnPattern text.
Proof. unfold patternMatches, matchesOwnPattern. by intros ->. Qed.

Lemma sameKey_own pattern text p :
  Draft.questionPattern pattern = normalizeQuestion text ->
  sameKey pattern p = true ->
  patternMatches (toLowerCase text) p = matchesOwnPattern text.
Proof.
  intros Hd [_ Hq%String.eqb_eq]%andb_prop. apply patternMatches_own.
  by rewrite Hq, Hd.
Qed.

(** What the store holds was read: a lookup in what was read finds
    nothing when a lookup in the store finds nothing. *)
Lemma searchPatterns_readable text w :
  searchPatterns (learnedPatterns w) text = None ->
  searchPatterns (readable env w) text = None.
Proof. unfold readable. by destruct (rejects env (calls w)). Qed.

Lemma findPattern_none text w :
  searchPatterns (learnedPatterns w) text = None ->
  fst (findPattern env text w) = None.
Proof.
  intros Hnone%searchPatterns_readable. by rewrite findPattern_run, Hnone.
Qed.

Lemma addPattern_search_own pattern text w :
  Draft.questionPattern pattern = normalizeQuestion text ->
  let after := learnedPatterns (snd (addPattern env pattern w)) in
  (reliable env -> matchesOwnPattern text = true ->
   exists p, searchPatterns after text = Some p /\ In p after)
  /\ (searchPatterns (learnedPatterns w) text = None ->
      matchesOwnPattern text = false ->
      searchPatterns after text = None).
Proof.
  intros Hd after. subst after. split.
  - intros Hrel Hown. unfold searchPatterns.
    destruct (addPattern_stored pattern w Hrel) as (p & Hin & Hkey).
    assert (Hp : patternMatches (toLowerCase text) p = true)
      by by rewrite (sameKey_own _ _ _ Hd Hkey).
    destruct (find_exists _ _ _ Hin Hp) as (y & Hy & Hiny & _). by exists y.
  - intros Hnone Hown. pose proof (searchPatterns_readable _ _ Hnone) as Hread.
    rewrite addPattern_run. unfold searchPatterns in *.
    destruct (find (sameKey pattern) (readable env w)) as [e|] eqn:Hfind; simpl;
      destruct (rejects env (S (calls w))); try done.
    + by apply find_updateFirst_none.
    + apply find_app_last; [done |].
      rewrite (sameKey_own pattern); [done | done | apply sameKey_newPattern].
Qed.

Lemma splitWsFrom_word cur s :
  everyChar (fun c => negb (isSpace c)) s = true ->
  splitWsFrom cur false s = [cur +:+ s].
Proof.
  revert cur. induction s as [|c s IH]; intros cur; simpl.
  - intros _. by rewrite append_empty.
  - intros [Hc Hs]%andb_prop. apply negb_true_iff in Hc.
    by rewrite Hc, (IH _ Hs), append_char.
Qed.

Lemma splitWs_word s :
  everyChar (fun c => negb (isSpace c)) s = true -> splitWs s = [s].
Proof. apply (splitWsFrom_word EmptyString). Qed.

Lemma everyChar_toLowerCase p s :
  (forall c, p (lowerChar c) = p c) -> everyChar p (toLowerCase s) = everyChar p s.
Proof.
  intros Hp. induction s as [|c s IH]; [done |]. simpl. by rewrite Hp, IH.
Qed.

Lemma isRemoved_lowerChar c : isRemoved (lowerChar c) = isRemoved c.
Proof. by destruct c as [[] [] [] [] [] [] [] []]. Qed.

(** A text of one word from which [normalizeQuestion] removes a
    character does not match its own pattern. *)
Lemma punctuated_word_unmatched text :
  everyChar (fun c => negb (isSpace c)) text = true ->
  everyChar (fun c => negb (isRemoved c)) text = false ->
  matchesOwnPattern text = false.
Proof.
  intros Hword Hmark. unfold matchesOwnPattern.
  rewrite normalizeQuestion_toLowerCase.
  assert (Hne : normalizeQuestion text <> toLowerCase text).
  { intros Heq.
    pose proof (normalizeQuestion_removed text) as Hr. rewrite Heq in Hr.
    rewrite everyChar_toLowerCase in Hr
      by (intros c; by rewrite isRemoved_lowerChar).
    congruence. }
  apply String.eqb_neq in Hne as Hneb. rewrite Hneb. simpl.
  unfold calculateSimilarity.
  rewrite (splitWs_word (toLowerCase text)).
  2:{ rewrite everyChar_toLowerCase; [done |].
      intros c. by rewrite isSpace_lowerChar. }
  rewrite (splitWs_word (normalizeQuestion text)).
  2:{ apply everyChar_trim, everyChar_removeChars.
      rewrite everyChar_toLowerCase; [done |].
      intros c. by rewrite isSpace_lowerChar. }
  cbn [List.filter member existsb orb].
  rewrite String.eqb_sym, Hneb. reflexivity.
Qed.

End LearnedQuestions.

(** X16. What the learning step stores for a question is found again
    for that question exactly when the question matches its own normal
    form: [learnFromAIResponse] keys the pattern by
    [normalizeQuestion(questionText)], [findPattern] compares the
    lower-cased question with it.  If the text matches (in particular
    when [normalizeQuestion] only lower-cases it), the storage answers
    and the learning step returns, the lookup after it returns a stored
    pattern; if nothing in the store matched the text before and the
    text does not match its own normal form, the lookup still returns
    [null], whatever the storage and the learning step do. *)
Theorem learned_question_lookup
    (env : PatternStorage.Env) (q : Scanner.ScannedQuestion)
    (a : QuestionMapper.MappedAnswer) (profile : Profile.t)
    (w : PatternStorage.World) (intent : string) :
  QuestionMapper.learnedIntent q a profile = Some intent ->
  let text := Scanner.questionText q in
  let w1 := snd (QuestionMapper.learnFromAIResponse env q a profile w) in
  let found := fst (PatternStorage.findPattern env text w1) in
  (PatternStorage.reliable env ->
   fst (QuestionMapper.learnFromAIResponse env q a profile w) = Js.Returns tt ->
   QuestionMapper.matchesOwnPattern text = true ->
   exists p, found = Some p /\ In p (PatternStorage.learnedPatterns w1))
  /\ (QuestionMapper.normalizeQuestion text = Js.toLowerCase text ->
      QuestionMapper.matchesOwnPattern text = true)
  /\ (PatternStorage.searchPatterns (PatternStorage.learnedPatterns w) text = None ->
      QuestionMapper.matchesOwnPattern text = false ->
      found = None).
Proof.
  intros Hintent text w1 found. subst text w1 found.
  pose proof (learnFromAIResponse_cases env q a profile w) as Hcases.
  rewrite Hintent in Hcases.
  split; [| split].
  - intros Hrel Hreturned Hown.
    destruct Hcases as [(e & _ & Hthrew)|(pattern & -> & Hd & _)];
      [by rewrite Hthrew in Hreturned |].
    simpl. rewrite (findPattern_fst env _ _ Hrel).
    by apply (addPattern_search_own env pattern (Scanner.questionText q) w Hd).
  - intros Heq. unfold QuestionMapper.matchesOwnPattern.
    by rewrite Heq, toLowerCase_idem, String.eqb_refl.
  - intros Hnone Hown. apply findPattern_none.
    destruct Hcases as [(e & _ & ->)|(pattern & -> & Hd & _)]; [done |].
    by apply (addPattern_search_own env pattern (Scanner.questionText q) w Hd).
Qed.

(** The oracle classified the answer to a question in plain words. *)
Lemma learned_question_lookup_witness :
  let env := PatternStorage.mkEnv (fun _ => "2026-01-01T00:00:00.000Z")
               (fun _ => "1767225600000") (fun _ => "k3j9x0a1b") in
  let q := Scanner.mkQuestion "Veteran Status" "select" (Some ["Yes"; "No"]) false
             "#veteran" in
  let a := QuestionMapper.mkAnswer "#veteran" "Veteran Status" "No" QuestionMapper.AI
             (9 # 10) false "select" (Some "eeo.veteran") (Some ["Yes"; "No"]) None
             false None in
  let profile := Profile.mk None None None None None None None in
  let w := PatternStorage.mkWorld [] 0 0 in
  exists p,
    fst (PatternStorage.findPattern env "Veteran Status"
           (snd (QuestionMapper.learnFromAIResponse env q a profile w))) = Some p.
Proof.
  intros env q a profile w.
  assert (Hrel : PatternStorage.reliable env) by (intros n; reflexivity).
  destruct (learned_question_lookup env q a profile w "eeo.veteran" eq_refl)
    as (Hfound & _ & _).
  destruct (Hfound Hrel eq_refl eq_refl) as (p & Hp & _). by exists p.
Defined.

(** X17. A question of one word that contains [*], [?] or [!] is not
    recognised after it was learned: when no stored pattern matched the
    text before, [findPattern] returns [null] for it after
    [learnFromAIResponse] as well, since the stored pattern is the text
    without the character and shares no word with it. *)
Theorem punctuated_word_not_found
    (env : PatternStorage.Env) (q : Scanner.ScannedQuestion)
    (a : QuestionMapper.MappedAnswer) (profile : Profile.t)
    (w : PatternStorage.World) :
  let text := Scanner.questionText q in
  Js.everyChar (fun c => negb (Js.isSpace c)) text = true ->
  Js.everyChar (fun c => negb (QuestionMapper.isRemoved c)) text = false ->
  PatternStorage.searchPatterns (PatternStorage.learnedPatterns w) text = None ->
  fst (PatternStorage.findPattern env text
         (snd (QuestionMapper.learnFromAIResponse env q a profile w)))
  = None.
Proof.
  intros text Hword Hmark Hnone. subst text.
  apply punctuated_word_unmatched in Hmark as Hown; [| done].
  apply findPattern_none.
  pose proof (learnFromAIResponse_cases env q a profile w) as Hcases.
  destruct (QuestionMapper.learnedIntent q a profile) as [intent|].
  - destruct Hcases as [(e & _ & ->)|(pattern & -> & Hd & _)]; [done |].
    by apply (addPattern_search_own env pattern (Scanner.questionText q) w Hd).
  - by rewrite Hcases.
Qed.

(** The question ["Gender?"], answered by the oracle. *)
Lemma punctuated_word_not_found_witness :
  let env := PatternStorage.mkEnv (fun _ => "2026-01-01T00:00:00.000Z")
               (fun _ => "1767225600000") (fun _ => "k3j9x0a1b") in
  let q := Scanner.mkQuestion "Gender?" "select" (Some ["Man"; "Woman"]) false
             "#gender" in
  let a := QuestionMapper.mkAnswer "#gender" "Gender?" "Man" QuestionMapper.AI
             (9 # 10) false "select" (Some "eeo.gender") (Some ["Man"; "Woman"]) None
             false None in
  let profile := Profile.mk None None None None None None None in
  let w1 := snd (QuestionMapper.learnFromAIResponse env q a profile
                   (PatternStorage.mkWorld [] 0 0)) in
  map PatternStorage.questionPattern (PatternStorage.learnedPatterns w1) = ["gender"]
  /\ fst (PatternStorage.findPattern env "Gender?" w1) = None.
Proof.
  intros env q a profile w1. split; [reflexivity |].
  apply (punctuated_word_not_found env q a profile (PatternStorage.mkWorld [] 0 0));
    reflexivity.
Defined.

(** ** The mapper: what [processQuestions] emits and stores *)

Section Emitted.
Import Js Effect QuestionMapper.
Variable env : PatternStorage.Env.
Variable askAI : nat -> Request.t -> option Response.t.

(** A result of tiers 1 to 3 comes from a canonical rule, from a
    stored pattern that the lookup returned, or from [matchInOptions]
    with confidence 0.9 (the fuzzy tier). *)
Lemma tryMapping_tiers question profile w r :
  fst (tryMapping env question profile w) = Returns (Some r) ->
  canonicalResult r
  \/ (exists pattern,
        fst (PatternStorage.findPattern env (Scanner.questionText question) w)
        = Some pattern
        /\ answerFromPattern env question profile pattern = Returns (Some r))
  \/ (exists value, fromOptions value (Scanner.options question) (9 # 10) r).
Proof.
  intros H. apply tryMapping_result in H as [H|[(_ & H)|(_ & _ & H)]].
  - left. by apply tryCanonical_result in H.
  - right. by left.
  - right. right. by apply tryFuzzy_result in H.
Qed.

Lemma questionOf_mapped q r : questionOf (mapped q r) = q.
Proof. by destruct q. Qed.

Lemma answerOfAI_questionOf profile i q a :
  answerOfAI askAI profile i q = Some a -> questionOf a = q /\ source a = AI.
Proof.
  unfold answerOfAI.
  destruct (askAI i (aiRequest q profile)) as [response|]; [| done].
  destruct (truthy (Response.answer response)); [| done].
  destruct (nonEmptyOptions (Scanner.options q)) as [options|].
  - destruct (findTruthy _ options) as [exact|].
    + intros [= <-]. by destruct q.
    + destruct (fuzzyMatchOption _ _) as [e|[fuzzyMatch|]]; try done.
      destruct (truthy fuzzyMatch); [| done]. intros [= <-]. by destruct q.
  - intros [= <-]. by destruct q.
Qed.

(** The requests are answered in the order of the questions. *)
Lemma aiResults_sublist profile questions : forall i,
  sublist (map questionOf (notNull (aiResults askAI profile i questions))) questions.
Proof.
  induction questions as [|q questions IH]; intros i; simpl; [constructor |].
  destruct (answerOfAI askAI profile i q) as [a|] eqn:Ha; simpl.
  - apply answerOfAI_questionOf in Ha as [-> _]. by constructor.
  - by constructor.
Qed.

Lemma aiResults_fromAI profile questions : forall i,
  Forall (fun a => fromAI a = true) (notNull (aiResults askAI profile i questions)).
Proof.
  induction questions as [|q questions IH]; intros i; simpl; [constructor |].
  destruct (answerOfAI askAI profile i q) as [a|] eqn:Ha; [| apply IH].
  constructor; [| apply IH].
  apply answerOfAI_questionOf in Ha as [_ Ha]. unfold fromAI. by rewrite Ha.
Qed.

(** Phase 1 sorts the questions, in their order, into the answered
    ones and the ones left for the oracle. *)
Lemma phase1_sorts profile questions : forall acc un w m u w',
  phase1 env profile questions acc un w = (Returns (m, u), w') ->
  exists m' u',
    m = acc ++ m' /\ u = un ++ u'
    /\ sublist (map questionOf m') questions /\ sublist u' questions
    /\ (length m' + length u' = length questions)%nat
    /\ Forall (fun a =>
                 exists q r w0,
                   fst (tryMapping env q profile w0) = Returns (Some r)
                   /\ Qle_bool (85 # 100) (Result.confidence r) = true
                   /\ a = mapped q r) m'.
Proof.
  induction questions as [|q questions IH]; intros acc un w m u w'.
  - simpl. unfold ret. intros [= <- <- _]. exists [], [].
    rewrite !app_nil_r. repeat split; constructor.
  - rewrite phase1_step.
    destruct (fst (tryMapping env q profile w)) as [e|[r|]] eqn:Htry; [done | |].
    + destruct (Qle_bool (85 # 100) (Result.confidence r)) eqn:Hconf.
      * intros H. destruct (IH _ _ _ _ _ _ H) as (m' & u' & -> & -> & Hm & Hu & Hlen & Hall).
        exists (mapped q r :: m'), u'. rewrite <- app_assoc. simpl.
        repeat split; try done.
        -- rewrite questionOf_mapped. by constructor.
        -- by constructor.
        -- lia.
        -- constructor; [| done]. by exists q, r, w.
      * intros H. destruct (IH _ _ _ _ _ _ H) as (m' & u' & -> & -> & Hm & Hu & Hlen & Hall).
        exists m', (q :: u'). rewrite <- app_assoc. simpl.
        repeat split; try done; [by constructor | by constructor | lia].
    + intros H. destruct (IH _ _ _ _ _ _ H) as (m' & u' & -> & -> & Hm & Hu & Hlen & Hall).
      exists m', (q :: u'). rewrite <- app_assoc. simpl.
      repeat split; try done; [by constructor | by constructor | lia].
Qed.

Lemma mapped_not_fromAI profile q r w0 :
  fst (tryMapping env q profile w0) = Returns (Some r) ->
  fromAI (mapped q r) = false.
Proof.
  intros H. apply tryMapping_not_AI in H. unfold fromAI. simpl.
  by destruct (Result.source r).
Qed.

Lemma aiResults_all profile questions : forall i,
  (forall k q, nth_error questions k = Some q ->
               answerOfAI askAI profile (i + k) q <> None) ->
  map questionOf (notNull (aiResults askAI profile i questions)) = questions.
Proof.
  induction questions as [|q questions IH]; intros i Hall; [done |]. simpl.
  destruct (answerOfAI askAI profile i q) as [a|] eqn:Ha.
  - simpl. apply answerOfAI_questionOf in Ha as [-> _]. f_equal.
    apply IH. intros k q' Hk. rewrite Nat.add_succ_comm. by apply (Hall (S k)).
  - specialize (Hall 0%nat q eq_refl). by rewrite Nat.add_0_r in Hall.
Qed.

Lemma notNull_length {A} (l : list (option A)) : (length (notNull l) <= length l)%nat.
Proof. induction l as [|[a|] l IH]; simpl; lia. Qed.

Lemma aiResults_length profile questions : forall i,
  length (aiResults askAI profile i questions) = length questions.
Proof. induction questions as [|q questions IH]; intros i; simpl; [done | by rewrite IH]. Qed.

Lemma aiAnswersOf_length profile questions :
  (length (aiAnswersOf askAI questions profile) <= length questions)%nat.
Proof.
  unfold aiAnswersOf.
  pose proof (notNull_length (aiResults askAI profile 0 questions)) as H.
  by rewrite aiResults_length in H.
Qed.

(** The shape of what [processQuestions] returns. *)
Lemma processQuestions_shape profile questions w out :
  fst (processQuestions env askAI (Some profile) questions w) = Returns out ->
  exists m u,
    out = m ++ aiAnswersOf askAI u profile
    /\ sublist (map questionOf m) questions /\ sublist u questions
    /\ (length m + length u = length questions)%nat
    /\ Forall (fun a =>
                 exists q r w0,
                   fst (tryMapping env q profile w0) = Returns (Some r)
                   /\ Qle_bool (85 # 100) (Result.confidence r) = true
                   /\ a = mapped q r) m.
Proof.
  intros Hout. apply processQuestions_returned in Hout as (m & u & Hphase & ->).
  destruct (phase1 env profile questions [] [] w) as [o w1] eqn:Hrun.
  simpl in Hphase. subst o.
  destruct (phase1_sorts _ _ _ _ _ _ _ _ Hrun)
    as (m' & u' & -> & -> & Hm & Hu & Hlen & Hall).
  by exists m', u'.
Qed.

End Emitted.

(** X18. The answers that [processQuestions] returns carry the tags
    ['canonical'], ['learned'] and ['AI'] only: the tag ['fuzzy'] is never
    produced, since the fuzzy tier returns what [matchInOptions] builds,
    tagged ['canonical'] with confidence 0.9.  An answer tagged
    ['canonical'] has confidence 1 or 0.9.  One tagged ['learned'] is the
    result of the learned tier for a question of the input and a pattern
    that the store held when [processQuestions] started, up to the usage
    count and the time of last use of the pattern; it has the confidence
    of that pattern, which is at least 0.85. *)
Theorem emitted_sources
    (env : PatternStorage.Env)
    (askAI : nat -> QuestionMapper.Request.t -> option QuestionMapper.Response.t)
    (profile : Profile.t) (questions : list Scanner.ScannedQuestion)
    (w : PatternStorage.World) (out : list QuestionMapper.MappedAnswer) :
  fst (QuestionMapper.processQuestions env askAI (Some profile) questions w)
  = Js.Returns out ->
  Forall (fun a =>
            match QuestionMapper.source a with
            | QuestionMapper.canonical =>
                QuestionMapper.confidence a = QuestionMapper.one
                \/ QuestionMapper.confidence a = 9 # 10
            | QuestionMapper.learned =>
                Qle_bool (85 # 100) (QuestionMapper.confidence a) = true
                /\ exists question stored pattern r,
                     In question questions
                     /\ In stored (PatternStorage.learnedPatterns w)
                     /\ PatternStorage.sameButUsage stored pattern
                     /\ QuestionMapper.answerFromPattern env question profile pattern
                        = Js.Returns (Some r)
                     /\ a = QuestionMapper.mapped question r
                     /\ QuestionMapper.confidence a = PatternStorage.confidence stored
            | QuestionMapper.fuzzy => False
            | QuestionMapper.AI => True
            end) out.
Proof.
  intros Hout.
  apply processQuestions_returned in Hout as (m & u & Hphase & ->).
  destruct (QuestionMapper.phase1 env profile questions [] [] w) as [o w1] eqn:Hrun.
  simpl in Hphase. subst o.
  apply phase1_trace in Hrun as (ms & us & Hms & _ & _ & Hm & _ & _).
  simpl in Hms. subst ms.
  apply Forall_app. split.
  - apply List.Forall_forall. intros a Ha.
    destruct (Hm a Ha) as (k & q & r & Hk & Htry & Hconf & ->).
    unfold QuestionMapper.tiersAt in Htry. simpl.
    apply tryMapping_tiers in Htry
      as [[Hs Hc] | [(pattern & Hfound & Hp) | (v & Hs & Hc & _)]].
    + rewrite Hs. by left.
    + pose proof Hp as Hp'.
      apply answerFromPattern_result in Hp as (Hs & Hc & _). rewrite Hs.
      split; [done |].
      apply worldAt_found in Hfound as (stored & Hstored & Hsame).
      exists q, stored, pattern, r.
      split; [by apply nth_error_In in Hk |]. do 4 (split; [done |]).
      simpl. rewrite Hc. by destruct Hsame as (_ & _ & _ & _ & _ & _ & -> & _).
    + rewrite Hs. by right.
  - apply List.Forall_forall. intros a Ha.
    pose proof (aiResults_fromAI askAI profile u 0) as Hai.
    rewrite List.Forall_forall in Hai. specialize (Hai a Ha).
    unfold QuestionMapper.fromAI in Hai. by destruct (QuestionMapper.source a).
Qed.

(** A gender question for a profile that has the gender among the
    personal data only: the fuzzy tier answers it. *)
Lemma emitted_sources_witness :
  let env := PatternStorage.mkEnv (fun _ => "2026-01-01T00:00:00.000Z")
               (fun _ => "1767225600000") (fun _ => "k3j9x0a1b") in
  let profile :=
    Profile.mk
      (Some (Profile.Personal.mk None None None None None None None (Some "Male")))
      None None None None None None in
  let q := Scanner.mkQuestion "Gender" "select" (Some ["Man"; "Woman"]) false
             "#gender" in
  let out := [QuestionMapper.mkAnswer "#gender" "Gender" "Man" QuestionMapper.canonical
                (9 # 10) false "select" None (Some ["Man"; "Woman"]) None false None] in
  fst (QuestionMapper.processQuestions env (fun _ _ => None) (Some profile) [q]
         (PatternStorage.mkWorld [] 0 0)) = Js.Returns out
  /\ Forall (fun a => QuestionMapper.source a <> QuestionMapper.fuzzy) out.
Proof.
  intros env profile q out. split; [reflexivity |].
  pose proof (emitted_sources env (fun _ _ => None) profile [q]
                (PatternStorage.mkWorld [] 0 0) out eq_refl) as H.
  apply List.Forall_forall. intros a Ha Hfuzzy.
  rewrite List.Forall_forall in H. specialize (H a Ha). by rewrite Hfuzzy in H.
Defined.

(** X19. What [processQuestions] returns is made of the answers of
    tiers 1 to 3, in the order of their questions, followed by the
    answers of the oracle, in the order of theirs.  Every answer records
    a question of the input (its text, field type, options, required mark
    and selector), and there are at most as many answers as
    questions. *)
Theorem emitted_answers_shape
    (env : PatternStorage.Env)
    (askAI : nat -> QuestionMapper.Request.t -> option QuestionMapper.Response.t)
    (profile : Profile.t) (questions : list Scanner.ScannedQuestion)
    (w : PatternStorage.World) (out : list QuestionMapper.MappedAnswer) :
  fst (QuestionMapper.processQuestions env askAI (Some profile) questions w)
  = Js.Returns out ->
  (exists resolved answered,
     out = resolved ++ answered
     /\ Forall (fun a => QuestionMapper.fromAI a = false) resolved
     /\ Forall (fun a => QuestionMapper.fromAI a = true) answered
     /\ sublist (map QuestionMapper.questionOf resolved) questions
     /\ sublist (map QuestionMapper.questionOf answered) questions)
  /\ Forall (fun a => In (QuestionMapper.questionOf a) questions) out
  /\ (length out <= length questions)%nat.
Proof.
  intros Hout.
  destruct (processQuestions_shape env askAI _ _ _ _ Hout)
    as (m & u & -> & Hm & Hu & Hlen & Hall).
  assert (Hai : sublist (map QuestionMapper.questionOf
                           (QuestionMapper.aiAnswersOf askAI u profile))
                        questions).
  { etrans; [apply aiResults_sublist | done]. }
  split; [| split].
  - exists m, (QuestionMapper.aiAnswersOf askAI u profile).
    split; [done |]. split; [| split; [apply aiResults_fromAI | by split]].
    apply List.Forall_forall. intros a Ha. rewrite List.Forall_forall in Hall.
    destruct (Hall a Ha) as (q & r & w0 & Htry & _ & ->).
    by apply (mapped_not_fromAI env profile q r w0).
  - apply Forall_app. split; apply List.Forall_forall; intros a Ha;
      apply list_elem_of_In.
    + apply (elem_of_sublist (map QuestionMapper.questionOf m)); [| done].
      by apply list_elem_of_In, in_map.
    + apply (elem_of_sublist
               (map QuestionMapper.questionOf
                  (QuestionMapper.aiAnswersOf askAI u profile))); [| done].
      by apply list_elem_of_In, in_map.
  - rewrite length_app.
    pose proof (aiAnswersOf_length askAI profile u). lia.
Qed.

(** Three questions: the second one is left to the oracle, whose answer
    comes last. *)
Lemma emitted_answers_shape_witness :
  let env := PatternStorage.mkEnv (fun _ => "2026-01-01T00:00:00.000Z")
               (fun _ => "1767225600000") (fun _ => "k3j9x0a1b") in
  let profile :=
    Profile.mk
      (Some (Profile.Personal.mk (Some "Asha") (Some "Rao") None None None None None
               None))
      None None None None None None in
  let q1 := Scanner.mkQuestion "First Name" "text" None true "#first" in
  let q2 := Scanner.mkQuestion "Favourite colour" "text" None false "#colour" in
  let q3 := Scanner.mkQuestion "Last Name" "text" None true "#last" in
  let askAI (_ : nat) (_ : QuestionMapper.Request.t) :=
    Some (QuestionMapper.Response.mk "Blue" (Some (7 # 10)) None false None) in
  match fst (QuestionMapper.processQuestions env askAI (Some profile) [q1; q2; q3]
               (PatternStorage.mkWorld [] 0 0)) with
  | Js.Returns out =>
      map QuestionMapper.questionOf out = [q1; q3; q2]
      /\ Forall (fun a => In (QuestionMapper.questionOf a) [q1; q2; q3]) out
  | Js.Throws _ => False
  end.
Proof.
  intros env profile q1 q2 q3 askAI.
  destruct (fst (QuestionMapper.processQuestions env askAI (Some profile) [q1; q2; q3]
                   (PatternStorage.mkWorld [] 0 0))) as [e|out] eqn:Hout;
    [discriminate Hout |].
  split.
  - by injection Hout as <-.
  - by destruct (emitted_answers_shape env askAI profile [q1; q2; q3]
                   (PatternStorage.mkWorld [] 0 0) out Hout) as (_ & H & _).
Defined.

(** X20. [requestAIAnswers] isolates the requests: the answers come in
    the order of the questions, each for its own question and tagged
    ['AI'], and a request that fails, returns no answer or returns an
    answer that matches no option only leaves its own question out. *)
Theorem requestAIAnswers_in_order
    (env : PatternStorage.Env)
    (askAI : nat -> QuestionMapper.Request.t -> option QuestionMapper.Response.t)
    (questions : list Scanner.ScannedQuestion) (profile : Profile.t)
    (w : PatternStorage.World) :
  let answers := fst (QuestionMapper.requestAIAnswers env askAI questions profile w) in
  sublist (map QuestionMapper.questionOf answers) questions
  /\ Forall (fun a => QuestionMapper.source a = QuestionMapper.AI) answers
  /\ (length answers <= length questions)%nat
  /\ (forall k q,
        nth_error questions k = Some q ->
        match QuestionMapper.answerOfAI askAI profile k q with
        | Some a => In a answers
        | None => True
        end)
  /\ ((forall k q, nth_error questions k = Some q ->
                   QuestionMapper.answerOfAI askAI profile k q <> None) ->
      map QuestionMapper.questionOf answers = questions).
Proof.
  intros answers. subst answers. rewrite requestAIAnswers_run. simpl.
  split; [apply aiResults_sublist |].
  split; [| split; [apply aiAnswersOf_length | split]].
  - apply List.Forall_forall. intros a Ha.
    apply aiAnswersOf_In in Ha as (k & q & _ & Ha).
    by apply answerOfAI_questionOf in Ha as [_ ?].
  - intros k q Hk.
    destruct (QuestionMapper.answerOfAI askAI profile k q) as [a|] eqn:Ha; [| done].
    apply aiAnswersOf_In. by exists k, q.
  - intros Hall. apply (aiResults_all askAI profile questions 0). exact Hall.
Qed.

(** Three requests, of which the second one fails. *)
Lemma requestAIAnswers_in_order_witness :
  let env := PatternStorage.mkEnv (fun _ => "2026-01-01T00:00:00.000Z")
               (fun _ => "1767225600000") (fun _ => "k3j9x0a1b") in
  let w := PatternStorage.mkWorld [] 0 0 in
  let q (t : string) := Scanner.mkQuestion t "text" None false ("#" +:+ t) in
  let askAI (i : nat) (_ : QuestionMapper.Request.t) :=
    if Nat.eqb i 1 then None
    else Some (QuestionMapper.Response.mk "yes" None None false None) in
  let profile := Profile.mk None None None None None None None in
  map QuestionMapper.questionOf
      (fst (QuestionMapper.requestAIAnswers env askAI [q "a"; q "b"; q "c"] profile w))
  = [q "a"; q "c"]
  /\ sublist [q "a"; q "c"] [q "a"; q "b"; q "c"].
Proof.
  intros env w q askAI profile. split; [reflexivity |].
  by destruct (requestAIAnswers_in_order env askAI [q "a"; q "b"; q "c"] profile w)
    as [H _].
Defined.

(** ** The mapper: what a resolution does to the store *)

Section StoreEffects.
Import Js Effect PatternStorage QuestionMapper.
Variable env : Env.
Variable askAI : nat -> Request.t -> option Response.t.

Local Abbreviation ids w := (map id (learnedPatterns w)).

Lemma tryMapping_ids question profile w :
  ids (snd (tryMapping env question profile w)) = ids w.
Proof.
  rewrite tryMapping_run.
  destruct (tryCanonical question profile) as [e|[c|]]; [done | done |].
  simpl. rewrite tryLearned_run. simpl. apply findPattern_ids.
Qed.

Lemma phase1_ids profile questions : forall acc un w,
  ids (snd (phase1 env profile questions acc un w)) = ids w.
Proof.
  induction questions as [|q questions IH]; intros acc un w; [done |].
  rewrite phase1_step.
  destruct (fst (tryMapping env q profile w)) as [e|[r|]].
  - apply tryMapping_ids.
  - destruct (Qle_bool _ _); rewrite IH; apply tryMapping_ids.
  - rewrite IH. apply tryMapping_ids.
Qed.

Hypothesis Hrel : reliable env.

Lemma learnFromAIResponse_ids q a profile w :
  exists added,
    ids (snd (learnFromAIResponse env q a profile w)) = ids w ++ added
    /\ (length added <= 1)%nat.
Proof.
  pose proof (learnFromAIResponse_cases env q a profile w) as Hcases.
  destruct (learnedIntent q a profile) as [intent|].
  - destruct Hcases as [(e & _ & ->)|(pattern & -> & _)].
    + exists []. by rewrite app_nil_r; split; [| simpl; lia].
    + simpl. rewrite addPattern_ids, (readable_reliable env _ Hrel), Hrel.
      destruct (find _ _).
      * exists []. by rewrite app_nil_r; split; [| simpl; lia].
      * eexists. split; [done |]. simpl. lia.
  - rewrite Hcases. exists []. by rewrite app_nil_r; split; [| simpl; lia].
Qed.

Lemma learnAll_ids profile pairs : forall w,
  exists added,
    ids (snd (forEach (fun qa : Scanner.ScannedQuestion * MappedAnswer =>
                         learnFromAIResponse env (fst qa) (snd qa) profile)
                      pairs w))
    = ids w ++ added
    /\ (length added <= length pairs)%nat.
Proof.
  induction pairs as [|[q a] pairs IH]; intros w.
  - exists []. by rewrite app_nil_r; split; [| simpl; lia].
  - rewrite forEach_step. simpl.
    destruct (learnFromAIResponse_ids q a profile w) as (added1 & H1 & Hlen1).
    destruct (fst (learnFromAIResponse env q a profile w)).
    + exists added1. split; [done | simpl; lia].
    + destruct (IH (snd (learnFromAIResponse env q a profile w)))
        as (added2 & H2 & Hlen2).
      exists (added1 ++ added2). rewrite H2, H1, <- app_assoc. split; [done |].
      rewrite length_app. simpl. lia.
Qed.

Lemma filter_fromAI_length m answered :
  Forall (fun a => fromAI a = true) answered ->
  (length answered <= length (List.filter fromAI (m ++ answered)))%nat.
Proof.
  intros Hall. rewrite List.filter_app, length_app.
  rewrite (filter_all fromAI answered); [lia |].
  by apply List.Forall_forall.
Qed.

End StoreEffects.

(** X21. With a storage that answers, a resolution only adds to the
    store: after [processQuestions], the identifiers of the patterns that
    were stored before are still there, in the same order, followed by
    those of the patterns learned, of which there is at most one per
    answer of the oracle.  When the call throws for want of a profile or
    in phase 1, no pattern has been added; when it throws in the
    learning loop, the patterns learned before the error stay. *)
Theorem processQuestions_store_grows
    (env : PatternStorage.Env)
    (askAI : nat -> QuestionMapper.Request.t -> option QuestionMapper.Response.t)
    (loaded : option Profile.t) (questions : list Scanner.ScannedQuestion)
    (w : PatternStorage.World) :
  PatternStorage.reliable env ->
  let ids w := map PatternStorage.id (PatternStorage.learnedPatterns w) in
  let result := QuestionMapper.processQuestions env askAI loaded questions w in
  exists added,
    ids (snd result) = ids w ++ added
    /\ match fst result with
       | Js.Returns out =>
           (length added <= length (List.filter QuestionMapper.fromAI out))%nat
       | Js.Throws _ =>
           match loaded with
           | None => added = []
           | Some profile =>
               match fst (QuestionMapper.phase1 env profile questions [] [] w) with
               | Js.Throws _ => added = []
               | Js.Returns (_, unmappedForAI) =>
                   (length added
                    <= length (QuestionMapper.aiAnswersOf askAI unmappedForAI profile))%nat
               end
           end
       end.
Proof.
  intros Hrel ids result. subst ids result.
  destruct loaded as [profile|]; [| exists []; by rewrite app_nil_r].
  rewrite processQuestions_phases.
  pose proof (phase1_ids env profile questions [] [] w) as Hphase.
  destruct (fst (QuestionMapper.phase1 env profile questions [] [] w))
    as [e|[m [|q u]]]; simpl.
  - exists []. rewrite app_nil_r. by split.
  - exists []. rewrite app_nil_r. split; [done | simpl; lia].
  - unfold QuestionMapper.learnAll.
    destruct (learnAll_ids env Hrel profile
                (combine (q :: u)
                   (QuestionMapper.aiAnswersOf askAI (q :: u) profile))
                (PatternStorage.makeWorld
                   (PatternStorage.learnedPatterns
                      (snd (QuestionMapper.phase1 env profile questions [] [] w)))
                   (S (S (PatternStorage.ticks
                            (snd (QuestionMapper.phase1 env profile questions [] [] w)))))
                   (PatternStorage.draws
                      (snd (QuestionMapper.phase1 env profile questions [] [] w)))
                   (PatternStorage.calls
                      (snd (QuestionMapper.phase1 env profile questions [] [] w)))))
      as (added & Hadded & Hlen).
    simpl in Hadded. rewrite Hphase in Hadded.
    exists added. split; [exact Hadded |].
    assert (Hle : (length added
                   <= length (QuestionMapper.aiAnswersOf askAI (q :: u) profile))%nat).
    { etrans; [exact Hlen |]. rewrite length_combine. apply Nat.le_min_r. }
    destruct (fst (Effect.forEach _ _ _)); [exact Hle |].
    etrans; [exact Hle |]. apply filter_fromAI_length, aiResults_fromAI.
Qed.

(** One question for the oracle, whose answer is learned. *)
Lemma processQuestions_store_grows_witness :
  let env := PatternStorage.mkEnv (fun _ => "2026-01-01T00:00:00.000Z")
               (fun _ => "1767225600000") (fun _ => "k3j9x0a1b") in
  let profile := Profile.mk None None None None None None None in
  let q := Scanner.mkQuestion "Veteran status" "select" (Some ["Yes"; "No"]) false
             "#veteran" in
  let askAI (_ : nat) (_ : QuestionMapper.Request.t) :=
    Some (QuestionMapper.Response.mk "No" (Some (9 # 10)) (Some "eeo.veteran") false
            None) in
  let known := PatternStorage.mkPattern "local_1_a" "years of experience"
                 "experience.years" "experience.years" None "text" (8 # 10) 0 "t0" "t0"
                 "AI" (Some false) false in
  let w := PatternStorage.mkWorld [known] 0 0 in
  map PatternStorage.id
      (PatternStorage.learnedPatterns
         (snd (QuestionMapper.processQuestions env askAI (Some profile) [q] w)))
  = ["local_1_a"; "local_1767225600000_k3j9x0a1b"]
  /\ exists added,
       map PatternStorage.id
           (PatternStorage.learnedPatterns
              (snd (QuestionMapper.processQuestions env askAI (Some profile) [q] w)))
       = ["local_1_a"] ++ added.
Proof.
  intros env profile q askAI known w. split; [reflexivity |].
  assert (Hrel : PatternStorage.reliable env) by (intros n; reflexivity).
  destruct (processQuestions_store_grows env askAI (Some profile) [q] w Hrel)
    as (added & Hadded & _).
  by exists added.
Defined.

(** ** The mapper: questions without options *)

Section WithoutOptions.
Import Js QuestionMapper.

Lemma matchInOptions_no_options value opts confidence :
  nonEmptyOptions opts = None ->
  matchInOptions value opts confidence = matched value confidence.
Proof. intros H. unfold matchInOptions. by rewrite H. Qed.

Lemma optionRule_no_options {S} keyword (section : Profile.t -> option S) field
    question profile e :
  nonEmptyOptions (Scanner.options question) = None ->
  optionRule keyword section field question profile <> Some (Throws e).
Proof.
  intros Hopts. unfold optionRule.
  destruct (keyword _); [| done].
  destruct (Profile.truthyMember _ _); [| done].
  by rewrite matchInOptions_no_options.
Qed.

Lemma firstRule_at rules question profile :
  Forall (fun rule : Rule => forall e, rule question profile <> Some (Throws e)) rules ->
  threw (firstRule rules question profile) = false.
Proof.
  induction 1 as [|rule rules Hrule _ IH]; [done |]. simpl.
  destruct (rule question profile) as [[e|r]|] eqn:Hr; [| done | done].
  by destruct (Hrule e).
Qed.

Lemma tryCanonical_no_options question profile :
  nonEmptyOptions (Scanner.options question) = None ->
  threw (tryCanonical question profile) = false.
Proof.
  intros Hopts. apply firstRule_at. unfold canonicalRules.
  repeat constructor; intros e;
    first [ by apply directRule_never_throws
          | by apply booleanRule_never_throws
          | by apply resumeRule_never_throws
          | by apply coverLetterRule_never_throws
          | by apply optionRule_no_options ].
Qed.

Lemma tryFuzzy_no_options question profile :
  nonEmptyOptions (Scanner.options question) = None ->
  threw (tryFuzzy question profile) = false.
Proof.
  intros Hopts. unfold tryFuzzy.
  destruct (Scanner.options question); [| done].
  destruct (includes _ _); [| done].
  destruct (Profile.truthyMember _ _); [| done].
  by rewrite matchInOptions_no_options.
Qed.

End WithoutOptions.

(** The reading of an intent can throw.  The oracle names the intent
    ["constructor.caller"] for a text question: [profile.constructor] is
    the built-in [Object], whose member [caller] throws a [TypeError], and
    the error leaves [learnFromAIResponse] and [processQuestions]. *)
Example processQuestions_throws_on_intent :
  let builtIn (_ : Profile.JsVal) (parts : list string) :=
    if bool_decide (parts = ["constructor"; "caller"])
    then Js.Throws "TypeError: 'caller' may not be accessed"
    else Js.Returns (@None string) in
  let env := PatternStorage.makeEnv (fun _ => "2026-01-01T00:00:00.000Z")
               (fun _ => "1767225600000") (fun _ => "k3j9x0a1b") (fun _ => false)
               builtIn in
  let askAI (_ : nat) (_ : QuestionMapper.Request.t) :=
    Some (QuestionMapper.Response.mk "Blue" (Some (9 # 10)) (Some "constructor.caller")
            false None) in
  let profile := Profile.mk None None None None None None None in
  let q := Scanner.mkQuestion "Favourite colour" "text" None false "#colour" in
  fst (QuestionMapper.processQuestions env askAI (Some profile) [q]
         (PatternStorage.mkWorld [] 0 0))
  = Js.Throws "TypeError: 'caller' may not be accessed".
Proof. reflexivity. Qed.

(** X22. With a profile, [processQuestions] returns for every list of
    questions that have no options (text fields, and dropdowns for which
    no option was extracted), whatever the profile holds, as long as the
    intents of the stored patterns and of the oracle are read without
    throwing: for such a question [matchInOptions] returns the value
    before it reads the synonym table. *)
Theorem processQuestions_returns_without_options
    (env : PatternStorage.Env)
    (askAI : nat -> QuestionMapper.Request.t -> option QuestionMapper.Response.t)
    (profile : Profile.t) (questions : list Scanner.ScannedQuestion)
    (w : PatternStorage.World) :
  (forall q, In q questions ->
             Scanner.options q = None \/ Scanner.options q = Some []) ->
  QuestionMapper.intentsReadable env askAI profile w ->
  exists out,
    fst (QuestionMapper.processQuestions env askAI (Some profile) questions w)
    = Js.Returns out.
Proof.
  intros Hopts Hread. apply processQuestions_returns; [| done]. intros q Hq.
  assert (Hnone : QuestionMapper.nonEmptyOptions (Scanner.options q) = None)
    by (destruct (Hopts q Hq) as [-> | ->]; done).
  split; [by apply tryCanonical_no_options | by apply tryFuzzy_no_options].
Qed.

(** The profile whose gender is ["constructor"], asked for the gender in
    a text field. *)
Lemma processQuestions_returns_without_options_witness :
  let env := PatternStorage.mkEnv (fun _ => "2026-01-01T00:00:00.000Z")
               (fun _ => "1767225600000") (fun _ => "k3j9x0a1b") in
  let profile := Profile.mk None
                   (Some (Profile.Eeo.mk (Some "constructor") None None None None))
                   None None None None None in
  let q := Scanner.mkQuestion "Gender" "text" None false "#gender" in
  exists out,
    fst (QuestionMapper.processQuestions env (fun _ _ => None) (Some profile) [q]
           (PatternStorage.mkWorld [] 0 0)) = Js.Returns out.
Proof.
  intros env profile q.
  apply (processQuestions_returns_without_options env (fun _ _ => None) profile [q]
           (PatternStorage.mkWorld [] 0 0)).
  - intros q' [<- | []]. by left.
  - split; [by intros p [] | by intros i request response k [=]].
Defined.

(** ** The mapper: intents and profile values *)

Section Intents.
Import Js QuestionMapper.
Variable env : PatternStorage.Env.

(** The first fourteen tests of [detectIntent] compare the answer with
    the members of the profile. *)
Lemma intentTests_profile qLower answer profile :
  intentTests qLower answer profile
  = map (fun mi : option string * string =>
           (match fst mi with Some v => String.eqb answer v | None => false end,
            snd mi))
        (profileIntents profile)
    ++ skipn 14 (intentTests qLower answer profile).
Proof. reflexivity. Qed.

Lemma firstSome_tests (l : list (option string * string)) rest answer :
  (exists intent, In (Some answer, intent) l) ->
  exists intent,
    firstSome (fun t : bool * string => if fst t then Some (snd t) else None)
      (map (fun mi : option string * string =>
              (match fst mi with Some v => String.eqb answer v | None => false end,
               snd mi)) l ++ rest)
    = Some intent
    /\ In (Some answer, intent) l.
Proof.
  induction l as [|[m i] l IH]; intros (intent & Hin); [done |]. simpl.
  destruct m as [v|]; simpl.
  - destruct (String.eqb_spec answer v) as [<- |Hne].
    + exists i. split; [done | by left].
    + destruct Hin as [[= ->] | Hin]; [done |].
      destruct IH as (i' & ? & ?); [by exists intent |].
      exists i'. split; [done | by right].
  - destruct Hin as [[=] | Hin].
    destruct IH as (i' & ? & ?); [by exists intent |].
    exists i'. split; [done | by right].
Qed.

(** Each of these intents is the path of its member in the profile. *)
Lemma profileIntents_value profile v intent :
  In (Some v, intent) (profileIntents profile) -> truthy v = true ->
  getValueFromProfile env profile intent = Returns (Some v).
Proof.
  intros Hin Hv. destruct profile as [pe ee wa so doc app con].
  unfold profileIntents in Hin. simpl in Hin.
  repeat destruct Hin as [Hin | Hin]; try done;
    injection Hin as Hm <-;
    repeat match type of Hm with
           | Profile.member ?s _ = _ =>
               destruct s as [[]|]; [| done]; simpl in Hm; subst
           end;
    unfold getValueFromProfile;
    match goal with
    | |- context [splitOn ?c ?s] =>
        let r := eval vm_compute in (splitOn c s) in change (splitOn c s) with r
    end;
    repeat (cbn;
            match goal with
            | |- context [Profile.prop _ _ ?o] => is_var o; destruct o
            end);
    cbn; by rewrite Hv.
Qed.

End Intents.

(** X23. When an answer equals one of the fourteen members of the
    profile that [detectIntent] compares it with, the function returns
    the intent of the first such member, whatever the question says, and
    that intent leads back to the answer: [getValueFromProfile] returns
    the answer for it.  The value that [learnFromAIResponse] then stores
    as canonical is the answer itself. *)
Theorem detectIntent_profile_value
    (env : PatternStorage.Env)
    (profile : Profile.t) (questionText answer : string) :
  answer <> "" ->
  (exists intent, In (Some answer, intent) (QuestionMapper.profileIntents profile)) ->
  exists intent,
    QuestionMapper.detectIntent questionText answer profile = Some intent
    /\ In (Some answer, intent) (QuestionMapper.profileIntents profile)
    /\ QuestionMapper.getValueFromProfile env profile intent
       = Js.Returns (Some answer).
Proof.
  intros Hne Hex. unfold QuestionMapper.detectIntent.
  rewrite intentTests_profile.
  destruct (firstSome_tests _
              (skipn 14 (QuestionMapper.intentTests (Js.toLowerCase questionText)
                           answer profile))
              answer Hex) as (intent & Hfirst & Hin).
  exists intent. split; [done |]. split; [done |].
  apply profileIntents_value; [done |]. by apply truthy_nonempty.
Qed.

(** The answer is the city of the profile, the question asks for a
    phone number. *)
Lemma detectIntent_profile_value_witness :
  let env := PatternStorage.mkEnv (fun _ => "2026-01-01T00:00:00.000Z")
               (fun _ => "1767225600000") (fun _ => "k3j9x0a1b") in
  let profile :=
    Profile.mk
      (Some (Profile.Personal.mk None None None None None (Some "Pune") None None))
      None None None None None None in
  QuestionMapper.detectIntent "Phone" "Pune" profile = Some "personal.city"
  /\ exists intent,
       QuestionMapper.detectIntent "Phone" "Pune" profile = Some intent
       /\ QuestionMapper.getValueFromProfile env profile intent
          = Js.Returns (Some "Pune").
Proof.
  intros env profile. split; [reflexivity |].
  destruct (detectIntent_profile_value env profile "Phone" "Pune")
    as (intent & H1 & _ & H2).
  - done.
  - exists "personal.city". simpl. tauto.
  - by exists intent.
Defined.

(** ** The mapper: which answer a question is learned with *)

(** X24. The learning loop of [processQuestions] pairs the question at
    a position of [unmappedForAI] with the answer at that position of
    [aiAnswers], from which the failed requests have been removed.  When
    every request yields an answer, each question is learned with its own
    answer.  When the request for the first question yields none and the
    one for the second question does, the first question is learned with
    the answer to the second: the loop starts with
    [learnFromAIResponse(q1, a, profile)] for the answer [a] to [q2], and
    goes on with the rest unless that call throws. *)
Theorem learning_pairs_by_position
    (env : PatternStorage.Env)
    (askAI : nat -> QuestionMapper.Request.t -> option QuestionMapper.Response.t)
    (profile : Profile.t) (unmappedForAI : list Scanner.ScannedQuestion)
    (w0 : PatternStorage.World) :
  let aiAnswers :=
    fst (QuestionMapper.requestAIAnswers env askAI unmappedForAI profile w0) in
  let learn (qa : Scanner.ScannedQuestion * QuestionMapper.MappedAnswer) :=
    QuestionMapper.learnFromAIResponse env (fst qa) (snd qa) profile in
  ((forall k q, nth_error unmappedForAI k = Some q ->
                QuestionMapper.answerOfAI askAI profile k q <> None) ->
   map QuestionMapper.questionOf aiAnswers = unmappedForAI
   /\ Forall (fun qa => QuestionMapper.questionOf (snd qa) = fst qa)
             (combine unmappedForAI aiAnswers))
  /\ (forall q1 q2 rest a w,
        unmappedForAI = q1 :: q2 :: rest ->
        QuestionMapper.answerOfAI askAI profile 0 q1 = None ->
        QuestionMapper.answerOfAI askAI profile 1 q2 = Some a ->
        QuestionMapper.questionOf a = q2
        /\ QuestionMapper.learnAll env profile unmappedForAI aiAnswers w
           = match fst (QuestionMapper.learnFromAIResponse env q1 a profile w) with
             | Js.Throws e =>
                 (Js.Throws e,
                  snd (QuestionMapper.learnFromAIResponse env q1 a profile w))
             | Js.Returns _ =>
                 Effect.forEach learn (combine (q2 :: rest) (tl aiAnswers))
                   (snd (QuestionMapper.learnFromAIResponse env q1 a profile w))
             end).
Proof.
  intros aiAnswers learn. subst aiAnswers learn.
  rewrite requestAIAnswers_run. cbn [fst]. split.
  - intros Hall.
    pose proof (aiResults_all askAI profile unmappedForAI 0 Hall) as Hmap.
    fold (QuestionMapper.aiAnswersOf askAI unmappedForAI profile) in Hmap.
    split; [exact Hmap |].
    revert Hmap. clear Hall.
    generalize (QuestionMapper.aiAnswersOf askAI unmappedForAI profile).
    induction unmappedForAI as [|q qs IH]; intros [|a answers]; simpl; try done.
    intros [= Hq Hqs]. constructor; [done |]. by apply IH.
  - intros q1 q2 rest a w -> H1 H2.
    split; [by apply (answerOfAI_questionOf askAI profile 1 q2 a) |].
    unfold QuestionMapper.learnAll, QuestionMapper.aiAnswersOf. simpl.
    rewrite H1, H2. simpl. unfold Effect.bind. simpl.
    by destruct (fst (QuestionMapper.learnFromAIResponse env q1 a profile w)).
Qed.

(** The oracle fails on the first of two questions.  The pattern that
    is stored has the text of the first question and the answer to the
    second. *)
Lemma learning_pairs_by_position_witness :
  let env := PatternStorage.mkEnv (fun _ => "2026-01-01T00:00:00.000Z")
               (fun _ => "1767225600000") (fun _ => "k3j9x0a1b") in
  let profile := Profile.mk None None None None None None None in
  let q1 := Scanner.mkQuestion "Notice period" "text" None false "#notice" in
  let q2 := Scanner.mkQuestion "Expected salary" "text" None false "#salary" in
  let askAI (i : nat) (_ : QuestionMapper.Request.t) :=
    if Nat.eqb i 0 then None
    else Some (QuestionMapper.Response.mk "90000" None (Some "custom.salary") false
                 None) in
  let w := PatternStorage.mkWorld [] 0 0 in
  let a := QuestionMapper.mkAnswer "#salary" "Expected salary" "90000"
             QuestionMapper.AI (8 # 10) false "text" (Some "custom.salary") None None
             false None in
  map PatternStorage.questionPattern
      (PatternStorage.learnedPatterns
         (snd (QuestionMapper.processQuestions env askAI (Some profile) [q1; q2] w)))
  = ["notice period"]
  /\ QuestionMapper.questionOf a = q2.
Proof.
  intros env profile q1 q2 askAI w a. split; [reflexivity |].
  destruct (learning_pairs_by_position env askAI profile [q1; q2] w) as [_ H].
  by destruct (H q1 q2 [] a w eq_refl eq_refl eq_refl) as [? _].
Defined.

(** ** The mapper: the fill plan *)

Section Actions.
Import Js QuestionMapper.

Lemma mapFieldTypeToAction_scanned element :
  exists action,
    mapFieldTypeToAction (Scanner.detectFieldType element) = Own action
    /\ In action [ "input_text"; "dropdown_native"; "dropdown_custom"; "radio";
                   "checkbox"; "input_file" ].
Proof.
  pose proof (detectFieldType_range element) as Hrange. simpl in Hrange.
  repeat destruct Hrange as [<- | Hrange]; try done;
    eexists; (split; [reflexivity | simpl; tauto]).
Qed.

End Actions.

(** X25. [mapFieldTypeToAction] returns one of six action names for
    every field type that is not the name of a member of
    [Object.prototype] (['input_text'] for a type that the table does
    not have), and that member, not a string, for a type that is.  The
    field types of [detectFieldType] all have an entry of their own, so
    in the plan that [convertToFillPlan] builds from answers to scanned
    questions every action has one of the six names; the plan has one
    action per answer, in order, with the selector and the answer. *)
Theorem fill_plan_actions
    (loaded : option Profile.t) (answers : list QuestionMapper.MappedAnswer)
    (jobUrl : string) :
  let names := [ "input_text"; "dropdown_native"; "dropdown_custom"; "radio";
                 "checkbox"; "input_file" ] in
  let plan := QuestionMapper.convertToFillPlan loaded answers jobUrl in
  (forall fieldType,
     if Js.member fieldType Js.objectPrototypeKeys
     then QuestionMapper.mapFieldTypeToAction fieldType = Js.Inherited
     else exists action,
            QuestionMapper.mapFieldTypeToAction fieldType = Js.Own action
            /\ In action names)
  /\ map QuestionMapper.Action.selector (QuestionMapper.FillPlan.actions plan)
     = map QuestionMapper.selector answers
  /\ map QuestionMapper.Action.value (QuestionMapper.FillPlan.actions plan)
     = map QuestionMapper.answer answers
  /\ ((forall a, In a answers ->
                 exists element,
                   QuestionMapper.fieldType a = Scanner.detectFieldType element) ->
      Forall (fun action =>
                exists name,
                  QuestionMapper.Action.type action = Js.Own name /\ In name names)
             (QuestionMapper.FillPlan.actions plan)).
Proof.
  intros names plan. subst names plan. split; [| split; [| split]].
  - intros fieldType. unfold QuestionMapper.mapFieldTypeToAction, Js.lookup.
    unfold QuestionMapper.typeMap, Js.assoc.
    repeat match goal with
           | |- context [if String.eqb ?a ?b then _ else _] =>
               destruct (String.eqb_spec a b) as [->|]
           end;
      try (simpl; eexists; split; [reflexivity | simpl; tauto]).
    destruct (Js.member fieldType Js.objectPrototypeKeys); [done |].
    eexists; split; [reflexivity | simpl; tauto].
  - unfold QuestionMapper.convertToFillPlan. simpl. by rewrite map_map.
  - unfold QuestionMapper.convertToFillPlan. simpl. by rewrite map_map.
  - intros Hscanned. unfold QuestionMapper.convertToFillPlan. simpl.
    apply List.Forall_forall. intros action (a & <- & Ha)%in_map_iff. simpl.
    destruct (Hscanned a Ha) as (element & ->).
    apply mapFieldTypeToAction_scanned.
Qed.

(** The plan for the answer to a question about a native select. *)
Lemma fill_plan_actions_witness :
  let select := Scanner.mkElement (Scanner.Elem "select" [("name", "country")] []) [] in
  let a := QuestionMapper.mkAnswer "select[name=country]" "Country" "India"
             QuestionMapper.canonical 1 true (Scanner.detectFieldType select) None
             (Some ["India"; "Norway"]) None false None in
  map QuestionMapper.Action.type
      (QuestionMapper.FillPlan.actions
         (QuestionMapper.convertToFillPlan None [a] "https://jobs.example/apply"))
  = [Js.Own "dropdown_native"]
  /\ Forall (fun action =>
               exists name,
                 QuestionMapper.Action.type action = Js.Own name
                 /\ In name [ "input_text"; "dropdown_native"; "dropdown_custom";
                              "radio"; "checkbox"; "input_file" ])
            (QuestionMapper.FillPlan.actions
               (QuestionMapper.convertToFillPlan None [a] "https://jobs.example/apply")).
Proof.
  intros select a. split; [reflexivity |].
  destruct (fill_plan_actions None [a] "https://jobs.example/apply") as (_ & _ & _ & H).
  apply H. intros a' [<- | []]. by exists select.
Defined.

(** ** The scanner: deduplication, again *)

Section DeduplicationAgain.
Import Js Scanner.

Lemma dedupFrom_fixed (seen : gset string) (questions : list ScannedQuestion) :
  NoDup (map dedupKey questions) ->
  (forall q, q ∈ questions -> dedupKey q ∉ seen) ->
  dedupFrom seen questions = questions.
Proof.
  revert seen. induction questions as [|q0 rest IH]; intros seen Hnd Hout; [done |].
  simpl. simpl in Hnd. apply NoDup_cons in Hnd as [Hq0 Hnd].
  destruct (decide (dedupKey q0 ∈ seen)) as [Hin | _];
    [by destruct (Hout q0 (list_elem_of_here _ _)) |].
  f_equal.
  apply IH; [done |]. intros q Hq Hin.
  apply elem_of_union in Hin as [Heq%elem_of_singleton | Hin].
  - apply Hq0. apply list_elem_of_fmap. by exists q.
  - apply (Hout q); [by right | done].
Qed.

End DeduplicationAgain.

(** X26. [FormScanner.deduplicateQuestions] is idempotent: a list whose
    question texts are pairwise different up to case and outer white
    space is returned as it is, and so is, in particular, what the
    function has returned once; the result is never longer than the
    input. *)
Theorem deduplicateQuestions_idempotent (questions : list Scanner.ScannedQuestion) :
  Scanner.deduplicateQuestions (Scanner.deduplicateQuestions questions)
  = Scanner.deduplicateQuestions questions
  /\ (NoDup (map Scanner.dedupKey questions) ->
      Scanner.deduplicateQuestions questions = questions)
  /\ (length (Scanner.deduplicateQuestions questions) <= length questions)%nat.
Proof.
  unfold Scanner.deduplicateQuestions. split; [| split].
  - apply dedupFrom_fixed; [apply dedupFrom_NoDup | set_solver].
  - intros Hnd. apply dedupFrom_fixed; [done | set_solver].
  - apply sublist_length, dedupFrom_sublist.
Qed.

(** Two spellings of one question and another question. *)
Lemma deduplicateQuestions_idempotent_witness :
  let q (t : string) := Scanner.mkQuestion t "text" None false "#f" in
  Scanner.deduplicateQuestions [q "Email"; q " email "; q "Phone"]
  = [q "Email"; q "Phone"]
  /\ Scanner.deduplicateQuestions [q "Email"; q "Phone"] = [q "Email"; q "Phone"].
Proof.
  intros q. split; [reflexivity |].
  destruct (deduplicateQuestions_idempotent [q "Email"; q "Phone"]) as (_ & H & _).
  apply H. apply (bool_decide_unpack _). vm_compute. exact I.
Defined.

Section RepeatedLookups.
Import Js Effect PatternStorage.
Variable env : Env.

Lemma patternMatches_used qLower now p :
  patternMatches qLower (used now p) = patternMatches qLower p.
Proof. done. Qed.

Lemma findPattern_found questionText w found :
  reliable env ->
  NoDup (map id (learnedPatterns w)) ->
  searchPatterns (learnedPatterns w) questionText = Some found ->
  exists before after,
    learnedPatterns w = before ++ found :: after
    /\ Forall (fun x => patternMatches (toLowerCase questionText) x = false) before
    /\ patternMatches (toLowerCase questionText) found = true
    /\ findPattern env questionText w
       = (Some found,
          makeWorld (before ++ used (isoAt env (ticks w)) found :: after)
                    (S (ticks w)) (draws w) (S (S (S (calls w))))).
Proof.
  intros Hrel Hnd Hsearch. pose proof Hsearch as Hfind.
  unfold searchPatterns in Hfind.
  apply find_first in Hfind as (before & after & Hw & Hm & Hb).
  exists before, after. repeat split; try done.
  rewrite findPattern_run, (readable_reliable env _ Hrel), Hsearch.
  by rewrite (incrementUsage_at env before found after (called 1 w) Hrel Hw Hnd).
Qed.

End RepeatedLookups.

(** X27. With a storage that answers, lookups are repeatable and each
    one counts: when the identifiers of the stored patterns are pairwise
    distinct and [findPattern] finds a pattern for a question, a second
    lookup for the same question finds the same stored pattern (the copy
    it returns has one use more and the time of the first lookup), and
    after the two lookups the usage count of that pattern in the store
    has grown by two while no other pattern has changed. *)
Theorem findPattern_twice
    (env : PatternStorage.Env) (questionText : string) (w : PatternStorage.World)
    (found : PatternStorage.LearnedPattern) :
  PatternStorage.reliable env ->
  NoDup (map PatternStorage.id (PatternStorage.learnedPatterns w)) ->
  fst (PatternStorage.findPattern env questionText w) = Some found ->
  let w1 := snd (PatternStorage.findPattern env questionText w) in
  let w2 := snd (PatternStorage.findPattern env questionText w1) in
  exists again before stored after,
    fst (PatternStorage.findPattern env questionText w1) = Some again
    /\ PatternStorage.id again = PatternStorage.id found
    /\ PatternStorage.usageCount again = S (PatternStorage.usageCount found)
    /\ PatternStorage.lastUsed again = PatternStorage.isoAt env (PatternStorage.ticks w)
    /\ PatternStorage.learnedPatterns w = before ++ found :: after
    /\ PatternStorage.learnedPatterns w2 = before ++ stored :: after
    /\ PatternStorage.usageCount stored = S (S (PatternStorage.usageCount found))
    /\ PatternStorage.sameButUsage found stored.
Proof.
  intros Hrel Hnd Hfound w1 w2. subst w1 w2.
  rewrite (findPattern_fst env _ _ Hrel) in Hfound.
  destruct (findPattern_found env questionText w found Hrel Hnd Hfound)
    as (before & after & Hw & Hb & Hm & Hfirst).
  rewrite Hfirst. simpl.
  set (now := PatternStorage.isoAt env (PatternStorage.ticks w)).
  set (w1 := PatternStorage.makeWorld
               (before ++ PatternStorage.used now found :: after)
               (S (PatternStorage.ticks w)) (PatternStorage.draws w)
               (S (S (S (PatternStorage.calls w))))).
  assert (Hnd1 : NoDup (map PatternStorage.id (PatternStorage.learnedPatterns w1))).
  { subst w1. simpl. rewrite Hw in Hnd. by rewrite map_app in *. }
  assert (Hsearch1 : PatternStorage.searchPatterns (PatternStorage.learnedPatterns w1)
                       questionText
                     = Some (PatternStorage.used now found)).
  { subst w1. simpl. unfold PatternStorage.searchPatterns. by apply find_skip. }
  destruct (findPattern_found env questionText w1 _ Hrel Hnd1 Hsearch1)
    as (before' & after' & Hw1 & Hb' & _ & Hsecond).
  assert (Hsame : before' = before /\ after' = after).
  { subst w1. simpl in Hw1.
    clear -Hw1 Hb Hb' Hm.
    revert before' Hw1 Hb'. induction Hb as [|x before Hx _ IH]; intros before' Hw1 Hb'.
    - destruct before' as [|y before']; simpl in Hw1.
      + by injection Hw1 as <-.
      + injection Hw1 as Hy _. subst y. apply Forall_cons in Hb' as [Hy _].
        change (PatternStorage.patternMatches (Js.toLowerCase questionText) found
                = false) in Hy.
        congruence.
    - destruct before' as [|y before']; simpl in Hw1.
      + injection Hw1 as Hy _. subst x.
        change (PatternStorage.patternMatches (Js.toLowerCase questionText) found
                = false) in Hx.
        congruence.
      + injection Hw1 as <- Hw1. apply Forall_cons in Hb' as [_ Hb'].
        destruct (IH before' Hw1 Hb') as [-> ->]. done. }
  destruct Hsame as [-> ->].
  rewrite Hsecond. simpl.
  exists (PatternStorage.used now found), before,
    (PatternStorage.used (PatternStorage.isoAt env (S (PatternStorage.ticks w)))
       (PatternStorage.used now found)),
    after.
  repeat split; done.
Qed.

(** The store of two patterns that the second question matches. *)
Lemma findPattern_twice_witness :
  let env := PatternStorage.mkEnv (fun _ => "2026-01-01T00:00:00.000Z")
               (fun _ => "1767225600000") (fun _ => "k3j9x0a1b") in
  let p1 := PatternStorage.mkPattern "local_1_a" "years of experience" "experience.years"
              "experience.years" None "text" (8 # 10) 0 "t0" "t0" "AI" (Some false) false in
  let p2 := PatternStorage.mkPattern "local_2_b" "what is your gender" "eeo.gender"
              "eeo.gender" None "select" (8 # 10) 3 "t1" "t1" "AI" (Some false) false in
  let w := PatternStorage.mkWorld [p1; p2] 7 0 in
  let w1 := snd (PatternStorage.findPattern env "What is your gender" w) in
  let w2 := snd (PatternStorage.findPattern env "What is your gender" w1) in
  map PatternStorage.usageCount (PatternStorage.learnedPatterns w2) = [0%nat; 5%nat]
  /\ exists again,
       fst (PatternStorage.findPattern env "What is your gender" w1) = Some again
       /\ PatternStorage.usageCount again = 4%nat.
Proof.
  intros env p1 p2 w w1 w2. split; [reflexivity |].
  assert (Hnd : NoDup (map PatternStorage.id (PatternStorage.learnedPatterns w))).
  { apply (bool_decide_unpack _). vm_compute. exact I. }
  assert (Hrel : PatternStorage.reliable env) by (intros n; reflexivity).
  destruct (findPattern_twice env "What is your gender" w p2 Hrel Hnd eq_refl)
    as (again & _ & _ & _ & Hagain & _ & Hcount & _).
  by exists again.
Defined.

(** ** The stored profile *)

Section CompleteProfile.
Import Js QuestionMapper.

Lemma isSome_truthyMember {S} (section : option S) field :
  Scanner.isSome (Profile.truthyMember section field) = true ->
  exists v, Profile.truthyMember section field = Some v /\ v <> "".
Proof.
  unfold Profile.truthyMember.
  destruct (Profile.member section field) as [v|]; [| done].
  destruct (truthy v) eqn:Hv; [| done]. intros _. exists v.
  split; [done |]. intros ->. done.
Qed.

End CompleteProfile.

(** X28. [hasCompleteProfile] answers [false] when no profile is
    stored.  For a stored profile it throws exactly when the profile
    has no [personal] section, or has the three personal members and no
    [consent] section; it answers [true] exactly when first name, last
    name and email are non-empty and the consent is given.  A profile
    for which it answers [true] resolves every question for the first
    name, and every question for the last name or the email that does
    not also mention an earlier one of the three, in the canonical tier
    with the member of the profile. *)
Theorem complete_profile_answers (profile : Profile.t) :
  let direct v :=
    Js.Returns (Some (QuestionMapper.Result.mk v QuestionMapper.canonical
                        QuestionMapper.one None)) in
  let asks (q : Scanner.ScannedQuestion) (what : string) :=
    Js.includes (Js.toLowerCase (Scanner.questionText q)) what in
  let has (field : Profile.Personal.t -> option string) :=
    Profile.truthyMember (Profile.personal profile) field <> None in
  let filled :=
    has Profile.Personal.firstName /\ has Profile.Personal.lastName
    /\ has Profile.Personal.email in
  ProfileStorage.hasCompleteProfile None = Js.Returns false
  /\ (Js.threw (ProfileStorage.hasCompleteProfile (Some profile)) = true <->
      Profile.personal profile = None
      \/ (filled /\ Profile.consent profile = None))
  /\ (ProfileStorage.hasCompleteProfile (Some profile) = Js.Returns true <->
      filled
      /\ Profile.member (Profile.consent profile) Profile.Consent.agreedToAutofill
         = Some true)
  /\ (ProfileStorage.hasCompleteProfile (Some profile) = Js.Returns true ->
      exists firstName lastName email,
        Profile.member (Profile.personal profile) Profile.Personal.firstName
        = Some firstName
        /\ Profile.member (Profile.personal profile) Profile.Personal.lastName
           = Some lastName
        /\ Profile.member (Profile.personal profile) Profile.Personal.email
           = Some email
        /\ firstName <> "" /\ lastName <> "" /\ email <> ""
        /\ forall q,
             (asks q "first name" = true ->
              QuestionMapper.tryCanonical q profile = direct firstName)
             /\ (asks q "first name" = false -> asks q "last name" = true ->
                 QuestionMapper.tryCanonical q profile = direct lastName)
             /\ (asks q "first name" = false -> asks q "last name" = false ->
                 asks q "email" = true ->
                 QuestionMapper.tryCanonical q profile = direct email)).
Proof.
  intros direct asks has filled. subst has filled. cbv beta.
  assert (Hsome : forall o : option string, Scanner.isSome o = true <-> o <> None)
    by (intros [v|]; simpl; split; done).
  split; [done |]. split; [| split].
  - unfold ProfileStorage.hasCompleteProfile.
    destruct (Profile.personal profile) as [personal|] eqn:Hp;
      [| by split; [left |]].
    rewrite <- !Hsome, <- !andb_true_iff, andb_assoc.
    destruct (_ && _ && _) eqn:Hthree.
    + destruct (Profile.consent profile) as [consent|]; simpl.
      * split; [done |]. by intros [? | [_ ?]].
      * split; [| done]. intros _. by right.
    + split; [done |]. by intros [? | [? _]].
  - unfold ProfileStorage.hasCompleteProfile.
    destruct (Profile.personal profile) as [personal|] eqn:Hp.
    2:{ split; [done |]. intros [(Hf & _) _]. by destruct Hf. }
    rewrite <- !Hsome, <- !andb_true_iff, andb_assoc.
    destruct (_ && _ && _) eqn:Hthree.
    + destruct (Profile.consent profile) as [consent|]; simpl.
      * destruct (Profile.Consent.agreedToAutofill consent) as [[]|].
        -- by split.
        -- split; [done |]. by intros [_ ?].
        -- split; [done |]. by intros [_ ?].
      * split; [done |]. by intros [_ ?].
    + split; [done |]. by intros [? _].
  - unfold ProfileStorage.hasCompleteProfile.
    destruct (Profile.personal profile) as [personal|] eqn:Hp; [| done].
    destruct (_ && _ && _) eqn:Hthree; [| done].
    apply andb_prop in Hthree as [[H1 H2]%andb_prop H3].
    apply isSome_truthyMember in H1 as (first & H1 & Hn1).
    apply isSome_truthyMember in H2 as (last & H2 & Hn2).
    apply isSome_truthyMember in H3 as (email & H3 & Hn3).
    intros _. exists first, last, email.
    repeat split; try done; try by apply truthyMember_member.
    + intros Hfirst. subst asks direct. simpl in Hfirst.
      unfold QuestionMapper.tryCanonical, QuestionMapper.canonicalRules. simpl.
      unfold QuestionMapper.directRule at 1. by rewrite Hfirst, Hp, H1.
    + intros Hfirst Hlast. subst asks direct. simpl in Hfirst, Hlast.
      unfold QuestionMapper.tryCanonical, QuestionMapper.canonicalRules. simpl.
      unfold QuestionMapper.directRule at 1. rewrite Hfirst.
      destruct (String.eqb_spec (Js.toLowerCase (Scanner.questionText q))
                  "first name") as [Heq |_]; [by rewrite Heq in Hfirst |].
      simpl. unfold QuestionMapper.directRule at 1. by rewrite Hlast, Hp, H2.
    + intros Hfirst Hlast Hemail. subst asks direct.
      simpl in Hfirst, Hlast, Hemail.
      unfold QuestionMapper.tryCanonical, QuestionMapper.canonicalRules. simpl.
      unfold QuestionMapper.directRule at 1. rewrite Hfirst.
      destruct (String.eqb_spec (Js.toLowerCase (Scanner.questionText q))
                  "first name") as [Heq |_]; [by rewrite Heq in Hfirst |].
      simpl. unfold QuestionMapper.directRule at 1. rewrite Hlast.
      destruct (String.eqb_spec (Js.toLowerCase (Scanner.questionText q))
                  "last name") as [Heq |_]; [by rewrite Heq in Hlast |].
      simpl. unfold QuestionMapper.directRule at 1. by rewrite Hemail, Hp, H3.
Qed.

(** A profile with the three members and the consent, asked for the
    email address. *)
Lemma complete_profile_answers_witness :
  let profile :=
    Profile.mk
      (Some (Profile.Personal.mk (Some "Asha") (Some "Rao") (Some "asha@example.org")
               None None None None None))
      None None None None None (Some (Profile.Consent.mk (Some true))) in
  let q := Scanner.mkQuestion "Email Address *" "email" None true "#email" in
  ProfileStorage.hasCompleteProfile (Some profile) = Js.Returns true
  /\ exists email,
       QuestionMapper.tryCanonical q profile
       = Js.Returns (Some (QuestionMapper.Result.mk email QuestionMapper.canonical
                             QuestionMapper.one None)).
Proof.
  intros profile q. split; [reflexivity |].
  destruct (complete_profile_answers profile) as (_ & _ & _ & H).
  destruct (H eq_refl) as (firstName & lastName & email & _ & _ & _ & _ & _ & _ & Hq).
  exists email. by apply (Hq q).
Defined.

(** ** The scanner: the enumeration of the fields *)

Section Enumeration.
Import Js Scanner.

Lemma positionsBelow_children sel n :
  positionsBelow sel n = positionsFrom sel 0 (children n).
Proof.
  destruct n as [t a cs]. simpl. generalize 0.
  induction cs as [|c r IH]; intros i; [done |].
  simpl. by rewrite IH.
Qed.

Lemma positions_unfold sel n :
  positions sel n
  = (if sel n then [[]] else []) ++ positionsFrom sel 0 (children n).
Proof. unfold positions. by rewrite positionsBelow_children. Qed.

Lemma positionsFrom_spec sel cs : forall i p,
  p ∈ positionsFrom sel i cs
  <-> exists j c rest,
        p = (i + j) :: rest /\ nth_error cs j = Some c
        /\ rest ∈ positions sel c.
Proof.
  induction cs as [|c r IH]; intros i p; simpl.
  - split; [by intros ?%elem_of_nil |]. by intros ([|?] & ? & ? & _ & ? & _).
  - rewrite elem_of_app, list_elem_of_fmap, IH. split.
    + intros [(rest & -> & Hin) | (j & c' & rest & -> & Hn & Hin)].
      * exists 0, c, rest. by rewrite Nat.add_0_r.
      * exists (S j), c', rest. split; [f_equal; lia | done].
    + intros ([|j] & c' & rest & -> & Hn & Hin); simpl in Hn.
      * injection Hn as <-. left. exists rest. by rewrite Nat.add_0_r.
      * right. exists j, c', rest. split; [f_equal; lia | done].
Qed.

Lemma positions_spec sel n : forall p,
  p ∈ positions sel n
  <-> exists node, nodeAt n p = Some node /\ sel node = true.
Proof.
  induction n as [t a cs IH] using Node_tree_ind. intros p.
  rewrite positions_unfold, elem_of_app, positionsFrom_spec. simpl.
  rewrite List.Forall_forall in IH. split.
  - intros [Hp | (j & c & rest & -> & Hn & Hin)].
    + destruct (sel (Elem t a cs)) eqn:Hs; [| by apply elem_of_nil in Hp].
      apply list_elem_of_singleton in Hp as ->. by exists (Elem t a cs).
    + simpl. rewrite Hn. apply IH; [| done]. by apply nth_error_In with j.
  - intros (node & Hat & Hs). destruct p as [|j rest]; simpl in Hat.
    + injection Hat as <-. left. rewrite Hs. by apply list_elem_of_singleton.
    + right. destruct (nth_error cs j) as [c|] eqn:Hn; [| done].
      exists j, c, rest. split; [done |]. split; [done |].
      apply IH; [by apply nth_error_In with j |]. by exists node.
Qed.

Lemma positionsFrom_NoDup sel cs :
  Forall (fun c => NoDup (positions sel c)) cs ->
  forall i, NoDup (positionsFrom sel i cs).
Proof.
  induction 1 as [|c r Hc _ IH]; intros i; simpl; [by apply NoDup_nil |].
  apply NoDup_app. split; [| split].
  - apply NoDup_fmap_2; [| done]. by intros ? ? [= ->].
  - intros p (rest & -> & _)%list_elem_of_fmap
          (j & _ & rest' & Heq & _)%positionsFrom_spec.
    injection Heq as Heq _. lia.
  - apply IH.
Qed.

Lemma positions_NoDup sel n : NoDup (positions sel n).
Proof.
  induction n as [t a cs IH] using Node_tree_ind.
  rewrite positions_unfold. apply NoDup_app. split; [| split].
  - destruct (sel _); [apply NoDup_singleton | apply NoDup_nil; done].
  - intros p Hp (j & c & rest & -> & _)%positionsFrom_spec.
    destruct (sel _); [| by apply elem_of_nil in Hp].
    by apply list_elem_of_singleton in Hp.
  - by apply positionsFrom_NoDup.
Qed.

Lemma occurrences_app p a b :
  occurrences p (a ++ b) = occurrences p a + occurrences p b.
Proof. unfold occurrences. by rewrite List.filter_app, length_app. Qed.

Lemma occurrences_absent p l : p ∉ l -> occurrences p l = 0.
Proof.
  unfold occurrences. induction l as [|x r IH]; [done |].
  intros Hn. simpl. rewrite bool_decide_eq_false_2.
  - apply IH. intros ?. apply Hn. by right.
  - intros ->. apply Hn. by left.
Qed.

Lemma occurrences_NoDup p l : NoDup l -> p ∈ l -> occurrences p l = 1.
Proof.
  induction 1 as [|x r Hx Hr IH]; [by intros ?%elem_of_nil |].
  intros Hin. change (x :: r) with ([x] ++ r). rewrite occurrences_app.
  apply elem_of_cons in Hin as [-> | Hin].
  - rewrite (occurrences_absent x r Hx). unfold occurrences. simpl.
    by rewrite bool_decide_eq_true_2.
  - rewrite IH by done. unfold occurrences. simpl.
    rewrite bool_decide_eq_false_2; [done |]. by intros ->.
Qed.

Lemma occurrences_le p l : NoDup l -> occurrences p l <= 1.
Proof.
  intros Hl. destruct (decide (p ∈ l)) as [Hin | Hn].
  - by rewrite occurrences_NoDup.
  - rewrite occurrences_absent by done. lia.
Qed.

Lemma occurrences_positive p l : 0 < occurrences p l <-> p ∈ l.
Proof.
  split.
  - intros Hpos. destruct (decide (p ∈ l)) as [Hin | Hn]; [done |].
    rewrite occurrences_absent in Hpos by done. lia.
  - unfold occurrences. induction l as [|x r IH]; [by intros ?%elem_of_nil |].
    intros [-> | Hin]%elem_of_cons; simpl.
    + rewrite bool_decide_eq_true_2 by done. simpl. lia.
    + destruct (bool_decide (x = p)); simpl; [lia | by apply IH].
Qed.

Variable isVisible : Position -> bool.
Variable document : Node.

Lemma visible_spec sel p :
  p ∈ List.filter isVisible (positions sel document)
  <-> isVisible p = true
      /\ exists node, nodeAt document p = Some node /\ sel node = true.
Proof.
  rewrite list_elem_of_In, List.filter_In, <- list_elem_of_In, positions_spec.
  tauto.
Qed.

Lemma visible_NoDup sel : NoDup (List.filter isVisible (positions sel document)).
Proof.
  pose proof (positions_NoDup sel document) as H.
  induction H as [|x r Hx Hr IH]; simpl; [by apply NoDup_nil |].
  destruct (isVisible x); [| done]. apply NoDup_cons. split; [| done].
  intros Hin. apply Hx. apply list_elem_of_In in Hin.
  apply List.filter_In in Hin as [Hin _]. by apply list_elem_of_In.
Qed.

Lemma addDropdown_cases fields dropdown :
  addDropdown isVisible document fields dropdown = fields
  \/ (addDropdown isVisible document fields dropdown = fields ++ [dropdown]
      /\ isVisible dropdown = true).
Proof.
  unfold addDropdown. destruct (isVisible dropdown); [| by left].
  destruct (nodeAt document dropdown) as [node|]; [| by left].
  destruct (positionsBelow selAnyInput node) as [|input ?]; [by right |].
  destruct (includesPosition _ _); [by left | by right].
Qed.

Lemma addDropdown_no_input fields dropdown node :
  isVisible dropdown = true -> nodeAt document dropdown = Some node ->
  positionsBelow selAnyInput node = [] ->
  addDropdown isVisible document fields dropdown = fields ++ [dropdown].
Proof. intros Hv Hn Hc. unfold addDropdown. by rewrite Hv, Hn, Hc. Qed.

Lemma occurrences_other p q : p <> q -> occurrences p [q] = 0.
Proof.
  intros Hne. apply occurrences_absent. by intros ->%list_elem_of_singleton.
Qed.

Lemma occurrences_self p : occurrences p [p] = 1.
Proof. unfold occurrences. simpl. by rewrite bool_decide_eq_true_2. Qed.

Lemma loop_keeps p ds : forall fields,
  p ∉ ds ->
  occurrences p (fold_left (addDropdown isVisible document) ds fields)
  = occurrences p fields.
Proof.
  induction ds as [|d r IH]; intros fields Hn; [done |]. simpl.
  rewrite IH by (intros ?; apply Hn; by right).
  destruct (addDropdown_cases fields d) as [-> | [-> _]]; [done |].
  rewrite occurrences_app, occurrences_other; [lia |].
  intros ->. apply Hn. by left.
Qed.

Lemma loop_adds_at_most_one p ds : forall fields,
  NoDup ds ->
  occurrences p (fold_left (addDropdown isVisible document) ds fields)
  <= occurrences p fields + 1.
Proof.
  induction ds as [|d r IH]; intros fields Hd; [simpl; lia |].
  apply NoDup_cons in Hd as [Hd Hr]. simpl.
  destruct (decide (p = d)) as [-> | Hne].
  - rewrite loop_keeps by done.
    destruct (addDropdown_cases fields d) as [-> | [-> _]]; [lia |].
    rewrite occurrences_app, occurrences_self. lia.
  - etrans; [by apply IH |].
    destruct (addDropdown_cases fields d) as [-> | [-> _]]; [lia |].
    rewrite occurrences_app, occurrences_other by done. lia.
Qed.

Lemma loop_adds_no_input p node ds : forall fields,
  NoDup ds -> p ∈ ds ->
  isVisible p = true -> nodeAt document p = Some node ->
  positionsBelow selAnyInput node = [] ->
  occurrences p (fold_left (addDropdown isVisible document) ds fields)
  = occurrences p fields + 1.
Proof.
  intros fields Hd Hin Hv Hn Hc. revert fields.
  induction Hd as [|d r Hd Hr IH]; intros fields; [by apply elem_of_nil in Hin |].
  simpl. apply elem_of_cons in Hin as [<- | Hin].
  - rewrite loop_keeps by done.
    rewrite (addDropdown_no_input fields p node) by done.
    by rewrite occurrences_app, occurrences_self.
  - rewrite IH by done.
    destruct (addDropdown_cases fields d) as [-> | [-> _]]; [done |].
    rewrite occurrences_app, occurrences_other; [lia |]. by intros ->.
Qed.

Lemma loop_elements p ds : forall fields,
  p ∈ fold_left (addDropdown isVisible document) ds fields ->
  p ∈ fields \/ (p ∈ ds /\ isVisible p = true).
Proof.
  induction ds as [|d r IH]; intros fields; simpl; [by left |].
  intros [Hin | [Hin Hv]]%IH.
  - destruct (addDropdown_cases fields d) as [Heq | [Heq Hv]];
      rewrite Heq in Hin; [by left |].
    apply elem_of_app in Hin as [Hin | ->%list_elem_of_singleton]; [by left |].
    right. split; [by left | done].
  - right. split; [by right | done].
Qed.

Lemma loop_extends p ds : forall fields,
  p ∈ fields -> p ∈ fold_left (addDropdown isVisible document) ds fields.
Proof.
  induction ds as [|d r IH]; intros fields Hin; simpl; [done |].
  apply IH. destruct (addDropdown_cases fields d) as [-> | [-> _]]; [done |].
  apply elem_of_app. by left.
Qed.

Lemma selectors_exclusive n :
  (selFormInput n = true -> selTextarea n = false /\ selSelect n = false)
  /\ (selTextarea n = true -> selSelect n = false).
Proof.
  unfold selFormInput, selTextarea, selSelect.
  destruct (String.eqb_spec (tag n) "input") as [-> | _];
    [by split |].
  split; [done |].
  destruct (String.eqb_spec (tag n) "textarea") as [-> | _]; done.
Qed.

Lemma static_fields_once p :
  occurrences p
    (List.filter isVisible (positions selFormInput document)
     ++ List.filter isVisible (positions selTextarea document)
     ++ List.filter isVisible (positions selSelect document)) <= 1.
Proof.
  rewrite !occurrences_app.
  pose proof (occurrences_le p _ (visible_NoDup selFormInput)) as H1.
  pose proof (occurrences_le p _ (visible_NoDup selTextarea)) as H2.
  pose proof (occurrences_le p _ (visible_NoDup selSelect)) as H3.
  destruct (decide (p ∈ List.filter isVisible (positions selFormInput document)))
    as [(_ & node & Hn & Hs)%visible_spec | Hno].
  - destruct (selectors_exclusive node) as [Hex _].
    destruct (Hex Hs) as [Ht Hsel].
    rewrite (occurrences_absent p (List.filter isVisible (positions selTextarea document))).
    2:{ intros (_ & node' & Hn' & Hs')%visible_spec. congruence. }
    rewrite (occurrences_absent p (List.filter isVisible (positions selSelect document))).
    2:{ intros (_ & node' & Hn' & Hs')%visible_spec. congruence. }
    lia.
  - rewrite (occurrences_absent p _ Hno).
    destruct (decide (p ∈ List.filter isVisible (positions selTextarea document)))
      as [(_ & node & Hn & Hs)%visible_spec | Hno'].
    + destruct (selectors_exclusive node) as [_ Hex].
      rewrite (occurrences_absent p (List.filter isVisible (positions selSelect document))).
      2:{ intros (_ & node' & Hn' & Hs')%visible_spec.
          specialize (Hex Hs). congruence. }
      lia.
    + rewrite (occurrences_absent p _ Hno'). lia.
Qed.

End Enumeration.

Section Order.
Import Js Scanner.

Lemma precedes_irrefl p : ~ precedes p p.
Proof.
  induction p as [|i r IH]; simpl; [by intros ? |].
  intros [? | [_ ?]]; [lia | by apply IH].
Qed.

Lemma precedes_trans p : forall q r, precedes p q -> precedes q r -> precedes p r.
Proof.
  induction p as [|i p IH]; intros [|j q] [|k r]; simpl; try done.
  intros [? | [-> ?]] [? | [-> ?]]; [left; lia | by left | by left |].
  right. split; [done |]. by apply IH with q.
Qed.

Lemma precedes_below p q : q <> [] -> precedes p (p ++ q).
Proof.
  intros Hq. induction p as [|i p IH]; simpl; [by destruct q | by right].
Qed.

Lemma ordered_app (l1 l2 : list Position) :
  inDocumentOrder l1 -> inDocumentOrder l2 ->
  (forall x y, x ∈ l1 -> y ∈ l2 -> precedes x y) ->
  inDocumentOrder (l1 ++ l2).
Proof.
  intros H1 H2 Hall. induction l1 as [|x r IH]; [done |].
  destruct H1 as [Hx Hr]. simpl. split.
  - apply List.Forall_app. split; [done |].
    apply List.Forall_forall. intros y Hy%list_elem_of_In.
    apply Hall; [by left | done].
  - apply IH; [done |]. intros ? ? ? ?. apply Hall; [by right | done].
Qed.

Lemma ordered_map i (l : list Position) :
  inDocumentOrder l -> inDocumentOrder (map (cons i) l).
Proof.
  induction l as [|x r IH]; [done |]. intros [Hx Hr]. simpl. split; [| by apply IH].
  apply List.Forall_map. eapply List.Forall_impl; [| exact Hx].
  intros y Hy. simpl. by right.
Qed.

Lemma ordered_split (l1 l2 : list Position) p q :
  inDocumentOrder (l1 ++ p :: l2) -> precedes p q -> q ∉ l1.
Proof.
  induction l1 as [|x r IH]; simpl; [intros _ _ ?%elem_of_nil; done |].
  intros [Hx Hr] Hpq.
  intros [-> | Hin]%elem_of_cons; [| by apply (IH Hr Hpq)].
  rewrite List.Forall_forall in Hx.
  assert (precedes x p) as Hqp by (apply Hx, in_elt).
  apply (precedes_irrefl p). by apply precedes_trans with x.
Qed.

Lemma positionsFrom_ordered sel cs :
  Forall (fun c => inDocumentOrder (positions sel c)) cs ->
  forall i, inDocumentOrder (positionsFrom sel i cs).
Proof.
  induction 1 as [|c r Hc _ IH]; intros i; simpl; [done |].
  apply ordered_app; [by apply ordered_map | apply IH |].
  intros x y (rest & -> & _)%list_elem_of_fmap
         (j & _ & rest' & -> & _)%positionsFrom_spec.
  simpl. left. lia.
Qed.

Lemma positions_ordered sel n : inDocumentOrder (positions sel n).
Proof.
  induction n as [t a cs IH] using Node_tree_ind.
  rewrite positions_unfold. apply ordered_app.
  - by destruct (sel _).
  - by apply positionsFrom_ordered.
  - intros x y Hx (j & c & rest & -> & _)%positionsFrom_spec.
    destruct (sel _); [| by apply elem_of_nil in Hx].
    by apply list_elem_of_singleton in Hx as ->.
Qed.

End Order.

Section Members.
Import Js Scanner.

Lemma nodeAt_app root p : forall q node,
  nodeAt root p = Some node -> nodeAt root (p ++ q) = nodeAt node q.
Proof.
  revert root. induction p as [|i p IH]; intros root q node; simpl.
  - by intros [= ->].
  - destruct (nth_error (children root) i) as [c|]; [by apply IH | done].
Qed.

Lemma positionsBelow_spec sel n p :
  p ∈ positionsBelow sel n ->
  p <> [] /\ exists node, nodeAt n p = Some node /\ sel node = true.
Proof.
  intros Hin. split.
  - rewrite positionsBelow_children in Hin.
    by apply positionsFrom_spec in Hin as (? & ? & ? & -> & _).
  - apply positions_spec. unfold positions. apply elem_of_app. by right.
Qed.

Lemma includesPosition_spec fields p :
  includesPosition fields p = true <-> p ∈ fields.
Proof.
  unfold includesPosition. rewrite existsb_exists. split.
  - intros (f & Hin & Heq). apply bool_decide_eq_true in Heq as <-.
    by apply list_elem_of_In.
  - intros Hin. exists p. split; [by apply list_elem_of_In |].
    by apply bool_decide_eq_true.
Qed.

Variable isVisible : Position -> bool.
Variable document : Node.

Local Abbreviation controls :=
  (List.filter isVisible (positions selFormInput document)
   ++ List.filter isVisible (positions selTextarea document)
   ++ List.filter isVisible (positions selSelect document)).

Lemma visibleAs_spec sel p :
  visibleAs isVisible document sel p = true
  <-> isVisible p = true
      /\ exists node, nodeAt document p = Some node /\ sel node = true.
Proof.
  unfold visibleAs. rewrite andb_true_iff.
  destruct (nodeAt document p) as [node|].
  - split; [intros [? ?]; eauto | by intros [? (? & [= <-] & ?)]].
  - split; [by intros [_ ?] | by intros [_ (? & ? & _)]].
Qed.

Lemma controls_spec p :
  p ∈ controls <-> visibleAs isVisible document isControl p = true.
Proof.
  rewrite !elem_of_app, !visible_spec, visibleAs_spec. unfold isControl.
  split.
  - intros [[Hv (n & Hn & Hs)] | [[Hv (n & Hn & Hs)] | [Hv (n & Hn & Hs)]]];
      (split; [done |]); exists n; rewrite Hs, ?orb_true_r; done.
  - intros [Hv (n & Hn & Hs)].
    apply orb_true_iff in Hs as [Hs | Hs];
      [apply orb_true_iff in Hs as [Hs | Hs] |]; eauto 8.
Qed.

Lemma input_control n :
  tag n = "input" -> isControl n = selFormInput n.
Proof.
  intros Ht. unfold isControl, selTextarea, selSelect. rewrite Ht. simpl.
  by rewrite !orb_false_r.
Qed.

Lemma addDropdown_pushes fields p :
  p ∉ fields ->
  (p ∈ addDropdown isVisible document fields p
   <-> exists node,
         nodeAt document p = Some node /\ isVisible p = true
         /\ match positionsBelow selAnyInput node with
            | [] => True
            | input :: _ => p ++ input ∉ fields
            end).
Proof.
  intros Hno. unfold addDropdown.
  destruct (isVisible p); [| split; [done | by intros (? & _ & ? & _)]].
  destruct (nodeAt document p) as [node|];
    [| split; [done | by intros (? & ? & _)]].
  destruct (positionsBelow selAnyInput node) as [|input rest] eqn:Hb.
  - split; [intros _; exists node; by rewrite Hb |].
    intros _. apply elem_of_app. right. by apply list_elem_of_singleton.
  - destruct (includesPosition fields (p ++ input)) eqn:Hi.
    + apply includesPosition_spec in Hi. split; [done |].
      intros (node' & [= <-] & _ & H). by rewrite Hb in H.
    + split.
      * intros _. exists node. rewrite Hb. split; [done |]. split; [done |].
        intros Hin%includesPosition_spec. congruence.
      * intros _. apply elem_of_app. right. by apply list_elem_of_singleton.
Qed.

Lemma loop_at p l1 l2 fields :
  NoDup (l1 ++ p :: l2) -> p ∉ fields ->
  let before := fold_left (addDropdown isVisible document) l1 fields in
  (p ∈ fold_left (addDropdown isVisible document) (l1 ++ p :: l2) fields
   <-> p ∈ addDropdown isVisible document before p)
  /\ p ∉ before.
Proof.
  intros Hd Hno before.
  apply NoDup_app in Hd as (_ & Hsep & [Hp2 _]%NoDup_cons).
  assert (p ∉ l1) as Hp1.
  { intros Hin. apply (Hsep p Hin). by left. }
  assert (p ∉ before) as Hb.
  { intros [Hin | [Hin _]]%loop_elements; done. }
  split; [| done].
  rewrite fold_left_app. simpl. fold before.
  rewrite <- !occurrences_positive. by rewrite loop_keeps.
Qed.

End Members.

(** X29. The elements that [findAllFormFields] lists are the visible
    inputs (other than hidden, submit and button inputs), textareas and
    selects of the document, and the visible elements with
    [role="combobox"] or [aria-haspopup="listbox"] whose first input
    below, if there is one, is not among the listed inputs: it is
    invisible or of type hidden, submit or button. *)
Theorem findAllFormFields_members (isVisible : Scanner.Position -> bool)
    (document : Scanner.Node) (p : Scanner.Position) :
  In p (Scanner.findAllFormFields isVisible document) <->
  exists node,
    Scanner.nodeAt document p = Some node /\ isVisible p = true
    /\ (Scanner.isControl node = true
        \/ (Scanner.selCustomDropdown node = true
            /\ match Scanner.positionsBelow Scanner.selAnyInput node with
               | [] => True
               | input :: _ =>
                   Scanner.visibleAs isVisible document Scanner.selFormInput
                     (p ++ input) = false
               end)).
Proof.
  rewrite <- list_elem_of_In. unfold Scanner.findAllFormFields. cbv zeta.
  set (ds := Scanner.positions Scanner.selCustomDropdown document).
  destruct (decide (p ∈ List.filter isVisible (Scanner.positions Scanner.selFormInput document)
     ++ List.filter isVisible (Scanner.positions Scanner.selTextarea document)
     ++ List.filter isVisible (Scanner.positions Scanner.selSelect document)))
    as [Hc | Hc].
  - split; [intros _ | intros _; by apply loop_extends].
    apply controls_spec, visibleAs_spec in Hc as [Hv (node & Hn & Hs)].
    exists node. by repeat split; [.. | left].
  - assert (forall node, Scanner.nodeAt document p = Some node ->
              isVisible p = true -> Scanner.isControl node = false) as Hnot.
    { intros node Hn Hv. destruct (Scanner.isControl node) eqn:Hs; [| done].
      exfalso. apply Hc, controls_spec, visibleAs_spec. eauto. }
    assert (forall node input rest,
              Scanner.nodeAt document p = Some node ->
              Scanner.positionsBelow Scanner.selAnyInput node = input :: rest ->
              input <> []
              /\ (p ++ input ∈ List.filter isVisible (Scanner.positions Scanner.selFormInput document)
                    ++ List.filter isVisible (Scanner.positions Scanner.selTextarea document)
                    ++ List.filter isVisible (Scanner.positions Scanner.selSelect document)
                  <-> Scanner.visibleAs isVisible document Scanner.selFormInput
                        (p ++ input) = true)) as Hinput.
    { intros node input rest Hn Hb.
      assert (input ∈ Scanner.positionsBelow Scanner.selAnyInput node) as Hin
        by (rewrite Hb; by left).
      apply positionsBelow_spec in Hin as [Hne (inode & Hi & Ht)].
      split; [done |]. rewrite controls_spec, !visibleAs_spec.
      rewrite (nodeAt_app _ _ _ _ Hn), Hi.
      apply String.eqb_eq in Ht.
      split; intros [Hv (n & [= <-] & Hs)]; (split; [done |]); exists inode;
        (split; [done |]); by rewrite input_control in *. }
    destruct (decide (p ∈ ds)) as [Hd | Hd].
    + apply list_elem_of_split in Hd as (l1 & l2 & Hsplit).
      pose proof (positions_NoDup Scanner.selCustomDropdown document) as Hnd.
      pose proof (positions_ordered Scanner.selCustomDropdown document) as Hord.
      fold ds in Hnd, Hord. rewrite Hsplit in Hnd, Hord |- *.
      destruct (loop_at isVisible document p l1 l2 _ Hnd Hc) as [-> Hb].
      rewrite (addDropdown_pushes _ _ _ _ Hb).
      assert (exists node, Scanner.nodeAt document p = Some node
                /\ Scanner.selCustomDropdown node = true) as (node & Hn & Hs).
      { apply positions_spec. fold ds. rewrite Hsplit.
        apply elem_of_app. right. by left. }
      split.
      * intros (node' & Hn' & Hv & Hcond). exists node'.
        split; [done |]. split; [done |]. right.
        rewrite Hn in Hn'. injection Hn' as <-. split; [done |].
        destruct (Scanner.positionsBelow Scanner.selAnyInput node)
          as [|input rest] eqn:Hbelow; [done |].
        destruct (Hinput _ _ _ Hn Hbelow) as [_ Hiff].
        apply not_true_is_false. intros Htrue%Hiff.
        apply Hcond. by apply loop_extends.
      * intros (node' & Hn' & Hv & [Hs' | [_ Hcond]]).
        { by rewrite (Hnot _ Hn' Hv) in Hs'. }
        exists node'. split; [done |]. split; [done |].
        rewrite Hn in Hn'. injection Hn' as <-.
        destruct (Scanner.positionsBelow Scanner.selAnyInput node)
          as [|input rest] eqn:Hbelow; [done |].
        destruct (Hinput _ _ _ Hn Hbelow) as [Hne Hiff].
        intros [Hin | [Hin _]]%loop_elements.
        -- apply Hiff in Hin. congruence.
        -- revert Hin. apply (ordered_split l1 l2 p); [done |].
           by apply precedes_below.
    + split.
      * intros [Hin | [Hin _]]%loop_elements; done.
      * intros (node & Hn & Hv & [Hs | [Hs _]]).
        -- by rewrite (Hnot _ Hn Hv) in Hs.
        -- exfalso. apply Hd, positions_spec. eauto.
Qed.

Lemma findAllFormFields_members_witness :
  let document :=
    Scanner.Elem "html" []
      [Scanner.Elem "body" []
         [Scanner.Elem "div" [("role", "combobox")]
            [Scanner.Elem "input" [("type", "text")] []];
          Scanner.Elem "div" [("aria-haspopup", "listbox")]
            [Scanner.Elem "input" [("type", "Hidden")] []]]] in
  let fields := Scanner.findAllFormFields (fun _ => true) document in
  fields = [[0; 0; 0]; [0; 1]]
  /\ In [0; 1] fields
  /\ ~ In [0; 0] fields.
Proof.
  split; [reflexivity |]. split.
  - apply (proj2 (findAllFormFields_members (fun _ => true) _ [0; 1])).
    eexists. split; [reflexivity |]. split; [reflexivity |].
    right. split; reflexivity.
  - intros (node & Hn & _ & [Hc | [_ Hb]])%findAllFormFields_members.
    + injection Hn as <-. discriminate Hc.
    + injection Hn as <-. discriminate Hb.
Defined.

(** X30. No element is listed more than twice by [findAllFormFields],
    and a visible input, textarea or select that itself carries
    [role="combobox"] or [aria-haspopup="listbox"] and has no input
    below it is listed twice: once by its tag and once more as a custom
    dropdown, since the test against duplicates looks only at an input
    below the dropdown. *)
Theorem control_with_dropdown_signal_listed_twice
    (isVisible : Scanner.Position -> bool) (document : Scanner.Node)
    (p : Scanner.Position) (node : Scanner.Node) :
  Scanner.nodeAt document p = Some node ->
  isVisible p = true ->
  Scanner.isControl node = true ->
  Scanner.selCustomDropdown node = true ->
  Scanner.positionsBelow Scanner.selAnyInput node = [] ->
  let fields := Scanner.findAllFormFields isVisible document in
  Scanner.occurrences p fields = 2
  /\ forall q, Scanner.occurrences q fields <= 2.
Proof.
  intros Hn Hv Hc Hs Hb fields. subst fields.
  unfold Scanner.findAllFormFields. cbv zeta. split.
  - rewrite (loop_adds_no_input isVisible document p node); try done.
    + pose proof (static_fields_once isVisible document p) as Hle.
      assert (p ∈ List.filter isVisible (Scanner.positions Scanner.selFormInput document)
                ++ List.filter isVisible (Scanner.positions Scanner.selTextarea document)
                ++ List.filter isVisible (Scanner.positions Scanner.selSelect document))
        as Hin%occurrences_positive by (apply controls_spec, visibleAs_spec; eauto).
      lia.
    + apply positions_NoDup.
    + apply positions_spec. eauto.
  - intros q. etrans; [apply loop_adds_at_most_one, positions_NoDup |].
    pose proof (static_fields_once isVisible document q). lia.
Qed.

Lemma control_with_dropdown_signal_listed_twice_witness :
  let document :=
    Scanner.Elem "html" []
      [Scanner.Elem "body" []
         [Scanner.Elem "input" [("role", "combobox")] []]] in
  let fields := Scanner.findAllFormFields (fun _ => true) document in
  fields = [[0; 0]; [0; 0]]
  /\ Scanner.occurrences [0; 0] fields = 2
  /\ forall q, Scanner.occurrences q fields <= 2.
Proof.
  split; [reflexivity |].
  apply (control_with_dropdown_signal_listed_twice (fun _ => true) _ [0; 0]
           (Scanner.Elem "input" [("role", "combobox")] []));
    reflexivity.
Defined.
